(** * BaseSQL: request-execution and translation pipeline

    A shallow embedding of the parts of the adapter that the
    specification's testable properties talk about: the SQL injection
    validator and the CLI executor's dispatch, the retry policy, the
    circuit breaker, the token bucket, the single-request path of the
    HTTP client, the raw DELETE handler, the two WHERE translators, the
    SQL value parser and the numeric field conversion.

    Conventions used throughout.
    - A Go [int]/[int64] is a [Z]; where the code increments a counter the
      two's-complement wrap-around is written out with [GoInt.wrap].
    - A [time.Time] is a [Z] counting nanoseconds from the zero
      [time.Time{}]; a [time.Duration] is a [Z] of nanoseconds.  Every call
      of [time.Now()] in the source is an explicit [now] argument here.
    - A Go [string] is a [string] of bytes.
    - A [float64] is idealised: finite values are exact rationals ([Q]),
      so rounding to 53 bits is not represented.  A property that a
      rounding could change is stated for the inputs on which none
      occurs.
    - A response body read by the ORM bridge is the JSON value its bytes
      stand for; [json.Unmarshal] into the structs of models.go is written
      out member by member.
    - An [error] result is an [option error], [None] being [nil]. *)

From Stdlib Require Import ZArith List Bool String Ascii DecimalString QArith Qround Lia Lqa.
Import ListNotations.
Open Scope Z_scope.

(* ================================================================== *)
(** * Part I: the program *)
(* ================================================================== *)

(** ** Machine integers and time *)

Module GoInt.

Definition MaxInt : Z := 2 ^ 63 - 1.
Definition MinInt : Z := - 2 ^ 63.

(** Two's-complement reduction of an integer result to 64 bits. *)
Definition wrap (z : Z) : Z := (z + 2 ^ 63) mod 2 ^ 64 - 2 ^ 63.

Definition in_range (z : Z) : Prop := MinInt <= z <= MaxInt.

End GoInt.

Module GoTime.

Definition Time := Z.
Definition Duration := Z.

Definition Nanosecond : Duration := 1.
Definition Millisecond : Duration := 1000000.
Definition Second : Duration := 1000000000.

(** [time.Time{}] *)
Definition zeroTime : Time := 0.

(** [t.Sub(u)]; the saturation at +-292 years is not represented. *)
Definition Sub (t u : Time) : Duration := t - u.

End GoTime.

(** ** Finite [float64] arithmetic, idealised *)

Module GoFloat.
Import GoTime.

(** Comparisons [x >= y] and [x > y]. *)
Definition Qgeb (x y : Q) : bool := Qle_bool y x.
Definition Qgtb (x y : Q) : bool := negb (Qle_bool x y).

(** [float64(n)] for an integer (exact below 2^53). *)
Definition float64_of_int (n : Z) : Q := inject_Z n.

(** [int64(x)] and [time.Duration(x)] for a [float64]: the fraction is
    discarded (truncation toward zero).  A value outside [int64] has no
    defined conversion result in Go and is not represented. *)
Definition int64_of_float64 (x : Q) : Z := Z.quot (Qnum x) (Zpos (Qden x)).
Definition Duration_of_float64 (x : Q) : Duration := int64_of_float64 x.

End GoFloat.

(** ** Errors (internal/common/api_utils.go) *)

Module Errors.

(** [common.APIError] *)
Record APIError := NewAPIError {
  Code : Z;
  Type_ : string;
  Message : string;
  Details : string
}.

(** The dynamic type of an [error] value, as far as the code can tell
    them apart: a [*APIError], a [*ValidationError]
    (internal/common/utils.go), a context error, an error made by
    [fmt.Errorf]/[errors.New] without [%w], and one made by [fmt.Errorf]
    with [%w] around another error (its dynamic type is then
    [*fmt.wrapError], not the type of the wrapped one). *)
Inductive error :=
| EAPI (e : APIError)
| EValidation (field message : string)
| ECtx (msg : string)
| EPlain (msg : string)
| EWrap (msg : string) (inner : error).

End Errors.

(** ** Circuit breaker (internal/common, circuit breaker file) *)

Module Breaker.
Import GoTime Errors.

Inductive CircuitBreakerState := StateClosed | StateOpen | StateHalfOpen.

Definition state_eqb (a b : CircuitBreakerState) : bool :=
  match a, b with
  | StateClosed, StateClosed | StateOpen, StateOpen
  | StateHalfOpen, StateHalfOpen => true
  | _, _ => false
  end.

Record CircuitBreakerConfig := {
  MaxFailures : Z;
  Timeout : Duration;
  MaxRequests : Z;
  Interval : Duration
}.

Definition DefaultCircuitBreakerConfig : CircuitBreakerConfig :=
  {| MaxFailures := 5; Timeout := 60 * Second;
     MaxRequests := 3; Interval := 60 * Second |}.

(** [onStateChange] is kept as a flag (is a callback installed?) and
    the callbacks dispatched so far as the list [notified]: the callback
    runs on its own goroutine and cannot touch the breaker. *)
Record CircuitBreaker := {
  config : CircuitBreakerConfig;
  state : CircuitBreakerState;
  failures : Z;
  requests : Z;
  lastFailTime : Time;
  onStateChange : bool;
  notified : list (CircuitBreakerState * CircuitBreakerState)
}.

Definition NewCircuitBreaker (cfg : option CircuitBreakerConfig) : CircuitBreaker :=
  {| config := match cfg with Some c => c | None => DefaultCircuitBreakerConfig end;
     state := StateClosed; failures := 0; requests := 0;
     lastFailTime := zeroTime; onStateChange := false; notified := [] |}.

Definition SetStateChangeCallback (cb : CircuitBreaker) : CircuitBreaker :=
  {| config := config cb; state := state cb; failures := failures cb;
     requests := requests cb; lastFailTime := lastFailTime cb;
     onStateChange := true; notified := notified cb |}.

Definition setState (newState : CircuitBreakerState) (cb : CircuitBreaker) : CircuitBreaker :=
  let oldState := state cb in
  {| config := config cb; state := newState; failures := failures cb;
     requests := requests cb; lastFailTime := lastFailTime cb;
     onStateChange := onStateChange cb;
     notified := if onStateChange cb && negb (state_eqb oldState newState)
                 then notified cb ++ [(oldState, newState)] else notified cb |}.

Definition set_failures (n : Z) (cb : CircuitBreaker) : CircuitBreaker :=
  {| config := config cb; state := state cb; failures := n;
     requests := requests cb; lastFailTime := lastFailTime cb;
     onStateChange := onStateChange cb; notified := notified cb |}.

Definition set_requests (n : Z) (cb : CircuitBreaker) : CircuitBreaker :=
  {| config := config cb; state := state cb; failures := failures cb;
     requests := n; lastFailTime := lastFailTime cb;
     onStateChange := onStateChange cb; notified := notified cb |}.

Definition set_lastFailTime (t : Time) (cb : CircuitBreaker) : CircuitBreaker :=
  {| config := config cb; state := state cb; failures := failures cb;
     requests := requests cb; lastFailTime := t;
     onStateChange := onStateChange cb; notified := notified cb |}.

(** [allowRequest], with [now] the value of [time.Now()]. *)
Definition allowRequest (now : Time) (cb : CircuitBreaker) : bool * CircuitBreaker :=
  match state cb with
  | StateClosed => (true, cb)
  | StateOpen =>
      if Sub now (lastFailTime cb) >? Timeout (config cb)
      then (true, set_requests 0 (setState StateHalfOpen cb))
      else (false, cb)
  | StateHalfOpen => (requests cb <? MaxRequests (config cb), cb)
  end.

(** [recordResult], with [now] the value of [time.Now()]. *)
Definition recordResult (now : Time) (err : option error) (cb : CircuitBreaker) : CircuitBreaker :=
  match state cb with
  | StateClosed =>
      match err with
      | Some _ =>
          let cb1 := set_lastFailTime now (set_failures (GoInt.wrap (failures cb + 1)) cb) in
          if failures cb1 >=? MaxFailures (config cb1)
          then setState StateOpen cb1 else cb1
      | None => set_failures 0 cb
      end
  | StateHalfOpen =>
      let cb1 := set_requests (GoInt.wrap (requests cb + 1)) cb in
      match err with
      | Some _ => set_lastFailTime now (setState StateOpen cb1)
      | None =>
          if requests cb1 >=? MaxRequests (config cb1)
          then set_requests 0 (set_failures 0 (setState StateClosed cb1))
          else cb1
      end
  | StateOpen => cb
  end.

(** [fmt.Errorf] of the refusal message. *)
Definition circuitOpenError : error := EPlain "熔断器开启，拒绝请求".

(** [Execute]: [operation] acts on a world [W] (whatever the closure
    touches) and is run only when the request is admitted.  [t_allow] and
    [t_record] are the two readings of the clock. *)
Definition Execute {W : Type} (t_allow t_record : Time)
    (operation : W -> option error * W) (cb : CircuitBreaker) (w : W)
  : option error * CircuitBreaker * W :=
  let (ok, cb1) := allowRequest t_allow cb in
  if ok then
    let (err, w1) := operation w in
    (err, recordResult t_record err cb1, w1)
  else (Some circuitOpenError, cb1, w).

Definition GetState (cb : CircuitBreaker) : CircuitBreakerState := state cb.

Definition Reset (cb : CircuitBreaker) : CircuitBreaker :=
  set_lastFailTime zeroTime (set_requests 0 (set_failures 0 (setState StateClosed cb))).

(** An atomic step of the breaker: every method body runs under the
    mutex, so a concurrent history is an interleaving of these. *)
Inductive step : Type :=
| StAllow (now : Time)
| StRecord (now : Time) (err : option error)
| StReset
| StSetCallback.

Definition do_step (s : step) (cb : CircuitBreaker) : CircuitBreaker :=
  match s with
  | StAllow now => snd (allowRequest now cb)
  | StRecord now err => recordResult now err cb
  | StReset => Reset cb
  | StSetCallback => SetStateChangeCallback cb
  end.

Definition run (ss : list step) (cb : CircuitBreaker) : CircuitBreaker :=
  fold_left (fun c s => do_step s c) ss cb.

(** One sequential [Execute] whose operation fails or succeeds. *)
Definition exec (t_allow t_record : Time) (err : option error) (cb : CircuitBreaker)
  : option error * CircuitBreaker :=
  let '(e, cb', _) := Execute t_allow t_record (fun w : unit => (err, w)) cb tt in (e, cb').

(** [execs] runs sequential executions, each given by its two clock
    readings and the operation's result. *)
Fixpoint execs (l : list (Time * Time * option error)) (cb : CircuitBreaker) : CircuitBreaker :=
  match l with
  | [] => cb
  | (ta, tr, err) :: l' => execs l' (snd (exec ta tr err cb))
  end.

(** Executions that all fail with [e], and executions that all succeed. *)
Definition failing (e : error) (l : list (Time * Time)) : list (Time * Time * option error) :=
  map (fun p => (fst p, snd p, Some e)) l.

Definition succeeding (l : list (Time * Time)) : list (Time * Time * option error) :=
  map (fun p => (fst p, snd p, @None error)) l.

End Breaker.

(** ** Token bucket (internal/common, rate limiter file) *)

Module RateLimiter.
Import GoTime GoFloat Errors.

(** [d.Seconds()] *)
Definition Seconds (d : Duration) : Q := Qmake d 1000000000.

Record RateLimiterConfig := {
  Rate : Q;
  Burst : Z;
  Window : Duration
}.

Definition DefaultRateLimiterConfig : RateLimiterConfig :=
  {| Rate := 10; Burst := 20; Window := Second |}.

Record RateLimiterStats := {
  TotalRequests : Z;
  AllowedRequests : Z;
  RejectedRequests : Z;
  LastRequestTime : Time
}.

Record TokenBucket := {
  config : RateLimiterConfig;
  tokens : Q;
  lastRefill : Time;
  stats : RateLimiterStats
}.

Definition NewTokenBucket (cfg : option RateLimiterConfig) (now : Time) : TokenBucket :=
  let c := match cfg with Some c => c | None => DefaultRateLimiterConfig end in
  {| config := c; tokens := float64_of_int (Burst c); lastRefill := now;
     stats := {| TotalRequests := 0; AllowedRequests := 0;
                 RejectedRequests := 0; LastRequestTime := zeroTime |} |}.

Definition set_tokens (q : Q) (tb : TokenBucket) : TokenBucket :=
  {| config := config tb; tokens := q; lastRefill := lastRefill tb; stats := stats tb |}.

Definition set_stats (s : RateLimiterStats) (tb : TokenBucket) : TokenBucket :=
  {| config := config tb; tokens := tokens tb; lastRefill := lastRefill tb; stats := s |}.

(** [refill] *)
Definition refill (now : Time) (tb : TokenBucket) : TokenBucket :=
  let elapsed := Sub now (lastRefill tb) in
  if elapsed <=? 0 then tb
  else
    let tokensToAdd := (Rate (config tb) * Seconds elapsed)%Q in
    let t := (tokens tb + tokensToAdd)%Q in
    let t := if Qgtb t (float64_of_int (Burst (config tb)))
             then float64_of_int (Burst (config tb)) else t in
    {| config := config tb; tokens := t; lastRefill := now; stats := stats tb |}.

(** [updateStats]; its own [time.Now()] is the caller's reading. *)
Definition updateStats (isRequest : bool) (now : Time) (tb : TokenBucket) : TokenBucket :=
  let s := stats tb in
  set_stats
    (if isRequest
     then {| TotalRequests := GoInt.wrap (TotalRequests s + 1);
             AllowedRequests := AllowedRequests s;
             RejectedRequests := RejectedRequests s;
             LastRequestTime := now |}
     else {| TotalRequests := TotalRequests s;
             AllowedRequests := GoInt.wrap (AllowedRequests s + 1);
             RejectedRequests := RejectedRequests s;
             LastRequestTime := LastRequestTime s |}) tb.

Definition updateRejectedStats (tb : TokenBucket) : TokenBucket :=
  let s := stats tb in
  set_stats {| TotalRequests := TotalRequests s;
               AllowedRequests := AllowedRequests s;
               RejectedRequests := GoInt.wrap (RejectedRequests s + 1);
               LastRequestTime := LastRequestTime s |} tb.

(** [Allow] *)
Definition Allow (now : Time) (tb : TokenBucket) : bool * TokenBucket :=
  let tb := updateStats true now tb in
  let tb := refill now tb in
  if Qgeb (tokens tb) 1
  then (true, updateStats false now (set_tokens (tokens tb - 1)%Q tb))
  else (false, updateRejectedStats tb).

(** [AllowN] *)
Definition AllowN (n : Z) (now : Time) (tb : TokenBucket) : bool * TokenBucket :=
  if n <=? 0 then (true, tb)
  else
    let tb := updateStats true now tb in
    let tb := refill now tb in
    if Qgeb (tokens tb) (float64_of_int n)
    then (true, updateStats false now (set_tokens (tokens tb - float64_of_int n)%Q tb))
    else (false, updateRejectedStats tb).

(** [calculateWaitTime]: [time.Duration(needed/rate) * time.Second]. *)
Definition calculateWaitTime (n : Z) (tb : TokenBucket) : Duration :=
  let needed := (float64_of_int n - tokens tb)%Q in
  if Qle_bool needed 0 then 0
  else GoInt.wrap (Duration_of_float64 (needed / Rate (config tb))%Q * Second).

(** The delay as section 4.1 of the specification words it: the deficit
    [n - tokens] divided by the rate, in seconds, as a [Duration]. *)
Definition spec_wait_delay (n : Z) (tb : TokenBucket) : Duration :=
  Duration_of_float64
    ((float64_of_int n - tokens tb) / Rate (config tb) * inject_Z Second)%Q.

Definition waitTimeoutError : error := EPlain "等待超时".
Definition ctxError : error := ECtx "context canceled".

(** The outcome of [WaitN]: the error returned, the timer it armed (if
    it got that far) and the bucket afterwards. *)
Record WaitOutcome := {
  wait_err : option error;
  wait_timer : option Duration;
  wait_bucket : TokenBucket
}.

(** [WaitN].  [t1] and [t2] are the clock readings of the two [AllowN]
    calls; [cancelled] says that [ctx.Done()] won the [select]. *)
Definition WaitN (n : Z) (t1 : Time) (cancelled : bool) (t2 : Time) (tb : TokenBucket)
  : WaitOutcome :=
  if n <=? 0 then {| wait_err := None; wait_timer := None; wait_bucket := tb |}
  else
    let (ok, tb1) := AllowN n t1 tb in
    if ok then {| wait_err := None; wait_timer := None; wait_bucket := tb1 |}
    else
      let waitTime := calculateWaitTime n tb1 in
      if waitTime <=? 0
      then {| wait_err := None; wait_timer := None; wait_bucket := tb1 |}
      else if cancelled
      then {| wait_err := Some ctxError; wait_timer := Some waitTime; wait_bucket := tb1 |}
      else
        let (ok2, tb2) := AllowN n t2 tb1 in
        {| wait_err := if ok2 then None else Some waitTimeoutError;
           wait_timer := Some waitTime; wait_bucket := tb2 |}.

Definition Wait (t1 : Time) (cancelled : bool) (t2 : Time) (tb : TokenBucket) : WaitOutcome :=
  WaitN 1 t1 cancelled t2 tb.

(** [GetTokens] *)
Definition GetTokens (now : Time) (tb : TokenBucket) : Q * TokenBucket :=
  let tb := refill now tb in (tokens tb, tb).

(** [Reset] *)
Definition Reset (now : Time) (tb : TokenBucket) : TokenBucket :=
  {| config := config tb; tokens := float64_of_int (Burst (config tb));
     lastRefill := now;
     stats := {| TotalRequests := 0; AllowedRequests := 0;
                 RejectedRequests := 0; LastRequestTime := zeroTime |} |}.

(** [UpdateConfig] *)
Definition UpdateConfig (cfg : option RateLimiterConfig) (tb : TokenBucket) : TokenBucket :=
  match cfg with
  | None => tb
  | Some c =>
      {| config := c;
         tokens := if Qgtb (tokens tb) (float64_of_int (Burst c))
                   then float64_of_int (Burst c) else tokens tb;
         lastRefill := lastRefill tb; stats := stats tb |}
  end.

(** The operations of a bucket; each runs under the mutex. *)
Inductive op : Type :=
| OpAllow (now : Time)
| OpAllowN (n : Z) (now : Time)
| OpWait (t1 : Time) (cancelled : bool) (t2 : Time)
| OpWaitN (n : Z) (t1 : Time) (cancelled : bool) (t2 : Time)
| OpRefill (now : Time)
| OpGetTokens (now : Time)
| OpReset (now : Time)
| OpUpdateConfig (cfg : option RateLimiterConfig).

Definition apply_op (o : op) (tb : TokenBucket) : TokenBucket :=
  match o with
  | OpAllow now => snd (Allow now tb)
  | OpAllowN n now => snd (AllowN n now tb)
  | OpWait t1 c t2 => wait_bucket (Wait t1 c t2 tb)
  | OpWaitN n t1 c t2 => wait_bucket (WaitN n t1 c t2 tb)
  | OpRefill now => refill now tb
  | OpGetTokens now => snd (GetTokens now tb)
  | OpReset now => Reset now tb
  | OpUpdateConfig cfg => UpdateConfig cfg tb
  end.

Definition run (ops : list op) (tb : TokenBucket) : TokenBucket :=
  fold_left (fun b o => apply_op o b) ops tb.

(** A configuration a rate limiter can be meant to have: a rate and a
    burst that are not negative. *)
Definition valid_config (c : RateLimiterConfig) : Prop :=
  (0 <= Rate c)%Q /\ 0 <= Burst c.


(** [0 <= tokens <= burst], the burst being the active configuration's. *)
Definition bounded (tb : TokenBucket) : Prop :=
  (0 <= tokens tb)%Q /\ (tokens tb <= float64_of_int (Burst (config tb)))%Q.

End RateLimiter.

(** ** Retry policy (internal/common/api_utils.go) *)

Module Retry.
Import GoTime GoFloat Errors.

(** [%d] of [fmt.Sprintf] *)
Definition Sprint_d (z : Z) : string := NilEmpty.string_of_int (Z.to_int z).

Record RetryConfig := {
  MaxRetries : Z;
  InitialDelay : Duration;
  MaxDelay : Duration;
  Multiplier : Q
}.

Definition DefaultRetryConfig : RetryConfig :=
  {| MaxRetries := 3; InitialDelay := Second; MaxDelay := 30 * Second; Multiplier := 2 |}.

(** The body of the loop of [CalculateBackoffDelay], [i] iterations left. *)
Fixpoint backoff_loop (rc : RetryConfig) (i : nat) (delay : Duration) : Duration :=
  match i with
  | O => delay
  | S i' =>
      let delay := Duration_of_float64 (float64_of_int delay * Multiplier rc)%Q in
      if delay >? MaxDelay rc then MaxDelay rc else backoff_loop rc i' delay
  end.

(** [CalculateBackoffDelay] *)
Definition CalculateBackoffDelay (rc : RetryConfig) (attempt : Z) : Duration :=
  if attempt <=? 0 then InitialDelay rc
  else backoff_loop rc (Z.to_nat attempt) (InitialDelay rc).

(** [IsRetryableError]: the type assertion of [err] to a pointer to
    [APIError] looks at the dynamic type of [err] itself and does not
    unwrap. *)
Definition IsRetryableError (err : option error) : bool :=
  match err with
  | None => false
  | Some (EAPI apiErr) =>
      if String.eqb (Type_ apiErr) "auth" then false
      else if (Code apiErr >=? 400) && (Code apiErr <? 500) && negb (Code apiErr =? 429)
      then false
      else (Code apiErr >=? 500) || (Code apiErr =? 429)
  | Some _ => true
  end.

(** [ShouldRetry] *)
Definition ShouldRetry (err : option error) (attempt : Z) (config : RetryConfig) : bool :=
  if attempt >=? MaxRetries config then false
  else IsRetryableError err.

End Retry.

(** ** HTTP client: single request and retry loop (client file) *)

Module Client.
Import GoTime GoFloat Errors.

Record APIRequest := {
  Method : string;
  Path : string
}.

Record APIResponse := {
  StatusCode : Z;
  Body : string
}.

(** What the closure passed to the circuit breaker does when it is run;
    this is decided by the token endpoint, the request and the network.
    [Responded] carries the status, the body, what [json.Unmarshal] makes
    of the body as [{code, msg}] ([None] when it is not such JSON) and the
    error of [io.ReadAll], if any. *)
Inductive OpOutcome :=
| TokenFailed (tokenErr : error)
| MarshalFailed (marshalErr : error)
| NewRequestFailed (reqErr : error)
| SendFailed (doErr : error)
| Responded (status : Z) (body : string) (decoded : option (Z * string))
            (readErr : option error).

(** One pass through [doSingleRequest] as the environment shapes it: the
    three clock readings, the closure's behaviour, and whether the
    context is done during the back-off that precedes the attempt. *)
Record Attempt := {
  now_allow : Time;
  now_admit : Time;
  outcome : OpOutcome;
  now_record : Time;
  cancelled : bool
}.

(** What an observer of the client sees happen. *)
Inductive Event :=
| EvBackoff (delay : Duration)
| EvOperation (o : OpOutcome).

Definition Trace := list Event.

(** The variables [resp] and [err] the closure assigns, with the trace. *)
Record OpWorld := {
  trace : Trace;
  resp : option (Z * string * option (Z * string) * option error)
}.

Record Client := {
  retryConfig : Retry.RetryConfig;
  circuitBreaker : Breaker.CircuitBreaker;
  rateLimiter : RateLimiter.TokenBucket
}.

(** The closure of [doSingleRequest]; a failed send comes back from
    [ConnectionPool.ExecuteRequest] wrapped. *)
Definition operation (o : OpOutcome) (w : OpWorld) : option error * OpWorld :=
  let tr := trace w ++ [EvOperation o] in
  match o with
  | TokenFailed e =>
      (Some (EWrap "获取访问令牌失败" e), {| trace := tr; resp := resp w |})
  | MarshalFailed e =>
      (Some (EWrap "序列化请求体失败" e), {| trace := tr; resp := resp w |})
  | NewRequestFailed e =>
      (Some (EWrap "创建 HTTP 请求失败" e), {| trace := tr; resp := resp w |})
  | SendFailed e =>
      (Some (EWrap "HTTP 请求失败" e), {| trace := tr; resp := None |})
  | Responded status body decoded readErr =>
      (None, {| trace := tr; resp := Some (status, body, decoded, readErr) |})
  end.

Definition rateLimitError : error :=
  EAPI (NewAPIError 429 "rate_limit" "请求频率过高，请稍后重试" "").

(** [doSingleRequest] *)
Definition doSingleRequest (a : Attempt) (c : Client) (tr : Trace)
  : (APIResponse + error) * Client * Trace :=
  let (ok, rl) := RateLimiter.Allow (now_allow a) (rateLimiter c) in
  if negb ok then
    (inr rateLimitError,
     {| retryConfig := retryConfig c; circuitBreaker := circuitBreaker c; rateLimiter := rl |},
     tr)
  else
    let '(err, cb, w) :=
      Breaker.Execute (now_admit a) (now_record a) (operation (outcome a))
        (circuitBreaker c) {| trace := tr; resp := None |} in
    let c' := {| retryConfig := retryConfig c; circuitBreaker := cb; rateLimiter := rl |} in
    match err with
    | Some e => (inr e, c', trace w)
    | None =>
        match resp w with
        | None => (inr (EPlain "nil response"), c', trace w)
        | Some (status, body, decoded, readErr) =>
            match readErr with
            | Some e => (inr (EWrap "读取响应体失败" e), c', trace w)
            | None =>
                if (status <? 200) || (status >=? 300) then
                  match decoded with
                  | Some (code, msg) =>
                      if negb (code =? 0)
                      then (inr (EAPI (NewAPIError code "api"
                                   ("API 错误 " ++ Retry.Sprint_d code ++ ": " ++ msg) "")),
                            c', trace w)
                      else (inr (EPlain ("API 请求失败: status=" ++ Retry.Sprint_d status)),
                            c', trace w)
                  | None =>
                      (inr (EPlain ("API 请求失败: status=" ++ Retry.Sprint_d status)),
                       c', trace w)
                  end
                else (inl {| StatusCode := status; Body := body |}, c', trace w)
            end
        end
    end.

(** What [doRequestWithRetry] returns after the loop. *)
Definition retriesExhausted (rc : Retry.RetryConfig) (lastErr : option error) : error :=
  let msg := ("请求失败，已重试 " ++ Retry.Sprint_d (Retry.MaxRetries rc) ++ " 次")%string in
  match lastErr with
  | Some e => EWrap msg e
  | None => EPlain msg
  end.

(** The loop of [doRequestWithRetry] from iteration [attempt] on, [fuel]
    iterations being left before [attempt] passes [MaxRetries]. *)
Fixpoint retry_loop (fuel : nat) (attempt : Z) (lastErr : option error)
    (env : Z -> Attempt) (c : Client) (tr : Trace)
  : (APIResponse + error) * Client * Trace :=
  match fuel with
  | O => (inr (retriesExhausted (retryConfig c) lastErr), c, tr)
  | S fuel' =>
      let delay := Retry.CalculateBackoffDelay (retryConfig c) attempt in
      let tr := if attempt >? 0 then tr ++ [EvBackoff delay] else tr in
      if (attempt >? 0) && cancelled (env attempt)
      then (inr RateLimiter.ctxError, c, tr)
      else
        let '(r, c', tr') := doSingleRequest (env attempt) c tr in
        match r with
        | inl rsp => (inl rsp, c', tr')
        | inr e =>
            if Retry.ShouldRetry (Some e) attempt (retryConfig c)
            then retry_loop fuel' (attempt + 1) (Some e) env c' tr'
            else (inr (retriesExhausted (retryConfig c) (Some e)), c', tr')
        end
  end.

(** [doRequestWithRetry] *)
Definition doRequestWithRetry (env : Z -> Attempt) (c : Client) (tr : Trace)
  : (APIResponse + error) * Client * Trace :=
  retry_loop (Z.to_nat (Retry.MaxRetries (retryConfig c) + 1)) 0 None env c tr.

(** [DoRequest] *)
Definition DoRequest (env : Z -> Attempt) (req : option APIRequest) (c : Client) (tr : Trace)
  : (APIResponse + error) * Client * Trace :=
  match req with
  | None => (inr (EPlain "请求不能为空"), c, tr)
  | Some r =>
      if String.eqb (Method r) "" then (inr (EPlain "请求方法不能为空"), c, tr)
      else if String.eqb (Path r) "" then (inr (EPlain "请求路径不能为空"), c, tr)
      else doRequestWithRetry env c tr
  end.

(** How many times the rate limiter was asked: one per [doSingleRequest]. *)
Definition attempts_made (c : Client) : Z :=
  RateLimiter.TotalRequests (RateLimiter.stats (rateLimiter c)).

End Client.

(** ** Strings (the functions of Go's [strings] the code calls)

    Strings are byte strings.  Case mapping and white space are those of
    ASCII: [ToUpper], [ToLower] and [EqualFold] leave bytes above 127
    alone, and [TrimSpace] does not know the Unicode spaces U+0085 and
    U+00A0 (and beyond). *)

Module GoStrings.

Definition byte_in (lo hi : nat) (c : ascii) : bool :=
  (lo <=? nat_of_ascii c)%nat && (nat_of_ascii c <=? hi)%nat.

Definition is_upper (c : ascii) : bool := byte_in 65 90 c.
Definition is_lower (c : ascii) : bool := byte_in 97 122 c.
Definition is_digit (c : ascii) : bool := byte_in 48 57 c.
Definition is_letter (c : ascii) : bool := is_upper c || is_lower c.

Definition to_upper (c : ascii) : ascii :=
  if is_lower c then ascii_of_nat (nat_of_ascii c - 32) else c.
Definition to_lower (c : ascii) : ascii :=
  if is_upper c then ascii_of_nat (nat_of_ascii c + 32) else c.

(** [unicode.IsSpace] on ASCII: tab, line feed, vertical tab, form feed,
    carriage return, space. *)
Definition is_space (c : ascii) : bool :=
  byte_in 9 13 c || (nat_of_ascii c =? 32)%nat.

Fixpoint map_bytes (f : ascii -> ascii) (s : string) : string :=
  match s with
  | EmptyString => EmptyString
  | String c s' => String (f c) (map_bytes f s')
  end.

Definition ToUpper (s : string) : string := map_bytes to_upper s.
Definition ToLower (s : string) : string := map_bytes to_lower s.

(** [strings.EqualFold] on texts of ASCII bytes, where Go's folding is
    that of the letters A to Z.  (On other texts Go also folds the letters
    beyond ASCII, which this does not.) *)
Definition EqualFold (s t : string) : bool := String.eqb (ToLower s) (ToLower t).

(** Every byte is below 128. *)
Fixpoint is_ascii (s : string) : bool :=
  match s with
  | EmptyString => true
  | String c s' => (nat_of_ascii c <? 128)%nat && is_ascii s'
  end.

Fixpoint trim_left (p : ascii -> bool) (s : string) : string :=
  match s with
  | EmptyString => EmptyString
  | String c s' => if p c then trim_left p s' else s
  end.

(** What is left of [s] without its longest suffix of bytes in [p]. *)
Fixpoint trim_right (p : ascii -> bool) (s : string) : string :=
  match s with
  | EmptyString => EmptyString
  | String c s' =>
      let t := trim_right p s' in
      if p c && String.eqb t EmptyString then EmptyString else String c t
  end.

Definition TrimSpace (s : string) : string := trim_right is_space (trim_left is_space s).

Fixpoint mem_byte (c : ascii) (cutset : string) : bool :=
  match cutset with
  | EmptyString => false
  | String d cutset' => Ascii.eqb c d || mem_byte c cutset'
  end.

(** [strings.Trim(s, cutset)] *)
Definition Trim (s cutset : string) : string :=
  trim_right (fun c => mem_byte c cutset) (trim_left (fun c => mem_byte c cutset) s).

Definition HasPrefix (s p : string) : bool := String.prefix p s.

Definition HasSuffix (s suf : string) : bool :=
  let n := String.length s in
  let m := String.length suf in
  (m <=? n)%nat && String.eqb (String.substring (n - m) m s) suf.

Definition TrimSuffix (s suf : string) : string :=
  if HasSuffix s suf
  then String.substring 0 (String.length s - String.length suf) s else s.

(** [strings.Index], [None] for -1. *)
Definition Index (s sep : string) : option nat := String.index 0 sep s.

Definition Contains (s sub : string) : bool :=
  match Index s sub with Some _ => true | None => false end.

Definition drop (n : nat) (s : string) : string :=
  String.substring n (String.length s - n) s.

(** [strings.Split(s, sep)] for a separator that is not empty;
    [fuel] bounds the number of cuts. *)
Fixpoint split_fuel (fuel : nat) (s sep : string) : list string :=
  match fuel with
  | O => [s]
  | S fuel' =>
      match Index s sep with
      | None => [s]
      | Some i =>
          String.substring 0 i s :: split_fuel fuel' (drop (i + String.length sep) s) sep
      end
  end.

Definition Split (s sep : string) : list string := split_fuel (String.length s) s sep.

(** [strings.SplitN(s, sep, n)] for [n > 0]: at most [n] pieces. *)
Definition SplitN (s sep : string) (n : nat) : list string :=
  split_fuel (Nat.min (n - 1) (String.length s)) s sep.

Fixpoint Join (l : list string) (sep : string) : string :=
  match l with
  | [] => EmptyString
  | [x] => x
  | x :: l' => (x ++ sep ++ Join l' sep)%string
  end.

(** [strings.ReplaceAll(s, old, new)] for an [old] that is not empty. *)
Definition ReplaceAll (s old new : string) : string := Join (Split s old) new.

(** The double quote, which a string literal here cannot hold. *)
Definition dquote : ascii := ascii_of_nat 34.
Definition squote : ascii := ascii_of_nat 39.

End GoStrings.

(** ** Regular expressions (the part of Go's [regexp] the code uses)

    Matching is byte-wise and follows the leftmost-first rule of
    [regexp]: alternatives are tried left to right, a greedy repetition
    takes as much as it can first, a lazy one as little.  Case folding
    under [(?i)] is that of ASCII. *)

Module Regexp.
Import GoStrings.

Inductive regex :=
| Cls (p : ascii -> bool)
| Eps
| Cat (r1 r2 : regex)
| Alt (r1 r2 : regex)
| Star (r : regex)
| StarLazy (r : regex)
| Group (n : nat) (r : regex)
| EndText.

Definition Caps := list (nat * string).

Definition orelse {A} (x y : option A) : option A :=
  match x with Some _ => x | None => y end.

(** [run fuel r s caps k]: match [r] at the front of [s], then hand the
    rest of the text and the groups to [k].  Each further round of a
    repetition must have consumed a byte, so [fuel] greater than the
    length of the text is never used up. *)
Fixpoint run (fuel : nat) : regex -> string -> Caps -> (string -> Caps -> option Caps) -> option Caps :=
  fix go (r : regex) (s : string) (caps : Caps) (k : string -> Caps -> option Caps)
    {struct r} : option Caps :=
    match r with
    | Cls p =>
        match s with
        | String c s' => if p c then k s' caps else None
        | EmptyString => None
        end
    | Eps => k s caps
    | Cat r1 r2 => go r1 s caps (fun s' caps' => go r2 s' caps' k)
    | Alt r1 r2 => orelse (go r1 s caps k) (go r2 s caps k)
    | Star r1 =>
        match fuel with
        | O => k s caps
        | S fuel' =>
            orelse
              (go r1 s caps (fun s' caps' =>
                 if (String.length s' <? String.length s)%nat
                 then run fuel' (Star r1) s' caps' k else None))
              (k s caps)
        end
    | StarLazy r1 =>
        match fuel with
        | O => k s caps
        | S fuel' =>
            orelse
              (k s caps)
              (go r1 s caps (fun s' caps' =>
                 if (String.length s' <? String.length s)%nat
                 then run fuel' (StarLazy r1) s' caps' k else None))
        end
    | Group n r1 =>
        go r1 s caps (fun s' caps' =>
          k s' ((n, String.substring 0 (String.length s - String.length s') s) :: caps'))
    | EndText =>
        match s with
        | EmptyString => k s caps
        | String _ _ => None
        end
    end.

Definition match_at (r : regex) (s : string) : option Caps :=
  run (S (String.length s)) (Group 0 r) s [] (fun _ caps => Some caps).

(** The leftmost match: the first start position at which [r] matches. *)
Fixpoint search (r : regex) (s : string) : option Caps :=
  match match_at r s with
  | Some caps => Some caps
  | None =>
      match s with
      | EmptyString => None
      | String _ s' => search r s'
      end
  end.

(** [re.MatchString(s)] *)
Definition MatchString (r : regex) (s : string) : bool :=
  match search r s with Some _ => true | None => false end.

Fixpoint lookup (n : nat) (caps : Caps) : string :=
  match caps with
  | [] => EmptyString
  | (m, v) :: caps' => if (n =? m)%nat then v else lookup n caps'
  end.

(** [re.FindStringSubmatch(s)] for a pattern with [groups] capturing
    groups: [None] for a nil slice, else the match and the groups' texts
    (the empty string for a group that took no part). *)
Definition FindStringSubmatch (groups : nat) (r : regex) (s : string) : option (list string) :=
  match search r s with
  | None => None
  | Some caps => Some (map (fun n => lookup n caps) (seq 0 (S groups)))
  end.

(** [len(matches)], 0 for nil. *)
Definition len_matches (m : option (list string)) : nat :=
  match m with None => 0 | Some l => List.length l end.

(** [matches[i]] *)
Definition at_ (m : option (list string)) (i : nat) : string :=
  match m with None => EmptyString | Some l => nth i l EmptyString end.

(** *** Pattern syntax *)

Definition chr (c : ascii) : regex := Cls (Ascii.eqb c).
(** a literal byte under [(?i)] *)
Definition chri (c : ascii) : regex := Cls (fun d => Ascii.eqb (to_lower d) (to_lower c)).

Fixpoint lit (s : string) : regex :=
  match s with
  | EmptyString => Eps
  | String c EmptyString => chr c
  | String c s' => Cat (chr c) (lit s')
  end.

Fixpoint liti (s : string) : regex :=
  match s with
  | EmptyString => Eps
  | String c EmptyString => chri c
  | String c s' => Cat (chri c) (liti s')
  end.

Definition Plus (r : regex) : regex := Cat r (Star r).
Definition Opt (r : regex) : regex := Alt r Eps.

Fixpoint alts (l : list regex) : regex :=
  match l with
  | [] => Cls (fun _ => false)
  | [r] => r
  | r :: l' => Alt r (alts l')
  end.

Fixpoint cats (l : list regex) : regex :=
  match l with
  | [] => Eps
  | [r] => r
  | r :: l' => Cat r (cats l')
  end.

(** [\s]: tab, line feed, form feed, carriage return, space. *)
Definition re_space (c : ascii) : bool :=
  let n := nat_of_ascii c in
  (n =? 9)%nat || (n =? 10)%nat || (n =? 12)%nat || (n =? 13)%nat || (n =? 32)%nat.
(** [\w] and [\d] *)
Definition re_word (c : ascii) : bool := is_letter c || is_digit c || (nat_of_ascii c =? 95)%nat.
Definition re_digit (c : ascii) : bool := is_digit c.
(** [.] *)
Definition re_dot (c : ascii) : bool := negb (nat_of_ascii c =? 10)%nat.

(** [\s+], [\s*], [\w+] *)
Definition sp1 : regex := Plus (Cls re_space).
Definition sp0 : regex := Star (Cls re_space).
Definition word1 : regex := Plus (Cls re_word).

(** a negated class [[^...]] *)
Definition none_of (cutset : string) : regex := Cls (fun c => negb (mem_byte c cutset)).
Definition one_of (cutset : string) : regex := Cls (fun c => mem_byte c cutset).

End Regexp.

(** ** SQL injection validator (internal/security) *)

Module Security.
Import GoStrings Regexp Errors.

(** A compiled pattern with its source text ([pattern.String()]). *)
Record Pattern := {
  source : string;
  re : regex
}.

Definition dq : string := String dquote EmptyString.

(** The six dangerous patterns of [NewSQLInjectionValidator], in order. *)
Definition dangerousPatterns : list Pattern :=
  [ (* dangerous keyword pairs *)
    {| source := "(?i)(union\s+select|drop\s+table|delete\s+from|insert\s+into|update\s+set)";
       re := Group 1 (alts [ cats [liti "union"; sp1; liti "select"];
                             cats [liti "drop"; sp1; liti "table"];
                             cats [liti "delete"; sp1; liti "from"];
                             cats [liti "insert"; sp1; liti "into"];
                             cats [liti "update"; sp1; liti "set"] ]) |};
    (* comment tokens *)
    {| source := "(--|/\*|\*/|#)";
       re := Group 1 (alts [lit "--"; lit "/*"; lit "*/"; lit "#"]) |};
    (* string concatenation *)
    {| source := "('\s*\+\s*'|" ++ dq ++ "\s*\+\s*" ++ dq ++ ")";
       re := Group 1 (alts [ cats [chr squote; sp0; lit "+"; sp0; chr squote];
                             cats [chr dquote; sp0; lit "+"; sp0; chr dquote] ]) |};
    (* boolean blind injection *)
    {| source := "(?i)(\s+or\s+1\s*=\s*1|\s+and\s+1\s*=\s*1)";
       re := Group 1 (alts [ cats [sp1; liti "or"; sp1; lit "1"; sp0; lit "="; sp0; lit "1"];
                             cats [sp1; liti "and"; sp1; lit "1"; sp0; lit "="; sp0; lit "1"] ]) |};
    (* time-based blind injection *)
    {| source := "(?i)(sleep\s*\(|waitfor\s+delay|benchmark\s*\()";
       re := Group 1 (alts [ cats [liti "sleep"; sp0; lit "("];
                             cats [liti "waitfor"; sp1; liti "delay"];
                             cats [liti "benchmark"; sp0; lit "("] ]) |};
    (* information disclosure *)
    {| source := "(?i)(information_schema|sys\.|mysql\.|pg_)";
       re := Group 1 (alts [ liti "information_schema"; liti "sys."; liti "mysql.";
                             liti "pg_" ]) |} ]%string.

(** The first pattern of [patterns] that matches [s], if any. *)
Fixpoint first_match (patterns : list Pattern) (s : string) : option Pattern :=
  match patterns with
  | [] => None
  | p :: patterns' => if MatchString (re p) s then Some p else first_match patterns' s
  end.

(** [ValidateSQL] *)
Definition ValidateSQL (sql : string) : option error :=
  let cleanSQL := TrimSpace sql in
  match first_match dangerousPatterns cleanSQL with
  | Some p => Some (EPlain ("检测到潜在的SQL注入攻击: " ++ source p))
  | None => None
  end.

End Security.

(** ** Number and boolean syntax (the functions of Go's [strconv] the
    code calls) *)

Module Strconv.
Import GoStrings GoFloat.

(** A [float64]: a finite value (idealised as the exact rational the text
    denotes, before rounding), an infinity or a NaN. *)
Inductive float64 :=
| FFinite (q : Q)
| FInf (negative : bool)
| FNaN.

Definition digit_val (c : ascii) : Z := Z.of_nat (nat_of_ascii c - 48).

(** [commonPrefixLenIgnoreCase(s, prefix)], [prefix] in lower case *)
Fixpoint commonPrefixLenIgnoreCase (s prefix : string) : nat :=
  match s, prefix with
  | String c s', String p prefix' =>
      if Ascii.eqb (to_lower c) p then S (commonPrefixLenIgnoreCase s' prefix') else O
  | _, _ => O
  end.

(** [special]: the value and the number of bytes it takes. *)
Definition special (s : string) : option (float64 * nat) :=
  let inf (negative : bool) (nsign : nat) (t : string) :=
    let n := commonPrefixLenIgnoreCase t "infinity" in
    let n := if (3 <? n)%nat && (n <? 8)%nat then 3%nat else n in
    if (n =? 3)%nat || (n =? 8)%nat then Some (FInf negative, (nsign + n)%nat) else None in
  match s with
  | EmptyString => None
  | String c s' =>
      if Ascii.eqb c "+" then inf false 1%nat s'
      else if Ascii.eqb c "-" then inf true 1%nat s'
      else if Ascii.eqb (to_lower c) "i" then inf false 0%nat s
      else if Ascii.eqb (to_lower c) "n"
      then if (commonPrefixLenIgnoreCase s "nan" =? 3)%nat then Some (FNaN, 3%nat) else None
      else None
  end.

(** [underscoreOK] for a text without base prefix: every underscore
    stands between two digits.  [saw] is the kind of the previous byte:
    a digit ("0"), an underscore ("_"), the start ("^") or another ("!"). *)
Fixpoint underscore_scan (s : string) (saw : ascii) : bool :=
  match s with
  | EmptyString => negb (Ascii.eqb saw "_")
  | String c s' =>
      if is_digit c then underscore_scan s' "0"
      else if Ascii.eqb c "_"
      then if Ascii.eqb saw "0" then underscore_scan s' "_" else false
      else if Ascii.eqb saw "_" then false
      else underscore_scan s' "!"
  end.

Definition underscoreOK (s : string) : bool :=
  match s with
  | String c s' =>
      if Ascii.eqb c "-" || Ascii.eqb c "+" then underscore_scan s' "^"
      else underscore_scan s "^"
  | EmptyString => true
  end.

(** The digits and the point of a decimal mantissa: the integer the
    digits spell, the number of digits after the point, whether a digit
    and an underscore were seen, and the rest of the text. *)
Fixpoint read_mantissa (s : string) (sawdot sawdigits underscores : bool)
    (mant fracdigits : Z) : Z * Z * bool * bool * string :=
  match s with
  | EmptyString => (mant, fracdigits, sawdigits, underscores, s)
  | String c s' =>
      if Ascii.eqb c "_" then read_mantissa s' sawdot sawdigits true mant fracdigits
      else if Ascii.eqb c "."
      then if sawdot then (mant, fracdigits, sawdigits, underscores, s)
           else read_mantissa s' true sawdigits underscores mant fracdigits
      else if is_digit c
      then read_mantissa s' sawdot true underscores (10 * mant + digit_val c)
             (if sawdot then fracdigits + 1 else fracdigits)
      else (mant, fracdigits, sawdigits, underscores, s)
  end.

(** The digits of an exponent; accumulation stops at 10000. *)
Fixpoint read_exponent (s : string) (underscores : bool) (e : Z) : Z * bool * string :=
  match s with
  | EmptyString => (e, underscores, s)
  | String c s' =>
      if Ascii.eqb c "_" then read_exponent s' true e
      else if is_digit c
      then read_exponent s' underscores (if e <? 10000 then e * 10 + digit_val c else e)
      else (e, underscores, s)
  end.

Definition pow10 (e : Z) : Q :=
  if e <? 0 then Qmake 1 (Z.to_pos (10 ^ (- e))) else inject_Z (10 ^ e).

(** Texts whose value rounds to an infinity are out of range. *)
Definition overflow_threshold : Q := inject_Z (2 ^ 1024 - 2 ^ 970).

(** [readFloat] for decimal floating-point syntax followed by the
    range check of [ParseFloat]: sign, digits with at most one point,
    optional exponent, underscores between digits.  The hexadecimal
    syntax ([0x...p...]) is not modelled: such a text is reported as not
    a number. *)
Definition parse_decimal (s : string) : option float64 :=
  let '(negative, t) :=
    match s with
    | String c s' =>
        if Ascii.eqb c "+" then (false, s')
        else if Ascii.eqb c "-" then (true, s') else (false, s)
    | EmptyString => (false, s)
    end in
  let '(mant, fracdigits, sawdigits, underscores, rest) :=
    read_mantissa t false false false 0 0 in
  if negb sawdigits then None
  else
    let after_exponent : option (Z * bool * string) :=
      match rest with
      | String c r1 =>
          if Ascii.eqb (to_lower c) "e" then
            let '(esign, r2) :=
              match r1 with
              | String d r' =>
                  if Ascii.eqb d "+" then (1, r')
                  else if Ascii.eqb d "-" then (-1, r') else (1, r1)
              | EmptyString => (1, r1)
              end in
            match r2 with
            | String d _ =>
                if is_digit d then
                  let '(e, u, r3) := read_exponent r2 underscores 0 in
                  Some (e * esign, u, r3)
                else None
            | EmptyString => None
            end
          else Some (0, underscores, rest)
      | EmptyString => Some (0, underscores, rest)
      end in
    match after_exponent with
    | None => None
    | Some (e, underscores, rest) =>
        if negb (String.eqb rest "") then None
        else if underscores && negb (underscoreOK s) then None
        else
          let q := Qred (inject_Z mant * pow10 (e - fracdigits))%Q in
          if Qle_bool overflow_threshold q then None
          else Some (FFinite (if negative then Qred (- q)%Q else q))
    end.

(** [strconv.ParseFloat(s, 64)], [None] for an error. *)
Definition ParseFloat (s : string) : option float64 :=
  match special s with
  | Some (f, n) => if (n =? String.length s)%nat then Some f else None
  | None => parse_decimal s
  end.

Fixpoint all_digits (s : string) : bool :=
  match s with
  | EmptyString => true
  | String c s' => is_digit c && all_digits s'
  end.

Fixpoint digits_value (s : string) (acc : Z) : Z :=
  match s with
  | EmptyString => acc
  | String c s' => digits_value s' (10 * acc + digit_val c)
  end.

(** [strconv.Atoi(s)], [None] for an error: an optional sign and decimal
    digits, within the range of [int]. *)
Definition Atoi (s : string) : option Z :=
  let '(negative, t) :=
    match s with
    | String c s' =>
        if Ascii.eqb c "+" then (false, s')
        else if Ascii.eqb c "-" then (true, s') else (false, s)
    | EmptyString => (false, s)
    end in
  if String.eqb t "" || negb (all_digits t) then None
  else
    let v := if negative then - digits_value t 0 else digits_value t 0 in
    if (GoInt.MinInt <=? v) && (v <=? GoInt.MaxInt) then Some v else None.

(** [strconv.ParseBool(s)], [None] for an error. *)
Definition ParseBool (s : string) : option bool :=
  if existsb (String.eqb s) ["1"; "t"; "T"; "TRUE"; "true"; "True"]%string then Some true
  else if existsb (String.eqb s) ["0"; "f"; "F"; "FALSE"; "false"; "False"]%string then Some false
  else None.

End Strconv.

(** ** SQL commands and the SQL parser (internal/common) *)

Module SQL.
Import GoStrings Regexp Strconv Errors.

(** A value of type [interface{}] as the parser and the callers make
    them. *)
Inductive Value :=
| VNil
| VInt (n : Z)
| VFloat64 (f : float64)
| VBool (b : bool)
| VString (s : string).

(** A [map[string]interface{}]: the keys in the order of their first
    assignment. *)
Definition ValueMap := list (string * Value).

Fixpoint map_set (k : string) (v : Value) (m : ValueMap) : ValueMap :=
  match m with
  | [] => [(k, v)]
  | (k', v') :: m' => if String.eqb k k' then (k, v) :: m' else (k', v') :: map_set k v m'
  end.

Fixpoint map_get (k : string) (m : ValueMap) : option Value :=
  match m with
  | [] => None
  | (k', v') :: m' => if String.eqb k k' then Some v' else map_get k m'
  end.

(** [SQLCommandType] is a string type. *)
Definition SQLCommandType := string.
Definition CommandSelect : SQLCommandType := "SELECT"%string.
Definition CommandInsert : SQLCommandType := "INSERT"%string.
Definition CommandUpdate : SQLCommandType := "UPDATE"%string.
Definition CommandDelete : SQLCommandType := "DELETE"%string.
Definition CommandShow : SQLCommandType := "SHOW"%string.
Definition CommandCreate : SQLCommandType := "CREATE"%string.
Definition CommandDrop : SQLCommandType := "DROP"%string.
Definition CommandDescribe : SQLCommandType := "DESCRIBE"%string.
Definition CommandUnknown : SQLCommandType := "UNKNOWN"%string.

Record SQLCommand := {
  Type_ : SQLCommandType;
  Table : string;
  Fields : list string;
  Values : ValueMap;
  Condition : ValueMap;
  UpdateFields : ValueMap;
  Where : string;
  RawSQL : string;
  ShowType : string;
  OrderBy : list string;
  Limit : Z;
  Offset : Z;
  AggregateFunction : string;
  AggregateField : string;
  IsAggregate : bool
}.

Definition NewSQLCommand (cmdType : SQLCommandType) : SQLCommand :=
  {| Type_ := cmdType; Table := ""; Fields := []; Values := []; Condition := [];
     UpdateFields := []; Where := ""; RawSQL := ""; ShowType := ""; OrderBy := [];
     Limit := 0; Offset := 0; AggregateFunction := ""; AggregateField := "";
     IsAggregate := false |}.

Definition with_Type (t : SQLCommandType) (c : SQLCommand) : SQLCommand :=
  {| Type_ := t; Table := Table c; Fields := Fields c; Values := Values c;
     Condition := Condition c; UpdateFields := UpdateFields c; Where := Where c;
     RawSQL := RawSQL c; ShowType := ShowType c; OrderBy := OrderBy c; Limit := Limit c;
     Offset := Offset c; AggregateFunction := AggregateFunction c;
     AggregateField := AggregateField c; IsAggregate := IsAggregate c |}.

Definition with_Table (t : string) (c : SQLCommand) : SQLCommand :=
  {| Type_ := Type_ c; Table := t; Fields := Fields c; Values := Values c;
     Condition := Condition c; UpdateFields := UpdateFields c; Where := Where c;
     RawSQL := RawSQL c; ShowType := ShowType c; OrderBy := OrderBy c; Limit := Limit c;
     Offset := Offset c; AggregateFunction := AggregateFunction c;
     AggregateField := AggregateField c; IsAggregate := IsAggregate c |}.

Definition with_Fields (f : list string) (c : SQLCommand) : SQLCommand :=
  {| Type_ := Type_ c; Table := Table c; Fields := f; Values := Values c;
     Condition := Condition c; UpdateFields := UpdateFields c; Where := Where c;
     RawSQL := RawSQL c; ShowType := ShowType c; OrderBy := OrderBy c; Limit := Limit c;
     Offset := Offset c; AggregateFunction := AggregateFunction c;
     AggregateField := AggregateField c; IsAggregate := IsAggregate c |}.

Definition with_Values (v : ValueMap) (c : SQLCommand) : SQLCommand :=
  {| Type_ := Type_ c; Table := Table c; Fields := Fields c; Values := v;
     Condition := Condition c; UpdateFields := UpdateFields c; Where := Where c;
     RawSQL := RawSQL c; ShowType := ShowType c; OrderBy := OrderBy c; Limit := Limit c;
     Offset := Offset c; AggregateFunction := AggregateFunction c;
     AggregateField := AggregateField c; IsAggregate := IsAggregate c |}.

Definition with_Condition (v : ValueMap) (c : SQLCommand) : SQLCommand :=
  {| Type_ := Type_ c; Table := Table c; Fields := Fields c; Values := Values c;
     Condition := v; UpdateFields := UpdateFields c; Where := Where c;
     RawSQL := RawSQL c; ShowType := ShowType c; OrderBy := OrderBy c; Limit := Limit c;
     Offset := Offset c; AggregateFunction := AggregateFunction c;
     AggregateField := AggregateField c; IsAggregate := IsAggregate c |}.

Definition with_UpdateFields (v : ValueMap) (c : SQLCommand) : SQLCommand :=
  {| Type_ := Type_ c; Table := Table c; Fields := Fields c; Values := Values c;
     Condition := Condition c; UpdateFields := v; Where := Where c;
     RawSQL := RawSQL c; ShowType := ShowType c; OrderBy := OrderBy c; Limit := Limit c;
     Offset := Offset c; AggregateFunction := AggregateFunction c;
     AggregateField := AggregateField c; IsAggregate := IsAggregate c |}.

Definition with_Where (w : string) (c : SQLCommand) : SQLCommand :=
  {| Type_ := Type_ c; Table := Table c; Fields := Fields c; Values := Values c;
     Condition := Condition c; UpdateFields := UpdateFields c; Where := w;
     RawSQL := RawSQL c; ShowType := ShowType c; OrderBy := OrderBy c; Limit := Limit c;
     Offset := Offset c; AggregateFunction := AggregateFunction c;
     AggregateField := AggregateField c; IsAggregate := IsAggregate c |}.

Definition with_RawSQL (r : string) (c : SQLCommand) : SQLCommand :=
  {| Type_ := Type_ c; Table := Table c; Fields := Fields c; Values := Values c;
     Condition := Condition c; UpdateFields := UpdateFields c; Where := Where c;
     RawSQL := r; ShowType := ShowType c; OrderBy := OrderBy c; Limit := Limit c;
     Offset := Offset c; AggregateFunction := AggregateFunction c;
     AggregateField := AggregateField c; IsAggregate := IsAggregate c |}.

(** [ValidateNotEmpty] (internal/common/utils.go) *)
Definition ValidateNotEmpty (value fieldName : string) : option error :=
  if String.eqb (TrimSpace value) "" then Some (EValidation fieldName "不能为空") else None.

(** [PreprocessSQL] (internal/common/utils.go) *)
Definition PreprocessSQL (sql : string) : string := TrimSuffix (TrimSpace sql) ";".

Definition sq : string := String squote EmptyString.
Definition dq : string := String dquote EmptyString.

(** Is [s] wrapped in a pair of single or of double quotes?  (For a
    one-byte string that is a quote both tests hold, as in the source.) *)
Definition quoted (s : string) : bool :=
  (HasPrefix s sq && HasSuffix s sq) || (HasPrefix s dq && HasSuffix s dq).

(** [valueStr[1 : len(valueStr)-1]]; the slice of a one-byte string has
    bounds 1:0 and panics, which is [None] here. *)
Definition strip_quotes (s : string) : option string :=
  if (2 <=? String.length s)%nat
  then Some (String.substring 1 (String.length s - 2) s) else None.

(** [SQLParser.ParseValue] (exported; used by the ORM bridge's raw
    UPDATE).  [None] is the panic of the slice expression. *)
Definition ParseValue (valueStr : string) : option Value :=
  if String.eqb valueStr "" then Some (VString "")
  else if quoted valueStr then option_map VString (strip_quotes valueStr)
  else
    match Atoi valueStr with
    | Some intVal => Some (VInt intVal)
    | None =>
        match ParseFloat valueStr with
        | Some floatVal => Some (VFloat64 floatVal)
        | None =>
            match ParseBool valueStr with
            | Some boolVal => Some (VBool boolVal)
            | None => Some (VString valueStr)
            end
        end
    end.

(** [SQLParser.parseValue] *)
Definition parseValue (value : string) : Value :=
  let value := TrimSpace value in
  if String.eqb (ToUpper value) "NULL" then VNil
  else
    match ParseFloat value with
    | Some num => VFloat64 num
    | None =>
        match ParseBool value with
        | Some b => VBool b
        | None => VString value
        end
    end.

Definition is_quote (c : ascii) : bool := Ascii.eqb c squote || Ascii.eqb c dquote.

Definition write_byte (current : string) (c : ascii) : string :=
  (current ++ String c EmptyString)%string.

(** The loop of [parseFieldList] over the bytes of the text. *)
Fixpoint fieldlist_loop (s : string) (inQuotes : bool) (quoteChar : ascii)
    (current : string) (fields : list string) : list string * string :=
  match s with
  | EmptyString => (fields, current)
  | String char s' =>
      if negb inQuotes then
        if is_quote char
        then fieldlist_loop s' true char (write_byte current char) fields
        else if Ascii.eqb char ","
        then
          let field := TrimSpace current in
          fieldlist_loop s' inQuotes quoteChar EmptyString
            (if String.eqb field "" then fields else fields ++ [field])
        else fieldlist_loop s' inQuotes quoteChar (write_byte current char) fields
      else if Ascii.eqb char quoteChar
      then fieldlist_loop s' false zero (write_byte current char) fields
      else fieldlist_loop s' inQuotes quoteChar (write_byte current char) fields
  end.

(** [parseFieldList] *)
Definition parseFieldList (fieldsStr : string) : list string :=
  let '(fields, current) := fieldlist_loop fieldsStr false zero EmptyString [] in
  if (0 <? String.length current)%nat then
    let field := TrimSpace current in
    if String.eqb field "" then fields else fields ++ [field]
  else fields.

(** The loop of [parseValueList]: the quote bytes are skipped, so the
    text that reaches [parseValue] no longer tells a quoted value from a
    bare one. *)
Fixpoint valuelist_loop (s : string) (inQuotes : bool) (quoteChar : ascii)
    (current : string) (values : list Value) : list Value * string :=
  match s with
  | EmptyString => (values, current)
  | String char s' =>
      if negb inQuotes then
        if is_quote char
        then valuelist_loop s' true char current values
        else if Ascii.eqb char ","
        then
          let value := TrimSpace current in
          valuelist_loop s' inQuotes quoteChar EmptyString (values ++ [parseValue value])
        else valuelist_loop s' inQuotes quoteChar (write_byte current char) values
      else if Ascii.eqb char quoteChar
      then valuelist_loop s' false zero current values
      else valuelist_loop s' inQuotes quoteChar (write_byte current char) values
  end.

(** [parseValueList] *)
Definition parseValueList (valuesStr : string) : list Value :=
  let '(values, current) := valuelist_loop valuesStr false zero EmptyString [] in
  if (0 <? String.length current)%nat
  then values ++ [parseValue (TrimSpace current)]
  else values.

(** A result that may also be the run-time panic of a slice expression. *)
Inductive result (A : Type) :=
| Ok (a : A)
| Err (e : error)
| Panic.
Arguments Ok {A} a.
Arguments Err {A} e.
Arguments Panic {A}.

(** The quote stripping that precedes [parseValue] in the SET and WHERE
    clauses. *)
Definition unquote (valueStr : string) : option string :=
  if quoted valueStr then strip_quotes valueStr else Some valueStr.

(** The loop of [parseSetClause] over the assignments. *)
Fixpoint setclause_loop (assignments : list string) (updateFields : ValueMap)
  : result ValueMap :=
  match assignments with
  | [] => Ok updateFields
  | assignment :: rest =>
      let assignment := TrimSpace assignment in
      match SplitN assignment "=" 2 with
      | [p0; p1] =>
          let field := TrimSpace p0 in
          match unquote (TrimSpace p1) with
          | None => Panic
          | Some valueStr => setclause_loop rest (map_set field (parseValue valueStr) updateFields)
          end
      | _ => Err (EPlain ("无效的赋值表达式: " ++ assignment))
      end
  end.

(** [parseSetClause] *)
Definition parseSetClause (setClause : string) : result ValueMap :=
  setclause_loop (Split setClause ",") [].

(** [(?i)([^\s]+)\s+LIKE\s+(.+)] *)
Definition likeRe : regex :=
  cats [Group 1 (Plus (Cls (fun c => negb (re_space c)))); sp1; liti "LIKE"; sp1;
        Group 2 (Plus (Cls re_dot))].

(** [([^\s<>=!]+)\s*(>=|<=|!=|>|<|=)\s*(.+)] *)
Definition compareRe : regex :=
  cats [Group 1 (Plus (Cls (fun c => negb (re_space c || mem_byte c "<>=!"))));
        sp0;
        Group 2 (alts [lit ">="; lit "<="; lit "!="; lit ">"; lit "<"; lit "="]);
        sp0;
        Group 3 (Plus (Cls re_dot))].

(** [parseWhereClause] *)
Definition parseWhereClause (whereClause : string) : result ValueMap :=
  if String.eqb whereClause "" then Err (EPlain "WHERE 条件不能为空")
  else
    let likeMatches := FindStringSubmatch 2 likeRe whereClause in
    if (3 <=? len_matches likeMatches)%nat then
      let field := TrimSpace (at_ likeMatches 1) in
      match unquote (TrimSpace (at_ likeMatches 2)) with
      | None => Panic
      | Some valueStr =>
          Ok (map_set ("_operator_" ++ field) (VString "LIKE")
                (map_set field (parseValue valueStr) []))
      end
    else
      let compareMatches := FindStringSubmatch 3 compareRe whereClause in
      if (4 <=? len_matches compareMatches)%nat then
        let field := TrimSpace (at_ compareMatches 1) in
        let operator := TrimSpace (at_ compareMatches 2) in
        match unquote (TrimSpace (at_ compareMatches 3)) with
        | None => Panic
        | Some valueStr =>
            let result := map_set field (parseValue valueStr) [] in
            Ok (if negb (String.eqb operator "=")
                then map_set ("_operator_" ++ field) (VString operator) result
                else result)
        end
      else Err (EPlain "WHERE 条件格式错误，支持的格式: field = value, field LIKE 'pattern', field > value, field < value, field >= value, field <= value, field != value").

(** [(?i)INSERT\s+INTO\s+([^\s\(;]+)\s*\((.*?)\)\s*VALUES\s*\((.*?)\)] *)
Definition insertRe : regex :=
  cats [liti "INSERT"; sp1; liti "INTO"; sp1;
        Group 1 (Plus (Cls (fun c => negb (re_space c || mem_byte c "(;"))));
        sp0; lit "("; Group 2 (StarLazy (Cls re_dot)); lit ")"; sp0;
        liti "VALUES"; sp0; lit "("; Group 3 (StarLazy (Cls re_dot)); lit ")"].

(** [cmd.Values[field] = values[i]] for every field; [values] is as
    long as [fields]. *)
Fixpoint assign_values (fields : list string) (values : list Value) (m : ValueMap) : ValueMap :=
  match fields, values with
  | field :: fields', v :: values' => assign_values fields' values' (map_set field v m)
  | _, _ => m
  end.

(** [ParseInsertSQL] *)
Definition ParseInsertSQL (sql : string) (cmd : SQLCommand) : result SQLCommand :=
  let cmd := with_Type CommandInsert cmd in
  let matches := FindStringSubmatch 3 insertRe sql in
  if (len_matches matches <? 4)%nat
  then Err (EPlain "INSERT 语法错误，正确格式: INSERT INTO table (field1, field2) VALUES (value1, value2)")
  else
    let cmd := with_Table (TrimSpace (at_ matches 1)) cmd in
    match ValidateNotEmpty (Table cmd) "表名" with
    | Some e => Err e
    | None =>
        let fieldsStr := TrimSpace (at_ matches 2) in
        match ValidateNotEmpty fieldsStr "字段列表" with
        | Some e => Err e
        | None =>
            let fields := parseFieldList fieldsStr in
            if (List.length fields =? 0)%nat then Err (EPlain "字段列表解析失败")
            else
              let cmd := with_Fields fields cmd in
              let valuesStr := TrimSpace (at_ matches 3) in
              match ValidateNotEmpty valuesStr "值列表" with
              | Some e => Err e
              | None =>
                  let values := parseValueList valuesStr in
                  if negb (List.length fields =? List.length values)%nat
                  then Err (EPlain ("字段数量(" ++ Retry.Sprint_d (Z.of_nat (List.length fields))
                                      ++ ")与值数量(" ++ Retry.Sprint_d (Z.of_nat (List.length values))
                                      ++ ")不匹配"))
                  else Ok (with_Values (assign_values fields values (Values cmd)) cmd)
              end
        end
    end.

(** The two patterns of [ParseUpdateSQL], both under [(?i)]:
    [UPDATE\s+([^\s;]+)\s+SET\s+(.*?)\s+WHERE\s+] followed by a greedy
    group of any bytes but line feeds, and
    [UPDATE\s+([^\s;]+)\s+SET\s+] followed by such a group. *)
Definition updateWhereRe : regex :=
  cats [liti "UPDATE"; sp1;
        Group 1 (Plus (Cls (fun c => negb (re_space c || mem_byte c ";"))));
        sp1; liti "SET"; sp1; Group 2 (StarLazy (Cls re_dot)); sp1; liti "WHERE"; sp1;
        Group 3 (Star (Cls re_dot))].

Definition updateRe : regex :=
  cats [liti "UPDATE"; sp1;
        Group 1 (Plus (Cls (fun c => negb (re_space c || mem_byte c ";"))));
        sp1; liti "SET"; sp1; Group 2 (Star (Cls re_dot))].

(** [for k, v := range updateFields { cmd.SetValue(k, v) }] *)
Definition set_all (updates : ValueMap) (m : ValueMap) : ValueMap :=
  fold_left (fun acc kv => map_set (fst kv) (snd kv) acc) updates m.

(** [ParseUpdateSQL] *)
Definition ParseUpdateSQL (sql : string) (cmd : SQLCommand) : result SQLCommand :=
  let cmd := with_Type CommandUpdate cmd in
  let matches :=
    if Contains (ToUpper sql) " WHERE "
    then FindStringSubmatch 3 updateWhereRe sql
    else FindStringSubmatch 2 updateRe sql in
  if (len_matches matches <? 3)%nat
  then Err (EPlain "UPDATE 语法错误，正确格式: UPDATE table SET field1=value1 [WHERE condition]")
  else
    let cmd := with_Table (TrimSpace (at_ matches 1)) cmd in
    match ValidateNotEmpty (Table cmd) "表名" with
    | Some e => Err e
    | None =>
        let setClause := TrimSpace (at_ matches 2) in
        match ValidateNotEmpty setClause "SET 子句" with
        | Some e => Err e
        | None =>
            match parseSetClause setClause with
            | Panic => Panic
            | Err e => Err (EWrap "SET 子句解析失败" e)
            | Ok updateFields =>
                let cmd := with_UpdateFields updateFields cmd in
                let cmd := with_Values (set_all updateFields (Values cmd)) cmd in
                if (3 <? len_matches matches)%nat && negb (String.eqb (at_ matches 3) "")
                then
                  let whereClause := TrimSpace (at_ matches 3) in
                  let cmd := with_Where whereClause cmd in
                  match parseWhereClause whereClause with
                  | Panic => Panic
                  | Err e => Err (EWrap "WHERE 条件解析失败" e)
                  | Ok conditions => Ok (with_Condition conditions cmd)
                  end
                else Ok cmd
            end
        end
    end.

(** [(?i)DELETE\s+FROM\s+(\w+)(?:\s+WHERE\s+(.+))?] *)
Definition deleteRe : regex :=
  cats [liti "DELETE"; sp1; liti "FROM"; sp1; Group 1 word1;
        Opt (cats [sp1; liti "WHERE"; sp1; Group 2 (Plus (Cls re_dot))])].

(** [ParseDeleteSQL] *)
Definition ParseDeleteSQL (sql : string) (cmd : SQLCommand) : result SQLCommand :=
  let cmd := with_Type CommandDelete cmd in
  let matches := FindStringSubmatch 2 deleteRe sql in
  if (len_matches matches <? 2)%nat
  then Err (EPlain "DELETE 语法错误，正确格式: DELETE FROM table [WHERE condition]")
  else
    let cmd := with_Table (at_ matches 1) cmd in
    match ValidateNotEmpty (Table cmd) "表名" with
    | Some e => Err e
    | None =>
        if (2 <? len_matches matches)%nat && negb (String.eqb (at_ matches 2) "")
        then
          let whereClause := TrimSpace (at_ matches 2) in
          let cmd := with_Where whereClause cmd in
          match parseWhereClause whereClause with
          | Panic => Panic
          | Err e => Err (EWrap "WHERE 条件解析失败" e)
          | Ok conditions => Ok (with_Condition conditions cmd)
          end
        else Ok cmd
    end.

End SQL.

(** ** CLI executor: validation and dispatch (internal/cli) *)

Module Executor.
Import GoStrings Errors SQL.

(** The handler [Execute] hands the command to.  The handlers talk to
    the remote service; which one is called is what matters here. *)
Inductive Handler :=
| showTables
| showDatabases
| showColumns (table : string)
| describe (table : string)
| selectData (cmd : SQLCommand)
| insertData (cmd : SQLCommand)
| updateData (cmd : SQLCommand)
| deleteData (cmd : SQLCommand)
| createTable (cmd : SQLCommand)
| dropTable (cmd : SQLCommand).

(** [Executor.Execute]: [db] says whether [e.db] is set, [cmd] is [None]
    for a nil command.  The result is the error returned before any
    handler runs, or the handler that runs. *)
Definition Execute (db : bool) (cmd : option SQLCommand) : error + Handler :=
  match cmd with
  | None => inl (EPlain "SQL 命令不能为空")
  | Some cmd =>
      if negb db then inl (EPlain "数据库连接未初始化")
      else
        match Security.ValidateSQL (RawSQL cmd) with
        | Some err => inl (EWrap "安全验证失败" err)
        | None =>
            if String.eqb (Type_ cmd) CommandShow then
              let t := ToUpper (ShowType cmd) in
              if String.eqb t "TABLES" then inr showTables
              else if String.eqb t "DATABASES" then inr showDatabases
              else if String.eqb t "COLUMNS" then inr (showColumns (Table cmd))
              else inl (EPlain ("不支持的 SHOW 命令类型: " ++ ShowType cmd))
            else if String.eqb (Type_ cmd) CommandDescribe then inr (describe (Table cmd))
            else if String.eqb (Type_ cmd) CommandSelect then inr (selectData cmd)
            else if String.eqb (Type_ cmd) CommandInsert then inr (insertData cmd)
            else if String.eqb (Type_ cmd) CommandUpdate then inr (updateData cmd)
            else if String.eqb (Type_ cmd) CommandDelete then inr (deleteData cmd)
            else if String.eqb (Type_ cmd) CommandCreate then inr (createTable cmd)
            else if String.eqb (Type_ cmd) CommandDrop then inr (dropTable cmd)
            else inl (EPlain ("不支持的命令类型: " ++ Type_ cmd))
        end
  end.

(** The error [Execute] returns when pattern [p] matched. *)
Definition securityError (p : Security.Pattern) : error :=
  EWrap "安全验证失败" (EPlain ("检测到潜在的SQL注入攻击: " ++ Security.source p)).

End Executor.

(** ** WHERE translation: raw SQL (callbacks.go) and ORM expressions
    (sql.go) *)

Module Filter.
Import GoStrings Regexp SQL.

(** [FilterCondition] and [FilterRequest] (models.go) *)
Record FilterCondition := {
  FieldName : string;
  Operator : string;
  Value : list SQL.Value
}.

Record FilterRequest := {
  Conjunction : string;
  Conditions : list FilterCondition
}.

(** *** The raw-SQL translator *)

Record OperatorPattern := {
  pattern : regex;
  groups : nat;
  operator : string
}.

Definition quotes : string := String squote (String dquote EmptyString).

(** A comparison pattern, under [(?i)]: a word, the operator between
    optional spaces, any run of quote bytes, a group of bytes that are
    not quotes, any run of quote bytes. *)
Definition comparison (op : string) : regex :=
  cats [Group 1 word1; sp0; lit op; sp0; Star (one_of quotes);
        Group 2 (Plus (none_of quotes)); Star (one_of quotes)].

(** The ten patterns of [buildFilterFromWhere], in order. *)
Definition operatorPatterns : list OperatorPattern :=
  [ {| pattern := cats [Group 1 word1; sp1; liti "IS"; sp1; liti "NOT"; sp1; liti "NULL"];
       groups := 1; operator := "isNotEmpty" |};
    {| pattern := cats [Group 1 word1; sp1; liti "IS"; sp1; liti "NULL"];
       groups := 1; operator := "isEmpty" |};
    {| pattern := comparison "!="; groups := 2; operator := "isNot" |};
    {| pattern := comparison ">="; groups := 2; operator := "isGreaterEqual" |};
    {| pattern := comparison "<="; groups := 2; operator := "isLessEqual" |};
    {| pattern := comparison ">"; groups := 2; operator := "isGreater" |};
    {| pattern := comparison "<"; groups := 2; operator := "isLess" |};
    {| pattern := comparison "="; groups := 2; operator := "is" |};
    {| pattern := cats [Group 1 word1; sp1; liti "LIKE"; sp1; Star (one_of quotes);
                        Group 2 (Plus (none_of quotes)); Star (one_of quotes)];
       groups := 2; operator := "contains" |};
    {| pattern := cats [Group 1 word1; sp1; liti "IN"; sp0; lit "(";
                        Group 2 (Plus (none_of ")")); lit ")"];
       groups := 2; operator := "isAnyOf" |} ].

(** The conversion of a value's text: the words true and false (in any
    case) become booleans. *)
Definition convert_value (v : string) : SQL.Value :=
  if String.eqb (ToLower v) "true" then VBool true
  else if String.eqb (ToLower v) "false" then VBool false
  else VString v.

(** The values of an IN list. *)
Fixpoint in_values (valueList : list string) : list SQL.Value :=
  match valueList with
  | [] => []
  | v :: rest =>
      let v := Trim (TrimSpace v) quotes in
      if String.eqb v "" then in_values rest else convert_value v :: in_values rest
  end.

(** The loop over the patterns: the condition of the first pattern that
    yields one. *)
Fixpoint first_condition (ops : list OperatorPattern) (whereClause : string)
  : option FilterCondition :=
  match ops with
  | [] => None
  | op :: rest =>
      let matches := FindStringSubmatch (groups op) (pattern op) whereClause in
      if (2 <=? len_matches matches)%nat then
        let field := TrimSpace (at_ matches 1) in
        if String.eqb field "" then first_condition rest whereClause
        else if String.eqb (operator op) "isEmpty" || String.eqb (operator op) "isNotEmpty"
        then Some {| FieldName := field; Operator := operator op; Value := [] |}
        else if (len_matches matches <? 3)%nat then first_condition rest whereClause
        else
          let value := TrimSpace (at_ matches 2) in
          if String.eqb value "" then first_condition rest whereClause
          else
            let values :=
              if String.eqb (operator op) "isAnyOf" then in_values (Split value ",")
              else
                let value :=
                  if String.eqb (operator op) "contains"
                  then ReplaceAll (ReplaceAll value "%" "") "_" ""
                  else value in
                [convert_value value] in
            if (List.length values =? 0)%nat then first_condition rest whereClause
            else Some {| FieldName := field; Operator := operator op; Value := values |}
      else first_condition rest whereClause
  end.

(** [buildFilterFromWhere] *)
Definition buildFilterFromWhere (whereClause : string) : option FilterRequest :=
  if String.eqb whereClause "" then None
  else
    let whereClause := TrimSpace whereClause in
    if String.eqb whereClause "" then None
    else
      match first_condition operatorPatterns whereClause with
      | None => None
      | Some c => Some {| Conjunction := "and"; Conditions := [c] |}
      end.

(** *** The ORM expression translator *)

(** The [Column] of a clause is an [interface{}]: a [clause.Column] with
    its name, or something else. *)
Inductive ColumnRef :=
| Column (Name : string)
| NotAColumn.

(** The expressions of a WHERE clause ([gorm.io/gorm/clause]). *)
Inductive Expression :=
| Eq (column : ColumnRef) (value : SQL.Value)
| Neq (column : ColumnRef) (value : SQL.Value)
| Gt (column : ColumnRef) (value : SQL.Value)
| Gte (column : ColumnRef) (value : SQL.Value)
| Lt (column : ColumnRef) (value : SQL.Value)
| Lte (column : ColumnRef) (value : SQL.Value)
| Like (column : ColumnRef) (value : SQL.Value)
| IN (column : ColumnRef) (values : list SQL.Value)
| Expr (sql : string) (vars : list SQL.Value)
| OtherExpression.

(** The shape shared by the builders of the binary conditions: [None]
    unless the column is a [clause.Column] with a name. *)
Definition condition_on (column : ColumnRef) (op : string) (value : list SQL.Value)
  : option FilterCondition :=
  match column with
  | Column name =>
      if String.eqb name "" then None
      else Some {| FieldName := name; Operator := op; Value := value |}
  | NotAColumn => None
  end.

Definition buildEqualCondition (column : ColumnRef) (value : SQL.Value) :=
  condition_on column "is" [value].
Definition buildNotEqualCondition (column : ColumnRef) (value : SQL.Value) :=
  condition_on column "isNot" [value].
Definition buildGreaterThanCondition (column : ColumnRef) (value : SQL.Value) :=
  condition_on column "isGreater" [value].
Definition buildGreaterEqualCondition (column : ColumnRef) (value : SQL.Value) :=
  condition_on column "isGreaterEqual" [value].
Definition buildLessThanCondition (column : ColumnRef) (value : SQL.Value) :=
  condition_on column "isLess" [value].
Definition buildLessEqualCondition (column : ColumnRef) (value : SQL.Value) :=
  condition_on column "isLessEqual" [value].

(** [buildLikeCondition]: the value is [like.Value] as it is. *)
Definition buildLikeCondition (column : ColumnRef) (value : SQL.Value) :=
  condition_on column "contains" [value].

(** [buildInCondition] *)
Definition buildInCondition (column : ColumnRef) (values : list SQL.Value)
  : option FilterCondition :=
  match column with
  | Column name =>
      if String.eqb name "" then None
      else if (List.length values =? 0)%nat then None
      else Some {| FieldName := name; Operator := "isAnyOf"; Value := values |}
  | NotAColumn => None
  end.

(** [strings.Split(s, sep)[0]] *)
Definition before (s sep : string) : string := hd EmptyString (Split s sep).

(** [buildExprCondition] *)
Definition buildExprCondition (sql : string) (vars : list SQL.Value)
  : option FilterCondition :=
  if Contains (ToUpper sql) " IS NOT NULL" then
    Some {| FieldName := TrimSpace (before (ToUpper sql) " IS NOT NULL");
            Operator := "isNotEmpty"; Value := [] |}
  else if Contains (ToUpper sql) " IS NULL" then
    Some {| FieldName := TrimSpace (before (ToUpper sql) " IS NULL");
            Operator := "isEmpty"; Value := [] |}
  else if (List.length vars =? 0)%nat then None
  else
    let named : option (string * string) :=
      if Contains sql " = ?" then Some (TrimSpace (before sql " = ?"), "is"%string)
      else if Contains sql " != ?" || Contains sql " <> ?" then
        let fieldName := TrimSpace (before sql " != ?") in
        Some (if String.eqb fieldName "" then TrimSpace (before sql " <> ?") else fieldName,
              "isNot"%string)
      else if Contains sql " > ?" then Some (TrimSpace (before sql " > ?"), "isGreater"%string)
      else if Contains sql " >= ?" then Some (TrimSpace (before sql " >= ?"), "isGreaterEqual"%string)
      else if Contains sql " < ?" then Some (TrimSpace (before sql " < ?"), "isLess"%string)
      else if Contains sql " <= ?" then Some (TrimSpace (before sql " <= ?"), "isLessEqual"%string)
      else if Contains sql " LIKE ?" || Contains sql " like ?" then
        let fieldName := TrimSpace (before sql " LIKE ?") in
        Some (if String.eqb fieldName "" then TrimSpace (before sql " like ?") else fieldName,
              "contains"%string)
      else None in
    match named with
    | None => None
    | Some (fieldName, operator) =>
        if String.eqb fieldName "" then None
        else Some {| FieldName := fieldName; Operator := operator;
                     Value := firstn 1 vars |}
    end.

(** The condition of one expression, if it yields one. *)
Definition condition_of (e : Expression) : option FilterCondition :=
  match e with
  | Eq c v => buildEqualCondition c v
  | Neq c v => buildNotEqualCondition c v
  | Gt c v => buildGreaterThanCondition c v
  | Gte c v => buildGreaterEqualCondition c v
  | Lt c v => buildLessThanCondition c v
  | Lte c v => buildLessEqualCondition c v
  | Like c v => buildLikeCondition c v
  | IN c vs => buildInCondition c vs
  | Expr sql vars => buildExprCondition sql vars
  | OtherExpression => None
  end.

Fixpoint conditions_of (exprs : list Expression) : list FilterCondition :=
  match exprs with
  | [] => []
  | e :: exprs' =>
      match condition_of e with
      | Some c => c :: conditions_of exprs'
      | None => conditions_of exprs'
      end
  end.

(** [SQLConverter.buildFilter] *)
Definition buildFilter (exprs : list Expression) : option FilterRequest :=
  match conditions_of exprs with
  | [] => None
  | conditions => Some {| Conjunction := "and"; Conditions := conditions |}
  end.

(** The LIKE pattern with every [%] and [_] removed, as section 4.9 of
    the specification words it. *)
Definition spec_like_value (pat : string) : string :=
  ReplaceAll (ReplaceAll pat "%" "") "_" "".

End Filter.

(** ** JSON documents and [json.Unmarshal] (encoding/json) *)

Module JSON.
Import GoStrings Errors.

(** A JSON value, the members of an object in the order of the text.  A
    string is the text its literal stands for.  A number is the integer
    it is written as: the documents below hold no fraction and no
    exponent. *)
#[local] Unset Elimination Schemes.
Inductive value :=
| Null
| Bool (b : bool)
| Number (n : Z)
| Str (s : string)
| Array (elements : list value)
| Object (members : list (string * value)).
#[local] Set Elimination Schemes.

(** The bytes of a response body, read as JSON: [None] when they are not
    one well-formed JSON value. *)
Definition text := option value.

(** The errors of [json.Unmarshal], a [*json.SyntaxError] and a
    [*json.UnmarshalTypeError]; their texts, which name the offending
    byte or value, are not kept. *)
Definition SyntaxError : error := EPlain "invalid character".
Definition UnmarshalTypeError : error := EPlain "json: cannot unmarshal".

(** Filling a Go value from a JSON value gives the value afterwards, and
    whether every JSON value met had a type its target takes: after a
    mismatch [Unmarshal] leaves that target as it was, goes on, and
    returns the mismatch in the end.  [null] leaves a [bool], an [int] or
    a [string] as it was, and makes a pointer or a slice nil. *)
Definition into_bool (cur : bool) (v : value) : bool * bool :=
  match v with
  | Null => (cur, true)
  | Bool b => (b, true)
  | _ => (cur, false)
  end.

Definition into_string (cur : string) (v : value) : string * bool :=
  match v with
  | Null => (cur, true)
  | Str s => (s, true)
  | _ => (cur, false)
  end.

Definition into_int (cur : Z) (v : value) : Z * bool :=
  match v with
  | Null => (cur, true)
  | Number n =>
      if (GoInt.MinInt <=? n) && (n <=? GoInt.MaxInt) then (n, true) else (cur, false)
  | _ => (cur, false)
  end.

(** A struct: the members of an object are taken in order, [member]
    filling the field a key names (and passing over a key that names
    none); a value that is neither an object nor [null] is a mismatch. *)
Definition into_struct {A : Type} (member : A -> string -> value -> A * bool)
    (cur : A) (v : value) : A * bool :=
  match v with
  | Null => (cur, true)
  | Object members =>
      fold_left (fun (st : A * bool) (m : string * value) =>
                   let (a, ok) := member (fst st) (fst m) (snd m) in (a, snd st && ok))
                members (cur, true)
  | _ => (cur, false)
  end.

(** A pointer to a struct ([None] is nil): [null] makes it nil, any other
    value is filled into the struct pointed to, a new one if the pointer
    was nil. *)
Definition into_pointer {A : Type} (zero : A) (into : A -> value -> A * bool)
    (cur : option A) (v : value) : option A * bool :=
  match v with
  | Null => (None, true)
  | _ =>
      let (a, ok) := into (match cur with Some a => a | None => zero end) v in
      (Some a, ok)
  end.

(** A slice of pointers: the elements of an array are filled one by one
    into the elements the slice had (nil pointers beyond them), and the
    slice ends with the array. *)
Fixpoint into_elements {A : Type} (into : option A -> value -> option A * bool)
    (cur : list (option A)) (elements : list value) : list (option A) * bool :=
  match elements with
  | [] => ([], true)
  | e :: elements' =>
      let (a, ok) := into (hd None cur) e in
      let (rest, ok') := into_elements into (tl cur) elements' in
      (a :: rest, ok && ok')
  end.

Definition into_slice {A : Type} (into : option A -> value -> option A * bool)
    (cur : list (option A)) (v : value) : list (option A) * bool :=
  match v with
  | Null => ([], true)
  | Array elements => into_elements into cur elements
  | _ => (cur, false)
  end.

(** [json.Unmarshal(data, &x)] for a variable [x] that holds [cur]. *)
Definition Unmarshal {A : Type} (into : A -> value -> A * bool) (cur : A) (data : text)
  : A + error :=
  match data with
  | None => inr SyntaxError
  | Some v =>
      let (a, ok) := into cur v in
      if ok then inl a else inr UnmarshalTypeError
  end.

End JSON.

(** ** ORM bridge: raw DELETE (callbacks.go) *)

Module Bridge.
Import GoStrings Errors.

(** The body of a request: none, or the JSON of a [ListRecordsRequest]
    with its filter. *)
Inductive RequestBody :=
| NoBody
| ListRecordsBody (filter : option Filter.FilterRequest).

Record APIRequest := {
  Method : string;
  Path : string;
  Body : RequestBody
}.

Record APIResponse := {
  StatusCode : Z;
  RespBody : JSON.text
}.

(** [Table] and [Record] (models.go), with the fields the bridge reads. *)
Record Table := {
  TableID : string;
  Name : string
}.

Record Record_ := {
  RecordID : string
}.

(** [ListTablesResponse] and [ListRecordsResponse] (models.go), which
    differ in the type of the items only; an item is a pointer, [None]
    being nil. *)
Record ListResponse (A : Type) := {
  HasMore : bool;
  PageToken : string;
  Total : Z;
  Items : list (option A)
}.
Arguments Build_ListResponse {A}.
Arguments HasMore {A}.
Arguments PageToken {A}.
Arguments Total {A}.
Arguments Items {A}.

Definition ListTablesResponse := ListResponse Table.
Definition ListRecordsResponse := ListResponse Record_.

(** [ListTablesAPIResponse] and [ListRecordsAPIResponse] (models.go),
    the envelope of the service around either list; [Data] is a pointer. *)
Record Envelope (A : Type) := {
  Code : Z;
  Msg : string;
  Data : option A
}.
Arguments Build_Envelope {A}.
Arguments Code {A}.
Arguments Msg {A}.
Arguments Data {A}.

Definition ListTablesAPIResponse := Envelope ListTablesResponse.
Definition ListRecordsAPIResponse := Envelope ListRecordsResponse.

(** The zero values [var listResp ListRecordsResponse] and
    [var apiResp ListTablesAPIResponse] start from. *)
Definition zero_Table : Table := {| TableID := ""; Name := "" |}.
Definition zero_Record : Record_ := {| RecordID := "" |}.
Definition zero_ListResponse {A : Type} : ListResponse A :=
  {| HasMore := false; PageToken := ""; Total := 0; Items := [] |}.
Definition zero_Envelope {A : Type} : Envelope A :=
  {| Code := 0; Msg := ""; Data := None |}.

(** The field a key of the JSON object names, by the [json] tags of the
    struct: encoding/json takes a key up to the case of its letters.  Of
    a [Table] and a [Record] the members the bridge does not read
    ([revision], [fields], [created_time] and so on) are not kept, and a
    key that names one is passed over. *)
Definition Table_member (t : Table) (key : string) (v : JSON.value) : Table * bool :=
  if EqualFold key "table_id" then
    let (s, ok) := JSON.into_string (TableID t) v in
    ({| TableID := s; Name := Name t |}, ok)
  else if EqualFold key "name" then
    let (s, ok) := JSON.into_string (Name t) v in
    ({| TableID := TableID t; Name := s |}, ok)
  else (t, true).

Definition Record_member (r : Record_) (key : string) (v : JSON.value) : Record_ * bool :=
  if EqualFold key "record_id" then
    let (s, ok) := JSON.into_string (RecordID r) v in
    ({| RecordID := s |}, ok)
  else (r, true).

Definition ListResponse_member {A : Type} (zero : A)
    (member : A -> string -> JSON.value -> A * bool)
    (l : ListResponse A) (key : string) (v : JSON.value) : ListResponse A * bool :=
  if EqualFold key "has_more" then
    let (b, ok) := JSON.into_bool (HasMore l) v in
    ({| HasMore := b; PageToken := PageToken l; Total := Total l; Items := Items l |}, ok)
  else if EqualFold key "page_token" then
    let (s, ok) := JSON.into_string (PageToken l) v in
    ({| HasMore := HasMore l; PageToken := s; Total := Total l; Items := Items l |}, ok)
  else if EqualFold key "total" then
    let (n, ok) := JSON.into_int (Total l) v in
    ({| HasMore := HasMore l; PageToken := PageToken l; Total := n; Items := Items l |}, ok)
  else if EqualFold key "items" then
    let (items, ok) :=
      JSON.into_slice (JSON.into_pointer zero (JSON.into_struct member)) (Items l) v in
    ({| HasMore := HasMore l; PageToken := PageToken l; Total := Total l; Items := items |}, ok)
  else (l, true).

Definition Envelope_member {A : Type} (zero : A) (into : A -> JSON.value -> A * bool)
    (e : Envelope A) (key : string) (v : JSON.value) : Envelope A * bool :=
  if EqualFold key "code" then
    let (n, ok) := JSON.into_int (Code e) v in
    ({| Code := n; Msg := Msg e; Data := Data e |}, ok)
  else if EqualFold key "msg" then
    let (s, ok) := JSON.into_string (Msg e) v in
    ({| Code := Code e; Msg := s; Data := Data e |}, ok)
  else if EqualFold key "data" then
    let (d, ok) := JSON.into_pointer zero into (Data e) v in
    ({| Code := Code e; Msg := Msg e; Data := d |}, ok)
  else (e, true).

Definition into_ListTablesResponse : ListTablesResponse -> JSON.value -> ListTablesResponse * bool :=
  JSON.into_struct (ListResponse_member zero_Table Table_member).

Definition into_ListRecordsResponse
  : ListRecordsResponse -> JSON.value -> ListRecordsResponse * bool :=
  JSON.into_struct (ListResponse_member zero_Record Record_member).

(** [json.Unmarshal(resp.Body, &apiResp)] for [var apiResp
    ListTablesAPIResponse] ([getTableID]). *)
Definition Unmarshal_ListTablesAPIResponse (body : JSON.text) : ListTablesAPIResponse + error :=
  JSON.Unmarshal (JSON.into_struct (Envelope_member zero_ListResponse into_ListTablesResponse))
    zero_Envelope body.

(** [json.Unmarshal(resp.Body, &listResp)] for [var listResp
    ListRecordsResponse] ([executeRawDelete]). *)
Definition Unmarshal_ListRecordsResponse (body : JSON.text) : ListRecordsResponse + error :=
  JSON.Unmarshal into_ListRecordsResponse zero_ListResponse body.

(** [json.Unmarshal(resp.Body, &apiResp)] for [var apiResp
    ListRecordsAPIResponse] ([queryCallback]). *)
Definition Unmarshal_ListRecordsAPIResponse (body : JSON.text) : ListRecordsAPIResponse + error :=
  JSON.Unmarshal (JSON.into_struct (Envelope_member zero_ListResponse into_ListRecordsResponse))
    zero_Envelope body.

(** What the bridge does not decide: the remote service, which answers a
    request knowing the requests made before it (through
    [Client.DoRequest]). *)
Record Env := {
  remote : list APIRequest -> APIRequest -> APIResponse + error
}.

(** [dialector.Client.DoRequest]: the answer, and the request logged. *)
Definition DoRequest (env : Env) (log : list APIRequest) (req : APIRequest)
  : (APIResponse + error) * list APIRequest :=
  (remote env log req, log ++ [req]).

(** [*gorm.DB], as far as the handler writes it. *)
Record DB := {
  RowsAffected : Z;
  Error : option error
}.

Definition set_RowsAffected (n : Z) (db : DB) : DB :=
  {| RowsAffected := n; Error := Error db |}.

(** The two loops of [getTableID] over the items: the table with exactly
    this name, and the first one equal to it up to case.  Reading the name
    of a nil item panics. *)
Fixpoint find_exact (items : list (option Table)) (tableName : string)
  : SQL.result (option string) :=
  match items with
  | [] => SQL.Ok None
  | None :: _ => SQL.Panic
  | Some t :: items' => if String.eqb (Name t) tableName then SQL.Ok (Some (TableID t))
                        else find_exact items' tableName
  end.

Fixpoint find_fold (items : list (option Table)) (tableName : string)
  : SQL.result (option string) :=
  match items with
  | [] => SQL.Ok None
  | None :: _ => SQL.Panic
  | Some t :: items' => if EqualFold (Name t) tableName then SQL.Ok (Some (TableID t))
                        else find_fold items' tableName
  end.

(** [getTableID]; [appToken] is [None] for a nil dialector. *)
Definition getTableID (env : Env) (appToken : option string) (tableName : string)
    (log : list APIRequest) : SQL.result string * list APIRequest :=
  match appToken with
  | None => (SQL.Err (EPlain "dialector 不能为 nil"), log)
  | Some app =>
      if String.eqb tableName "" then (SQL.Err (EPlain "表名不能为空"), log)
      else
        let apiReq := {| Method := "GET";
                         Path := "/bitable/v1/apps/" ++ app ++ "/tables";
                         Body := NoBody |} in
        let (r, log) := DoRequest env log apiReq in
        match r with
        | inr err => (SQL.Err (EWrap "获取表列表失败" err), log)
        | inl resp =>
            match Unmarshal_ListTablesAPIResponse (RespBody resp) with
            | inr err => (SQL.Err (EWrap "解析API响应失败" err), log)
            | inl apiResp =>
                if negb (Code apiResp =? 0)
                then (SQL.Err (EPlain ("API请求失败: code=" ++ Retry.Sprint_d (Code apiResp)
                                         ++ ", msg=" ++ Msg apiResp)), log)
                else
                  match Data apiResp with
                  | None => (SQL.Err (EPlain "API响应中没有数据"), log)
                  | Some listResp =>
                      match find_exact (Items listResp) tableName with
                      | SQL.Panic => (SQL.Panic, log)
                      | SQL.Err err => (SQL.Err err, log)
                      | SQL.Ok (Some id) => (SQL.Ok id, log)
                      | SQL.Ok None =>
                          match find_fold (Items listResp) tableName with
                          | SQL.Panic => (SQL.Panic, log)
                          | SQL.Err err => (SQL.Err err, log)
                          | SQL.Ok (Some id) => (SQL.Ok id, log)
                          | SQL.Ok None =>
                              (SQL.Err (EPlain ("未找到表 '" ++ tableName
                                                  ++ "'，请检查表名是否正确")), log)
                          end
                      end
                  end
            end
        end
  end.

(** The DELETE request for one record. *)
Definition delete_request (app tableID recordID : string) : APIRequest :=
  {| Method := "DELETE";
     Path := "/bitable/v1/apps/" ++ app ++ "/tables/" ++ tableID ++ "/records/" ++ recordID;
     Body := NoBody |}.

(** How a handler ends: it returns its error ([None] is nil), or it
    panics. *)
Inductive outcome :=
| Return (err : option error)
| Panics.

(** The loop over the listed records: one DELETE each, stopping at the
    first error; reading the id of a nil record panics. *)
Fixpoint delete_loop (env : Env) (app tableID : string) (items : list (option Record_))
    (log : list APIRequest) : outcome * list APIRequest :=
  match items with
  | [] => (Return None, log)
  | None :: _ => (Panics, log)
  | Some record :: items' =>
      let (r, log) := DoRequest env log (delete_request app tableID (RecordID record)) in
      match r with
      | inr err => (Return (Some err), log)
      | inl _ => delete_loop env app tableID items' log
      end
  end.

(** [executeRawDelete]; [where_] is [cmd.Where], [table] is [cmd.Table]
    and [app] the application token of the dialector. *)
Definition executeRawDelete (env : Env) (db : DB) (app : string)
    (table where_ : string) (log : list APIRequest)
  : outcome * DB * list APIRequest :=
  let (t, log) := getTableID env (Some app) table log in
  match t with
  | SQL.Panic => (Panics, db, log)
  | SQL.Err err => (Return (Some err), db, log)
  | SQL.Ok tableID =>
      let listReq :=
        if String.eqb where_ "" then
          {| Method := "GET";
             Path := "/bitable/v1/apps/" ++ app ++ "/tables/" ++ tableID ++ "/records";
             Body := NoBody |}
        else
          {| Method := "POST";
             Path := "/bitable/v1/apps/" ++ app ++ "/tables/" ++ tableID ++ "/records/search";
             Body := ListRecordsBody (Filter.buildFilterFromWhere where_) |} in
      let (r, log) := DoRequest env log listReq in
      match r with
      | inr err => (Return (Some err), db, log)
      | inl resp =>
          match Unmarshal_ListRecordsResponse (RespBody resp) with
          | inr err => (Return (Some err), db, log)
          | inl listResp =>
              if (List.length (Items listResp) =? 0)%nat
              then (Return None, set_RowsAffected 0 db, log)
              else
                let (e, log) := delete_loop env app tableID (Items listResp) log in
                match e with
                | Panics => (Panics, db, log)
                | Return (Some err) => (Return (Some err), db, log)
                | Return None =>
                    (Return None,
                     set_RowsAffected (Z.of_nat (List.length (Items listResp))) db, log)
                end
          end
      end
  end.

(** The two requests that precede the DELETE calls of a delete-all. *)
Definition tables_request (app : string) : APIRequest :=
  {| Method := "GET"; Path := "/bitable/v1/apps/" ++ app ++ "/tables"; Body := NoBody |}.

Definition list_request (app tableID : string) : APIRequest :=
  {| Method := "GET";
     Path := "/bitable/v1/apps/" ++ app ++ "/tables/" ++ tableID ++ "/records";
     Body := NoBody |}.

(** The documents of the service: every answer is an object with the
    members [code], [msg] and [data], the list being under [data]. *)
Definition envelope (code msg data : JSON.value) : JSON.value :=
  JSON.Object [("code", code); ("msg", msg); ("data", data)]%string.

Definition table_document (t : Table) : JSON.value :=
  JSON.Object [("table_id", JSON.Str (TableID t)); ("name", JSON.Str (Name t))]%string.

(** The answer that lists [tables], with code 0. *)
Definition tables_document (msg : string) (tables : list Table) : JSON.value :=
  envelope (JSON.Number 0) (JSON.Str msg)
    (JSON.Object [("items", JSON.Array (map table_document tables))]%string).

End Bridge.

(** ** Field values: host to wire (models.go) *)

Module Field.
Import Strconv.


Definition FieldType := Z.
Definition FieldTypeFormula : FieldType := 22.
Definition FieldTypeLookup : FieldType := 23.
Definition FieldTypeAutoNumber : FieldType := 1005.

Record Field := {
  FieldName : string;
  Type_ : FieldType
}.


Definition zero : float64 := FFinite 0.



Definition one_of (t : FieldType) (l : list FieldType) : bool := existsb (Z.eqb t) l.






End Field.

(* ================================================================== *)
(** * Part I, continued: more of the program *)
(* ================================================================== *)

(** ** Histories of a token bucket and of a circuit breaker *)

Module Histories.
Import GoTime GoFloat Errors.

(** A caller's requests to one bucket, each [AllowN(n)] at a clock
    reading: the tokens handed out in all, and the bucket afterwards. *)
Fixpoint requests (l : list (Z * Time)) (tb : RateLimiter.TokenBucket)
  : Q * RateLimiter.TokenBucket :=
  match l with
  | [] => (0%Q, tb)
  | (n, now) :: l' =>
      let (ok, tb1) := RateLimiter.AllowN n now tb in
      let (g, tb2) := requests l' tb1 in
      ((if ok then float64_of_int n + g else g)%Q, tb2)
  end.

(** The latest of the clock readings, [t0] being the first. *)
Definition latest (t0 : Time) (l : list (Z * Time)) : Time :=
  fold_left (fun t r => Z.max t (snd r)) l t0.

(** The counters of a bucket agree: every counted request was either
    allowed or rejected (as [int64] values). *)
Definition stats_agree (tb : RateLimiter.TokenBucket) : Prop :=
  let s := RateLimiter.stats tb in
  RateLimiter.TotalRequests s
    = GoInt.wrap (RateLimiter.AllowedRequests s + RateLimiter.RejectedRequests s).

(** The state changes a breaker can make: it opens from CLOSED or
    HALF_OPEN, goes HALF_OPEN from OPEN only, and closes from HALF_OPEN
    (probes succeeded) or from OPEN (a reset). *)
Definition legal (t : Breaker.CircuitBreakerState * Breaker.CircuitBreakerState) : bool :=
  match t with
  | (Breaker.StateClosed, Breaker.StateOpen)
  | (Breaker.StateHalfOpen, Breaker.StateOpen)
  | (Breaker.StateOpen, Breaker.StateHalfOpen)
  | (Breaker.StateHalfOpen, Breaker.StateClosed)
  | (Breaker.StateOpen, Breaker.StateClosed) => true
  | _ => false
  end.

(** The state a list of notified changes leads to from [s], if the
    changes follow one another. *)
Fixpoint follow (s : Breaker.CircuitBreakerState)
    (l : list (Breaker.CircuitBreakerState * Breaker.CircuitBreakerState))
  : option Breaker.CircuitBreakerState :=
  match l with
  | [] => Some s
  | (from, to) :: l' => if Breaker.state_eqb s from then follow to l' else None
  end.

(** A breaker with a callback installed whose notified changes lead
    from CLOSED to its state, through legal changes only. *)
Definition announced (cb : Breaker.CircuitBreaker) : Prop :=
  Breaker.onStateChange cb = true /\
  follow Breaker.StateClosed (Breaker.notified cb) = Some (Breaker.state cb) /\
  forallb legal (Breaker.notified cb) = true.

End Histories.

(** ** API helpers (internal/common/api_utils.go) *)

Module APIUtils.
Import GoStrings GoTime Errors.

(** [APIResponse.IsSuccess] *)
Definition IsSuccess (resp : Client.APIResponse) : bool :=
  (Client.StatusCode resp >=? 200) && (Client.StatusCode resp <? 300).

(** The anonymous struct [ParseAPIError] decodes an error body into. *)
Record ErrorResp := {
  Code : Z;
  Msg : string;
  Message : string;
  Error : string
}.

(** [APIResponse.ParseJSON] into that struct; [unmarshal] is
    [json.Unmarshal], [None] being an error. *)
Definition ParseJSON (unmarshal : string -> option ErrorResp) (resp : Client.APIResponse)
  : option ErrorResp :=
  if (String.length (Client.Body resp) =? 0)%nat then None else unmarshal (Client.Body resp).

(** [ParseAPIError]; [None] is the nil pointer. *)
Definition ParseAPIError (unmarshal : string -> option ErrorResp) (resp : Client.APIResponse)
  : option APIError :=
  if IsSuccess resp then None
  else
    match ParseJSON unmarshal resp with
    | Some errorResp =>
        let message := Message errorResp in
        let message := if String.eqb message "" then Msg errorResp else message in
        let message := if String.eqb message "" then Error errorResp else message in
        Some (NewAPIError (Client.StatusCode resp) "api_error" message (Client.Body resp))
    | None =>
        Some (NewAPIError (Client.StatusCode resp) "http_error"
                ("HTTP " ++ Retry.Sprint_d (Client.StatusCode resp)) (Client.Body resp))
    end.

(** [BuildAPIPath] *)
Fixpoint BuildAPIPath (basePath : string) (segments : list string) : string :=
  match segments with
  | [] => basePath
  | segment :: segments' =>
      if negb (String.eqb segment "") then
        let path := if negb (HasSuffix basePath "/") then (basePath ++ "/")%string
                    else basePath in
        BuildAPIPath (path ++ segment) segments'
      else BuildAPIPath basePath segments'
  end.

(** What a caller of [ExecuteWithRetry] sees happen: a wait of the
    back-off delay, a call of the operation. *)
Inductive Event :=
| EvWait (delay : Duration)
| EvCall (attempt : Z).

(** What the function does not decide: the result of the operation when
    it is called as attempt [i], and whether the context is done during
    the wait that precedes attempt [i]. *)
Record Env := {
  result : Z -> option error;
  done : Z -> bool
}.

(** The loop of [ExecuteWithRetry] from iteration [attempt] on, [fuel]
    iterations being left before [attempt] passes [MaxRetries]. *)
Fixpoint retry_loop (fuel : nat) (attempt : Z) (lastErr : option error)
    (config : Retry.RetryConfig) (env : Env) (tr : list Event)
  : option error * list Event :=
  match fuel with
  | O => (lastErr, tr)
  | S fuel' =>
      let delay := Retry.CalculateBackoffDelay config attempt in
      let tr := if attempt >? 0 then tr ++ [EvWait delay] else tr in
      if (attempt >? 0) && done env attempt then (Some RateLimiter.ctxError, tr)
      else
        let err := result env attempt in
        let tr := tr ++ [EvCall attempt] in
        match err with
        | None => (None, tr)
        | Some _ =>
            if negb (Retry.ShouldRetry err attempt config) then (err, tr)
            else retry_loop fuel' (attempt + 1) err config env tr
        end
  end.

(** [ExecuteWithRetry]; [config] is [None] for nil. *)
Definition ExecuteWithRetry (env : Env) (config : option Retry.RetryConfig)
  : option error * list Event :=
  let config := match config with Some c => c | None => Retry.DefaultRetryConfig end in
  retry_loop (Z.to_nat (Retry.MaxRetries config + 1)) 0 None config env [].

(** The attempts called, in order. *)
Fixpoint calls (tr : list Event) : list Z :=
  match tr with
  | [] => []
  | EvCall i :: tr' => i :: calls tr'
  | EvWait _ :: tr' => calls tr'
  end.

(** The delays waited, in order. *)
Fixpoint waits (tr : list Event) : list Duration :=
  match tr with
  | [] => []
  | EvWait d :: tr' => d :: waits tr'
  | EvCall _ :: tr' => waits tr'
  end.

(** The attempt numbers [a, a+1, ..., a+n-1]. *)
Fixpoint attempts_from (a : Z) (n : nat) : list Z :=
  match n with
  | O => []
  | S n' => a :: attempts_from (a + 1) n'
  end.

End APIUtils.

(** ** What a trace of the HTTP client holds *)

Module ClientTrace.
Import GoTime.

(** The back-off delays waited, in order. *)
Fixpoint backoffs (tr : Client.Trace) : list Duration :=
  match tr with
  | [] => []
  | Client.EvBackoff d :: tr' => d :: backoffs tr'
  | Client.EvOperation _ :: tr' => backoffs tr'
  end.

(** The runs of the request closure, in order. *)
Fixpoint operations (tr : Client.Trace) : list Client.OpOutcome :=
  match tr with
  | [] => []
  | Client.EvOperation o :: tr' => o :: operations tr'
  | Client.EvBackoff _ :: tr' => operations tr'
  end.

End ClientTrace.

(** ** SQL commands: validation and accessors (internal/common) *)

Module Command.
Import GoStrings Errors SQL.

(** [SQLCommandType.IsValid] *)
Definition IsValid (c : SQLCommandType) : bool :=
  existsb (String.eqb c)
    [CommandSelect; CommandInsert; CommandUpdate; CommandDelete;
     CommandShow; CommandCreate; CommandDrop; CommandDescribe].

(** [NewValidationError] (internal/common/utils.go) *)
Definition NewValidationError (field message : string) : error := EValidation field message.

Definition validateSelect (cmd : SQLCommand) : option error :=
  match ValidateNotEmpty (Table cmd) "表名" with
  | Some err => Some err
  | None =>
      if (List.length (Fields cmd) =? 0)%nat
      then Some (NewValidationError "字段列表" "不能为空") else None
  end.

Definition validateInsert (cmd : SQLCommand) : option error :=
  match ValidateNotEmpty (Table cmd) "表名" with
  | Some err => Some err
  | None =>
      if (List.length (Values cmd) =? 0)%nat
      then Some (NewValidationError "插入值" "不能为空") else None
  end.

Definition validateUpdate (cmd : SQLCommand) : option error :=
  match ValidateNotEmpty (Table cmd) "表名" with
  | Some err => Some err
  | None =>
      if (List.length (Values cmd) =? 0)%nat && (List.length (UpdateFields cmd) =? 0)%nat
      then Some (NewValidationError "更新字段" "不能为空") else None
  end.

Definition validateDelete (cmd : SQLCommand) : option error :=
  ValidateNotEmpty (Table cmd) "表名".

Definition validateShow (cmd : SQLCommand) : option error :=
  if String.eqb (ShowType cmd) "" then Some (NewValidationError "SHOW 类型" "不能为空")
  else if String.eqb (ToUpper (ShowType cmd)) "COLUMNS"
  then ValidateNotEmpty (Table cmd) "表名"
  else None.

Definition validateCreate (cmd : SQLCommand) : option error :=
  ValidateNotEmpty (Table cmd) "表名".
Definition validateDrop (cmd : SQLCommand) : option error :=
  ValidateNotEmpty (Table cmd) "表名".
Definition validateDescribe (cmd : SQLCommand) : option error :=
  ValidateNotEmpty (Table cmd) "表名".

(** [SQLCommand.Validate] *)
Definition Validate (cmd : SQLCommand) : option error :=
  if negb (IsValid (Type_ cmd)) then Some (EPlain ("无效的命令类型: " ++ Type_ cmd))
  else if String.eqb (Type_ cmd) CommandSelect then validateSelect cmd
  else if String.eqb (Type_ cmd) CommandInsert then validateInsert cmd
  else if String.eqb (Type_ cmd) CommandUpdate then validateUpdate cmd
  else if String.eqb (Type_ cmd) CommandDelete then validateDelete cmd
  else if String.eqb (Type_ cmd) CommandShow then validateShow cmd
  else if String.eqb (Type_ cmd) CommandCreate then validateCreate cmd
  else if String.eqb (Type_ cmd) CommandDrop then validateDrop cmd
  else if String.eqb (Type_ cmd) CommandDescribe then validateDescribe cmd
  else Some (EPlain ("不支持的命令类型: " ++ Type_ cmd)).

(** [HasWhere] *)
Definition HasWhere (cmd : SQLCommand) : bool :=
  negb (String.eqb (Where cmd) "") || (0 <? List.length (Condition cmd))%nat.

(** [GetEffectiveValues] *)
Definition GetEffectiveValues (cmd : SQLCommand) : ValueMap :=
  if (0 <? List.length (Values cmd))%nat then Values cmd else UpdateFields cmd.

(** [SetValue] and [GetValue]; the pair [(value, exists)] of [GetValue]
    is an option. *)
Definition SetValue (field : string) (value : Value) (cmd : SQLCommand) : SQLCommand :=
  with_Values (map_set field value (Values cmd)) cmd.

Definition GetValue (field : string) (cmd : SQLCommand) : option Value :=
  match map_get field (Values cmd) with
  | Some v => Some v
  | None => map_get field (UpdateFields cmd)
  end.

(** [SetCondition] and [GetCondition] *)
Definition SetCondition (field : string) (value : Value) (cmd : SQLCommand) : SQLCommand :=
  with_Condition (map_set field value (Condition cmd)) cmd.

Definition GetCondition (field : string) (cmd : SQLCommand) : option Value :=
  map_get field (Condition cmd).

(** [Contains] on a slice of strings (internal/common/utils.go) *)
Fixpoint Contains (slice : list string) (item : string) : bool :=
  match slice with
  | [] => false
  | s :: slice' => if String.eqb s item then true else Contains slice' item
  end.

(** [AddField] and [HasField] *)
Definition AddField (field : string) (cmd : SQLCommand) : SQLCommand :=
  if negb (Contains (Fields cmd) field) then with_Fields (Fields cmd ++ [field]) cmd else cmd.

Definition HasField (field : string) (cmd : SQLCommand) : bool :=
  Contains (Fields cmd) field.

(** [IsSelectAll] *)
Definition IsSelectAll (cmd : SQLCommand) : bool :=
  String.eqb (Type_ cmd) CommandSelect
  && (List.length (Fields cmd) =? 1)%nat
  && String.eqb (nth 0 (Fields cmd) EmptyString) "*".

End Command.

(** ** The SELECT parser (internal/common) and the CLI's parser
    (internal/cli) *)

Module SelectParser.
Import GoStrings Regexp Strconv Errors SQL.

Definition with_Limit (n : Z) (c : SQLCommand) : SQLCommand :=
  {| Type_ := Type_ c; Table := Table c; Fields := Fields c; Values := Values c;
     Condition := Condition c; UpdateFields := UpdateFields c; Where := Where c;
     RawSQL := RawSQL c; ShowType := ShowType c; OrderBy := OrderBy c; Limit := n;
     Offset := Offset c; AggregateFunction := AggregateFunction c;
     AggregateField := AggregateField c; IsAggregate := IsAggregate c |}.

Definition with_ShowType (t : string) (c : SQLCommand) : SQLCommand :=
  {| Type_ := Type_ c; Table := Table c; Fields := Fields c; Values := Values c;
     Condition := Condition c; UpdateFields := UpdateFields c; Where := Where c;
     RawSQL := RawSQL c; ShowType := t; OrderBy := OrderBy c; Limit := Limit c;
     Offset := Offset c; AggregateFunction := AggregateFunction c;
     AggregateField := AggregateField c; IsAggregate := IsAggregate c |}.

Definition with_Aggregate (function field : string) (c : SQLCommand) : SQLCommand :=
  {| Type_ := Type_ c; Table := Table c; Fields := Fields c; Values := Values c;
     Condition := Condition c; UpdateFields := UpdateFields c; Where := Where c;
     RawSQL := RawSQL c; ShowType := ShowType c; OrderBy := OrderBy c; Limit := Limit c;
     Offset := Offset c; AggregateFunction := function;
     AggregateField := field; IsAggregate := true |}.

(** The pattern of [ParseSelectSQL], under [(?i)]: SELECT, a lazy group
    of any bytes, FROM, a group of bytes that are neither spaces nor
    semicolons, then optionally WHERE with a lazy group, optionally LIMIT
    with a group of digits, optionally a semicolon between spaces, and the
    end of the text. *)
Definition selectRe : regex :=
  cats [liti "SELECT"; sp1; Group 1 (StarLazy (Cls re_dot)); sp1; liti "FROM"; sp1;
        Group 2 (Plus (Cls (fun c => negb (re_space c || mem_byte c ";"))));
        Opt (cats [sp1; liti "WHERE"; sp1; Group 3 (StarLazy (Cls re_dot))]);
        Opt (cats [sp1; liti "LIMIT"; sp1; Group 4 (Plus (Cls re_digit))]);
        Opt (cats [sp0; lit ";"; sp0]);
        EndText].

(** The pattern of an aggregate, under [(?i)]: one of the five function
    names, an opening parenthesis, a star or a run of bytes other than
    the closing parenthesis, a closing parenthesis, with optional spaces. *)
Definition aggregateRe : regex :=
  cats [Group 1 (alts [liti "COUNT"; liti "SUM"; liti "AVG"; liti "MIN"; liti "MAX"]);
        sp0; lit "("; sp0;
        Group 2 (Alt (lit "*") (Plus (none_of ")")));
        sp0; lit ")"].

(** [SQLParser.ParseSelectSQL] *)
Definition ParseSelectSQL (sql : string) (cmd : SQLCommand) : result SQLCommand :=
  let cmd := with_Type CommandSelect cmd in
  let matches := FindStringSubmatch 4 selectRe sql in
  if (len_matches matches <? 3)%nat
  then Err (EPlain "SELECT 语法错误，正确格式: SELECT fields FROM table [WHERE condition] [LIMIT number]")
  else
    let fieldsStr := TrimSpace (at_ matches 1) in
    match ValidateNotEmpty fieldsStr "SELECT 字段列表" with
    | Some e => Err e
    | None =>
        let aggregateMatches := FindStringSubmatch 2 aggregateRe fieldsStr in
        let fields : result SQLCommand :=
          if (3 <=? len_matches aggregateMatches)%nat
          then Ok (with_Fields [fieldsStr]
                     (with_Aggregate (ToUpper (at_ aggregateMatches 1))
                        (TrimSpace (at_ aggregateMatches 2)) cmd))
          else if String.eqb fieldsStr "*" then Ok (with_Fields ["*"%string] cmd)
          else
            let fields := parseFieldList fieldsStr in
            if (List.length fields =? 0)%nat then Err (EPlain "SELECT 字段列表解析失败")
            else Ok (with_Fields fields cmd) in
        match fields with
        | Err e => Err e
        | Panic => Panic
        | Ok cmd =>
            let cmd := with_Table (TrimSpace (at_ matches 2)) cmd in
            match ValidateNotEmpty (Table cmd) "表名" with
            | Some e => Err e
            | None =>
                let after_where : result SQLCommand :=
                  if (3 <? len_matches matches)%nat && negb (String.eqb (at_ matches 3) "")
                  then
                    let whereClause := TrimSpace (at_ matches 3) in
                    let cmd := with_Where whereClause cmd in
                    match parseWhereClause whereClause with
                    | Panic => Panic
                    | Err e => Err (EWrap "WHERE 条件解析失败" e)
                    | Ok conditions => Ok (with_Condition conditions cmd)
                    end
                  else Ok cmd in
                match after_where with
                | Err e => Err e
                | Panic => Panic
                | Ok cmd =>
                    if (4 <? len_matches matches)%nat && negb (String.eqb (at_ matches 4) "")
                    then
                      let limitStr := TrimSpace (at_ matches 4) in
                      match Atoi limitStr with
                      | None => Err (EPlain ("LIMIT 值必须是数字: " ++ limitStr))
                      | Some limit =>
                          if limit <? 0
                          then Err (EPlain ("LIMIT 值不能为负数: " ++ Retry.Sprint_d limit))
                          else Ok (with_Limit limit cmd)
                      end
                    else Ok cmd
                end
            end
        end
    end.

End SelectParser.

Module CLI.
Import GoStrings Regexp Strconv Errors SQL.

(** [identifyCommandType] *)
Definition identifyCommandType (sql : string) : SQLCommandType :=
  let upperSQL := ToUpper sql in
  if HasPrefix upperSQL "SELECT" then CommandSelect
  else if HasPrefix upperSQL "INSERT" then CommandInsert
  else if HasPrefix upperSQL "UPDATE" then CommandUpdate
  else if HasPrefix upperSQL "DELETE" then CommandDelete
  else if HasPrefix upperSQL "SHOW" then CommandShow
  else if HasPrefix upperSQL "CREATE" then CommandCreate
  else if HasPrefix upperSQL "DROP" then CommandDrop
  else if HasPrefix upperSQL "DESCRIBE" || HasPrefix upperSQL "DESC" then CommandDescribe
  else CommandUnknown.

(** [(?i)SHOW\s+COLUMNS\s+FROM\s+([^\s;]+)] *)
Definition showColumnsRe : regex :=
  cats [liti "SHOW"; sp1; liti "COLUMNS"; sp1; liti "FROM"; sp1;
        Group 1 (Plus (Cls (fun c => negb (re_space c || mem_byte c ";"))))].

(** [parseShow] *)
Definition parseShow (sql : string) (cmd : SQLCommand) : result SQLCommand :=
  let upperSQL := ToUpper sql in
  if Contains upperSQL "TABLES" then Ok (SelectParser.with_ShowType "TABLES" cmd)
  else if Contains upperSQL "DATABASES" then Ok (SelectParser.with_ShowType "DATABASES" cmd)
  else if Contains upperSQL "COLUMNS" then
    let matches := FindStringSubmatch 1 showColumnsRe sql in
    if (len_matches matches <? 2)%nat
    then Err (EPlain "SHOW COLUMNS 语法错误，正确格式: SHOW COLUMNS FROM table_name")
    else Ok (with_Table (TrimSpace (at_ matches 1)) (SelectParser.with_ShowType "COLUMNS" cmd))
  else Err (EPlain ("不支持的 SHOW 命令: " ++ sql
                      ++ "，支持的命令: SHOW TABLES, SHOW COLUMNS FROM table")).

(** [parseValue] of the CLI: an error for the empty text, then the
    classification of [SQLParser.ParseValue]. *)
Definition parseValue (valueStr : string) : result Value :=
  if String.eqb valueStr "" then Err (EPlain "值不能为空")
  else
    match ParseValue valueStr with
    | Some v => Ok v
    | None => Panic
    end.

(** [parseWhereClause] of the CLI *)
Definition parseWhereClause (whereClause : string) : result ValueMap :=
  if String.eqb whereClause "" then Err (EPlain "WHERE 条件不能为空")
  else
    let likeMatches := FindStringSubmatch 2 likeRe whereClause in
    if (3 <=? len_matches likeMatches)%nat then
      let field := TrimSpace (at_ likeMatches 1) in
      match parseValue (TrimSpace (at_ likeMatches 2)) with
      | Panic => Panic
      | Err e => Err (EWrap "解析 WHERE 条件值失败" e)
      | Ok value =>
          Ok (map_set ("_operator_" ++ field) (VString "LIKE") (map_set field value []))
      end
    else
      let compareMatches := FindStringSubmatch 3 compareRe whereClause in
      if (4 <=? len_matches compareMatches)%nat then
        let field := TrimSpace (at_ compareMatches 1) in
        let operator := TrimSpace (at_ compareMatches 2) in
        match parseValue (TrimSpace (at_ compareMatches 3)) with
        | Panic => Panic
        | Err e => Err (EWrap "解析 WHERE 条件值失败" e)
        | Ok value =>
            let result := map_set field value [] in
            Ok (if negb (String.eqb operator "=")
                then map_set ("_operator_" ++ field) (VString operator) result
                else result)
        end
      else Err (EPlain "WHERE 条件格式错误，支持的格式: field = value, field LIKE 'pattern', field > value, field < value, field >= value, field <= value, field != value").

(** The tab byte that ends the pattern of [parseDelete]. *)
Definition tab : ascii := ascii_of_nat 9.

(** The pattern of [parseDelete], under [(?i)]: DELETE, FROM, a group of
    bytes that are neither spaces nor semicolons, optionally WHERE with a
    greedy group of any bytes, and then a tab: the source text of the
    pattern has a tab byte before its closing back quote. *)
Definition deleteTabRe : regex :=
  cats [liti "DELETE"; sp1; liti "FROM"; sp1;
        Group 1 (Plus (Cls (fun c => negb (re_space c || mem_byte c ";"))));
        Opt (cats [sp1; liti "WHERE"; sp1; Group 2 (Star (Cls re_dot))]);
        chr tab].

(** [FormatError] (internal/common/utils.go) for an error that is not nil *)
Definition FormatError (operation : string) (err : error) : error :=
  EWrap (operation ++ "失败") err.

(** [parseDelete] *)
Definition parseDelete (sql : string) (cmd : SQLCommand) : result SQLCommand :=
  let matches := FindStringSubmatch 2 deleteTabRe sql in
  if (len_matches matches <? 2)%nat
  then Err (EPlain "DELETE 语法错误，正确格式: DELETE FROM table [WHERE condition]")
  else
    let cmd := with_Table (TrimSpace (at_ matches 1)) cmd in
    match ValidateNotEmpty (Table cmd) "表名" with
    | Some e => Err e
    | None =>
        if (2 <? len_matches matches)%nat && negb (String.eqb (at_ matches 2) "")
        then
          let whereClause := TrimSpace (at_ matches 2) in
          let cmd := with_Where whereClause cmd in
          match parseWhereClause whereClause with
          | Panic => Panic
          | Err e => Err (FormatError "WHERE 条件解析" e)
          | Ok conditions => Ok (with_Condition conditions cmd)
          end
        else Ok cmd
    end.

(** [ParseSQL] *)
Definition ParseSQL (sql : string) : result SQLCommand :=
  match ValidateNotEmpty sql "SQL 语句" with
  | Some e => Err e
  | None =>
      let sql := PreprocessSQL sql in
      let cmdType := identifyCommandType sql in
      let cmd := with_RawSQL sql (NewSQLCommand cmdType) in
      if String.eqb cmdType CommandSelect then SelectParser.ParseSelectSQL sql cmd
      else if String.eqb cmdType CommandInsert then ParseInsertSQL sql cmd
      else if String.eqb cmdType CommandUpdate then ParseUpdateSQL sql cmd
      else if String.eqb cmdType CommandDelete then parseDelete sql cmd
      else if String.eqb cmdType CommandShow then parseShow sql cmd
      else Err (EPlain ("不支持的 SQL 命令类型: " ++ cmdType))
  end.

End CLI.


(** ** What a pattern matches

    [Matches r w rest]: the pattern [r] can match the text [w] when the
    text [rest] follows it ([rest] matters to the end-of-text anchor
    only).  A round of a repetition takes at least one byte. *)

Module Language.
Import Regexp.

Inductive Matches : regex -> string -> string -> Prop :=
| MCls (p : ascii -> bool) (c : ascii) (rest : string) :
    p c = true -> Matches (Cls p) (String c EmptyString) rest
| MEps (rest : string) : Matches Eps EmptyString rest
| MCat (r1 r2 : regex) (w1 w2 rest : string) :
    Matches r1 w1 (w2 ++ rest) -> Matches r2 w2 rest ->
    Matches (Cat r1 r2) (w1 ++ w2) rest
| MAltL (r1 r2 : regex) (w rest : string) :
    Matches r1 w rest -> Matches (Alt r1 r2) w rest
| MAltR (r1 r2 : regex) (w rest : string) :
    Matches r2 w rest -> Matches (Alt r1 r2) w rest
| MStarNil (r : regex) (rest : string) : Matches (Star r) EmptyString rest
| MStarCons (r : regex) (w1 w2 rest : string) :
    w1 <> EmptyString ->
    Matches r w1 (w2 ++ rest) -> Matches (Star r) w2 rest ->
    Matches (Star r) (w1 ++ w2) rest
| MLazyNil (r : regex) (rest : string) : Matches (StarLazy r) EmptyString rest
| MLazyCons (r : regex) (w1 w2 rest : string) :
    w1 <> EmptyString ->
    Matches r w1 (w2 ++ rest) -> Matches (StarLazy r) w2 rest ->
    Matches (StarLazy r) (w1 ++ w2) rest
| MGroup (n : nat) (r : regex) (w rest : string) :
    Matches r w rest -> Matches (Group n r) w rest
| MEndText : Matches EndText EmptyString EmptyString.

(** [w] occurs in [s]. *)
Definition occurs (w s : string) : Prop :=
  exists pre post : string, s = (pre ++ w ++ post)%string.

(** [r] matches somewhere in [s]. *)
Definition matches_in (r : regex) (s : string) : Prop :=
  exists pre w rest : string, s = (pre ++ w ++ rest)%string /\ Matches r w rest.

End Language.

(** ** Validation of filters (models.go, errors.go) *)

Module Models.
Import Filter.

(** [BaseError] (errors.go) *)
Record BaseError := {
  Code : string;
  Message : string;
  Details : string
}.

(** What a [Validate] returns: a [*BaseError], or one wrapped by
    [fmt.Errorf] with [%w]. *)
Inductive error :=
| EBase (e : BaseError)
| EWrapped (msg : string) (inner : BaseError).

(** [ErrInvalidConfig] *)
Definition ErrInvalidConfig (details : string) : BaseError :=
  {| Code := "INVALID_CONFIG"; Message := "invalid configuration"; Details := details |}.

Definition validOperators : list string :=
  [ "is"; "isNot"; "contains"; "doesNotContain";
    "isEmpty"; "isNotEmpty"; "isGreater"; "isGreaterEqual";
    "isLess"; "isLessEqual"; "like"; "in"; "notIn" ]%string.

Definition needsValue : list string :=
  [ "is"; "isNot"; "contains"; "doesNotContain"; "isGreater"; "isGreaterEqual";
    "isLess"; "isLessEqual"; "like"; "in"; "notIn" ]%string.

(** [FilterCondition.Validate] *)
Definition FilterCondition_Validate (fc : FilterCondition) : option BaseError :=
  if String.eqb (FieldName fc) ""
  then Some (ErrInvalidConfig "过滤条件的字段名 不能为空")
  else if String.eqb (Operator fc) ""
  then Some (ErrInvalidConfig "过滤条件的操作符 不能为空")
  else if negb (existsb (String.eqb (Operator fc)) validOperators)
  then Some (ErrInvalidConfig ("无效的过滤操作符: " ++ Operator fc))
  else if existsb (fun op => String.eqb (Operator fc) op
                             && (List.length (Value fc) =? 0)%nat) needsValue
  then Some (ErrInvalidConfig ("操作符 " ++ Operator fc ++ " 需要提供过滤值"))
  else None.

(** The loop of [FilterRequest.Validate] over the conditions, from
    index [i]. *)
Fixpoint validate_conditions (i : Z) (conditions : list FilterCondition) : option error :=
  match conditions with
  | [] => None
  | condition :: rest =>
      match FilterCondition_Validate condition with
      | Some err => Some (EWrapped ("过滤条件 " ++ Retry.Sprint_d i ++ " 验证失败") err)
      | None => validate_conditions (i + 1) rest
      end
  end.

(** [FilterRequest.Validate] *)
Definition FilterRequest_Validate (fr : FilterRequest) : option error :=
  if (List.length (Conditions fr) =? 0)%nat
  then Some (EBase (ErrInvalidConfig "过滤请求必须包含至少一个条件"))
  else if negb (String.eqb (Conjunction fr) "")
          && negb (String.eqb (Conjunction fr) "and")
          && negb (String.eqb (Conjunction fr) "or")
  then Some (EBase (ErrInvalidConfig "连接符只能是 'and' 或 'or'"))
  else validate_conditions 0 (Conditions fr).

(** The operators the two translators write. *)
Definition builtOperators : list string :=
  [ "isNotEmpty"; "isEmpty"; "isNot"; "isGreaterEqual"; "isLessEqual";
    "isGreater"; "isLess"; "is"; "contains"; "isAnyOf" ]%string.

End Models.

(** ** Helpers of internal/common/utils.go

    The functions that measure and cut texts for display range over the
    runes of a string and build their result rune by rune, so a text is
    here the sequence of runes that ranging over it yields (an ill-formed
    byte yields U+FFFD).  Appending ASCII text to a string appends its
    runes to that sequence. *)

Module Utils.

Definition rune := Z.
Definition runes := list rune.

(** [utf8.RuneLen] *)
Definition RuneLen (r : rune) : Z :=
  if r <? 0 then -1
  else if r <=? 127 then 1
  else if r <=? 2047 then 2
  else if (55296 <=? r) && (r <=? 57343) then -1
  else if r <=? 65535 then 3
  else if r <=? 1114111 then 4
  else -1.

(** The width the loops give a rune: 2 when it takes more than one
    byte, else 1. *)
Definition runeWidth (r : rune) : Z := if RuneLen r >? 1 then 2 else 1.

(** The loop of [GetDisplayWidth].  The width is at most twice the
    number of bytes of the text, so the addition cannot overflow. *)
Fixpoint width_loop (s : runes) (width : Z) : Z :=
  match s with
  | [] => width
  | r :: s' => width_loop s' (width + runeWidth r)
  end.

(** [GetDisplayWidth] *)
Definition GetDisplayWidth (s : runes) : Z := width_loop s 0.

(** The three full stops of ["..."], and a space. *)
Definition ellipsis : runes := [46; 46; 46].
Definition space : rune := 32.

(** The loop of [TruncateString]; [maxLen-3] is an [int] subtraction. *)
Fixpoint truncate_loop (s : runes) (maxLen : Z) (currentWidth : Z) (result : runes) : runes :=
  match s with
  | [] => result
  | r :: s' =>
      if currentWidth + runeWidth r >? GoInt.wrap (maxLen - 3) then result
      else truncate_loop s' maxLen (currentWidth + runeWidth r) (result ++ [r])
  end.

(** [TruncateString] *)
Definition TruncateString (s : runes) (maxLen : Z) : runes :=
  if GetDisplayWidth s <=? maxLen then s
  else truncate_loop s maxLen 0 [] ++ ellipsis.

(** [PadString]; the padding is positive and at most [width] where it
    is computed. *)
Definition PadString (s : runes) (width : Z) : runes :=
  let displayWidth := GetDisplayWidth s in
  if displayWidth >=? width then s
  else s ++ repeat space (Z.to_nat (width - displayWidth)).

(** One step of the loop of [RemoveDuplicates]: [keys] holds the items
    whose entry in the map is true. *)
Definition dedup_step (st : list string * list string) (item : string)
  : list string * list string :=
  let '(keys, result) := st in
  if negb (existsb (String.eqb item) keys) then (item :: keys, result ++ [item]) else st.

(** [RemoveDuplicates] *)
Definition RemoveDuplicates (slice : list string) : list string :=
  snd (fold_left dedup_step slice ([], [])).

End Utils.

(** ** The result table of the command line (internal/cli) *)

Module TableView.
Import Utils.

(** The loop of [calculateColumnWidths] (and of
    [calculateGormColumnWidths]) for one column: [values] are the
    formatted values of the records that hold the field. *)
Definition column_width (fieldName : runes) (values : list runes) : Z :=
  let w :=
    fold_left (fun w valStr =>
                 let displayWidth := GetDisplayWidth valStr in
                 if displayWidth >? w then displayWidth else w)
              values (GetDisplayWidth fieldName) in
  if w <? 8 then 8 else if w >? 30 then 30 else w.

(** The text [printTableHeader] and [printTableRows] print between the
    bars for a name or a value, without the space before and after. *)
Definition cell (val : runes) (colWidth : Z) : runes :=
  let val :=
    if GetDisplayWidth val >? colWidth
    then TruncateString val (GoInt.wrap (colWidth - 3)) ++ ellipsis
    else val in
  PadString val colWidth.

End TableView.

(** ** The query optimizer (internal/performance) *)

Module Optimizer.

(** [queries[i:end]]; [None] is the panic of a slice expression whose
    bounds are out of range. *)
Definition slice {A : Type} (l : list A) (i j : Z) : option (list A) :=
  if (0 <=? i) && (i <=? j) && (j <=? Z.of_nat (List.length l))
  then Some (firstn (Z.to_nat (j - i)) (skipn (Z.to_nat i) l))
  else None.

(** The loop of [splitIntoBatches]: [None] when [fuel] rounds did not
    end it, [Some None] for a panic. *)
Fixpoint split_loop (fuel : nat) (maxBatchSize : Z) (queries : list string) (i : Z)
    (batches : list (list string)) : option (option (list (list string))) :=
  match fuel with
  | O => None
  | S fuel' =>
      let len := Z.of_nat (List.length queries) in
      if i <? len then
        let end_ := GoInt.wrap (i + maxBatchSize) in
        let end_ := if end_ >? len then len else end_ in
        match slice queries i end_ with
        | None => Some None
        | Some batch =>
            split_loop fuel' maxBatchSize queries (GoInt.wrap (i + maxBatchSize))
                       (batches ++ [batch])
        end
      else Some (Some batches)
  end.

(** [splitIntoBatches] *)
Definition splitIntoBatches (fuel : nat) (maxBatchSize : Z) (queries : list string)
  : option (option (list (list string))) :=
  split_loop fuel maxBatchSize queries 0 [].

(** [generateCacheKey] *)
Fixpoint key_loop (queries : list string) (key : string) : string :=
  match queries with
  | [] => key
  | query :: rest => key_loop rest (key ++ query ++ "|")
  end.

Definition generateCacheKey (queries : list string) : string := key_loop queries "".

End Optimizer.

(** ** The SELECT path of the command line's executor (internal/cli)

    The filter reads a field of a record through [%v] and a test for nil
    only, so the value of a field is here nil or the text [%v] gives
    it.  A parsed value is printed by [%v] as itself (a string), in decimal
    (an int), as true or false, as <nil>; the text of a float64 is left
    to [fmt_float].  Texts are byte strings, taken to be well-formed
    UTF-8, for which ranging over the runes and matching byte by byte
    agree. *)

Module Select.
Import GoStrings Regexp Errors SQL.

Definition FieldValue := option string.

(** [basesql.Record] and [basesql.Field], with what the executor reads *)
Record Record_ := {
  Fields : list (string * FieldValue)
}.

Record Field := {
  FieldID : string;
  FieldName : string
}.

(** [record.Fields[key]]: nil for a key that is missing and for one
    that holds nil. *)
Fixpoint lookup (key : string) (m : list (string * FieldValue)) : FieldValue :=
  match m with
  | [] => None
  | (k, v) :: m' => if String.eqb key k then v else lookup key m'
  end.

(** [fieldNameToID[fieldName]] after the loop over the fields: the ID
    of the last field with that name. *)
Fixpoint name_to_id (fields : list Field) (fieldName : string) : option string :=
  match fields with
  | [] => None
  | f :: fields' =>
      match name_to_id fields' fieldName with
      | Some id => Some id
      | None => if String.eqb (FieldName f) fieldName then Some (FieldID f) else None
      end
  end.

Section Formatting.
Variable fmt_float : Strconv.float64 -> string.

(** [fmt.Sprintf("%v", expectedValue)] *)
Definition Sprint_v (v : Value) : string :=
  match v with
  | VNil => "<nil>"
  | VInt n => Retry.Sprint_d n
  | VFloat64 f => fmt_float f
  | VBool b => if b then "true" else "false"
  | VString s => s
  end.

(** [fmt.Sprintf("%v", actualValue)] *)
Definition actual_text (actualValue : FieldValue) : string :=
  match actualValue with
  | None => "<nil>"
  | Some text => text
  end.

(** The pattern [matchLike] builds from the expected text, without its
    anchors: a percent sign is [.*], every other byte stands for itself
    (the bytes that mean something to [regexp] are escaped). *)
Fixpoint like_pattern (expectedStr : string) : regex :=
  match expectedStr with
  | EmptyString => Eps
  | String c rest =>
      Cat (if Ascii.eqb c "%" then Star (Cls re_dot) else chr c) (like_pattern rest)
  end.

(** [matchLike]; the pattern is anchored at both ends, so the match is
    tried at the start of the text only. *)
Definition matchLike (actualValue : FieldValue) (expectedValue : Value) : bool :=
  let actualStr := actual_text actualValue in
  let expectedStr := Sprint_v expectedValue in
  if Contains expectedStr "%" then
    match match_at (Cat (like_pattern expectedStr) EndText) actualStr with
    | Some _ => true
    | None => false
    end
  else Contains actualStr expectedStr.

Definition is_nil (v : Value) : bool := match v with VNil => true | _ => false end.

(** [matchEqual] *)
Definition matchEqual (actualValue : FieldValue) (expectedValue : Value) : bool :=
  match actualValue with
  | None =>
      is_nil expectedValue || String.eqb (Sprint_v expectedValue) ""
      || String.eqb (Sprint_v expectedValue) "<nil>"
  | Some text =>
      if is_nil expectedValue
      then String.eqb text "" || String.eqb text "<nil>"
      else
        let actualStr := if String.eqb text "<nil>" then ""%string else text in
        let expectedStr :=
          if String.eqb (Sprint_v expectedValue) "<nil>" then ""%string
          else Sprint_v expectedValue in
        String.eqb actualStr expectedStr
  end.

(** The value [filterRecords] reads for a condition: the one under the
    name of the field, or when that is nil the one under the ID the field
    list gives the name. *)
Definition actual_value (fields : list Field) (record : Record_) (fieldName : string)
  : FieldValue :=
  match lookup fieldName (Fields record) with
  | Some text => Some text
  | None =>
      match name_to_id fields fieldName with
      | Some fieldID => lookup fieldID (Fields record)
      | None => None
      end
  end.

(** The inner loop of [filterRecords] over the conditions ([todo] is
    what is left of them): does the record pass every one? *)
Fixpoint record_matches (fields : list Field) (conditions todo : ValueMap)
    (record : Record_) : bool :=
  match todo with
  | [] => true
  | (fieldName, expectedValue) :: todo' =>
      if HasPrefix fieldName "_operator_" then record_matches fields conditions todo' record
      else
        let actualValue := actual_value fields record fieldName in
        let isLike :=
          match map_get ("_operator_" ++ fieldName) conditions with
          | Some (VString operator) => String.eqb operator "LIKE"
          | _ => false
          end in
        if isLike
        then if negb (matchLike actualValue expectedValue) then false
             else record_matches fields conditions todo' record
        else if negb (matchEqual actualValue expectedValue) then false
             else record_matches fields conditions todo' record
  end.

(** [filterRecords] *)
Definition filterRecords (records : list Record_) (fields : list Field)
    (conditions : ValueMap) : list Record_ :=
  if (List.length conditions =? 0)%nat then records
  else filter (record_matches fields conditions conditions) records.

End Formatting.

(** A page of [ListRecordsAPIResponse.Data] *)
Record Page := {
  Items : list Record_;
  HasMore : bool;
  PageToken : string
}.

(** What comes of one request for a page: [DoRequest] fails, the body
    cannot be decoded, or a response with its code, message and data. *)
Inductive Reply :=
| RequestFailed (err : error)
| Undecodable (err : error)
| Answer (Code : Z) (Msg : string) (Data : option Page).

(** The loop over the items of a page. *)
Fixpoint append_items (items : list Record_) (limit : Z) (allRecords : list Record_)
  : list Record_ :=
  match items with
  | [] => allRecords
  | item :: items' =>
      let allRecords := allRecords ++ [item] in
      if (limit >? 0) && (Z.of_nat (List.length allRecords) >=? limit) then allRecords
      else append_items items' limit allRecords
  end.

(** The loop of [getRecordsWithLimit]: [server pageNum pageToken] is the
    outcome of the request for the page with that token, the [pageNum]-th
    request.  [None] when [fuel] requests did not end the loop. *)
Fixpoint records_loop (fuel : nat) (server : Z -> string -> Reply) (limit : Z)
    (pageNum : Z) (pageToken : string) (allRecords : list Record_)
  : option (list Record_ + error) :=
  match fuel with
  | O => None
  | S fuel' =>
      match server pageNum pageToken with
      | RequestFailed err => Some (inr (EWrap "API 请求失败" err))
      | Undecodable err => Some (inr (EWrap "解析记录响应失败" err))
      | Answer code msg None =>
          Some (inr (EPlain ("API调用失败: code=" ++ Retry.Sprint_d code ++ ", msg=" ++ msg)))
      | Answer code msg (Some data) =>
          if negb (code =? 0)
          then Some (inr (EPlain ("API调用失败: code=" ++ Retry.Sprint_d code
                                    ++ ", msg=" ++ msg)))
          else
            let allRecords := append_items (Items data) limit allRecords in
            if (limit >? 0) && (Z.of_nat (List.length allRecords) >=? limit)
            then Some (inl allRecords)
            else if negb (HasMore data) then Some (inl allRecords)
            else records_loop fuel' server limit (pageNum + 1) (PageToken data) allRecords
      end
  end.

(** [getRecordsWithLimit] and [getRecords] *)
Definition getRecordsWithLimit (fuel : nat) (server : Z -> string -> Reply) (limit : Z)
  : option (list Record_ + error) :=
  records_loop fuel server limit 1 "" [].

Definition getRecords (fuel : nat) (server : Z -> string -> Reply)
  : option (list Record_ + error) :=
  getRecordsWithLimit fuel server (-1).

(** The records [selectData] shows for a command that is no aggregate:
    those it fetches, filtered by the conditions. *)
Definition selectData_records (fmt_float : Strconv.float64 -> string) (fuel : nat)
    (server : Z -> string -> Reply) (fields : list Field) (cmd : SQLCommand)
  : option (list Record_ + error) :=
  let fetched :=
    if Limit cmd >? 0 then getRecordsWithLimit fuel server (Limit cmd)
    else getRecords fuel server in
  match fetched with
  | None => None
  | Some (inr err) => Some (inr (EWrap "获取记录失败" err))
  | Some (inl records) =>
      Some (inl (filterRecords fmt_float records fields (Condition cmd)))
  end.

(** The server holds these pages: the first request gets the first,
    each page but the last says there are more and names the next. *)
Fixpoint serves (server : Z -> string -> Reply) (pageNum : Z) (pageToken : string)
    (pages : list Page) : Prop :=
  match pages with
  | [] => False
  | page :: rest =>
      (exists msg, server pageNum pageToken = Answer 0 msg (Some page)) /\
      match rest with
      | [] => HasMore page = false
      | _ => HasMore page = true /\ serves server (pageNum + 1) (PageToken page) rest
      end
  end.

(** All the records of the pages, in order. *)
Definition all_items (pages : list Page) : list Record_ := flat_map Items pages.

End Select.
(** ** Concrete inputs used by the examples below *)

Module Examples.
Import GoTime Errors.

(** The configuration of scenario S6: three failures open the breaker. *)
Definition breaker_config : Breaker.CircuitBreakerConfig :=
  {| Breaker.MaxFailures := 3; Breaker.Timeout := 30 * Second;
     Breaker.MaxRequests := 2; Breaker.Interval := 60 * Second |}.

Definition network_error : error := EPlain "dial tcp: connection refused".



(** Scenario S5: a new default bucket (10 tokens per second, burst 20)
    after 20 requests submitted at the same instant. *)
Definition drained_bucket : RateLimiter.TokenBucket :=
  RateLimiter.run (repeat (RateLimiter.OpWait 0 false 0) 20)
    (RateLimiter.NewTokenBucket None 0).

(** Scenario S6: a breaker opened by three network errors, the last
    one at second 3. *)
Definition open_breaker : Breaker.CircuitBreaker :=
  Breaker.execs
    (Breaker.failing network_error
       [(1 * Second, 1 * Second); (2 * Second, 2 * Second); (3 * Second, 3 * Second)])
    (Breaker.NewCircuitBreaker (Some breaker_config)).

(** A client with the default retry policy, a full default bucket and
    that breaker. *)
Definition client_with_open_breaker : Client.Client :=
  {| Client.retryConfig := Retry.DefaultRetryConfig;
     Client.circuitBreaker := open_breaker;
     Client.rateLimiter := RateLimiter.NewTokenBucket None 0 |}.

(** An environment in which attempt [i] happens at second [4 + 5 i] and
    the server would answer 200 if it were asked. *)
Definition healthy_env (i : Z) : Client.Attempt :=
  {| Client.now_allow := (4 + 5 * i) * Second;
     Client.now_admit := (4 + 5 * i) * Second;
     Client.outcome := Client.Responded 200 "{}" None None;
     Client.now_record := (4 + 5 * i) * Second;
     Client.cancelled := false |}.

(** A client whose bucket is empty, with a closed breaker that has
    already counted two failures. *)
Definition client_with_empty_bucket : Client.Client :=
  {| Client.retryConfig := Retry.DefaultRetryConfig;
     Client.circuitBreaker :=
       Breaker.execs
         (Breaker.failing network_error [(1, 1); (2, 2)])
         (Breaker.NewCircuitBreaker (Some breaker_config));
     Client.rateLimiter := drained_bucket |}.

(** An attempt made at the instant the bucket was drained. *)
Definition attempt_at_zero : Client.Attempt :=
  {| Client.now_allow := 0; Client.now_admit := 0;
     Client.outcome := Client.Responded 200 "{}" None None;
     Client.now_record := 0; Client.cancelled := false |}.

(** The four plain statements, and the commands the parser makes of
    them ([RawSQL] is the statement, as [ParseSQL] sets it). *)
Definition insert_sql : string := "INSERT INTO users (name) VALUES ('a')".
Definition update_sql : string := "UPDATE users SET age=1".
Definition delete_sql : string := "DELETE FROM users".
Definition drop_sql : string := "DROP TABLE users".

Definition insert_cmd : SQL.SQLCommand :=
  SQL.with_Values [("name", SQL.VString "a")]%string
    (SQL.with_Fields ["name"%string]
       (SQL.with_Table "users"
          (SQL.with_RawSQL insert_sql (SQL.NewSQLCommand SQL.CommandInsert)))).

Definition update_cmd : SQL.SQLCommand :=
  SQL.with_Values [("age", SQL.VFloat64 (Strconv.FFinite 1))]%string
    (SQL.with_UpdateFields [("age", SQL.VFloat64 (Strconv.FFinite 1))]%string
       (SQL.with_Table "users"
          (SQL.with_RawSQL update_sql (SQL.NewSQLCommand SQL.CommandUpdate)))).

Definition delete_cmd : SQL.SQLCommand :=
  SQL.with_Table "users"
    (SQL.with_RawSQL delete_sql (SQL.NewSQLCommand SQL.CommandDelete)).

Definition drop_cmd : SQL.SQLCommand :=
  SQL.with_Table "users"
    (SQL.with_RawSQL drop_sql (SQL.NewSQLCommand SQL.CommandDrop)).

(** The first of the validator's patterns, the keyword pairs. *)
Definition keyword_pattern : Security.Pattern :=
  nth 0 Security.dangerousPatterns {| Security.source := ""; Security.re := Regexp.Eps |}.

(** Scenario S7: a table [users] (id [tbl1]) with seven records.  The
    service answers the list of tables and the list of records of the
    table in its envelope, and would refuse the DELETE of the fourth
    record. *)
Definition users_table : Bridge.Table :=
  {| Bridge.TableID := "tbl1"; Bridge.Name := "users" |}.

Definition seven_records : list Bridge.Record_ :=
  map Bridge.Build_Record_ ["rec1"; "rec2"; "rec3"; "rec4"; "rec5"; "rec6"; "rec7"]%string.

Definition record_document (r : Bridge.Record_) : JSON.value :=
  JSON.Object [("record_id", JSON.Str (Bridge.RecordID r));
               ("fields", JSON.Object [("name", JSON.Str "a")])]%string.

Definition records_document : JSON.value :=
  Bridge.envelope (JSON.Number 0) (JSON.Str "success")
    (JSON.Object [("has_more", JSON.Bool false);
                  ("page_token", JSON.Str "");
                  ("total", JSON.Number 7);
                  ("items", JSON.Array (map record_document seven_records))]%string).

Definition delete_refused : error := EPlain "record is locked".

Definition s7_env : Bridge.Env :=
  {| Bridge.remote := fun _ req =>
       if String.eqb (Bridge.Method req) "DELETE"
       then if GoStrings.HasSuffix (Bridge.Path req) "/rec4" then inr delete_refused
            else inl {| Bridge.StatusCode := 200;
                        Bridge.RespBody :=
                          Some (Bridge.envelope (JSON.Number 0) (JSON.Str "success")
                                  (JSON.Object [("deleted", JSON.Bool true)]%string)) |}
       else if GoStrings.HasSuffix (Bridge.Path req) "/tables"
       then inl {| Bridge.StatusCode := 200;
                   Bridge.RespBody := Some (Bridge.tables_document "success" [users_table]) |}
       else inl {| Bridge.StatusCode := 200; Bridge.RespBody := Some records_document |} |}.

(** A statement's [*gorm.DB] before the handler runs. *)
Definition fresh_db : Bridge.DB := {| Bridge.RowsAffected := 0; Bridge.Error := None |}.



(** Three failures open the breaker of scenario S6; after the timeout
    three admission checks follow one another before any probe has
    reported. *)
Definition probing_steps : list Breaker.step :=
  [ Breaker.StRecord (1 * Second) (Some network_error);
    Breaker.StRecord (2 * Second) (Some network_error);
    Breaker.StRecord (3 * Second) (Some network_error);
    Breaker.StAllow (34 * Second);
    Breaker.StAllow (35 * Second);
    Breaker.StAllow (36 * Second) ].

End Examples.

(* ================================================================== *)
(** * Part II: properties *)
(* ================================================================== *)

Lemma wrap_in_range (z : Z) : GoInt.in_range z -> GoInt.wrap z = z.
Proof.
  unfold GoInt.in_range, GoInt.wrap, GoInt.MinInt, GoInt.MaxInt. intros H.
  rewrite Z.mod_small; lia.
Qed.

(** ** Circuit breaker *)

Import GoTime Errors.

Lemma breaker_record_closed_fail (now : Time) (e : error) (cb : Breaker.CircuitBreaker) :
  Breaker.state cb = Breaker.StateClosed ->
  0 <= Breaker.failures cb < GoInt.MaxInt ->
  let cb' := Breaker.recordResult now (Some e) cb in
  Breaker.config cb' = Breaker.config cb /\
  Breaker.failures cb' = Breaker.failures cb + 1 /\
  Breaker.lastFailTime cb' = now /\
  Breaker.requests cb' = Breaker.requests cb /\
  Breaker.state cb' =
    (if Breaker.failures cb + 1 >=? Breaker.MaxFailures (Breaker.config cb)
     then Breaker.StateOpen else Breaker.StateClosed).
Proof.
  intros Hs Hf. unfold Breaker.recordResult. rewrite Hs. cbn.
  rewrite wrap_in_range by (unfold GoInt.in_range, GoInt.MinInt, GoInt.MaxInt in *; lia).
  destruct (Breaker.failures cb + 1 >=? Breaker.MaxFailures (Breaker.config cb)); cbn; auto.
Qed.

Lemma breaker_exec_closed (ta tr : Time) (err : option error) (cb : Breaker.CircuitBreaker) :
  Breaker.state cb = Breaker.StateClosed ->
  Breaker.exec ta tr err cb = (err, Breaker.recordResult tr err cb).
Proof.
  intros Hs. unfold Breaker.exec, Breaker.Execute, Breaker.allowRequest. rewrite Hs. reflexivity.
Qed.

Lemma breaker_do_step_config (s : Breaker.step) (cb : Breaker.CircuitBreaker) :
  Breaker.config (Breaker.do_step s cb) = Breaker.config cb.
Proof.
  destruct s as [now|now err| |]; cbn; try reflexivity.
  - unfold Breaker.allowRequest.
    destruct (Breaker.state cb); cbn; try reflexivity.
    destruct (_ >? _); reflexivity.
  - unfold Breaker.recordResult.
    destruct (Breaker.state cb), err; cbn; try reflexivity.
    + destruct (_ >=? _); reflexivity.
    + destruct (_ >=? _); reflexivity.
Qed.

Lemma breaker_run_config (ss : list Breaker.step) (cb : Breaker.CircuitBreaker) :
  Breaker.config (Breaker.run ss cb) = Breaker.config cb.
Proof.
  revert cb. induction ss as [|s ss IH]; intros cb; [reflexivity|].
  unfold Breaker.run in *. cbn. rewrite IH. apply breaker_do_step_config.
Qed.

(** The CLOSED invariant is kept by every atomic step. *)
Lemma breaker_do_step_inv (s : Breaker.step) (cb : Breaker.CircuitBreaker) :
  1 <= Breaker.MaxFailures (Breaker.config cb) <= GoInt.MaxInt ->
  (Breaker.state cb = Breaker.StateClosed ->
   0 <= Breaker.failures cb < Breaker.MaxFailures (Breaker.config cb)) ->
  Breaker.state (Breaker.do_step s cb) = Breaker.StateClosed ->
  0 <= Breaker.failures (Breaker.do_step s cb) < Breaker.MaxFailures (Breaker.config cb).
Proof.
  intros Hk Hinv.
  destruct s as [now|now err| |]; cbn.
  - unfold Breaker.allowRequest.
    destruct (Breaker.state cb) eqn:Hs; cbn; auto.
    + destruct (_ >? _); cbn; [discriminate|]. rewrite Hs. discriminate.
    + rewrite Hs. discriminate.
  - unfold Breaker.recordResult.
    destruct (Breaker.state cb) eqn:Hs.
    + specialize (Hinv eq_refl). destruct err as [e|]; cbn.
      * rewrite wrap_in_range
          by (unfold GoInt.in_range, GoInt.MinInt, GoInt.MaxInt in *; lia).
        rewrite Z.geb_leb.
        destruct (Z.leb_spec (Breaker.MaxFailures (Breaker.config cb)) (Breaker.failures cb + 1));
          cbn; [discriminate|]. intros _. lia.
      * intros _. lia.
    + rewrite Hs. discriminate.
    + destruct err as [e|]; cbn; [discriminate|].
      destruct (_ >=? _); cbn; [intros _; lia|]. rewrite Hs. discriminate.
  - intros _. lia.
  - exact Hinv.
Qed.

Lemma breaker_run_inv (ss : list Breaker.step) (cb : Breaker.CircuitBreaker) :
  1 <= Breaker.MaxFailures (Breaker.config cb) <= GoInt.MaxInt ->
  (Breaker.state cb = Breaker.StateClosed ->
   0 <= Breaker.failures cb < Breaker.MaxFailures (Breaker.config cb)) ->
  Breaker.state (Breaker.run ss cb) = Breaker.StateClosed ->
  0 <= Breaker.failures (Breaker.run ss cb) < Breaker.MaxFailures (Breaker.config cb).
Proof.
  revert cb. induction ss as [|s ss IH]; intros cb Hk Hinv; [exact Hinv|].
  unfold Breaker.run in *. cbn.
  rewrite <- (breaker_do_step_config s cb) in *.
  apply IH; [exact Hk|].
  rewrite (breaker_do_step_config s cb) in *.
  apply breaker_do_step_inv; assumption.
Qed.

(** Failures below the threshold leave the breaker CLOSED and count up. *)
Lemma breaker_failing_below (e : error) (l : list (Time * Time)) :
  forall cb : Breaker.CircuitBreaker,
  Breaker.state cb = Breaker.StateClosed ->
  0 <= Breaker.failures cb ->
  Breaker.failures cb + Z.of_nat (List.length l) < Breaker.MaxFailures (Breaker.config cb) ->
  Breaker.MaxFailures (Breaker.config cb) <= GoInt.MaxInt ->
  let cb' := Breaker.execs (Breaker.failing e l) cb in
  Breaker.state cb' = Breaker.StateClosed /\
  Breaker.failures cb' = Breaker.failures cb + Z.of_nat (List.length l) /\
  Breaker.config cb' = Breaker.config cb.
Proof.
  induction l as [|[ta tr] l IH]; intros cb Hs Hf Hlt Hmax.
  - cbn. repeat split; auto; lia.
  - cbn [List.length] in *. rewrite Nat2Z.inj_succ in *.
    change (Breaker.failing e ((ta, tr) :: l)) with ((ta, tr, Some e) :: Breaker.failing e l).
    cbn [Breaker.execs].
    rewrite breaker_exec_closed by assumption. cbn [snd].
    destruct (breaker_record_closed_fail tr e cb Hs) as (Hc & Hf' & _ & _ & Hs'); [lia|].
    rewrite Z.geb_leb in Hs'.
    destruct (Z.leb_spec (Breaker.MaxFailures (Breaker.config cb)) (Breaker.failures cb + 1));
      [lia|].
    specialize (IH (Breaker.recordResult tr (Some e) cb) Hs').
    rewrite Hf', Hc in IH.
    destruct IH as (A & B & C); try lia.
    repeat split; auto; lia.
Qed.

Lemma breaker_exec_half_open (ta tr : Time) (cb : Breaker.CircuitBreaker) :
  Breaker.state cb = Breaker.StateHalfOpen ->
  0 <= Breaker.requests cb < Breaker.MaxRequests (Breaker.config cb) ->
  Breaker.MaxRequests (Breaker.config cb) <= GoInt.MaxInt ->
  let r := Breaker.exec ta tr None cb in
  fst r = None /\
  Breaker.config (snd r) = Breaker.config cb /\
  (Breaker.requests cb + 1 < Breaker.MaxRequests (Breaker.config cb) ->
   Breaker.state (snd r) = Breaker.StateHalfOpen /\
   Breaker.requests (snd r) = Breaker.requests cb + 1) /\
  (Breaker.requests cb + 1 = Breaker.MaxRequests (Breaker.config cb) ->
   Breaker.state (snd r) = Breaker.StateClosed /\
   Breaker.failures (snd r) = 0 /\ Breaker.requests (snd r) = 0).
Proof.
  intros Hs Hr Hmax.
  unfold Breaker.exec, Breaker.Execute, Breaker.allowRequest. rewrite Hs.
  destruct (Z.ltb_spec (Breaker.requests cb) (Breaker.MaxRequests (Breaker.config cb))) as [_|]; [|lia].
  cbn. unfold Breaker.recordResult. rewrite Hs. cbn.
  rewrite wrap_in_range by (unfold GoInt.in_range, GoInt.MinInt, GoInt.MaxInt in *; lia).
  rewrite Z.geb_leb.
  destruct (Z.leb_spec (Breaker.MaxRequests (Breaker.config cb)) (Breaker.requests cb + 1));
    cbn; repeat split; auto; try lia.
Qed.

Lemma breaker_succeeding_below (l : list (Time * Time)) :
  forall cb : Breaker.CircuitBreaker,
  Breaker.state cb = Breaker.StateHalfOpen ->
  0 <= Breaker.requests cb ->
  Breaker.requests cb + Z.of_nat (List.length l) < Breaker.MaxRequests (Breaker.config cb) ->
  Breaker.MaxRequests (Breaker.config cb) <= GoInt.MaxInt ->
  let cb' := Breaker.execs (Breaker.succeeding l) cb in
  Breaker.state cb' = Breaker.StateHalfOpen /\
  Breaker.requests cb' = Breaker.requests cb + Z.of_nat (List.length l) /\
  Breaker.config cb' = Breaker.config cb.
Proof.
  induction l as [|[ta tr] l IH]; intros cb Hs Hf Hlt Hmax.
  - cbn. repeat split; auto; lia.
  - cbn [List.length] in *. rewrite Nat2Z.inj_succ in *.
    change (Breaker.succeeding ((ta, tr) :: l))
      with ((ta, tr, @None error) :: Breaker.succeeding l).
    cbn [Breaker.execs].
    destruct (breaker_exec_half_open ta tr cb Hs) as (_ & Hc & Hstay & _); [lia|lia|].
    destruct Hstay as (Hs' & Hr'); [lia|].
    specialize (IH (snd (Breaker.exec ta tr None cb)) Hs').
    rewrite Hr', Hc in IH.
    destruct IH as (A & B & C); try lia.
    repeat split; auto; lia.
Qed.

Lemma breaker_execs_app (l1 l2 : list (Time * Time * option error)) (cb : Breaker.CircuitBreaker) :
  Breaker.execs (l1 ++ l2) cb = Breaker.execs l2 (Breaker.execs l1 cb).
Proof.
  revert cb. induction l1 as [|[[ta tr] err] l1 IH]; intros cb; [reflexivity|].
  cbn. apply IH.
Qed.

(** C3. The circuit breaker follows the specified state machine.  For a
    configuration with [MaxFailures = k >= 1] and [MaxRequests = m >= 1]
    (both Go ints): a new breaker is CLOSED with no failures; from a CLOSED
    breaker with counter 0, fewer than [k] consecutive failed executions
    leave it CLOSED with the counter equal to their number, and the [k]-th
    opens it, recording the time of that failure; a successful execution
    in CLOSED resets the counter; after any interleaving of the breaker's
    atomic steps a CLOSED breaker has [0 <= failures < k]; an OPEN breaker
    refuses requests until the timeout has passed and then admits a probe,
    going HALF_OPEN with a zero probe counter; in HALF_OPEN fewer than [m]
    consecutive successful probes are all admitted and leave it HALF_OPEN,
    the [m]-th closes it with both counters reset; and a failure in
    HALF_OPEN reopens it at once, recording the time. *)
Theorem C3_circuit_breaker_state_machine
  (cfg : Breaker.CircuitBreakerConfig) (e : error)
  (Hk : 1 <= Breaker.MaxFailures cfg <= GoInt.MaxInt)
  (Hm : 1 <= Breaker.MaxRequests cfg <= GoInt.MaxInt) :
  (Breaker.state (Breaker.NewCircuitBreaker (Some cfg)) = Breaker.StateClosed /\
   Breaker.failures (Breaker.NewCircuitBreaker (Some cfg)) = 0) /\
  (forall cb l, Breaker.config cb = cfg ->
     Breaker.state cb = Breaker.StateClosed -> Breaker.failures cb = 0 ->
     Z.of_nat (List.length l) < Breaker.MaxFailures cfg ->
     Breaker.state (Breaker.execs (Breaker.failing e l) cb) = Breaker.StateClosed /\
     Breaker.failures (Breaker.execs (Breaker.failing e l) cb) = Z.of_nat (List.length l)) /\
  (forall cb l ta tr, Breaker.config cb = cfg ->
     Breaker.state cb = Breaker.StateClosed -> Breaker.failures cb = 0 ->
     Z.of_nat (List.length l) + 1 = Breaker.MaxFailures cfg ->
     let cb' := Breaker.execs (Breaker.failing e (l ++ [(ta, tr)])) cb in
     Breaker.state cb' = Breaker.StateOpen /\ Breaker.lastFailTime cb' = tr /\
     Breaker.failures cb' = Breaker.MaxFailures cfg) /\
  (forall cb ta tr, Breaker.state cb = Breaker.StateClosed ->
     fst (Breaker.exec ta tr None cb) = None /\
     Breaker.state (snd (Breaker.exec ta tr None cb)) = Breaker.StateClosed /\
     Breaker.failures (snd (Breaker.exec ta tr None cb)) = 0) /\
  (forall ss, Breaker.state (Breaker.run ss (Breaker.NewCircuitBreaker (Some cfg))) = Breaker.StateClosed ->
     0 <= Breaker.failures (Breaker.run ss (Breaker.NewCircuitBreaker (Some cfg)))
       < Breaker.MaxFailures cfg) /\
  (forall cb now, Breaker.config cb = cfg -> Breaker.state cb = Breaker.StateOpen ->
     (Sub now (Breaker.lastFailTime cb) <= Breaker.Timeout cfg ->
      Breaker.allowRequest now cb = (false, cb) /\
      forall tr, Breaker.exec now tr None cb = (Some Breaker.circuitOpenError, cb)) /\
     (Sub now (Breaker.lastFailTime cb) > Breaker.Timeout cfg ->
      fst (Breaker.allowRequest now cb) = true /\
      Breaker.state (snd (Breaker.allowRequest now cb)) = Breaker.StateHalfOpen /\
      Breaker.requests (snd (Breaker.allowRequest now cb)) = 0)) /\
  (forall cb l, Breaker.config cb = cfg ->
     Breaker.state cb = Breaker.StateHalfOpen -> Breaker.requests cb = 0 ->
     Z.of_nat (List.length l) < Breaker.MaxRequests cfg ->
     Breaker.state (Breaker.execs (Breaker.succeeding l) cb) = Breaker.StateHalfOpen /\
     Breaker.requests (Breaker.execs (Breaker.succeeding l) cb) = Z.of_nat (List.length l)) /\
  (forall cb l ta tr, Breaker.config cb = cfg ->
     Breaker.state cb = Breaker.StateHalfOpen -> Breaker.requests cb = 0 ->
     Z.of_nat (List.length l) + 1 = Breaker.MaxRequests cfg ->
     let cb' := Breaker.execs (Breaker.succeeding (l ++ [(ta, tr)])) cb in
     Breaker.state cb' = Breaker.StateClosed /\ Breaker.failures cb' = 0 /\
     Breaker.requests cb' = 0) /\
  (forall cb now, Breaker.state cb = Breaker.StateHalfOpen ->
     Breaker.state (Breaker.recordResult now (Some e) cb) = Breaker.StateOpen /\
     Breaker.lastFailTime (Breaker.recordResult now (Some e) cb) = now).
Proof.
  split; [split; reflexivity|].
  split.
  { intros cb l Hc Hs Hf Hl. subst cfg.
    destruct (breaker_failing_below e l cb Hs) as (A & B & _); try lia.
    split; [exact A|]. rewrite B. lia. }
  split.
  { intros cb l ta tr Hc Hs Hf Hl cb'. subst cfg cb'.
    unfold Breaker.failing. rewrite map_app. fold (Breaker.failing e l).
    rewrite breaker_execs_app.
    destruct (breaker_failing_below e l cb Hs) as (A & B & C); try lia.
    cbn [map Breaker.execs fst snd].
    rewrite breaker_exec_closed by exact A. cbn [snd].
    destruct (breaker_record_closed_fail tr e _ A) as (_ & Hf' & Ht & _ & Hs'); [lia|].
    rewrite C, B, Hf in Hs'. rewrite Z.geb_leb in Hs'.
    destruct (Z.leb_spec (Breaker.MaxFailures (Breaker.config cb)) (0 + Z.of_nat (List.length l) + 1));
      [|lia].
    repeat split; auto. rewrite Hf'. lia. }
  split.
  { intros cb ta tr Hs. rewrite breaker_exec_closed by exact Hs. cbn [fst snd].
    unfold Breaker.recordResult. rewrite Hs. cbn. auto. }
  split.
  { intros ss.
    pose proof (breaker_run_inv ss (Breaker.NewCircuitBreaker (Some cfg))) as H.
    cbn [Breaker.NewCircuitBreaker Breaker.config Breaker.state Breaker.failures] in H.
    apply H; [exact Hk|]. intros _. lia. }
  split.
  { intros cb now Hc Hs. subst cfg. split; intros Ht.
    - assert (Ha : Breaker.allowRequest now cb = (false, cb)).
      { unfold Breaker.allowRequest. rewrite Hs. rewrite Z.gtb_ltb.
        destruct (Z.ltb_spec (Breaker.Timeout (Breaker.config cb)) (Sub now (Breaker.lastFailTime cb)));
          [lia|reflexivity]. }
      split; [exact Ha|]. intros tr.
      unfold Breaker.exec, Breaker.Execute. rewrite Ha. reflexivity.
    - unfold Breaker.allowRequest. rewrite Hs. rewrite Z.gtb_ltb.
      destruct (Z.ltb_spec (Breaker.Timeout (Breaker.config cb)) (Sub now (Breaker.lastFailTime cb)));
        [cbn; auto|lia]. }
  split.
  { intros cb l Hc Hs Hr Hl. subst cfg.
    destruct (breaker_succeeding_below l cb Hs) as (A & B & _); try lia.
    split; [exact A|]. rewrite B. lia. }
  split.
  { intros cb l ta tr Hc Hs Hr Hl cb'. subst cfg cb'.
    unfold Breaker.succeeding. rewrite map_app. fold (Breaker.succeeding l).
    rewrite breaker_execs_app.
    destruct (breaker_succeeding_below l cb Hs) as (A & B & C); try lia.
    cbn [map Breaker.execs fst snd].
    destruct (breaker_exec_half_open ta tr _ A) as (_ & _ & _ & Hclose); try (rewrite ?B, ?C; lia).
    apply Hclose. rewrite B, C. lia. }
  intros cb now Hs. unfold Breaker.recordResult. rewrite Hs. cbn. auto.
Qed.

Lemma C3_circuit_breaker_witness :
  1 <= Breaker.MaxFailures Examples.breaker_config <= GoInt.MaxInt /\
  1 <= Breaker.MaxRequests Examples.breaker_config <= GoInt.MaxInt /\
  (let cb := Breaker.execs
       (Breaker.failing Examples.network_error [(10, 11); (20, 21); (30, 31)])
       (Breaker.NewCircuitBreaker (Some Examples.breaker_config)) in
   Breaker.state cb = Breaker.StateOpen /\ Breaker.lastFailTime cb = 31 /\
   Breaker.failures cb = 3).
Proof.
  assert (Hk : 1 <= Breaker.MaxFailures Examples.breaker_config <= GoInt.MaxInt)
    by (cbn; unfold GoInt.MaxInt; lia).
  assert (Hm : 1 <= Breaker.MaxRequests Examples.breaker_config <= GoInt.MaxInt)
    by (cbn; unfold GoInt.MaxInt; lia).
  split; [exact Hk|]. split; [exact Hm|].
  destruct (C3_circuit_breaker_state_machine Examples.breaker_config
              Examples.network_error Hk Hm) as (_ & _ & H & _).
  apply (H (Breaker.NewCircuitBreaker (Some Examples.breaker_config))
           [(10, 11); (20, 21)] 30 31); reflexivity.
Defined.

(** ** Token bucket *)

Lemma Qgtb_true (x y : Q) : GoFloat.Qgtb x y = true -> (y < x)%Q.
Proof.
  unfold GoFloat.Qgtb. intros H. apply negb_true_iff in H.
  apply Qnot_le_lt. intros Hle. apply Qle_bool_iff in Hle. congruence.
Qed.

Lemma Qgtb_false (x y : Q) : GoFloat.Qgtb x y = false -> (x <= y)%Q.
Proof.
  unfold GoFloat.Qgtb. intros H. apply negb_false_iff in H.
  now apply Qle_bool_iff.
Qed.

Lemma Qgeb_true (x y : Q) : GoFloat.Qgeb x y = true -> (y <= x)%Q.
Proof. unfold GoFloat.Qgeb. apply Qle_bool_iff. Qed.

Lemma float64_of_int_nonneg (n : Z) : 0 <= n -> (0 <= GoFloat.float64_of_int n)%Q.
Proof. intros H. unfold GoFloat.float64_of_int, Qle. cbn. lia. Qed.

Lemma Seconds_nonneg (d : Duration) : 0 <= d -> (0 <= RateLimiter.Seconds d)%Q.
Proof. intros H. unfold RateLimiter.Seconds, Qle. cbn. lia. Qed.

(** [refill] keeps the configuration, never leaves more than [burst]
    tokens and, with a rate that is not negative, never removes any. *)
Lemma bucket_refill_spec (now : Time) (tb : RateLimiter.TokenBucket) :
  RateLimiter.config (RateLimiter.refill now tb) = RateLimiter.config tb /\
  ((RateLimiter.tokens tb <= GoFloat.float64_of_int (RateLimiter.Burst (RateLimiter.config tb)))%Q ->
   (RateLimiter.tokens (RateLimiter.refill now tb)
      <= GoFloat.float64_of_int (RateLimiter.Burst (RateLimiter.config tb)))%Q) /\
  (RateLimiter.valid_config (RateLimiter.config tb) ->
   (0 <= RateLimiter.tokens tb)%Q ->
   (0 <= RateLimiter.tokens (RateLimiter.refill now tb))%Q).
Proof.
  unfold RateLimiter.refill.
  destruct (Z.leb_spec (Sub now (RateLimiter.lastRefill tb)) 0) as [Hle|Hgt].
  - repeat split; auto.
  - cbn. split; [reflexivity|]. split.
    + intros _.
      destruct (GoFloat.Qgtb _ _) eqn:E; [apply Qle_refl|now apply Qgtb_false].
    + intros [Hr Hb] Ht.
      destruct (GoFloat.Qgtb _ _) eqn:E.
      * now apply float64_of_int_nonneg.
      * pose proof (Qmult_le_0_compat _ _ Hr
                      (Seconds_nonneg (Sub now (RateLimiter.lastRefill tb)) ltac:(lia))).
        lra.
Qed.

Lemma bucket_refill_bounded (now : Time) (tb : RateLimiter.TokenBucket) :
  RateLimiter.valid_config (RateLimiter.config tb) ->
  RateLimiter.bounded tb -> RateLimiter.bounded (RateLimiter.refill now tb).
Proof.
  intros Hv [H0 Hb].
  destruct (bucket_refill_spec now tb) as (Hc & Hup & Hlow).
  unfold RateLimiter.bounded. rewrite Hc. split; auto.
Qed.

Lemma bucket_AllowN_spec (n : Z) (now : Time) (tb : RateLimiter.TokenBucket) :
  RateLimiter.config (snd (RateLimiter.AllowN n now tb)) = RateLimiter.config tb /\
  (RateLimiter.valid_config (RateLimiter.config tb) -> RateLimiter.bounded tb ->
   RateLimiter.bounded (snd (RateLimiter.AllowN n now tb))) /\
  (0 < n -> fst (RateLimiter.AllowN n now tb) = true ->
   (0 <= RateLimiter.tokens (snd (RateLimiter.AllowN n now tb)))%Q).
Proof.
  unfold RateLimiter.AllowN.
  destruct (Z.leb_spec n 0) as [Hn|Hn];
    [cbn; split; [reflexivity|split; [auto|intros; exfalso; lia]]|].
  set (tb1 := RateLimiter.updateStats true now tb).
  assert (Hc1 : RateLimiter.config tb1 = RateLimiter.config tb) by reflexivity.
  assert (Ht1 : RateLimiter.tokens tb1 = RateLimiter.tokens tb) by reflexivity.
  destruct (bucket_refill_spec now tb1) as (Hc & Hup & Hlow).
  destruct (GoFloat.Qgeb _ _) eqn:E; cbn.
  - apply Qgeb_true in E.
    assert (Hn0 : (0 <= GoFloat.float64_of_int n)%Q)
      by (apply float64_of_int_nonneg; lia).
    split; [congruence|]. split.
    + intros Hv [H0 Hb]. unfold RateLimiter.bounded. cbn. rewrite Hc, Hc1.
      rewrite Hc1, Ht1 in Hup. specialize (Hup Hb). split; lra.
    + intros _ _. lra.
  - split; [congruence|]. split; [|discriminate].
    intros Hv Hbd. unfold RateLimiter.bounded. cbn.
    apply (bucket_refill_bounded now tb1); [rewrite Hc1; exact Hv|exact Hbd].
Qed.








Lemma Duration_of_float64_small (q : Q) :
  (0 <= q)%Q -> (q < 1)%Q -> GoFloat.Duration_of_float64 q = 0.
Proof.
  destruct q as [a b]. unfold Qle, Qlt, GoFloat.Duration_of_float64, GoFloat.int64_of_float64. cbn.
  intros H0 H1. apply Z.quot_small. lia.
Qed.

(** Whenever the deficit is smaller than one second's worth of tokens,
    [calculateWaitTime] is zero and [WaitN] returns [nil] at once, with no
    timer armed and no token taken. *)
Lemma bucket_wait_time_below_one_second (n : Z) (tb : RateLimiter.TokenBucket) :
  (GoFloat.float64_of_int n - RateLimiter.tokens tb
     < RateLimiter.Rate (RateLimiter.config tb))%Q ->
  RateLimiter.calculateWaitTime n tb = 0.
Proof.
  intros Hlt. unfold RateLimiter.calculateWaitTime.
  destruct (Qle_bool _ 0) eqn:E; [reflexivity|].
  assert (Hpos : (0 < GoFloat.float64_of_int n - RateLimiter.tokens tb)%Q).
  { apply Qnot_le_lt. intros Hle. apply Qle_bool_iff in Hle. congruence. }
  assert (Hr : (0 < RateLimiter.Rate (RateLimiter.config tb))%Q) by lra.
  rewrite Duration_of_float64_small; [reflexivity| |].
  - apply Qle_shift_div_l; [exact Hr|]. lra.
  - apply Qlt_shift_div_r; [exact Hr|]. lra.
Qed.

(** C5 (the code against the claim).  In scenario S5 the bucket is empty
    after 20 requests; the deficit-derived delay for the next request is
    100 ms (500 ms for five tokens), but [calculateWaitTime] returns 0
    for both, and the 21st [Wait] returns [nil] at once: no timer is armed
    and no token is taken. *)
Theorem C5_wait_delay_is_truncated_to_zero :
  RateLimiter.tokens Examples.drained_bucket = 0%Q /\
  RateLimiter.spec_wait_delay 1 Examples.drained_bucket = 100 * Millisecond /\
  RateLimiter.spec_wait_delay 5 Examples.drained_bucket = 500 * Millisecond /\
  RateLimiter.calculateWaitTime 1 Examples.drained_bucket = 0 /\
  RateLimiter.calculateWaitTime 5 Examples.drained_bucket = 0 /\
  RateLimiter.wait_err (RateLimiter.Wait 0 false 0 Examples.drained_bucket) = None /\
  RateLimiter.wait_timer (RateLimiter.Wait 0 false 0 Examples.drained_bucket) = None /\
  RateLimiter.tokens
    (RateLimiter.wait_bucket (RateLimiter.Wait 0 false 0 Examples.drained_bucket)) = 0%Q.
Proof. vm_compute. repeat split; reflexivity. Qed.

(** ** Retry policy and client *)

(** C2 (as amended).  [IsRetryableError] is a function of the error
    value alone: [nil] is not retryable; an error whose dynamic type is not
    [APIError] (a transport error, any [fmt.Errorf] error, and so also the
    circuit breaker's refusal) is retryable; an [APIError] is retryable
    exactly when its type is not "auth" and its code is at least 500 or is
    429, so codes 400..499 other than 429 and auth errors are not.
    [ShouldRetry] retries a retryable error while the attempt number is
    below [MaxRetries]. *)
Theorem C2_retry_policy :
  Retry.IsRetryableError None = false /\
  (forall e : error, (forall a, e <> EAPI a) -> Retry.IsRetryableError (Some e) = true) /\
  (forall msg e, Retry.IsRetryableError (Some (EWrap msg e)) = true) /\
  Retry.IsRetryableError (Some Breaker.circuitOpenError) = true /\
  (forall a : APIError,
     Retry.IsRetryableError (Some (EAPI a)) =
       negb (String.eqb (Type_ a) "auth") && ((Code a >=? 500) || (Code a =? 429))) /\
  (forall a : APIError, 400 <= Code a < 500 -> Code a <> 429 ->
     Retry.IsRetryableError (Some (EAPI a)) = false) /\
  (forall a : APIError, Type_ a = "auth"%string ->
     Retry.IsRetryableError (Some (EAPI a)) = false) /\
  (forall a : APIError, Type_ a <> "auth"%string -> 500 <= Code a \/ Code a = 429 ->
     Retry.IsRetryableError (Some (EAPI a)) = true) /\
  (forall err attempt rc,
     Retry.ShouldRetry err attempt rc =
       (attempt <? Retry.MaxRetries rc) && Retry.IsRetryableError err).
Proof.
  assert (Hchar : forall a : APIError,
     Retry.IsRetryableError (Some (EAPI a)) =
       negb (String.eqb (Type_ a) "auth") && ((Code a >=? 500) || (Code a =? 429))).
  { intros a. unfold Retry.IsRetryableError.
    destruct (String.eqb (Type_ a) "auth"); [reflexivity|]. cbn [negb andb].
    rewrite !Z.geb_leb.
    destruct (Z.leb_spec 400 (Code a)), (Z.ltb_spec (Code a) 500),
      (Z.eqb_spec (Code a) 429), (Z.leb_spec 500 (Code a)); cbn; try reflexivity; lia. }
  split; [reflexivity|].
  split; [intros e He; destruct e; try reflexivity; exfalso; eapply He; reflexivity|].
  split; [reflexivity|]. split; [reflexivity|]. split; [exact Hchar|].
  split; [|split; [|split]].
  - intros a Hc Hn. rewrite Hchar. rewrite Z.geb_leb.
    destruct (Z.leb_spec 500 (Code a)), (Z.eqb_spec (Code a) 429);
      first [lia | apply andb_false_r].
  - intros a Ht. rewrite Hchar, Ht. reflexivity.
  - intros a Ht Hc. rewrite Hchar.
    destruct (String.eqb_spec (Type_ a) "auth"); [contradiction|]. cbn [negb andb].
    rewrite Z.geb_leb.
    destruct (Z.leb_spec 500 (Code a)), (Z.eqb_spec (Code a) 429); try reflexivity; lia.
  - intros err attempt rc. unfold Retry.ShouldRetry. rewrite Z.geb_leb, Z.ltb_antisym.
    destruct (Retry.MaxRetries rc <=? attempt); reflexivity.
Qed.

(** C2 (the claim as stated fails).  With the default policy, a breaker
    that is open and stays open, and a server that would answer 200, one
    call of [doRequestWithRetry] goes through [doSingleRequest] four
    times, backing off 2 s, 4 s and 8 s in between, never reaches the
    network, and reports the breaker's refusal: the circuit-open error is
    retried within the same call. *)
Lemma C2_circuit_open_error_is_retried :
  Retry.ShouldRetry (Some Breaker.circuitOpenError) 0 Retry.DefaultRetryConfig = true /\
  fst (fst (Client.doRequestWithRetry Examples.healthy_env
              Examples.client_with_open_breaker []))
    = inr (Client.retriesExhausted Retry.DefaultRetryConfig
             (Some Breaker.circuitOpenError)) /\
  Client.attempts_made
    (snd (fst (Client.doRequestWithRetry Examples.healthy_env
                 Examples.client_with_open_breaker []))) = 4 /\
  snd (Client.doRequestWithRetry Examples.healthy_env
         Examples.client_with_open_breaker [])
    = [Client.EvBackoff (2 * Second); Client.EvBackoff (4 * Second);
       Client.EvBackoff (8 * Second)].
Proof. vm_compute. repeat split; reflexivity. Qed.

(** C9. When the token bucket rejects the request, [doSingleRequest]
    returns the rate-limit [APIError] (code 429, type "rate_limit") at
    once: the circuit breaker is left exactly as it was (state, failure
    counter, probe counter and the rest), the closure is not run and the
    retry configuration is unchanged; only the rate limiter has moved. *)
Theorem C9_rate_limit_rejection_skips_breaker
  (a : Client.Attempt) (c : Client.Client) (tr : Client.Trace)
  (Hreject : fst (RateLimiter.Allow (Client.now_allow a) (Client.rateLimiter c)) = false) :
  let '(r, c', tr') := Client.doSingleRequest a c tr in
  r = inr (EAPI (NewAPIError 429 "rate_limit" "请求频率过高，请稍后重试" "")) /\
  Client.circuitBreaker c' = Client.circuitBreaker c /\
  Breaker.state (Client.circuitBreaker c') = Breaker.state (Client.circuitBreaker c) /\
  Breaker.failures (Client.circuitBreaker c') = Breaker.failures (Client.circuitBreaker c) /\
  Breaker.requests (Client.circuitBreaker c') = Breaker.requests (Client.circuitBreaker c) /\
  Client.retryConfig c' = Client.retryConfig c /\
  Client.rateLimiter c' = snd (RateLimiter.Allow (Client.now_allow a) (Client.rateLimiter c)) /\
  tr' = tr.
Proof.
  unfold Client.doSingleRequest.
  destruct (RateLimiter.Allow (Client.now_allow a) (Client.rateLimiter c)) as [ok rl].
  cbn in Hreject. subst ok. cbn. repeat split; reflexivity.
Qed.

Lemma C9_rate_limit_rejection_witness :
  fst (RateLimiter.Allow (Client.now_allow Examples.attempt_at_zero)
         (Client.rateLimiter Examples.client_with_empty_bucket)) = false /\
  Breaker.failures
    (Client.circuitBreaker
       (snd (fst (Client.doSingleRequest Examples.attempt_at_zero
                    Examples.client_with_empty_bucket [])))) = 2.
Proof.
  assert (H : fst (RateLimiter.Allow (Client.now_allow Examples.attempt_at_zero)
                     (Client.rateLimiter Examples.client_with_empty_bucket)) = false)
    by (vm_compute; reflexivity).
  split; [exact H|].
  pose proof (C9_rate_limit_rejection_skips_breaker Examples.attempt_at_zero
                Examples.client_with_empty_bucket [] H) as T.
  destruct (Client.doSingleRequest Examples.attempt_at_zero
              Examples.client_with_empty_bucket []) as [[r c'] tr'].
  destruct T as (_ & _ & _ & Hf & _). cbn [fst snd]. rewrite Hf. reflexivity.
Defined.

(** ** Injection validator and dispatch *)

(** C1 (the code against the claim).  Whatever the command, when its
    raw text begins with [INSERT INTO], [DELETE FROM] or [DROP TABLE] the
    executor returns the security error: the text matches the validator's
    first pattern (the keyword pairs [insert into], [delete from],
    [drop table]).  In particular [INSERT INTO users (name) VALUES ('a')]
    and [DELETE FROM users] are accepted by the parser, and
    [DROP TABLE users] is a command the executor has a handler for, yet
    none of them is dispatched.  Of the four plain statements only
    [UPDATE users SET age=1] reaches its handler. *)
Theorem C1_plain_statements_hit_the_injection_scan :
  (forall (cmd : SQL.SQLCommand) (rest : string),
     Executor.Execute true (Some (SQL.with_RawSQL ("INSERT INTO" ++ rest) cmd))
       = inl (Executor.securityError Examples.keyword_pattern)) /\
  (forall (cmd : SQL.SQLCommand) (rest : string),
     Executor.Execute true (Some (SQL.with_RawSQL ("DELETE FROM" ++ rest) cmd))
       = inl (Executor.securityError Examples.keyword_pattern)) /\
  (forall (cmd : SQL.SQLCommand) (rest : string),
     Executor.Execute true (Some (SQL.with_RawSQL ("DROP TABLE" ++ rest) cmd))
       = inl (Executor.securityError Examples.keyword_pattern)) /\
  SQL.ParseInsertSQL Examples.insert_sql
    (SQL.with_RawSQL Examples.insert_sql (SQL.NewSQLCommand SQL.CommandInsert))
    = SQL.Ok Examples.insert_cmd /\
  SQL.ParseUpdateSQL Examples.update_sql
    (SQL.with_RawSQL Examples.update_sql (SQL.NewSQLCommand SQL.CommandUpdate))
    = SQL.Ok Examples.update_cmd /\
  SQL.ParseDeleteSQL Examples.delete_sql
    (SQL.with_RawSQL Examples.delete_sql (SQL.NewSQLCommand SQL.CommandDelete))
    = SQL.Ok Examples.delete_cmd /\
  Executor.Execute true (Some Examples.insert_cmd)
    = inl (Executor.securityError Examples.keyword_pattern) /\
  Executor.Execute true (Some Examples.delete_cmd)
    = inl (Executor.securityError Examples.keyword_pattern) /\
  Executor.Execute true (Some Examples.drop_cmd)
    = inl (Executor.securityError Examples.keyword_pattern) /\
  Executor.Execute true (Some Examples.update_cmd)
    = inr (Executor.updateData Examples.update_cmd).
Proof.
  split; [intros cmd rest; reflexivity|].
  split; [intros cmd rest; reflexivity|].
  split; [intros cmd rest; reflexivity|].
  vm_compute. repeat split; reflexivity.
Qed.

(** ** SQL value parser *)

(** C8 (the code against the claim).  [parseValue] has no integer case:
    the bare token [42] becomes the [float64] 42, and so does the quoted
    ['42'], whose quotes [parseValueList] (and the SET and WHERE clauses)
    remove before the value is classified; no text at all is classified as
    an integer.  The exported [ParseValue] of the same parser does what
    the claim says: integer before float, and a quoted value stays a
    string. *)
Theorem C8_parser_values_lose_integers_and_quotes :
  SQL.parseValue "42" = SQL.VFloat64 (Strconv.FFinite 42) /\
  SQL.parseValueList "'42'" = [SQL.VFloat64 (Strconv.FFinite 42)] /\
  SQL.parseValueList "42, 42.5, true, NULL, 'abc'"
    = [SQL.VFloat64 (Strconv.FFinite 42); SQL.VFloat64 (Strconv.FFinite (85 # 2));
       SQL.VBool true; SQL.VNil; SQL.VString "abc"] /\
  SQL.parseSetClause "a='42'" = SQL.Ok [("a"%string, SQL.VFloat64 (Strconv.FFinite 42))] /\
  SQL.parseWhereClause "a = '42'" = SQL.Ok [("a"%string, SQL.VFloat64 (Strconv.FFinite 42))] /\
  (forall s : string,
     match SQL.parseValue s with SQL.VInt _ => False | _ => True end) /\
  SQL.ParseValue "42" = Some (SQL.VInt 42) /\
  SQL.ParseValue "'42'" = Some (SQL.VString "42").
Proof.
  split; [vm_compute; reflexivity|]. split; [vm_compute; reflexivity|].
  split; [vm_compute; reflexivity|]. split; [vm_compute; reflexivity|].
  split; [vm_compute; reflexivity|].
  split; [|split; vm_compute; reflexivity].
  intros s. unfold SQL.parseValue.
  destruct (String.eqb _ "NULL"); [exact I|].
  destruct (Strconv.ParseFloat _); [exact I|].
  destruct (Strconv.ParseBool _); exact I.
Qed.

(** ** Raw DELETE *)

(** A table of the service's list, decoded, is the table. *)
Lemma bridge_tables_decode (tables : list Bridge.Table) :
  forall cur : list (option Bridge.Table),
  JSON.into_elements
    (JSON.into_pointer Bridge.zero_Table (JSON.into_struct Bridge.Table_member))
    cur (map Bridge.table_document tables)
  = (map Some tables, true).
Proof.
  induction tables as [|[id name] tables IH]; intros cur; [reflexivity|].
  cbn [map JSON.into_elements]. rewrite IH.
  destruct (hd None cur) as [[id0 name0]|]; reflexivity.
Qed.

(** The service's list of tables, decoded by [getTableID]. *)
Lemma bridge_tables_document_decodes (msg : string) (tables : list Bridge.Table) :
  Bridge.Unmarshal_ListTablesAPIResponse (Some (Bridge.tables_document msg tables))
  = inl {| Bridge.Code := 0; Bridge.Msg := msg;
           Bridge.Data := Some {| Bridge.HasMore := false; Bridge.PageToken := "";
                                  Bridge.Total := 0; Bridge.Items := map Some tables |} |}.
Proof.
  unfold Bridge.Unmarshal_ListTablesAPIResponse, Bridge.tables_document, Bridge.envelope,
    JSON.Unmarshal, JSON.into_struct.
  cbn [fold_left fst snd].
  change (Bridge.Envelope_member Bridge.zero_ListResponse Bridge.into_ListTablesResponse
            Bridge.zero_Envelope "code" (JSON.Number 0))
    with (@Bridge.zero_Envelope Bridge.ListTablesResponse, true).
  cbn [fst snd andb].
  change (Bridge.Envelope_member Bridge.zero_ListResponse Bridge.into_ListTablesResponse
            Bridge.zero_Envelope "msg" (JSON.Str msg))
    with ({| Bridge.Code := 0; Bridge.Msg := msg;
             Bridge.Data := @None Bridge.ListTablesResponse |}, true).
  cbn [fst snd andb].
  unfold Bridge.Envelope_member.
  change (GoStrings.EqualFold "data" "code") with false.
  change (GoStrings.EqualFold "data" "msg") with false.
  change (GoStrings.EqualFold "data" "data") with true.
  cbv iota. cbn [Bridge.Code Bridge.Msg Bridge.Data].
  unfold JSON.into_pointer, Bridge.into_ListTablesResponse, JSON.into_struct.
  cbn [fold_left fst snd].
  unfold Bridge.ListResponse_member at 1.
  change (GoStrings.EqualFold "items" "has_more") with false.
  change (GoStrings.EqualFold "items" "page_token") with false.
  change (GoStrings.EqualFold "items" "total") with false.
  change (GoStrings.EqualFold "items" "items") with true.
  cbv iota. unfold JSON.into_slice.
  change (JSON.into_struct Bridge.Table_member)
    with (fun (cur : Bridge.Table) (v : JSON.value) =>
            JSON.into_struct Bridge.Table_member cur v).
  rewrite (bridge_tables_decode tables). reflexivity.
Qed.

(** [getTableID] on the service's list of tables: one request, then the
    two loops over the tables listed. *)
Lemma bridge_getTableID_listed (env : Bridge.Env) (app tableName : string)
    (log : list Bridge.APIRequest) (status : Z) (msg : string) (tables : list Bridge.Table) :
  tableName <> ""%string ->
  Bridge.remote env log (Bridge.tables_request app)
    = inl {| Bridge.StatusCode := status;
             Bridge.RespBody := Some (Bridge.tables_document msg tables) |} ->
  Bridge.getTableID env (Some app) tableName log
  = (match Bridge.find_exact (map Some tables) tableName with
     | SQL.Panic => SQL.Panic
     | SQL.Err err => SQL.Err err
     | SQL.Ok (Some id) => SQL.Ok id
     | SQL.Ok None =>
         match Bridge.find_fold (map Some tables) tableName with
         | SQL.Panic => SQL.Panic
         | SQL.Err err => SQL.Err err
         | SQL.Ok (Some id) => SQL.Ok id
         | SQL.Ok None =>
             SQL.Err (EPlain ("未找到表 '" ++ tableName ++ "'，请检查表名是否正确"))
         end
     end, log ++ [Bridge.tables_request app]).
Proof.
  intros Hne Hremote.
  unfold Bridge.getTableID, Bridge.DoRequest. fold (Bridge.tables_request app).
  destruct (String.eqb_spec tableName ""); [contradiction|].
  rewrite Hremote. cbn [Bridge.RespBody].
  rewrite bridge_tables_document_decodes. cbn [Bridge.Code Bridge.Data Bridge.Items Z.eqb negb].
  destruct (Bridge.find_exact (map Some tables) tableName) as [[id|]|err|]; try reflexivity.
  destruct (Bridge.find_fold (map Some tables) tableName) as [[id|]|err|]; reflexivity.
Qed.

(** The envelope of the service holds no member of a
    [ListRecordsResponse]: decoded as one, it leaves every field as it
    was, whatever is under [data]. *)
Lemma bridge_envelope_as_list (code msg data : JSON.value) :
  Bridge.Unmarshal_ListRecordsResponse (Some (Bridge.envelope code msg data))
  = inl Bridge.zero_ListResponse.
Proof. reflexivity. Qed.

(** C6 (the code against the claim).  The service answers the list call
    of a raw [DELETE FROM t] in its envelope, an object with the members
    [code], [msg] and [data], the records being under [data].
    [executeRawDelete] decodes that body as a [ListRecordsResponse], the
    type of what is under [data]: no member of the envelope names a field
    of it, so the decoded list is empty whatever the table holds.  The
    handler then sends no DELETE at all, sets the affected rows to 0 and
    returns no error; the requests made are the table lookup and the list
    call. *)
Theorem C6_raw_delete_takes_the_envelope_for_the_list
  (env : Bridge.Env) (db : Bridge.DB) (app table tableID msg : string)
  (tables : list Bridge.Table) (status status' : Z) (code msg' data : JSON.value)
  (Hname : table <> ""%string)
  (Htables : Bridge.remote env [] (Bridge.tables_request app)
             = inl {| Bridge.StatusCode := status;
                      Bridge.RespBody := Some (Bridge.tables_document msg tables) |})
  (Hfound : Bridge.find_exact (map Some tables) table = SQL.Ok (Some tableID))
  (Hlist : Bridge.remote env [Bridge.tables_request app] (Bridge.list_request app tableID)
           = inl {| Bridge.StatusCode := status';
                    Bridge.RespBody := Some (Bridge.envelope code msg' data) |}) :
  Bridge.Unmarshal_ListRecordsResponse (Some (Bridge.envelope code msg' data))
    = inl Bridge.zero_ListResponse /\
  Bridge.executeRawDelete env db app table "" []
    = (Bridge.Return None, Bridge.set_RowsAffected 0 db,
       [Bridge.tables_request app; Bridge.list_request app tableID]).
Proof.
  split; [apply bridge_envelope_as_list|].
  unfold Bridge.executeRawDelete.
  rewrite (bridge_getTableID_listed env app table [] status msg tables Hname Htables).
  rewrite Hfound. cbn [String.eqb List.app]. unfold Bridge.DoRequest.
  fold (Bridge.list_request app tableID).
  rewrite Hlist. cbn [Bridge.RespBody]. rewrite bridge_envelope_as_list.
  reflexivity.
Qed.

Lemma C6_raw_delete_takes_the_envelope_for_the_list_witness :
  "users"%string <> ""%string /\
  Bridge.find_exact (map Some [Examples.users_table]) "users" = SQL.Ok (Some "tbl1"%string) /\
  Bridge.Unmarshal_ListRecordsAPIResponse (Some Examples.records_document)
    = inl {| Bridge.Code := 0; Bridge.Msg := "success";
             Bridge.Data := Some {| Bridge.HasMore := false; Bridge.PageToken := "";
                                    Bridge.Total := 7;
                                    Bridge.Items := map Some Examples.seven_records |} |} /\
  Bridge.Unmarshal_ListRecordsResponse (Some Examples.records_document)
    = inl Bridge.zero_ListResponse /\
  Bridge.executeRawDelete Examples.s7_env Examples.fresh_db "app" "users" "" []
    = (Bridge.Return None, Bridge.set_RowsAffected 0 Examples.fresh_db,
       [Bridge.tables_request "app"; Bridge.list_request "app" "tbl1"]).
Proof.
  assert (Hname : "users"%string <> ""%string) by discriminate.
  assert (Hfound : Bridge.find_exact (map Some [Examples.users_table]) "users"
                   = SQL.Ok (Some "tbl1"%string)) by reflexivity.
  split; [exact Hname|]. split; [exact Hfound|]. split; [reflexivity|].
  exact (C6_raw_delete_takes_the_envelope_for_the_list
           Examples.s7_env Examples.fresh_db "app" "users" "tbl1" "success"
           [Examples.users_table] 200 200
           (JSON.Number 0) (JSON.Str "success")
           (JSON.Object [("has_more", JSON.Bool false);
                         ("page_token", JSON.Str "");
                         ("total", JSON.Number 7);
                         ("items", JSON.Array (map Examples.record_document
                                                 Examples.seven_records))]%string)
           Hname eq_refl Hfound eq_refl).
Defined.

(** ** WHERE translation *)

(** C7 (the code against the claim).  The ORM translator passes the LIKE
    pattern on as it is: [buildLikeCondition] and the [name LIKE ?] case
    of [buildExprCondition] both yield the value ["%zh%"], where the
    pattern with [%] and [_] removed is ["zh"]; this holds for every
    column name and value.  The raw-SQL translator does remove them
    ([name LIKE '%zh%'] yields ["zh"]).  IS NULL and IS NOT NULL yield
    isEmpty and isNotEmpty with no values in both translators. *)
Theorem C7_orm_like_keeps_the_wildcards :
  Filter.buildFilter [Filter.Like (Filter.Column "name") (SQL.VString "%zh%")]
    = Some {| Filter.Conjunction := "and";
              Filter.Conditions :=
                [ {| Filter.FieldName := "name"; Filter.Operator := "contains";
                     Filter.Value := [SQL.VString "%zh%"] |} ] |} /\
  Filter.buildFilter [Filter.Expr "name LIKE ?" [SQL.VString "%zh%"]]
    = Some {| Filter.Conjunction := "and";
              Filter.Conditions :=
                [ {| Filter.FieldName := "name"; Filter.Operator := "contains";
                     Filter.Value := [SQL.VString "%zh%"] |} ] |} /\
  Filter.spec_like_value "%zh%" = "zh"%string /\
  (forall (name : string) (v : SQL.Value), name <> ""%string ->
     Filter.buildLikeCondition (Filter.Column name) v
       = Some {| Filter.FieldName := name; Filter.Operator := "contains";
                 Filter.Value := [v] |}) /\
  Filter.buildFilterFromWhere "name LIKE '%zh%'"
    = Some {| Filter.Conjunction := "and";
              Filter.Conditions :=
                [ {| Filter.FieldName := "name"; Filter.Operator := "contains";
                     Filter.Value := [SQL.VString "zh"] |} ] |} /\
  Filter.buildFilterFromWhere "name IS NULL"
    = Some {| Filter.Conjunction := "and";
              Filter.Conditions :=
                [ {| Filter.FieldName := "name"; Filter.Operator := "isEmpty";
                     Filter.Value := [] |} ] |} /\
  Filter.buildFilterFromWhere "name IS NOT NULL"
    = Some {| Filter.Conjunction := "and";
              Filter.Conditions :=
                [ {| Filter.FieldName := "name"; Filter.Operator := "isNotEmpty";
                     Filter.Value := [] |} ] |} /\
  Filter.buildFilter [Filter.Expr "name IS NULL" []]
    = Some {| Filter.Conjunction := "and";
              Filter.Conditions :=
                [ {| Filter.FieldName := "NAME"; Filter.Operator := "isEmpty";
                     Filter.Value := [] |} ] |} /\
  Filter.buildFilter [Filter.Expr "name IS NOT NULL" []]
    = Some {| Filter.Conjunction := "and";
              Filter.Conditions :=
                [ {| Filter.FieldName := "NAME"; Filter.Operator := "isNotEmpty";
                     Filter.Value := [] |} ] |}.
Proof.
  split; [vm_compute; reflexivity|]. split; [vm_compute; reflexivity|].
  split; [vm_compute; reflexivity|].
  split.
  { intros name v Hname. unfold Filter.buildLikeCondition, Filter.condition_on.
    destruct (String.eqb_spec name ""); [contradiction|reflexivity]. }
  repeat (split; [vm_compute; reflexivity|]). vm_compute; reflexivity.
Qed.

(** ** Numeric field conversion *)


(* ================================================================== *)
(** * Part III: further properties of the code *)
(* ================================================================== *)

(** ** Token bucket: what a history of requests can obtain *)

Lemma Seconds_add (a b : Duration) :
  (RateLimiter.Seconds (a + b)%Z == RateLimiter.Seconds a + RateLimiter.Seconds b)%Q.
Proof. unfold RateLimiter.Seconds, Qeq, Qplus. cbn. lia. Qed.

Lemma bucket_Allow_is_AllowN_1 (now : Time) (tb : RateLimiter.TokenBucket) :
  RateLimiter.Allow now tb = RateLimiter.AllowN 1 now tb.
Proof. reflexivity. Qed.

(** What [refill] leaves: the tokens grow by at most rate times the time
    since the last refill, and the refill time never goes back. *)
Lemma bucket_refill_growth (now : Time) (tb : RateLimiter.TokenBucket) :
  (0 <= RateLimiter.Rate (RateLimiter.config tb))%Q ->
  let tb' := RateLimiter.refill now tb in
  RateLimiter.lastRefill tb' = Z.max (RateLimiter.lastRefill tb) now /\
  (RateLimiter.tokens tb' <=
     RateLimiter.tokens tb
       + RateLimiter.Rate (RateLimiter.config tb)
         * RateLimiter.Seconds (RateLimiter.lastRefill tb' - RateLimiter.lastRefill tb)%Z)%Q.
Proof.
  intros Hr. unfold RateLimiter.refill, Sub.
  destruct (Z.leb_spec (now - RateLimiter.lastRefill tb) 0) as [Hle|Hgt].
  - cbn. split; [lia|].
    rewrite Z.sub_diag. unfold RateLimiter.Seconds.
    setoid_replace (0 # 1000000000)%Q with 0%Q by reflexivity. lra.
  - cbn. split; [lia|].
    destruct (GoFloat.Qgtb _ _) eqn:E.
    + apply Qgtb_true in E. lra.
    + lra.
Qed.

(** One request: what it hands out plus what it leaves is at most what
    there was plus the refill. *)
Lemma bucket_AllowN_account (n : Z) (now : Time) (tb : RateLimiter.TokenBucket) :
  0 < n ->
  (0 <= RateLimiter.Rate (RateLimiter.config tb))%Q ->
  let r := RateLimiter.AllowN n now tb in
  RateLimiter.lastRefill (snd r) = Z.max (RateLimiter.lastRefill tb) now /\
  ((if fst r then GoFloat.float64_of_int n else 0) + RateLimiter.tokens (snd r) <=
     RateLimiter.tokens tb
       + RateLimiter.Rate (RateLimiter.config tb)
         * RateLimiter.Seconds (RateLimiter.lastRefill (snd r) - RateLimiter.lastRefill tb)%Z)%Q.
Proof.
  intros Hn Hr. unfold RateLimiter.AllowN.
  destruct (Z.leb_spec n 0) as [|_]; [lia|].
  set (tb1 := RateLimiter.updateStats true now tb).
  pose proof (bucket_refill_growth now tb1 Hr) as [Hl Hg].
  change (RateLimiter.lastRefill tb1) with (RateLimiter.lastRefill tb) in *.
  change (RateLimiter.tokens tb1) with (RateLimiter.tokens tb) in *.
  change (RateLimiter.config tb1) with (RateLimiter.config tb) in *.
  destruct (GoFloat.Qgeb _ _) eqn:E; cbn [fst snd]; cbn.
  - split; [exact Hl|]. lra.
  - split; [exact Hl|]. lra.
Qed.

Lemma bucket_requests_inv (l : list (Z * Time)) :
  forall (tb : RateLimiter.TokenBucket) (g0 : Q) (t0 : Time),
  RateLimiter.valid_config (RateLimiter.config tb) ->
  RateLimiter.bounded tb ->
  Forall (fun r => 0 < fst r) l ->
  (g0 + RateLimiter.tokens tb <=
     GoFloat.float64_of_int (RateLimiter.Burst (RateLimiter.config tb))
       + RateLimiter.Rate (RateLimiter.config tb)
         * RateLimiter.Seconds (RateLimiter.lastRefill tb - t0)%Z)%Q ->
  let r := Histories.requests l tb in
  RateLimiter.config (snd r) = RateLimiter.config tb /\
  RateLimiter.bounded (snd r) /\
  RateLimiter.lastRefill (snd r) = Histories.latest (RateLimiter.lastRefill tb) l /\
  (g0 + fst r + RateLimiter.tokens (snd r) <=
     GoFloat.float64_of_int (RateLimiter.Burst (RateLimiter.config tb))
       + RateLimiter.Rate (RateLimiter.config tb)
         * RateLimiter.Seconds (RateLimiter.lastRefill (snd r) - t0)%Z)%Q.
Proof.
  induction l as [|[n now] l IH]; intros tb g0 t0 Hv Hb Hpos Hinv.
  - cbn. repeat split; try apply Hb. lra.
  - inversion Hpos as [|? ? Hn Hrest]; subst. cbn [fst] in Hn.
    cbn [Histories.requests].
    destruct (bucket_AllowN_spec n now tb) as (Hc & Hbd & _).
    destruct (bucket_AllowN_account n now tb Hn (proj1 Hv)) as (Hl & Hacc).
    destruct (RateLimiter.AllowN n now tb) as [ok tb1]. cbn [fst snd] in *.
    specialize (IH tb1 (g0 + (if ok then GoFloat.float64_of_int n else 0))%Q t0).
    rewrite Hc in IH.
    destruct (Histories.requests l tb1) as [g tb2]. cbn [fst snd] in *.
    destruct IH as (A & B & C & D); auto.
    { pose proof (Seconds_add (RateLimiter.lastRefill tb1 - RateLimiter.lastRefill tb)
                    (RateLimiter.lastRefill tb - t0)) as Hs.
      replace (RateLimiter.lastRefill tb1 - RateLimiter.lastRefill tb
                 + (RateLimiter.lastRefill tb - t0))
        with (RateLimiter.lastRefill tb1 - t0) in Hs by lia.
      rewrite Hs. lra. }
    split; [exact A|]. split; [exact B|]. split.
    + rewrite C, Hl. reflexivity.
    + destruct ok; lra.
Qed.

(** X1. The rate guarantee of the token bucket, for a whole-number
    rate, a burst below 2^53 and clock readings a whole number of seconds
    from the creation of the bucket, none later than a [Duration] can
    tell.  (Every [float64] the bucket then computes is a whole number
    below 2^53, or is above the burst and replaced by it, so none is
    rounded.)  Whatever requests ([Allow], or
    [AllowN] for positive amounts) are made of a new bucket at such
    readings, the tokens handed out in all are at most the burst plus the
    rate times the time from the creation of the bucket to the latest
    clock reading. *)
Theorem bucket_never_hands_out_more_than_burst_plus_rate
  (cfg : RateLimiter.RateLimiterConfig) (r : Z) (t0 : Time) (l : list (Z * Time))
  (Hcfg : RateLimiter.valid_config cfg)
  (Hrate : (RateLimiter.Rate cfg == inject_Z r)%Q)
  (Hburst : RateLimiter.Burst cfg < 2 ^ 53)
  (Hpos : Forall (fun p => 0 < fst p) l)
  (Hsec : Forall (fun p => (snd p - t0) mod Second = 0 /\ snd p - t0 <= GoInt.MaxInt) l) :
  (fst (Histories.requests l (RateLimiter.NewTokenBucket (Some cfg) t0)) <=
     GoFloat.float64_of_int (RateLimiter.Burst cfg)
       + RateLimiter.Rate cfg * RateLimiter.Seconds (Histories.latest t0 l - t0)%Z)%Q.
Proof.
  pose proof (bucket_requests_inv l (RateLimiter.NewTokenBucket (Some cfg) t0) 0 t0) as H.
  cbn [RateLimiter.NewTokenBucket RateLimiter.config RateLimiter.tokens
       RateLimiter.lastRefill] in H.
  destruct H as (_ & Hb & Hl & Hineq); auto.
  - unfold RateLimiter.bounded. cbn.
    split; [apply float64_of_int_nonneg, Hcfg|apply Qle_refl].
  - rewrite Z.sub_diag. unfold RateLimiter.Seconds.
    setoid_replace (0 # 1000000000)%Q with 0%Q by reflexivity. lra.
  - rewrite Hl in Hineq. destruct Hb as [H0 _]. lra.
Qed.

Lemma bucket_never_hands_out_more_witness :
  RateLimiter.valid_config RateLimiter.DefaultRateLimiterConfig /\
  (RateLimiter.Rate RateLimiter.DefaultRateLimiterConfig == inject_Z 10)%Q /\
  RateLimiter.Burst RateLimiter.DefaultRateLimiterConfig < 2 ^ 53 /\
  Forall (fun p => 0 < fst p) [(1, 0); (5, 1 * Second); (30, 2 * Second)] /\
  Forall (fun p => (snd p - 0) mod Second = 0 /\ snd p - 0 <= GoInt.MaxInt)
    [(1, 0); (5, 1 * Second); (30, 2 * Second)] /\
  (fst (Histories.requests [(1, 0); (5, 1 * Second); (30, 2 * Second)]%Z
          (RateLimiter.NewTokenBucket (Some RateLimiter.DefaultRateLimiterConfig) 0%Z)) <=
     GoFloat.float64_of_int (RateLimiter.Burst RateLimiter.DefaultRateLimiterConfig)
       + RateLimiter.Rate RateLimiter.DefaultRateLimiterConfig
         * RateLimiter.Seconds
             (Histories.latest 0 [(1, 0); (5, 1 * Second); (30, 2 * Second)] - 0)%Z)%Q.
Proof.
  assert (Hcfg : RateLimiter.valid_config RateLimiter.DefaultRateLimiterConfig)
    by (split; [unfold Qle; cbn; lia|cbn; lia]).
  assert (Hrate : (RateLimiter.Rate RateLimiter.DefaultRateLimiterConfig == inject_Z 10)%Q)
    by reflexivity.
  assert (Hburst : RateLimiter.Burst RateLimiter.DefaultRateLimiterConfig < 2 ^ 53)
    by (vm_compute; reflexivity).
  assert (Hpos : Forall (fun p : Z * Time => 0 < fst p)
                   [(1, 0); (5, 1 * Second); (30, 2 * Second)])
    by (repeat constructor; cbn; lia).
  assert (Hsec : Forall (fun p : Z * Time =>
                           (snd p - 0) mod Second = 0 /\ snd p - 0 <= GoInt.MaxInt)
                   [(1, 0); (5, 1 * Second); (30, 2 * Second)])
    by (repeat constructor; vm_compute; discriminate).
  split; [exact Hcfg|]. split; [exact Hrate|]. split; [exact Hburst|].
  split; [exact Hpos|]. split; [exact Hsec|].
  exact (bucket_never_hands_out_more_than_burst_plus_rate
           RateLimiter.DefaultRateLimiterConfig 10 0 _ Hcfg Hrate Hburst Hpos Hsec).
Defined.

(** *** The counters *)

Lemma wrap_wrap_add (a b : Z) : GoInt.wrap (GoInt.wrap a + b) = GoInt.wrap (a + b).
Proof.
  unfold GoInt.wrap.
  replace ((a + 2 ^ 63) mod 2 ^ 64 - 2 ^ 63 + b + 2 ^ 63)
    with ((a + 2 ^ 63) mod 2 ^ 64 + b) by lia.
  rewrite Zplus_mod_idemp_l. f_equal. f_equal. lia.
Qed.

Lemma wrap_add_wrap (a b : Z) : GoInt.wrap (a + GoInt.wrap b) = GoInt.wrap (a + b).
Proof. rewrite Z.add_comm, wrap_wrap_add. f_equal. lia. Qed.

Lemma bucket_refill_stats (now : Time) (tb : RateLimiter.TokenBucket) :
  RateLimiter.stats (RateLimiter.refill now tb) = RateLimiter.stats tb.
Proof. unfold RateLimiter.refill. destruct (_ <=? 0); reflexivity. Qed.

Lemma bucket_AllowN_stats (n : Z) (now : Time) (tb : RateLimiter.TokenBucket) :
  Histories.stats_agree tb -> Histories.stats_agree (snd (RateLimiter.AllowN n now tb)).
Proof.
  unfold Histories.stats_agree, RateLimiter.AllowN. intros H.
  destruct (n <=? 0); [exact H|].
  destruct (GoFloat.Qgeb _ _); cbn; rewrite bucket_refill_stats; cbn; rewrite H.
  - rewrite wrap_wrap_add. rewrite (Z.add_comm (GoInt.wrap _) _), wrap_add_wrap.
    f_equal. lia.
  - rewrite wrap_wrap_add, wrap_add_wrap. f_equal. lia.
Qed.

Lemma bucket_apply_op_stats (o : RateLimiter.op) (tb : RateLimiter.TokenBucket) :
  Histories.stats_agree tb -> Histories.stats_agree (RateLimiter.apply_op o tb).
Proof.
  intros H.
  destruct o as [now|n now|t1 c t2|n t1 c t2|now|now|now|cfg]; cbn [RateLimiter.apply_op].
  - rewrite bucket_Allow_is_AllowN_1. now apply bucket_AllowN_stats.
  - now apply bucket_AllowN_stats.
  - unfold RateLimiter.Wait, RateLimiter.WaitN. cbn [Z.leb Z.compare].
    pose proof (bucket_AllowN_stats 1 t1 tb H) as H1.
    destruct (RateLimiter.AllowN 1 t1 tb) as [ok tb1]. cbn [snd] in H1.
    destruct ok; [exact H1|]. destruct (_ <=? 0); [exact H1|].
    destruct c; [exact H1|].
    pose proof (bucket_AllowN_stats 1 t2 tb1 H1) as H2.
    destruct (RateLimiter.AllowN 1 t2 tb1) as [ok2 tb2]. exact H2.
  - unfold RateLimiter.WaitN. destruct (n <=? 0); [exact H|].
    pose proof (bucket_AllowN_stats n t1 tb H) as H1.
    destruct (RateLimiter.AllowN n t1 tb) as [ok tb1]. cbn [snd] in H1.
    destruct ok; [exact H1|]. destruct (_ <=? 0); [exact H1|].
    destruct c; [exact H1|].
    pose proof (bucket_AllowN_stats n t2 tb1 H1) as H2.
    destruct (RateLimiter.AllowN n t2 tb1) as [ok2 tb2]. exact H2.
  - unfold Histories.stats_agree. rewrite bucket_refill_stats. exact H.
  - cbn. unfold Histories.stats_agree. rewrite bucket_refill_stats. exact H.
  - reflexivity.
  - destruct cfg; exact H.
Qed.

(** X2. The counters of a token bucket always agree.  After any
    sequence of operations on a new bucket (Allow, AllowN, Wait, WaitN,
    refill, GetTokens, Reset, UpdateConfig, in any order, with any clock
    readings and any configurations), the number of requests counted is
    the number allowed plus the number rejected, as [int64] values. *)
Theorem bucket_counters_agree
  (cfg : option RateLimiter.RateLimiterConfig) (t0 : Time) (ops : list RateLimiter.op) :
  Histories.stats_agree (RateLimiter.run ops (RateLimiter.NewTokenBucket cfg t0)).
Proof.
  assert (H0 : Histories.stats_agree (RateLimiter.NewTokenBucket cfg t0)) by reflexivity.
  revert H0. generalize (RateLimiter.NewTokenBucket cfg t0).
  induction ops as [|o ops IH]; intros tb H; [exact H|].
  unfold RateLimiter.run in *. cbn. apply IH. now apply bucket_apply_op_stats.
Qed.

(** *** When a request is granted *)

Lemma Qgeb_intro (x y : Q) : (y <= x)%Q -> GoFloat.Qgeb x y = true.
Proof. unfold GoFloat.Qgeb. apply Qle_bool_iff. Qed.

Lemma Qgeb_false_intro (x y : Q) : (x < y)%Q -> GoFloat.Qgeb x y = false.
Proof.
  intros H. destruct (GoFloat.Qgeb x y) eqn:E; [|reflexivity].
  apply Qgeb_true in E. lra.
Qed.

Lemma float64_of_int_le (a b : Z) :
  a <= b -> (GoFloat.float64_of_int a <= GoFloat.float64_of_int b)%Q.
Proof. intros H. unfold GoFloat.float64_of_int, Qle. cbn. lia. Qed.

Lemma float64_of_int_lt (a b : Z) :
  a < b -> (GoFloat.float64_of_int a < GoFloat.float64_of_int b)%Q.
Proof. intros H. unfold GoFloat.float64_of_int, Qlt. cbn. lia. Qed.

(** X3. When the bucket grants, for a bucket that holds a whole number
    of tokens, with a whole-number rate and a burst below 2^53, at a clock
    reading a whole number of seconds from the last refill and no later
    than a [Duration] can tell.  (Every
    [float64] the bucket then computes is a whole number below 2^53, or
    is above the burst and replaced by it, so none is rounded.)  A request
    for [n] tokens, [n] between 1 and the burst, is granted as soon as the
    time since the last refill, at the configured rate, makes up for the
    missing tokens; it then takes exactly [n] tokens from what the refill
    left.  A request for more than the burst is never granted, whatever
    the clock reads. *)
Theorem bucket_grants_when_refilled
  (tb : RateLimiter.TokenBucket) (n r k : Z) (now : Time)
  (Hcfg : RateLimiter.valid_config (RateLimiter.config tb))
  (Hb : RateLimiter.bounded tb)
  (Hrate : (RateLimiter.Rate (RateLimiter.config tb) == inject_Z r)%Q)
  (Htokens : (RateLimiter.tokens tb == inject_Z k)%Q)
  (Hburst : RateLimiter.Burst (RateLimiter.config tb) < 2 ^ 53)
  (Hsec : (now - RateLimiter.lastRefill tb) mod Second = 0)
  (Hrange : now - RateLimiter.lastRefill tb <= GoInt.MaxInt) :
  (0 < n <= RateLimiter.Burst (RateLimiter.config tb) ->
   RateLimiter.lastRefill tb <= now ->
   (GoFloat.float64_of_int n - RateLimiter.tokens tb <=
      RateLimiter.Rate (RateLimiter.config tb)
        * RateLimiter.Seconds (now - RateLimiter.lastRefill tb)%Z)%Q ->
   fst (RateLimiter.AllowN n now tb) = true /\
   (RateLimiter.tokens (snd (RateLimiter.AllowN n now tb)) ==
      RateLimiter.tokens (RateLimiter.refill now tb) - GoFloat.float64_of_int n)%Q) /\
  (RateLimiter.Burst (RateLimiter.config tb) < n ->
   fst (RateLimiter.AllowN n now tb) = false).
Proof.
  assert (Hover : forall b : RateLimiter.TokenBucket,
            RateLimiter.valid_config (RateLimiter.config b) -> RateLimiter.bounded b ->
            RateLimiter.Burst (RateLimiter.config b) < n ->
            fst (RateLimiter.AllowN n now b) = false).
  { intros b Hv Hbd Hlt. unfold RateLimiter.AllowN.
    destruct Hv as [Hr Hbu].
    destruct (Z.leb_spec n 0) as [|_]; [lia|].
    set (b1 := RateLimiter.updateStats true now b).
    destruct (bucket_refill_spec now b1) as (Hc & Hup & _).
    change (RateLimiter.config b1) with (RateLimiter.config b) in *.
    change (RateLimiter.tokens b1) with (RateLimiter.tokens b) in *.
    specialize (Hup (proj2 Hbd)).
    pose proof (float64_of_int_lt _ _ Hlt) as Hq.
    rewrite Qgeb_false_intro by lra. reflexivity. }
  split.
  - intros Hn Ht Hneed. unfold RateLimiter.AllowN.
    destruct (Z.leb_spec n 0) as [|_]; [lia|].
    set (tb1 := RateLimiter.updateStats true now tb).
    assert (Hge : (GoFloat.float64_of_int n <= RateLimiter.tokens (RateLimiter.refill now tb1))%Q).
    { unfold RateLimiter.refill, Sub.
      change (RateLimiter.lastRefill tb1) with (RateLimiter.lastRefill tb).
      change (RateLimiter.tokens tb1) with (RateLimiter.tokens tb).
      change (RateLimiter.config tb1) with (RateLimiter.config tb).
      destruct (Z.leb_spec (now - RateLimiter.lastRefill tb) 0) as [Hle|Hgt].
      - replace (now - RateLimiter.lastRefill tb) with 0 in Hneed by lia.
        unfold RateLimiter.Seconds in Hneed.
        setoid_replace (0 # 1000000000)%Q with 0%Q in Hneed by reflexivity.
        cbn. lra.
      - cbn. destruct (GoFloat.Qgtb _ _) eqn:E.
        + apply float64_of_int_le. lia.
        + lra. }
    rewrite (Qgeb_intro _ _ Hge). cbn [fst snd]. split; [reflexivity|].
    cbn. unfold RateLimiter.refill.
    change (RateLimiter.lastRefill tb1) with (RateLimiter.lastRefill tb).
    change (RateLimiter.tokens tb1) with (RateLimiter.tokens tb).
    change (RateLimiter.config tb1) with (RateLimiter.config tb).
    destruct (_ <=? 0); cbn; reflexivity.
  - intros Hlt. now apply Hover.
Qed.

Lemma bucket_grants_when_refilled_witness :
  RateLimiter.valid_config (RateLimiter.config Examples.drained_bucket) /\
  RateLimiter.bounded Examples.drained_bucket /\
  (RateLimiter.Rate (RateLimiter.config Examples.drained_bucket) == inject_Z 10)%Q /\
  (RateLimiter.tokens Examples.drained_bucket == inject_Z 0)%Q /\
  RateLimiter.Burst (RateLimiter.config Examples.drained_bucket) < 2 ^ 53 /\
  (1 * Second - RateLimiter.lastRefill Examples.drained_bucket) mod Second = 0 /\
  1 * Second - RateLimiter.lastRefill Examples.drained_bucket <= GoInt.MaxInt /\
  fst (RateLimiter.AllowN 5 (1 * Second) Examples.drained_bucket) = true /\
  fst (RateLimiter.AllowN 21 (1 * Second) Examples.drained_bucket) = false.
Proof.
  assert (Hcfg : RateLimiter.valid_config (RateLimiter.config Examples.drained_bucket))
    by (split; [unfold Qle; vm_compute; discriminate|vm_compute; discriminate]).
  assert (Hb : RateLimiter.bounded Examples.drained_bucket)
    by (split; unfold Qle; vm_compute; discriminate).
  assert (Hrate : (RateLimiter.Rate (RateLimiter.config Examples.drained_bucket)
                   == inject_Z 10)%Q) by (vm_compute; reflexivity).
  assert (Htokens : (RateLimiter.tokens Examples.drained_bucket == inject_Z 0)%Q)
    by (vm_compute; reflexivity).
  assert (Hburst : RateLimiter.Burst (RateLimiter.config Examples.drained_bucket) < 2 ^ 53)
    by (vm_compute; reflexivity).
  assert (Hsec : (1 * Second - RateLimiter.lastRefill Examples.drained_bucket) mod Second = 0)
    by (vm_compute; reflexivity).
  assert (Hrange : 1 * Second - RateLimiter.lastRefill Examples.drained_bucket <= GoInt.MaxInt)
    by (vm_compute; discriminate).
  split; [exact Hcfg|]. split; [exact Hb|]. split; [exact Hrate|]. split; [exact Htokens|].
  split; [exact Hburst|]. split; [exact Hsec|]. split; [exact Hrange|]. split.
  - apply (proj1 (bucket_grants_when_refilled Examples.drained_bucket 5 10 0
                    (1 * Second) Hcfg Hb Hrate Htokens Hburst Hsec Hrange)).
    + vm_compute. split; [reflexivity|discriminate].
    + vm_compute. discriminate.
    + unfold Qle. vm_compute. discriminate.
  - apply (proj2 (bucket_grants_when_refilled Examples.drained_bucket 21 10 0
                    (1 * Second) Hcfg Hb Hrate Htokens Hburst Hsec Hrange)).
    vm_compute. reflexivity.
Defined.

(** ** Circuit breaker: the changes of state it makes and announces *)

Lemma follow_snoc (s a b : Breaker.CircuitBreakerState)
    (l : list (Breaker.CircuitBreakerState * Breaker.CircuitBreakerState)) :
  Histories.follow s l = Some a -> Histories.follow s (l ++ [(a, b)]) = Some b.
Proof.
  revert s. induction l as [|[f t] l IH]; intros s; cbn.
  - intros [= ->]. destruct a; reflexivity.
  - destruct (Breaker.state_eqb s f); [apply IH|discriminate].
Qed.

Lemma breaker_setState_announced (cb : Breaker.CircuitBreaker) (s : Breaker.CircuitBreakerState) :
  Histories.announced cb ->
  (Breaker.state cb = s \/ Histories.legal (Breaker.state cb, s) = true) ->
  Histories.announced (Breaker.setState s cb).
Proof.
  intros (Hon & Hf & Hl) Hs. unfold Histories.announced, Breaker.setState. cbn. rewrite Hon. cbn.
  split; [reflexivity|].
  destruct (Breaker.state_eqb (Breaker.state cb) s) eqn:E; cbn.
  - split; [|exact Hl]. rewrite Hf. f_equal.
    destruct (Breaker.state cb), s; try discriminate; reflexivity.
  - split; [now apply follow_snoc|].
    rewrite forallb_app, Hl. cbn. rewrite andb_true_r.
    destruct Hs as [Hs|Hs]; [|exact Hs].
    rewrite Hs in E. destruct s; discriminate.
Qed.

Lemma breaker_do_step_announced (s : Breaker.step) (cb : Breaker.CircuitBreaker) :
  Histories.announced cb -> Histories.announced (Breaker.do_step s cb).
Proof.
  intros H. destruct s as [now|now err| |]; cbn.
  - unfold Breaker.allowRequest.
    destruct (Breaker.state cb) eqn:Hs; cbn; try exact H.
    destruct (_ >? _); cbn; [|exact H].
    apply (breaker_setState_announced cb Breaker.StateHalfOpen H).
    right. rewrite Hs. reflexivity.
  - unfold Breaker.recordResult.
    destruct (Breaker.state cb) eqn:Hs; [| exact H |].
    + destruct err as [e|]; [|exact H].
      cbn. destruct (_ >=? _); [|exact H].
      apply (breaker_setState_announced
               (Breaker.set_lastFailTime now
                  (Breaker.set_failures (GoInt.wrap (Breaker.failures cb + 1)) cb))
               Breaker.StateOpen H).
      right. cbn. rewrite Hs. reflexivity.
    + destruct err as [e|].
      * apply (breaker_setState_announced
                 (Breaker.set_requests (GoInt.wrap (Breaker.requests cb + 1)) cb)
                 Breaker.StateOpen H).
        right. cbn. rewrite Hs. reflexivity.
      * cbn. destruct (_ >=? _); [|exact H].
        apply (breaker_setState_announced
                 (Breaker.set_requests (GoInt.wrap (Breaker.requests cb + 1)) cb)
                 Breaker.StateClosed H).
        right. cbn. rewrite Hs. reflexivity.
  - apply (breaker_setState_announced cb Breaker.StateClosed H).
    destruct (Breaker.state cb); [left|right|right]; reflexivity.
  - destruct H as (_ & Hf & Hl). repeat split; assumption.
Qed.

(** X4. The state changes of a circuit breaker.  For a breaker whose
    state-change callback is installed when it is made (as the client
    does), after any interleaving of its atomic steps (admission checks,
    recorded results, resets, callback installations) the changes passed
    to the callback, in order, lead from CLOSED to the breaker's current
    state, each starting where the one before ended; and each is one of
    CLOSED to OPEN, OPEN to HALF_OPEN, HALF_OPEN to OPEN, HALF_OPEN to
    CLOSED, or OPEN to CLOSED (by a reset).  In particular the breaker
    never goes from CLOSED to HALF_OPEN. *)
Theorem breaker_state_changes_are_legal
  (cfg : option Breaker.CircuitBreakerConfig) (ss : list Breaker.step) :
  let cb := Breaker.run ss (Breaker.SetStateChangeCallback (Breaker.NewCircuitBreaker cfg)) in
  Histories.follow Breaker.StateClosed (Breaker.notified cb) = Some (Breaker.state cb) /\
  forallb Histories.legal (Breaker.notified cb) = true /\
  ~ In (Breaker.StateClosed, Breaker.StateHalfOpen) (Breaker.notified cb).
Proof.
  intros cb.
  assert (H : Histories.announced cb).
  { subst cb.
    assert (H0 : Histories.announced (Breaker.SetStateChangeCallback (Breaker.NewCircuitBreaker cfg)))
      by (repeat split).
    revert H0. generalize (Breaker.SetStateChangeCallback (Breaker.NewCircuitBreaker cfg)).
    induction ss as [|s ss IH]; intros c H; [exact H|].
    unfold Breaker.run in *. cbn. apply IH. now apply breaker_do_step_announced. }
  destruct H as (_ & Hf & Hl). split; [exact Hf|]. split; [exact Hl|].
  intros Hin. rewrite forallb_forall in Hl. specialize (Hl _ Hin). discriminate.
Qed.

(** The probe counter: zero when CLOSED, below the limit when HALF_OPEN. *)
Lemma breaker_do_step_probes (s : Breaker.step) (cb : Breaker.CircuitBreaker) :
  1 <= Breaker.MaxRequests (Breaker.config cb) <= GoInt.MaxInt ->
  (Breaker.state cb = Breaker.StateClosed -> Breaker.requests cb = 0) /\
  (Breaker.state cb = Breaker.StateHalfOpen ->
   0 <= Breaker.requests cb < Breaker.MaxRequests (Breaker.config cb)) ->
  (Breaker.state (Breaker.do_step s cb) = Breaker.StateClosed ->
   Breaker.requests (Breaker.do_step s cb) = 0) /\
  (Breaker.state (Breaker.do_step s cb) = Breaker.StateHalfOpen ->
   0 <= Breaker.requests (Breaker.do_step s cb) < Breaker.MaxRequests (Breaker.config cb)).
Proof.
  intros Hm [Hc Hh].
  destruct s as [now|now err| |]; cbn.
  - unfold Breaker.allowRequest.
    destruct (Breaker.state cb) eqn:Hs; cbn.
    + rewrite Hs. split; [auto|discriminate].
    + destruct (_ >? _); cbn; [split; [discriminate|intros _; lia]|].
      rewrite Hs. split; discriminate.
    + rewrite Hs. split; [discriminate|auto].
  - unfold Breaker.recordResult.
    destruct (Breaker.state cb) eqn:Hs.
    + specialize (Hc eq_refl). destruct err as [e|]; cbn.
      * destruct (_ >=? _); cbn; [split; [discriminate|discriminate]|].
        rewrite Hs. split; [auto|discriminate].
      * rewrite Hs. split; [auto|discriminate].
    + rewrite Hs. split; discriminate.
    + specialize (Hh eq_refl). destruct err as [e|]; cbn.
      * split; discriminate.
      * rewrite wrap_in_range
          by (unfold GoInt.in_range, GoInt.MinInt, GoInt.MaxInt in *; lia).
        rewrite Z.geb_leb.
        destruct (Z.leb_spec (Breaker.MaxRequests (Breaker.config cb)) (Breaker.requests cb + 1));
          cbn.
        -- split; [reflexivity|discriminate].
        -- rewrite Hs. split; [discriminate|intros _; lia].
  - split; [reflexivity|discriminate].
  - split; assumption.
Qed.

Lemma breaker_run_probes (ss : list Breaker.step) (cb : Breaker.CircuitBreaker) :
  1 <= Breaker.MaxRequests (Breaker.config cb) <= GoInt.MaxInt ->
  (Breaker.state cb = Breaker.StateClosed -> Breaker.requests cb = 0) /\
  (Breaker.state cb = Breaker.StateHalfOpen ->
   0 <= Breaker.requests cb < Breaker.MaxRequests (Breaker.config cb)) ->
  (Breaker.state (Breaker.run ss cb) = Breaker.StateClosed ->
   Breaker.requests (Breaker.run ss cb) = 0) /\
  (Breaker.state (Breaker.run ss cb) = Breaker.StateHalfOpen ->
   0 <= Breaker.requests (Breaker.run ss cb) < Breaker.MaxRequests (Breaker.config cb)).
Proof.
  revert cb. induction ss as [|s ss IH]; intros cb Hm Hinv; [exact Hinv|].
  unfold Breaker.run in *. cbn.
  rewrite <- (breaker_do_step_config s cb) in *.
  apply IH; [exact Hm|].
  rewrite (breaker_do_step_config s cb) in *.
  apply breaker_do_step_probes; assumption.
Qed.

(** X5. When a circuit breaker refuses.  With a probe limit
    [MaxRequests >= 1], after any interleaving of the breaker's atomic
    steps: a CLOSED breaker has a zero probe counter; a HALF_OPEN breaker
    has counted fewer completed probes than the limit, so its admission
    check always says yes, however many probes are in flight; and a
    request is refused only by an OPEN breaker whose timeout has not
    passed since the last failure. *)
Theorem breaker_refuses_only_when_open
  (cfg : Breaker.CircuitBreakerConfig) (ss : list Breaker.step) (now : Time)
  (Hm : 1 <= Breaker.MaxRequests cfg <= GoInt.MaxInt) :
  let cb := Breaker.run ss (Breaker.NewCircuitBreaker (Some cfg)) in
  (Breaker.state cb = Breaker.StateClosed -> Breaker.requests cb = 0) /\
  (Breaker.state cb = Breaker.StateHalfOpen ->
   0 <= Breaker.requests cb < Breaker.MaxRequests cfg /\
   Breaker.allowRequest now cb = (true, cb)) /\
  (fst (Breaker.allowRequest now cb) = false ->
   Breaker.state cb = Breaker.StateOpen /\
   Sub now (Breaker.lastFailTime cb) <= Breaker.Timeout cfg).
Proof.
  intros cb.
  pose proof (breaker_run_probes ss (Breaker.NewCircuitBreaker (Some cfg))) as H.
  pose proof (breaker_run_config ss (Breaker.NewCircuitBreaker (Some cfg))) as Hc.
  fold cb in H, Hc.
  cbn [Breaker.NewCircuitBreaker Breaker.config Breaker.state Breaker.requests] in H, Hc.
  destruct H as [Hclosed Hhalf]; [exact Hm|split; [reflexivity|discriminate]|].
  assert (Hadmit : Breaker.state cb = Breaker.StateHalfOpen ->
                   Breaker.allowRequest now cb = (true, cb)).
  { intros Hs. specialize (Hhalf Hs). unfold Breaker.allowRequest. rewrite Hs, Hc.
    destruct (Z.ltb_spec (Breaker.requests cb) (Breaker.MaxRequests cfg)); [reflexivity|lia]. }
  split; [exact Hclosed|]. split; [auto|].
  intros Hrefused.
  destruct (Breaker.state cb) eqn:Hs.
  - unfold Breaker.allowRequest in Hrefused. rewrite Hs in Hrefused. discriminate.
  - split; [reflexivity|].
    unfold Breaker.allowRequest in Hrefused. rewrite Hs, Hc in Hrefused.
    rewrite Z.gtb_ltb in Hrefused.
    destruct (Z.ltb_spec (Breaker.Timeout cfg) (Sub now (Breaker.lastFailTime cb)));
      [discriminate|lia].
  - rewrite (Hadmit eq_refl) in Hrefused. discriminate.
Qed.

Lemma breaker_refuses_only_when_open_witness :
  1 <= Breaker.MaxRequests Examples.breaker_config <= GoInt.MaxInt /\
  (let cb := Breaker.run Examples.probing_steps
               (Breaker.NewCircuitBreaker (Some Examples.breaker_config)) in
   Breaker.state cb = Breaker.StateHalfOpen /\
   Breaker.allowRequest (40 * Second) cb = (true, cb)).
Proof.
  assert (Hm : 1 <= Breaker.MaxRequests Examples.breaker_config <= GoInt.MaxInt)
    by (cbn; unfold GoInt.MaxInt; lia).
  split; [exact Hm|]. split; [reflexivity|].
  apply (proj1 (proj2 (breaker_refuses_only_when_open Examples.breaker_config
                         Examples.probing_steps (40 * Second) Hm))).
  reflexivity.
Defined.

(** ** Retry policy: the back-off delays *)

Lemma int64_of_float64_ge (q : Q) (d : Z) :
  0 <= d -> (inject_Z d <= q)%Q -> d <= GoFloat.int64_of_float64 q.
Proof.
  destruct q as [a b]. unfold Qle, GoFloat.int64_of_float64. cbn. intros Hd H.
  rewrite Z.mul_1_r in H.
  rewrite Z.quot_div_nonneg by nia.
  apply Z.div_le_lower_bound; lia.
Qed.

Lemma int64_of_float64_inject (z : Z) : GoFloat.int64_of_float64 (inject_Z z) = z.
Proof. unfold GoFloat.int64_of_float64. cbn. apply Z.quot_1_r. Qed.

(** One round of the loop does not shorten a delay that is not negative. *)
Lemma backoff_round_ge (rc : Retry.RetryConfig) (d : Duration) :
  (1 <= Retry.Multiplier rc)%Q -> 0 <= d ->
  d <= GoFloat.Duration_of_float64 (GoFloat.float64_of_int d * Retry.Multiplier rc)%Q.
Proof.
  intros Hm Hd. apply int64_of_float64_ge; [exact Hd|].
  unfold GoFloat.float64_of_int.
  assert (H0 : (0 <= inject_Z d)%Q) by (unfold Qle; cbn; lia).
  nra.
Qed.

Lemma backoff_loop_bounds (rc : Retry.RetryConfig) (i : nat) :
  (1 <= Retry.Multiplier rc)%Q ->
  forall d, 0 <= d <= Retry.MaxDelay rc ->
  d <= Retry.backoff_loop rc i d <= Retry.MaxDelay rc.
Proof.
  intros Hm. induction i as [|i IH]; intros d Hd; cbn; [lia|].
  pose proof (backoff_round_ge rc d Hm (proj1 Hd)) as Hge.
  destruct (Z.gtb_spec (GoFloat.Duration_of_float64
                          (GoFloat.float64_of_int d * Retry.Multiplier rc)) (Retry.MaxDelay rc));
    [lia|].
  specialize (IH (GoFloat.Duration_of_float64 (GoFloat.float64_of_int d * Retry.Multiplier rc))).
  lia.
Qed.

Lemma backoff_loop_step (rc : Retry.RetryConfig) (i : nat) :
  (1 <= Retry.Multiplier rc)%Q ->
  forall d, 0 <= d <= Retry.MaxDelay rc ->
  Retry.backoff_loop rc i d <= Retry.backoff_loop rc (S i) d.
Proof.
  intros Hm. induction i as [|i IH]; intros d Hd.
  - pose proof (backoff_loop_bounds rc 1 Hm d Hd). cbn in *. lia.
  - pose proof (backoff_round_ge rc d Hm (proj1 Hd)) as Hge.
    change (Retry.backoff_loop rc (S (S i)) d)
      with (let d' := GoFloat.Duration_of_float64 (GoFloat.float64_of_int d * Retry.Multiplier rc) in
            if d' >? Retry.MaxDelay rc then Retry.MaxDelay rc
            else Retry.backoff_loop rc (S i) d').
    change (Retry.backoff_loop rc (S i) d)
      with (let d' := GoFloat.Duration_of_float64 (GoFloat.float64_of_int d * Retry.Multiplier rc) in
            if d' >? Retry.MaxDelay rc then Retry.MaxDelay rc
            else Retry.backoff_loop rc i d').
    cbv zeta.
    destruct (Z.gtb_spec (GoFloat.Duration_of_float64
                            (GoFloat.float64_of_int d * Retry.Multiplier rc)) (Retry.MaxDelay rc));
      [lia|].
    apply IH. lia.
Qed.

Lemma backoff_loop_mono (rc : Retry.RetryConfig) (i j : nat) :
  (1 <= Retry.Multiplier rc)%Q -> (i <= j)%nat ->
  forall d, 0 <= d <= Retry.MaxDelay rc ->
  Retry.backoff_loop rc i d <= Retry.backoff_loop rc j d.
Proof.
  intros Hm Hij d Hd. induction Hij as [|j Hij IH]; [lia|].
  pose proof (backoff_loop_step rc j Hm d Hd). lia.
Qed.

Lemma backoff_loop_closed_form (rc : Retry.RetryConfig) (k : Z) (i : nat) :
  Retry.Multiplier rc = inject_Z k -> 1 <= k ->
  forall d, 0 <= d <= Retry.MaxDelay rc ->
  Retry.backoff_loop rc i d = Z.min (d * k ^ Z.of_nat i) (Retry.MaxDelay rc).
Proof.
  intros Hk Hk1. induction i as [|i IH]; intros d Hd.
  - cbn. lia.
  - cbn [Retry.backoff_loop]. rewrite Hk.
    unfold GoFloat.Duration_of_float64, GoFloat.float64_of_int.
    assert (Hq : (inject_Z d * inject_Z k)%Q = inject_Z (d * k)) by reflexivity.
    rewrite Hq, int64_of_float64_inject.
    rewrite Nat2Z.inj_succ, Z.pow_succ_r by lia.
    assert (Hp : 1 <= k ^ Z.of_nat i).
    { pose proof (Z.pow_le_mono_r k 0 (Z.of_nat i)) as Hpow.
      rewrite Z.pow_0_r in Hpow. apply Hpow; lia. }
    destruct (Z.gtb_spec (d * k) (Retry.MaxDelay rc)).
    + assert (d * k <= d * (k * k ^ Z.of_nat i)) by nia. lia.
    + rewrite IH by nia. f_equal. ring.
Qed.

(** X6. The back-off delays.  For a retry policy with
    [0 <= InitialDelay <= MaxDelay] and a whole-number multiplier [k] of
    at least 1 with [k * MaxDelay < 2^53] (every product the loop forms is
    then a whole number below 2^53, which a [float64] holds exactly and
    which is within [int64]), the delay before attempt [a >= 0] is
    [min (InitialDelay * k^a, MaxDelay)]; so the first retry already
    waits [k] times the initial delay.  Every delay lies between the
    initial and the maximal delay, and the delay never decreases as the
    attempt number grows. *)
Theorem backoff_delay_is_capped_exponential
  (rc : Retry.RetryConfig) (k : Z)
  (Hd : 0 <= Retry.InitialDelay rc <= Retry.MaxDelay rc)
  (Hk : Retry.Multiplier rc = inject_Z k)
  (Hk1 : 1 <= k)
  (Hexact : k * Retry.MaxDelay rc < 2 ^ 53) :
  (forall attempt,
     Retry.InitialDelay rc <= Retry.CalculateBackoffDelay rc attempt <= Retry.MaxDelay rc) /\
  (forall a b, a <= b ->
     Retry.CalculateBackoffDelay rc a <= Retry.CalculateBackoffDelay rc b) /\
  (forall attempt, 0 <= attempt ->
     Retry.CalculateBackoffDelay rc attempt
       = Z.min (Retry.InitialDelay rc * k ^ attempt) (Retry.MaxDelay rc)).
Proof.
  assert (Hm : (1 <= Retry.Multiplier rc)%Q).
  { rewrite Hk. unfold Qle. cbn. lia. }
  split; [|split].
  - intros attempt. unfold Retry.CalculateBackoffDelay.
    destruct (attempt <=? 0); [lia|]. now apply backoff_loop_bounds.
  - intros a b Hab. unfold Retry.CalculateBackoffDelay.
    destruct (Z.leb_spec a 0), (Z.leb_spec b 0); try lia.
    + pose proof (backoff_loop_bounds rc (Z.to_nat b) Hm _ Hd). lia.
    + apply backoff_loop_mono; [exact Hm|lia|exact Hd].
  - intros attempt Ha. unfold Retry.CalculateBackoffDelay.
    destruct (Z.leb_spec attempt 0).
    + replace attempt with 0 by lia. cbn. lia.
    + rewrite (backoff_loop_closed_form rc k) by assumption.
      rewrite Z2Nat.id by lia. reflexivity.
Qed.

Lemma backoff_delay_witness :
  0 <= Retry.InitialDelay Retry.DefaultRetryConfig <= Retry.MaxDelay Retry.DefaultRetryConfig /\
  Retry.Multiplier Retry.DefaultRetryConfig = inject_Z 2 /\
  2 * Retry.MaxDelay Retry.DefaultRetryConfig < 2 ^ 53 /\
  Retry.CalculateBackoffDelay Retry.DefaultRetryConfig 1 = 2 * Second /\
  Retry.CalculateBackoffDelay Retry.DefaultRetryConfig 5
    = Z.min (Retry.InitialDelay Retry.DefaultRetryConfig * 2 ^ 5)
        (Retry.MaxDelay Retry.DefaultRetryConfig).
Proof.
  assert (Hd : 0 <= Retry.InitialDelay Retry.DefaultRetryConfig
                 <= Retry.MaxDelay Retry.DefaultRetryConfig) by (vm_compute; split; discriminate).
  assert (Hk : Retry.Multiplier Retry.DefaultRetryConfig = inject_Z 2) by reflexivity.
  assert (Hk1 : 1 <= 2) by lia.
  assert (He : 2 * Retry.MaxDelay Retry.DefaultRetryConfig < 2 ^ 53) by (vm_compute; reflexivity).
  split; [exact Hd|]. split; [exact Hk|]. split; [exact He|].
  destruct (backoff_delay_is_capped_exponential Retry.DefaultRetryConfig 2 Hd Hk Hk1 He)
    as (_ & _ & H).
  split.
  - rewrite (H 1); [reflexivity|lia].
  - apply (H 5). lia.
Defined.

(** ** Retrying an operation *)

Lemma calls_app (t1 t2 : list APIUtils.Event) :
  APIUtils.calls (t1 ++ t2) = APIUtils.calls t1 ++ APIUtils.calls t2.
Proof.
  induction t1 as [|[d|i] t1 IH]; cbn; [reflexivity|exact IH|now rewrite IH].
Qed.

Lemma retry_loop_spec (config : Retry.RetryConfig) (env : APIUtils.Env) (fuel : nat) :
  forall (attempt : Z) (lastErr : option error) (tr : list APIUtils.Event),
  let r := APIUtils.retry_loop fuel attempt lastErr config env tr in
  exists n : nat,
    (n <= fuel)%nat /\
    APIUtils.calls (snd r) = APIUtils.calls tr ++ APIUtils.attempts_from attempt n /\
    (forall j, attempt <= j < attempt + Z.of_nat n - 1 ->
       Retry.IsRetryableError (APIUtils.result env j) = true /\ j < Retry.MaxRetries config) /\
    (fst r = None ->
       (n = 0%nat /\ lastErr = None) \/
       (n <> 0%nat /\ APIUtils.result env (attempt + Z.of_nat n - 1) = None)).
Proof.
  induction fuel as [|fuel IH]; intros attempt lastErr tr r; subst r.
  - exists 0%nat. cbn. rewrite app_nil_r. repeat split; auto; intros; lia.
  - cbn [APIUtils.retry_loop].
    set (tr1 := if attempt >? 0
                then tr ++ [APIUtils.EvWait (Retry.CalculateBackoffDelay config attempt)]
                else tr).
    assert (Hc1 : APIUtils.calls tr1 = APIUtils.calls tr).
    { subst tr1. destruct (attempt >? 0); [|reflexivity].
      rewrite calls_app. cbn. apply app_nil_r. }
    destruct ((attempt >? 0) && APIUtils.done env attempt).
    + exists 0%nat. cbn. rewrite app_nil_r, Hc1.
      repeat split; auto; try (intros; lia). discriminate.
    + destruct (APIUtils.result env attempt) as [e|] eqn:He.
      * destruct (Retry.ShouldRetry (Some e) attempt config) eqn:Hs; cbn [negb].
        -- specialize (IH (attempt + 1) (Some e) (tr1 ++ [APIUtils.EvCall attempt])).
           destruct IH as (n & Hn & Hcalls & Hretry & Hnil).
           exists (S n). split; [lia|]. split.
           { rewrite Hcalls, calls_app, Hc1. cbn. now rewrite <- app_assoc. }
           split.
           { intros j Hj. destruct (Z.eq_dec j attempt) as [->|Hne].
             - unfold Retry.ShouldRetry in Hs. rewrite He.
               destruct (Z.geb_spec attempt (Retry.MaxRetries config)); [discriminate|].
               split; [exact Hs|lia].
             - apply Hretry. lia. }
           intros Hnone. right. split; [discriminate|].
           destruct (Hnil Hnone) as [[_ Habs]|[Hn0 Hres]]; [discriminate|].
           replace (attempt + Z.of_nat (S n) - 1) with (attempt + 1 + Z.of_nat n - 1) by lia.
           exact Hres.
        -- exists 1%nat. cbn. split; [lia|]. split.
           { rewrite calls_app, Hc1. reflexivity. }
           split; [intros; lia|discriminate].
      * exists 1%nat. cbn. split; [lia|]. split.
        { rewrite calls_app, Hc1. reflexivity. }
        split; [intros; lia|].
        intros _. right. split; [discriminate|].
        replace (attempt + 1 - 1) with attempt by lia. exact He.
Qed.

(** X7. [ExecuteWithRetry] calls the operation as attempts
    0, 1, ..., n-1 in this order, with [n] at most [MaxRetries + 1]; every
    attempt but the last returned a retryable error while the attempt
    number was below [MaxRetries]; and it returns nil only if the last
    attempt succeeded, or if no attempt was made at all.  That happens
    when [MaxRetries] is negative: the operation is then never called and
    the result is nil. *)
Theorem execute_with_retry_attempts
  (env : APIUtils.Env) (config : Retry.RetryConfig) :
  let r := APIUtils.ExecuteWithRetry env (Some config) in
  (exists n : nat,
     Z.of_nat n <= Z.max 0 (Retry.MaxRetries config + 1) /\
     APIUtils.calls (snd r) = APIUtils.attempts_from 0 n /\
     (forall j, 0 <= j < Z.of_nat n - 1 ->
        Retry.IsRetryableError (APIUtils.result env j) = true /\
        j < Retry.MaxRetries config) /\
     (fst r = None -> n = 0%nat \/ APIUtils.result env (Z.of_nat n - 1) = None)) /\
  (Retry.MaxRetries config < 0 -> r = (None, [])).
Proof.
  intros r. subst r. unfold APIUtils.ExecuteWithRetry. split.
  - destruct (retry_loop_spec config env (Z.to_nat (Retry.MaxRetries config + 1)) 0 None [])
      as (n & Hn & Hcalls & Hretry & Hnil).
    exists n. split; [lia|]. split; [exact Hcalls|]. split; [exact Hretry|].
    intros Hnone. destruct (Hnil Hnone) as [[H0 _]|[_ Hres]]; [left; exact H0|right; exact Hres].
  - intros Hneg. replace (Z.to_nat (Retry.MaxRetries config + 1)) with 0%nat by lia.
    reflexivity.
Qed.

(** ** The client's retry loop *)

Lemma backoffs_app (t1 t2 : Client.Trace) :
  ClientTrace.backoffs (t1 ++ t2) = ClientTrace.backoffs t1 ++ ClientTrace.backoffs t2.
Proof.
  induction t1 as [|[d|o] t1 IH]; cbn; [reflexivity|now rewrite IH|exact IH].
Qed.

Lemma operations_app (t1 t2 : Client.Trace) :
  ClientTrace.operations (t1 ++ t2)
    = ClientTrace.operations t1 ++ ClientTrace.operations t2.
Proof.
  induction t1 as [|[d|o] t1 IH]; cbn; [reflexivity|exact IH|now rewrite IH].
Qed.

Ltac trace_facts :=
  split; [reflexivity|]; rewrite ?backoffs_app, ?operations_app; cbn;
  split; [first [apply app_nil_r | reflexivity]|];
  split; [first [eexists; split; [reflexivity|cbn; lia]
                | exists []; split; [now rewrite app_nil_r|cbn; lia]]
         |try discriminate].

(** One pass through [doSingleRequest]: the retry policy is not touched,
    the closure runs at most once and no back-off is recorded; a response
    comes back only with a 2xx status. *)
Lemma client_single_request_spec (a : Client.Attempt) (c : Client.Client) (tr : Client.Trace) :
  let r := Client.doSingleRequest a c tr in
  Client.retryConfig (snd (fst r)) = Client.retryConfig c /\
  ClientTrace.backoffs (snd r) = ClientTrace.backoffs tr /\
  (exists ops, ClientTrace.operations (snd r) = ClientTrace.operations tr ++ ops /\
               (List.length ops <= 1)%nat) /\
  (forall rsp, fst (fst r) = inl rsp -> 200 <= Client.StatusCode rsp < 300).
Proof.
  unfold Client.doSingleRequest.
  destruct (RateLimiter.Allow (Client.now_allow a) (Client.rateLimiter c)) as [ok rl].
  destruct ok; cbn [negb]; [|cbn; trace_facts].
  unfold Breaker.Execute.
  destruct (Breaker.allowRequest (Client.now_admit a) (Client.circuitBreaker c)) as [adm cb1].
  destruct adm; [|cbn; trace_facts].
  destruct (Client.outcome a) as [e|e|e|e|status body decoded readErr] eqn:Ho;
    unfold Client.operation; try (cbn; trace_facts).
  destruct readErr as [e|]; [cbn; trace_facts|].
  destruct decoded as [[code msg]|]; cbn -[Z.eqb Z.ltb Z.geb];
    destruct (status <? 200) eqn:E1; destruct (status >=? 300) eqn:E2;
    try destruct (code =? 0); cbn; trace_facts.
  all: intros rsp [= <-]; cbn; apply Z.ltb_ge in E1; rewrite Z.geb_leb in E2;
    apply Z.leb_gt in E2; lia.
Qed.

Lemma client_retry_loop_spec (env : Z -> Client.Attempt) (fuel : nat) :
  forall (attempt : Z) (lastErr : option error) (c : Client.Client) (tr : Client.Trace),
  0 < attempt ->
  let r := Client.retry_loop fuel attempt lastErr env c tr in
  Client.retryConfig (snd (fst r)) = Client.retryConfig c /\
  (exists n : nat,
     (n <= fuel)%nat /\
     ClientTrace.backoffs (snd r)
       = ClientTrace.backoffs tr
         ++ map (Retry.CalculateBackoffDelay (Client.retryConfig c))
              (APIUtils.attempts_from attempt n) /\
     exists ops, ClientTrace.operations (snd r) = ClientTrace.operations tr ++ ops /\
                 (List.length ops <= n)%nat) /\
  (forall rsp, fst (fst r) = inl rsp -> 200 <= Client.StatusCode rsp < 300).
Proof.
  induction fuel as [|fuel IH]; intros attempt lastErr c tr Hpos r; subst r.
  - cbn. split; [reflexivity|]. split; [|discriminate].
    exists 0%nat. cbn. rewrite app_nil_r. split; [lia|]. split; [reflexivity|].
    exists []. rewrite app_nil_r. split; [reflexivity|cbn; lia].
  - cbn [Client.retry_loop].
    destruct (Z.gtb_spec attempt 0) as [_|]; [|lia]. cbn [andb].
    set (tr1 := tr ++ [Client.EvBackoff (Retry.CalculateBackoffDelay (Client.retryConfig c) attempt)]).
    assert (Hb1 : ClientTrace.backoffs tr1
                  = ClientTrace.backoffs tr
                    ++ [Retry.CalculateBackoffDelay (Client.retryConfig c) attempt])
      by (subst tr1; rewrite backoffs_app; reflexivity).
    assert (Ho1 : ClientTrace.operations tr1 = ClientTrace.operations tr)
      by (subst tr1; rewrite operations_app; cbn; apply app_nil_r).
    destruct (Client.cancelled (env attempt)).
    + cbn. split; [reflexivity|]. split; [|discriminate].
      exists 1%nat. split; [lia|]. split; [rewrite Hb1; reflexivity|].
      exists []. rewrite app_nil_r. split; [exact Ho1|cbn; lia].
    + destruct (client_single_request_spec (env attempt) c tr1) as (Hrc & Hb & (ops & Hops & Hlen) & Hok).
      destruct (Client.doSingleRequest (env attempt) c tr1) as [[res c'] tr'].
      cbn [fst snd] in *.
      destruct res as [rsp|e].
      * cbn. split; [exact Hrc|]. split; [|intros r [= <-]; now apply Hok].
        exists 1%nat. split; [lia|]. split; [rewrite Hb, Hb1; reflexivity|].
        exists ops. split; [rewrite Hops, Ho1; reflexivity|exact Hlen].
      * destruct (Retry.ShouldRetry (Some e) attempt (Client.retryConfig c)).
        -- specialize (IH (attempt + 1) (Some e) c' tr' ltac:(lia)).
           cbv zeta in IH. rewrite Hrc in IH.
           destruct IH as (Hrc' & (n & Hn & Hbn & (ops' & Hops' & Hlen')) & Hok').
           split; [exact Hrc'|]. split; [|exact Hok'].
           exists (S n). split; [lia|]. split.
           { rewrite Hbn, Hb, Hb1. cbn. now rewrite <- app_assoc. }
           exists (ops ++ ops'). split.
           { rewrite Hops', Hops, Ho1. now rewrite app_assoc. }
           rewrite length_app. lia.
        -- cbn. split; [exact Hrc|]. split; [|discriminate].
           exists 1%nat. split; [lia|]. split; [rewrite Hb, Hb1; reflexivity|].
           exists ops. split; [rewrite Hops, Ho1; reflexivity|exact Hlen].
Qed.

(** X8. The retry loop of the client.  One call of
    [doRequestWithRetry] waits at most [MaxRetries] back-offs, and they
    are the delays of attempts 1, 2, 3, ... in this order (none before the
    first attempt); the request closure runs at most once per attempt,
    so at most [MaxRetries + 1] times; the retry policy is left as it was;
    and a response is returned only with a 2xx status.  With a negative
    [MaxRetries] no attempt is made at all: the call fails at once and
    leaves the client untouched. *)
Theorem client_retry_loop_is_bounded
  (env : Z -> Client.Attempt) (c : Client.Client) :
  let r := Client.doRequestWithRetry env c [] in
  let rc := Client.retryConfig c in
  Client.retryConfig (snd (fst r)) = rc /\
  (exists m : nat,
     Z.of_nat m <= Z.max 0 (Retry.MaxRetries rc) /\
     ClientTrace.backoffs (snd r)
       = map (Retry.CalculateBackoffDelay rc) (APIUtils.attempts_from 1 m) /\
     (List.length (ClientTrace.operations (snd r)) <= m + 1)%nat) /\
  (forall rsp, fst (fst r) = inl rsp -> 200 <= Client.StatusCode rsp < 300) /\
  (Retry.MaxRetries rc < 0 ->
   r = (inr (Client.retriesExhausted rc None), c, [])).
Proof.
  intros r rc. subst r rc. unfold Client.doRequestWithRetry.
  destruct (Z.to_nat (Retry.MaxRetries (Client.retryConfig c) + 1)) as [|fuel] eqn:Hfuel.
  - cbn. split; [reflexivity|]. split.
    { exists 0%nat. cbn. split; [lia|]. split; [reflexivity|lia]. }
    split; [discriminate|reflexivity].
  - assert (Hmax : 0 <= Retry.MaxRetries (Client.retryConfig c)) by lia.
    assert (Hf : Z.of_nat fuel = Retry.MaxRetries (Client.retryConfig c)) by lia.
    cbn [Client.retry_loop]. cbn [Z.gtb Z.compare andb].
    destruct (client_single_request_spec (env 0) c []) as (Hrc & Hb & (ops & Hops & Hlen) & Hok).
    destruct (Client.doSingleRequest (env 0) c []) as [[res c'] tr'].
    cbn [fst snd] in *.
    destruct res as [rsp|e].
    + cbn. split; [exact Hrc|]. split.
      { exists 0%nat. cbn. split; [lia|]. split; [exact Hb|].
        rewrite Hops. cbn. lia. }
      split; [intros r [= <-]; now apply Hok|lia].
    + destruct (Retry.ShouldRetry (Some e) 0 (Client.retryConfig c)).
      * destruct (client_retry_loop_spec env fuel (0 + 1) (Some e) c' tr' ltac:(lia))
          as (Hrc' & (n & Hn & Hbn & (ops' & Hops' & Hlen')) & Hok').
        rewrite Hrc in *. split; [exact Hrc'|]. split.
        { exists n. split; [lia|]. split.
          - rewrite Hbn, Hb. reflexivity.
          - rewrite Hops', Hops, length_app. cbn. lia. }
        split; [exact Hok'|lia].
      * cbn. split; [exact Hrc|]. split.
        { exists 0%nat. cbn. split; [lia|]. split; [exact Hb|].
          rewrite Hops. cbn. lia. }
        split; [discriminate|lia].
Qed.

(** ** API helpers: error responses and paths *)

(** X9. [ParseAPIError] returns the nil pointer exactly for the statuses
    200 to 299.  Otherwise it returns an [APIError] that carries the HTTP
    status as its code and the whole body as its details, with type
    "api_error" when the body decodes and "http_error" (message "HTTP" and
    the status) when it does not or is empty.  Such an [APIError] is never
    of type "auth": handed on as an [error], [IsRetryableError] holds of
    it exactly when the status is at least 500 or is 429. *)
Theorem parsed_api_error_is_retried_by_status
  (unmarshal : string -> option APIUtils.ErrorResp) (resp : Client.APIResponse) :
  (APIUtils.ParseAPIError unmarshal resp = None <-> 200 <= Client.StatusCode resp < 300) /\
  (forall e, APIUtils.ParseAPIError unmarshal resp = Some e ->
     Code e = Client.StatusCode resp /\ Details e = Client.Body resp /\
     (Type_ e = "api_error"%string \/
      Type_ e = "http_error"%string /\
      Message e = ("HTTP " ++ Retry.Sprint_d (Client.StatusCode resp))%string)) /\
  (Client.Body resp = ""%string -> ~ (200 <= Client.StatusCode resp < 300) ->
   APIUtils.ParseAPIError unmarshal resp
     = Some (NewAPIError (Client.StatusCode resp) "http_error"
               ("HTTP " ++ Retry.Sprint_d (Client.StatusCode resp)) "")) /\
  (forall e, APIUtils.ParseAPIError unmarshal resp = Some e ->
     Retry.IsRetryableError (Some (EAPI e))
     = (Client.StatusCode resp >=? 500) || (Client.StatusCode resp =? 429)).
Proof.
  unfold APIUtils.ParseAPIError, APIUtils.IsSuccess, APIUtils.ParseJSON.
  rewrite !Z.geb_leb.
  assert (Hs : (200 <=? Client.StatusCode resp) && (Client.StatusCode resp <? 300) = true
               <-> 200 <= Client.StatusCode resp < 300)
    by (rewrite andb_true_iff, Z.leb_le, Z.ltb_lt; tauto).
  destruct ((200 <=? Client.StatusCode resp) && (Client.StatusCode resp <? 300)) eqn:E.
  - assert (H : 200 <= Client.StatusCode resp < 300) by (now apply Hs).
    split; [split; [intros _; exact H|reflexivity]|]. split; [discriminate|].
    split; [intros _ Hn; contradiction|]. discriminate.
  - assert (H : ~ (200 <= Client.StatusCode resp < 300))
      by (intros Hc; apply Hs in Hc; discriminate).
    split; [split; [|intros Hc; contradiction]|].
    { destruct (_ =? _)%nat; [discriminate|]. destruct (unmarshal _); discriminate. }
    split; [|split].
    + intros e. destruct (_ =? _)%nat; [intros [= <-]; cbn; auto|].
      destruct (unmarshal _); intros [= <-]; cbn; auto.
    + intros Hb _. rewrite Hb. reflexivity.
    + assert (Hr : forall t m d, t <> "auth"%string ->
                Retry.IsRetryableError
                  (Some (EAPI (NewAPIError (Client.StatusCode resp) t m d)))
                = (500 <=? Client.StatusCode resp) || (Client.StatusCode resp =? 429)).
      { intros t m d Ht. cbn. destruct (String.eqb_spec t "auth"); [contradiction|].
        rewrite Z.geb_leb.
        destruct (Z.leb_spec 400 (Client.StatusCode resp)),
                 (Z.ltb_spec (Client.StatusCode resp) 500),
                 (Z.eqb_spec (Client.StatusCode resp) 429),
                 (Z.leb_spec 500 (Client.StatusCode resp)); cbn; try reflexivity; lia. }
      intros e. destruct (_ =? _)%nat; [intros [= <-]; apply Hr; discriminate|].
      destruct (unmarshal _); intros [= <-]; apply Hr; discriminate.
Qed.

Lemma str_app_assoc (a b c : string) : ((a ++ b) ++ c = a ++ (b ++ c))%string.
Proof. induction a as [|x a IH]; cbn; [reflexivity|now rewrite IH]. Qed.

Lemma str_app_nil_r (a : string) : (a ++ "" = a)%string.
Proof. induction a as [|x a IH]; cbn; [reflexivity|now rewrite IH]. Qed.

Lemma str_app_not_nil (a b : string) : b <> ""%string -> (a ++ b)%string <> ""%string.
Proof. destruct a; cbn; [auto|discriminate]. Qed.

Lemma HasSuffix_slash_cons (c : ascii) (t : string) :
  t <> ""%string -> GoStrings.HasSuffix (String c t) "/" = GoStrings.HasSuffix t "/".
Proof.
  intros Ht. destruct t as [|d t]; [contradiction|].
  unfold GoStrings.HasSuffix. cbn [String.length Nat.leb Nat.sub andb].
  rewrite Nat.sub_0_r. cbn [String.substring]. reflexivity.
Qed.

Lemma HasSuffix_slash_app (a b : string) :
  b <> ""%string -> GoStrings.HasSuffix (a ++ b) "/" = GoStrings.HasSuffix b "/".
Proof.
  intros Hb. induction a as [|x a IH]; [reflexivity|].
  cbn [String.append]. rewrite HasSuffix_slash_cons by (now apply str_app_not_nil).
  exact IH.
Qed.

Lemma Join_cons2 (x y : string) (l : list string) (sep : string) :
  GoStrings.Join (x :: y :: l) sep = (x ++ sep ++ GoStrings.Join (y :: l) sep)%string.
Proof. reflexivity. Qed.

Lemma build_path_plain (segments : list string) :
  Forall (fun s => s <> ""%string /\ GoStrings.HasSuffix s "/" = false) segments ->
  forall basePath, GoStrings.HasSuffix basePath "/" = false ->
  APIUtils.BuildAPIPath basePath segments = GoStrings.Join (basePath :: segments) "/".
Proof.
  induction 1 as [|s rest [Hs Hslash] Hrest IH]; intros basePath Hb; [reflexivity|].
  cbn [APIUtils.BuildAPIPath]. destruct (String.eqb_spec s ""); [contradiction|].
  cbn [negb]. rewrite Hb. cbn [negb].
  rewrite IH by (rewrite HasSuffix_slash_app by exact Hs; exact Hslash).
  destruct rest as [|r rest].
  - cbn. now rewrite str_app_assoc.
  - rewrite !Join_cons2. now rewrite !str_app_assoc.
Qed.

(** X10. [BuildAPIPath] skips empty segments, and never doubles the
    slash after the base path.  When neither the base path nor any segment
    ends in a slash and no segment is empty, the result is the base path
    and the segments joined by single slashes; when only the base path
    ends in a slash, it is the base path followed by the joined
    segments. *)
Theorem build_api_path_joins_with_single_slashes
  (basePath : string) (segments : list string) :
  APIUtils.BuildAPIPath basePath segments
    = APIUtils.BuildAPIPath basePath
        (filter (fun s => negb (String.eqb s "")) segments) /\
  (Forall (fun s => s <> ""%string /\ GoStrings.HasSuffix s "/" = false) segments ->
   (GoStrings.HasSuffix basePath "/" = false ->
    APIUtils.BuildAPIPath basePath segments = GoStrings.Join (basePath :: segments) "/") /\
   (GoStrings.HasSuffix basePath "/" = true ->
    APIUtils.BuildAPIPath basePath segments
      = (basePath ++ GoStrings.Join segments "/")%string)).
Proof.
  split.
  - revert basePath. induction segments as [|s rest IH]; intros basePath; [reflexivity|].
    cbn [filter APIUtils.BuildAPIPath]. destruct (String.eqb s "") eqn:E; cbn [negb].
    + apply IH.
    + cbn [APIUtils.BuildAPIPath]. rewrite E. cbn [negb]. apply IH.
  - intros Hall. split; [now apply build_path_plain|].
    intros Hb. destruct Hall as [|s rest [Hs Hslash] Hrest].
    + cbn. now rewrite str_app_nil_r.
    + cbn [APIUtils.BuildAPIPath]. destruct (String.eqb_spec s ""); [contradiction|].
      cbn [negb]. rewrite Hb. cbn [negb].
      rewrite build_path_plain
        by (first [exact Hrest | rewrite HasSuffix_slash_app by exact Hs; exact Hslash]).
      destruct rest as [|r rest]; [reflexivity|].
      rewrite !Join_cons2. now rewrite str_app_assoc.
Qed.

Lemma build_api_path_witness :
  Forall (fun s => s <> ""%string /\ GoStrings.HasSuffix s "/" = false)
    ["apps"; "tok"; "tables"]%string /\
  APIUtils.BuildAPIPath "/bitable/v1" ["apps"; "tok"; "tables"]%string
    = GoStrings.Join ["/bitable/v1"; "apps"; "tok"; "tables"]%string "/".
Proof.
  assert (H : Forall (fun s => s <> ""%string /\ GoStrings.HasSuffix s "/" = false)
                ["apps"; "tok"; "tables"]%string)
    by (repeat constructor; discriminate).
  split; [exact H|].
  apply (proj1 (proj2 (build_api_path_joins_with_single_slashes "/bitable/v1"
                         ["apps"; "tok"; "tables"]%string) H)).
  reflexivity.
Defined.

(** ** SQL commands: what the parser returns, validates *)

Lemma map_set_not_nil (k : string) (v : SQL.Value) (m : SQL.ValueMap) :
  SQL.map_set k v m <> [].
Proof. destruct m as [|[k' v'] m]; cbn; [discriminate|]. destruct (String.eqb k k'); discriminate. Qed.

Lemma map_get_set_same (k : string) (v : SQL.Value) (m : SQL.ValueMap) :
  SQL.map_get k (SQL.map_set k v m) = Some v.
Proof.
  induction m as [|[k' v'] m IH]; cbn.
  - now rewrite String.eqb_refl.
  - destruct (String.eqb k k') eqn:E; cbn.
    + now rewrite String.eqb_refl.
    + now rewrite E.
Qed.

Lemma map_get_set_other (k k' : string) (v : SQL.Value) (m : SQL.ValueMap) :
  k <> k' -> SQL.map_get k' (SQL.map_set k v m) = SQL.map_get k' m.
Proof.
  intros Hne. induction m as [|[k0 v0] m IH]; cbn.
  - destruct (String.eqb_spec k' k); [congruence|reflexivity].
  - destruct (String.eqb_spec k k0) as [->|Hk]; cbn.
    + destruct (String.eqb_spec k' k0); [congruence|reflexivity].
    + destruct (String.eqb k' k0); [reflexivity|exact IH].
Qed.

Lemma map_get_set_keeps (k k' : string) (v : SQL.Value) (m : SQL.ValueMap) :
  SQL.map_get k' m <> None -> SQL.map_get k' (SQL.map_set k v m) <> None.
Proof.
  intros H. destruct (String.eqb_spec k k') as [->|Hne].
  - rewrite map_get_set_same. discriminate.
  - now rewrite map_get_set_other.
Qed.

Lemma assign_values_keeps (fields : list string) :
  forall (values : list SQL.Value) (m : SQL.ValueMap) (k : string),
  SQL.map_get k m <> None -> SQL.map_get k (SQL.assign_values fields values m) <> None.
Proof.
  induction fields as [|f fields IH]; intros values m k H; [exact H|].
  destruct values as [|v values]; [exact H|]. cbn. apply IH. now apply map_get_set_keeps.
Qed.

Lemma assign_values_covers (fields : list string) :
  forall (values : list SQL.Value) (m : SQL.ValueMap),
  List.length fields = List.length values ->
  Forall (fun f => SQL.map_get f (SQL.assign_values fields values m) <> None) fields.
Proof.
  induction fields as [|f fields IH]; intros values m Hlen; [constructor|].
  destruct values as [|v values]; [discriminate|]. cbn in *. constructor.
  - apply assign_values_keeps. rewrite map_get_set_same. discriminate.
  - apply IH. lia.
Qed.

Lemma assign_values_not_nil (fields : list string) (values : list SQL.Value) (m : SQL.ValueMap) :
  fields <> [] -> List.length fields = List.length values ->
  SQL.assign_values fields values m <> [].
Proof.
  intros Hf Hlen. destruct fields as [|f fields]; [contradiction|].
  pose proof (assign_values_covers (f :: fields) values m Hlen) as H.
  inversion H as [|? ? H1 _]; subst. intros Hnil. rewrite Hnil in H1. now apply H1.
Qed.

Lemma set_all_keeps (updates : SQL.ValueMap) :
  forall (m : SQL.ValueMap), m <> [] -> SQL.set_all updates m <> [].
Proof.
  unfold SQL.set_all. induction updates as [|[k v] updates IH]; intros m H; [exact H|].
  cbn. apply IH. apply map_set_not_nil.
Qed.

Lemma set_all_not_nil (updates m : SQL.ValueMap) :
  updates <> [] -> SQL.set_all updates m <> [].
Proof.
  destruct updates as [|[k v] updates]; [contradiction|]. intros _.
  unfold SQL.set_all. cbn. apply set_all_keeps, map_set_not_nil.
Qed.

Lemma split_fuel_not_nil (fuel : nat) (s sep : string) : GoStrings.split_fuel fuel s sep <> [].
Proof. destruct fuel; cbn; [discriminate|]. destruct (GoStrings.Index s sep); discriminate. Qed.

Lemma setclause_loop_keeps (assignments : list string) :
  forall (m r : SQL.ValueMap), m <> [] -> SQL.setclause_loop assignments m = SQL.Ok r -> r <> [].
Proof.
  induction assignments as [|a assignments IH]; intros m r Hm H;
    cbn [SQL.setclause_loop] in H.
  - now injection H as <-.
  - destruct (GoStrings.SplitN _ _ _) as [|p0 [|p1 [|p2 ps]]]; try discriminate.
    destruct (SQL.unquote _); [|discriminate].
    apply IH in H; [exact H|apply map_set_not_nil].
Qed.

Lemma parseSetClause_not_nil (setClause : string) (r : SQL.ValueMap) :
  SQL.parseSetClause setClause = SQL.Ok r -> r <> [].
Proof.
  unfold SQL.parseSetClause, GoStrings.Split.
  pose proof (split_fuel_not_nil (String.length setClause) setClause ",") as Hs.
  destruct (GoStrings.split_fuel _ _ _) as [|a assignments]; [contradiction|].
  cbn [SQL.setclause_loop]. destruct (GoStrings.SplitN _ _ _) as [|p0 [|p1 [|p2 ps]]]; try discriminate.
  destruct (SQL.unquote _); [|discriminate].
  apply setclause_loop_keeps, map_set_not_nil.
Qed.

Lemma length_zero_false {A} (l : list A) : l <> [] -> (List.length l =? 0)%nat = false.
Proof. destruct l; [contradiction|reflexivity]. Qed.

Ltac validate_as :=
  unfold Command.Validate;
  cbn [SQL.Type_ SQL.Table SQL.Fields SQL.Values SQL.UpdateFields SQL.ShowType
       SQL.with_Values SQL.with_Fields SQL.with_Table SQL.with_Type SQL.with_Condition
       SQL.with_Where SQL.with_UpdateFields SelectParser.with_Limit
       SelectParser.with_Aggregate SelectParser.with_ShowType SQL.with_RawSQL];
  cbv [Command.IsValid SQL.CommandSelect SQL.CommandInsert SQL.CommandUpdate
       SQL.CommandDelete SQL.CommandShow SQL.CommandCreate SQL.CommandDrop
       SQL.CommandDescribe existsb String.eqb Ascii.eqb Bool.eqb negb orb];
  cbn [SQL.Type_ SQL.Table SQL.Fields SQL.Values SQL.UpdateFields SQL.ShowType
       SQL.with_Values SQL.with_Fields SQL.with_Table SQL.with_Type SQL.with_Condition
       SQL.with_Where SQL.with_UpdateFields SelectParser.with_Limit
       SelectParser.with_Aggregate SelectParser.with_ShowType SQL.with_RawSQL].

Lemma insert_validates (sql : string) (cmd0 cmd : SQL.SQLCommand) :
  SQL.ParseInsertSQL sql cmd0 = SQL.Ok cmd ->
  Command.Validate cmd = None /\
  SQL.Type_ cmd = SQL.CommandInsert /\
  SQL.RawSQL cmd = SQL.RawSQL cmd0 /\
  SQL.Fields cmd <> [] /\
  Forall (fun f => SQL.map_get f (SQL.Values cmd) <> None) (SQL.Fields cmd).
Proof.
  unfold SQL.ParseInsertSQL.
  remember (Regexp.FindStringSubmatch 3 SQL.insertRe sql) as matches eqn:Hm; clear Hm.
  destruct (_ <? 4)%nat; [discriminate|].
  cbn [SQL.Table SQL.with_Table SQL.Values SQL.with_Type SQL.with_Fields].
  destruct (SQL.ValidateNotEmpty (GoStrings.TrimSpace (Regexp.at_ matches 1)) _) eqn:Ht;
    [discriminate|].
  destruct (SQL.ValidateNotEmpty (GoStrings.TrimSpace (Regexp.at_ matches 2)) _);
    [discriminate|].
  destruct (List.length _ =? 0)%nat eqn:Hf; [discriminate|].
  destruct (SQL.ValidateNotEmpty (GoStrings.TrimSpace (Regexp.at_ matches 3)) _);
    [discriminate|].
  destruct (List.length _ =? List.length _)%nat eqn:Hl; [|discriminate]. cbn [negb].
  intros [= <-]. apply Nat.eqb_eq in Hl. apply Nat.eqb_neq in Hf.
  assert (Hne : SQL.parseFieldList (GoStrings.TrimSpace (Regexp.at_ matches 2)) <> [])
    by (intros E; rewrite E in Hf; now apply Hf).
  split; [|split; [reflexivity|split; [reflexivity|
            split; [exact Hne|now apply assign_values_covers]]]].
  validate_as. unfold Command.validateInsert.
  cbn [SQL.Table SQL.Values SQL.with_Values SQL.with_Fields SQL.with_Table SQL.with_Type].
  rewrite Ht. rewrite length_zero_false; [reflexivity|].
  now apply assign_values_not_nil.
Qed.

Lemma update_validates (sql : string) (cmd0 cmd : SQL.SQLCommand) :
  SQL.ParseUpdateSQL sql cmd0 = SQL.Ok cmd ->
  Command.Validate cmd = None /\
  SQL.Type_ cmd = SQL.CommandUpdate /\
  SQL.RawSQL cmd = SQL.RawSQL cmd0 /\
  SQL.UpdateFields cmd <> [] /\
  SQL.Values cmd = SQL.set_all (SQL.UpdateFields cmd) (SQL.Values cmd0).
Proof.
  unfold SQL.ParseUpdateSQL.
  remember (if GoStrings.Contains (GoStrings.ToUpper sql) " WHERE "
            then Regexp.FindStringSubmatch 3 SQL.updateWhereRe sql
            else Regexp.FindStringSubmatch 2 SQL.updateRe sql) as matches eqn:Hm; clear Hm.
  destruct (_ <? 3)%nat; [discriminate|].
  cbn [SQL.Table SQL.with_Table SQL.Values SQL.with_Type SQL.with_UpdateFields].
  destruct (SQL.ValidateNotEmpty (GoStrings.TrimSpace (Regexp.at_ matches 1)) _) eqn:Ht;
    [discriminate|].
  destruct (SQL.ValidateNotEmpty (GoStrings.TrimSpace (Regexp.at_ matches 2)) _);
    [discriminate|].
  destruct (SQL.parseSetClause _) as [updateFields|e|] eqn:Hset; try discriminate.
  pose proof (parseSetClause_not_nil _ _ Hset) as Hne.
  assert (Hgoal : forall c,
            SQL.Table c = GoStrings.TrimSpace (Regexp.at_ matches 1) ->
            SQL.Type_ c = SQL.CommandUpdate -> SQL.UpdateFields c = updateFields ->
            SQL.Values c = SQL.set_all updateFields (SQL.Values cmd0) ->
            SQL.RawSQL c = SQL.RawSQL cmd0 ->
            Command.Validate c = None /\ SQL.Type_ c = SQL.CommandUpdate /\
            SQL.RawSQL c = SQL.RawSQL cmd0 /\
            SQL.UpdateFields c <> [] /\
            SQL.Values c = SQL.set_all (SQL.UpdateFields c) (SQL.Values cmd0)).
  { intros c Htab Hty Hup Hval Hraw.
    split; [|split; [exact Hty|split; [exact Hraw|split; [now rewrite Hup|now rewrite Hup]]]].
    unfold Command.Validate. rewrite Hty.
    cbv [Command.IsValid SQL.CommandSelect SQL.CommandInsert SQL.CommandUpdate
         SQL.CommandDelete SQL.CommandShow SQL.CommandCreate SQL.CommandDrop
         SQL.CommandDescribe existsb String.eqb Ascii.eqb Bool.eqb negb orb].
    unfold Command.validateUpdate. rewrite Htab, Ht, Hval.
    rewrite (length_zero_false (SQL.set_all updateFields (SQL.Values cmd0)));
      [reflexivity|now apply set_all_not_nil]. }
  destruct (_ && _).
  - destruct (SQL.parseWhereClause _); try discriminate.
    intros [= <-]. apply Hgoal; reflexivity.
  - intros [= <-]. apply Hgoal; reflexivity.
Qed.

Lemma delete_validates (sql : string) (cmd0 cmd : SQL.SQLCommand) :
  SQL.ParseDeleteSQL sql cmd0 = SQL.Ok cmd ->
  Command.Validate cmd = None /\ SQL.Type_ cmd = SQL.CommandDelete /\
  SQL.RawSQL cmd = SQL.RawSQL cmd0.
Proof.
  unfold SQL.ParseDeleteSQL.
  remember (Regexp.FindStringSubmatch 2 SQL.deleteRe sql) as matches eqn:Hm; clear Hm.
  destruct (_ <? 2)%nat; [discriminate|].
  cbn [SQL.Table SQL.with_Table SQL.with_Type].
  destruct (SQL.ValidateNotEmpty (Regexp.at_ matches 1) _) eqn:Ht; [discriminate|].
  assert (Hgoal : forall c,
            SQL.Table c = Regexp.at_ matches 1 -> SQL.Type_ c = SQL.CommandDelete ->
            SQL.RawSQL c = SQL.RawSQL cmd0 ->
            Command.Validate c = None /\ SQL.Type_ c = SQL.CommandDelete /\
            SQL.RawSQL c = SQL.RawSQL cmd0).
  { intros c Htab Hty Hraw. split; [|split; [exact Hty|exact Hraw]].
    unfold Command.Validate. rewrite Hty.
    cbv [Command.IsValid SQL.CommandSelect SQL.CommandInsert SQL.CommandUpdate
         SQL.CommandDelete SQL.CommandShow SQL.CommandCreate SQL.CommandDrop
         SQL.CommandDescribe existsb String.eqb Ascii.eqb Bool.eqb negb orb].
    unfold Command.validateDelete. now rewrite Htab. }
  destruct (_ && _).
  - destruct (SQL.parseWhereClause _); try discriminate.
    intros [= <-]. apply Hgoal; reflexivity.
  - intros [= <-]. apply Hgoal; reflexivity.
Qed.

Lemma select_validates (sql : string) (cmd0 cmd : SQL.SQLCommand) :
  SelectParser.ParseSelectSQL sql cmd0 = SQL.Ok cmd ->
  Command.Validate cmd = None /\
  SQL.Type_ cmd = SQL.CommandSelect /\
  SQL.RawSQL cmd = SQL.RawSQL cmd0 /\
  SQL.Fields cmd <> [] /\
  (SQL.Limit cmd = SQL.Limit cmd0 \/ 0 <= SQL.Limit cmd).
Proof.
  unfold SelectParser.ParseSelectSQL.
  remember (Regexp.FindStringSubmatch 4 SelectParser.selectRe sql) as matches eqn:Hm;
    clear Hm.
  destruct (_ <? 3)%nat; [discriminate|].
  set (fieldsStr := GoStrings.TrimSpace (Regexp.at_ matches 1)).
  destruct (SQL.ValidateNotEmpty fieldsStr _); [discriminate|].
  remember (Regexp.FindStringSubmatch 2 SelectParser.aggregateRe fieldsStr) as agg eqn:Ha;
    clear Ha.
  set (tab := GoStrings.TrimSpace (Regexp.at_ matches 2)).
  pose (P := fun c : SQL.SQLCommand =>
               SQL.Table c = tab /\ SQL.Type_ c = SQL.CommandSelect /\
               SQL.RawSQL c = SQL.RawSQL cmd0 /\
               SQL.Fields c <> [] /\ SQL.Limit c = SQL.Limit cmd0).
  assert (Hdone : forall c, SQL.ValidateNotEmpty tab "表名" = None ->
            SQL.Table c = tab -> SQL.Type_ c = SQL.CommandSelect -> SQL.Fields c <> [] ->
            Command.Validate c = None).
  { intros c Ht Htab Hty Hf. unfold Command.Validate. rewrite Hty.
    cbv [Command.IsValid SQL.CommandSelect SQL.CommandInsert SQL.CommandUpdate
         SQL.CommandDelete SQL.CommandShow SQL.CommandCreate SQL.CommandDrop
         SQL.CommandDescribe existsb String.eqb Ascii.eqb Bool.eqb negb orb].
    unfold Command.validateSelect. rewrite Htab, Ht.
    now rewrite length_zero_false. }
  assert (Hrest : forall c, P (SQL.with_Table tab c) ->
    match SQL.ValidateNotEmpty (SQL.Table (SQL.with_Table tab c)) "表名" with
    | Some e => SQL.Err e
    | None =>
        match
          (if (3 <? Regexp.len_matches matches)%nat
              && negb (String.eqb (Regexp.at_ matches 3) "")
           then
             match SQL.parseWhereClause (GoStrings.TrimSpace (Regexp.at_ matches 3)) with
             | SQL.Panic => SQL.Panic
             | SQL.Err e => SQL.Err (EWrap "WHERE 条件解析失败" e)
             | SQL.Ok conditions =>
                 SQL.Ok (SQL.with_Condition conditions
                           (SQL.with_Where (GoStrings.TrimSpace (Regexp.at_ matches 3))
                              (SQL.with_Table tab c)))
             end
           else SQL.Ok (SQL.with_Table tab c))
        with
        | SQL.Err e => SQL.Err e
        | SQL.Panic => SQL.Panic
        | SQL.Ok cmd1 =>
            if (4 <? Regexp.len_matches matches)%nat
               && negb (String.eqb (Regexp.at_ matches 4) "")
            then
              match Strconv.Atoi (GoStrings.TrimSpace (Regexp.at_ matches 4)) with
              | None => SQL.Err (EPlain ("LIMIT 值必须是数字: "
                                         ++ GoStrings.TrimSpace (Regexp.at_ matches 4)))
              | Some limit =>
                  if limit <? 0
                  then SQL.Err (EPlain ("LIMIT 值不能为负数: " ++ Retry.Sprint_d limit))
                  else SQL.Ok (SelectParser.with_Limit limit cmd1)
              end
            else SQL.Ok cmd1
        end
    end = SQL.Ok cmd ->
    Command.Validate cmd = None /\ SQL.Type_ cmd = SQL.CommandSelect /\
    SQL.RawSQL cmd = SQL.RawSQL cmd0 /\
    SQL.Fields cmd <> [] /\ (SQL.Limit cmd = SQL.Limit cmd0 \/ 0 <= SQL.Limit cmd)).
  { intros c Hc. cbn [SQL.Table SQL.with_Table].
    destruct (SQL.ValidateNotEmpty tab _) eqn:Ht; [discriminate|].
    assert (Hlim : forall c1, P c1 ->
      (if (4 <? Regexp.len_matches matches)%nat
          && negb (String.eqb (Regexp.at_ matches 4) "")
       then
         match Strconv.Atoi (GoStrings.TrimSpace (Regexp.at_ matches 4)) with
         | None => SQL.Err (EPlain ("LIMIT 值必须是数字: "
                                    ++ GoStrings.TrimSpace (Regexp.at_ matches 4)))
         | Some limit =>
             if limit <? 0
             then SQL.Err (EPlain ("LIMIT 值不能为负数: " ++ Retry.Sprint_d limit))
             else SQL.Ok (SelectParser.with_Limit limit c1)
         end
       else SQL.Ok c1) = SQL.Ok cmd ->
      Command.Validate cmd = None /\ SQL.Type_ cmd = SQL.CommandSelect /\
      SQL.RawSQL cmd = SQL.RawSQL cmd0 /\
      SQL.Fields cmd <> [] /\ (SQL.Limit cmd = SQL.Limit cmd0 \/ 0 <= SQL.Limit cmd)).
    { intros c1 (Htab & Hty & Hraw & Hf & Hl).
      destruct (_ && _).
      - destruct (Strconv.Atoi _) as [limit|]; [|discriminate].
        destruct (limit <? 0) eqn:El; [discriminate|].
        intros [= <-]. apply Z.ltb_ge in El.
        split; [apply Hdone; [reflexivity|exact Htab|exact Hty|exact Hf]|].
        split; [exact Hty|split; [exact Hraw|split; [exact Hf|right; exact El]]].
      - intros [= <-].
        split; [apply Hdone; [reflexivity|exact Htab|exact Hty|exact Hf]|].
        split; [exact Hty|split; [exact Hraw|split; [exact Hf|left; exact Hl]]]. }
    destruct ((3 <? _)%nat && _).
    - destruct (SQL.parseWhereClause _); try discriminate.
      apply Hlim. exact Hc.
    - apply Hlim. exact Hc. }
  destruct (3 <=? _)%nat.
  - apply Hrest. repeat split. discriminate.
  - destruct (String.eqb fieldsStr "*").
    + apply Hrest. repeat split. discriminate.
    + destruct (List.length _ =? 0)%nat eqn:Hf; [discriminate|].
      apply Hrest. repeat split. cbn. intros E. rewrite E in Hf. discriminate.
Qed.

Lemma cli_delete_validates (sql : string) (cmd0 cmd : SQL.SQLCommand) :
  SQL.Type_ cmd0 = SQL.CommandDelete ->
  CLI.parseDelete sql cmd0 = SQL.Ok cmd ->
  Command.Validate cmd = None /\ SQL.Type_ cmd = SQL.CommandDelete /\
  SQL.RawSQL cmd = SQL.RawSQL cmd0.
Proof.
  intros Hty0. unfold CLI.parseDelete.
  remember (Regexp.FindStringSubmatch 2 CLI.deleteTabRe sql) as matches eqn:Hm; clear Hm.
  destruct (_ <? 2)%nat; [discriminate|].
  cbn [SQL.Table SQL.with_Table].
  destruct (SQL.ValidateNotEmpty (GoStrings.TrimSpace (Regexp.at_ matches 1)) _) eqn:Ht;
    [discriminate|].
  assert (Hgoal : forall c,
            SQL.Table c = GoStrings.TrimSpace (Regexp.at_ matches 1) ->
            SQL.Type_ c = SQL.CommandDelete ->
            SQL.RawSQL c = SQL.RawSQL cmd0 ->
            Command.Validate c = None /\ SQL.Type_ c = SQL.CommandDelete /\
            SQL.RawSQL c = SQL.RawSQL cmd0).
  { intros c Htab Hty Hraw. split; [|split; [exact Hty|exact Hraw]].
    unfold Command.Validate. rewrite Hty.
    cbv [Command.IsValid SQL.CommandSelect SQL.CommandInsert SQL.CommandUpdate
         SQL.CommandDelete SQL.CommandShow SQL.CommandCreate SQL.CommandDrop
         SQL.CommandDescribe existsb String.eqb Ascii.eqb Bool.eqb negb orb].
    unfold Command.validateDelete. now rewrite Htab. }
  destruct (_ && _).
  - destruct (CLI.parseWhereClause _); try discriminate.
    intros [= <-]. apply Hgoal; [reflexivity|exact Hty0|reflexivity].
  - intros [= <-]. apply Hgoal; [reflexivity|exact Hty0|reflexivity].
Qed.

Lemma cli_show_validates (sql : string) (cmd0 cmd : SQL.SQLCommand) :
  SQL.Type_ cmd0 = SQL.CommandShow ->
  CLI.parseShow sql cmd0 = SQL.Ok cmd ->
  SQL.Type_ cmd = SQL.CommandShow /\ SQL.RawSQL cmd = SQL.RawSQL cmd0 /\
  (Command.Validate cmd = None \/
   SQL.ShowType cmd = "COLUMNS"%string /\
   Command.Validate cmd = SQL.ValidateNotEmpty (SQL.Table cmd) "表名").
Proof.
  intros Hty0. unfold CLI.parseShow.
  assert (Hv : forall c, SQL.Type_ c = SQL.CommandShow ->
                         Command.Validate c = Command.validateShow c).
  { intros c Hty. unfold Command.Validate. rewrite Hty. reflexivity. }
  destruct (GoStrings.Contains _ "TABLES").
  { intros [= <-]. split; [exact Hty0|split; [reflexivity|left]].
    rewrite Hv by exact Hty0. reflexivity. }
  destruct (GoStrings.Contains _ "DATABASES").
  { intros [= <-]. split; [exact Hty0|split; [reflexivity|left]].
    rewrite Hv by exact Hty0. reflexivity. }
  destruct (GoStrings.Contains _ "COLUMNS"); [|discriminate].
  remember (Regexp.FindStringSubmatch 1 CLI.showColumnsRe sql) as matches eqn:Hm; clear Hm.
  destruct (_ <? 2)%nat; [discriminate|].
  intros [= <-]. split; [exact Hty0|split; [reflexivity|right]].
  split; [reflexivity|]. rewrite Hv by exact Hty0. reflexivity.
Qed.

(** X11. A command returned by one of the four statement parsers of
    SQLParser (SELECT, INSERT, UPDATE, DELETE) always passes
    SQLCommand.Validate, whatever the statement was: the parsers never
    hand out a command with a blank table, a SELECT without fields, an
    INSERT without values or an UPDATE without assignments.  The command
    keeps the RawSQL it came with, and after an INSERT every listed field
    has a value. *)
Theorem parsed_command_validates (sql : string) (cmd0 cmd : SQL.SQLCommand) :
  SelectParser.ParseSelectSQL sql cmd0 = SQL.Ok cmd \/
  SQL.ParseInsertSQL sql cmd0 = SQL.Ok cmd \/
  SQL.ParseUpdateSQL sql cmd0 = SQL.Ok cmd \/
  SQL.ParseDeleteSQL sql cmd0 = SQL.Ok cmd ->
  Command.Validate cmd = None /\
  SQL.RawSQL cmd = SQL.RawSQL cmd0 /\
  (SQL.ParseInsertSQL sql cmd0 = SQL.Ok cmd ->
   SQL.Fields cmd <> [] /\
   Forall (fun f => SQL.map_get f (SQL.Values cmd) <> None) (SQL.Fields cmd)) /\
  (SQL.ParseUpdateSQL sql cmd0 = SQL.Ok cmd ->
   SQL.UpdateFields cmd <> [] /\
   SQL.Values cmd = SQL.set_all (SQL.UpdateFields cmd) (SQL.Values cmd0)).
Proof.
  intros H.
  assert (Hmain : Command.Validate cmd = None /\ SQL.RawSQL cmd = SQL.RawSQL cmd0).
  { destruct H as [H|[H|[H|H]]].
    - apply select_validates in H. tauto.
    - apply insert_validates in H. tauto.
    - apply update_validates in H. tauto.
    - apply delete_validates in H. tauto. }
  destruct Hmain as [Hv Hraw]. split; [exact Hv|split; [exact Hraw|split]].
  - intros Hi. apply insert_validates in Hi. tauto.
  - intros Hu. apply update_validates in Hu. tauto.
Qed.

Lemma parsed_command_validates_witness :
  Command.Validate Examples.insert_cmd = None /\
  Forall (fun f => SQL.map_get f (SQL.Values Examples.insert_cmd) <> None)
         (SQL.Fields Examples.insert_cmd).
Proof.
  assert (Hp : SQL.ParseInsertSQL Examples.insert_sql
                 (SQL.with_RawSQL Examples.insert_sql (SQL.NewSQLCommand SQL.CommandInsert))
               = SQL.Ok Examples.insert_cmd) by (vm_compute; reflexivity).
  destruct (parsed_command_validates Examples.insert_sql _ Examples.insert_cmd
              (or_intror (or_introl Hp))) as (Hv & _ & Hi & _).
  split; [exact Hv|exact (proj2 (Hi Hp))].
Defined.

(** X12. What the command line's ParseSQL returns: the command has one
    of the five types SELECT, INSERT, UPDATE, DELETE, SHOW (a CREATE, DROP
    or DESCRIBE statement is always an error), that type is the one read
    off the first keyword of the preprocessed statement, RawSQL is the
    preprocessed statement, and the command passes SQLCommand.Validate,
    with one exception: SHOW COLUMNS may come back with a blank table
    name, and then validation fails on the table name. *)
Theorem cli_parse_sql_result (sql : string) (cmd : SQL.SQLCommand) :
  CLI.ParseSQL sql = SQL.Ok cmd ->
  SQL.Type_ cmd = CLI.identifyCommandType (SQL.PreprocessSQL sql) /\
  In (SQL.Type_ cmd)
     [SQL.CommandSelect; SQL.CommandInsert; SQL.CommandUpdate; SQL.CommandDelete;
      SQL.CommandShow] /\
  SQL.RawSQL cmd = SQL.PreprocessSQL sql /\
  (Command.Validate cmd = None \/
   SQL.Type_ cmd = SQL.CommandShow /\ SQL.ShowType cmd = "COLUMNS"%string /\
   Command.Validate cmd = SQL.ValidateNotEmpty (SQL.Table cmd) "表名").
Proof.
  unfold CLI.ParseSQL. destruct (SQL.ValidateNotEmpty sql _); [discriminate|].
  set (s := SQL.PreprocessSQL sql). set (t := CLI.identifyCommandType s).
  set (cmd0 := SQL.with_RawSQL s (SQL.NewSQLCommand t)).
  assert (Hraw0 : SQL.RawSQL cmd0 = s) by reflexivity.
  assert (Hty0 : SQL.Type_ cmd0 = t) by reflexivity.
  clearbody cmd0.
  destruct (String.eqb t SQL.CommandSelect) eqn:E1.
  { apply String.eqb_eq in E1. intros H. apply select_validates in H.
    destruct H as (Hv & Hty & Hraw & _). rewrite Hty, E1, Hraw, Hraw0.
    split; [reflexivity|split; [cbn; tauto|split; [reflexivity|left; exact Hv]]]. }
  destruct (String.eqb t SQL.CommandInsert) eqn:E2.
  { apply String.eqb_eq in E2. intros H. apply insert_validates in H.
    destruct H as (Hv & Hty & Hraw & _). rewrite Hty, E2, Hraw, Hraw0.
    split; [reflexivity|split; [cbn; tauto|split; [reflexivity|left; exact Hv]]]. }
  destruct (String.eqb t SQL.CommandUpdate) eqn:E3.
  { apply String.eqb_eq in E3. intros H. apply update_validates in H.
    destruct H as (Hv & Hty & Hraw & _). rewrite Hty, E3, Hraw, Hraw0.
    split; [reflexivity|split; [cbn; tauto|split; [reflexivity|left; exact Hv]]]. }
  destruct (String.eqb t SQL.CommandDelete) eqn:E4.
  { apply String.eqb_eq in E4. intros H.
    apply cli_delete_validates in H; [|now rewrite Hty0].
    destruct H as (Hv & Hty & Hraw). rewrite Hty, E4, Hraw, Hraw0.
    split; [reflexivity|split; [cbn; tauto|split; [reflexivity|left; exact Hv]]]. }
  destruct (String.eqb t SQL.CommandShow) eqn:E5; [|discriminate].
  apply String.eqb_eq in E5. intros H.
  apply cli_show_validates in H; [|now rewrite Hty0].
  destruct H as (Hty & Hraw & Hv). rewrite Hty, E5, Hraw, Hraw0.
  split; [reflexivity|split; [cbn; tauto|split; [reflexivity|]]].
  destruct Hv as [Hv|[Hs Hv]]; [left; exact Hv|right].
  split; [reflexivity|split; [exact Hs|exact Hv]].
Qed.

Lemma cli_parse_sql_result_witness :
  exists cmd,
    CLI.ParseSQL "SELECT name FROM users WHERE age > 18 LIMIT 5;" = SQL.Ok cmd /\
    SQL.Type_ cmd = SQL.CommandSelect /\
    SQL.RawSQL cmd = "SELECT name FROM users WHERE age > 18 LIMIT 5"%string.
Proof.
  destruct (CLI.ParseSQL "SELECT name FROM users WHERE age > 18 LIMIT 5;") as [cmd| |] eqn:Hp;
    [|vm_compute in Hp; discriminate|vm_compute in Hp; discriminate].
  exists cmd. split; [reflexivity|].
  destruct (cli_parse_sql_result _ cmd Hp) as (Hty & _ & Hraw & _).
  split; [rewrite Hty; vm_compute; reflexivity|rewrite Hraw; vm_compute; reflexivity].
Defined.

(** The exception does occur: a vertical tab is not a space for the
    pattern of SHOW COLUMNS, but TrimSpace removes it. *)
Example cli_show_columns_blank_table :
  exists cmd,
    CLI.ParseSQL ("SHOW COLUMNS FROM " ++ String (ascii_of_nat 11) " x") = SQL.Ok cmd /\
    SQL.Table cmd = ""%string /\ Command.Validate cmd <> None.
Proof.
  eexists. split; [vm_compute; reflexivity|]. split; [reflexivity|].
  vm_compute. discriminate.
Qed.

(** ** The matcher against what a pattern matches *)

Lemma run_unfold (fuel : nat) (r : Regexp.regex) (s : string) (caps : Regexp.Caps)
    (k : string -> Regexp.Caps -> option Regexp.Caps) :
  Regexp.run fuel r s caps k =
  match r with
  | Regexp.Cls p =>
      match s with
      | String c s' => if p c then k s' caps else None
      | EmptyString => None
      end
  | Regexp.Eps => k s caps
  | Regexp.Cat r1 r2 =>
      Regexp.run fuel r1 s caps (fun s' caps' => Regexp.run fuel r2 s' caps' k)
  | Regexp.Alt r1 r2 =>
      Regexp.orelse (Regexp.run fuel r1 s caps k) (Regexp.run fuel r2 s caps k)
  | Regexp.Star r1 =>
      match fuel with
      | O => k s caps
      | S fuel' =>
          Regexp.orelse
            (Regexp.run fuel r1 s caps (fun s' caps' =>
               if (String.length s' <? String.length s)%nat
               then Regexp.run fuel' (Regexp.Star r1) s' caps' k else None))
            (k s caps)
      end
  | Regexp.StarLazy r1 =>
      match fuel with
      | O => k s caps
      | S fuel' =>
          Regexp.orelse
            (k s caps)
            (Regexp.run fuel r1 s caps (fun s' caps' =>
               if (String.length s' <? String.length s)%nat
               then Regexp.run fuel' (Regexp.StarLazy r1) s' caps' k else None))
      end
  | Regexp.Group n r1 =>
      Regexp.run fuel r1 s caps (fun s' caps' =>
        k s' ((n, String.substring 0 (String.length s - String.length s') s) :: caps'))
  | Regexp.EndText =>
      match s with
      | EmptyString => k s caps
      | String _ _ => None
      end
  end.
Proof. destruct fuel; destruct r; reflexivity. Qed.

Lemma str_length_app (a b : string) :
  String.length (a ++ b) = (String.length a + String.length b)%nat.
Proof. induction a; cbn; [reflexivity|now rewrite IHa]. Qed.

Lemma orelse_some {A} (x y : option A) (v : A) :
  Regexp.orelse x y = Some v -> x = Some v \/ y = Some v.
Proof. destruct x; cbn; intros H; [left|right]; exact H. Qed.

Lemma run_sound (fuel : nat) :
  forall (r : Regexp.regex) (s : string) (caps : Regexp.Caps)
         (k : string -> Regexp.Caps -> option Regexp.Caps) (res : Regexp.Caps),
    Regexp.run fuel r s caps k = Some res ->
    exists w rest caps',
      s = (w ++ rest)%string /\ Language.Matches r w rest /\ k rest caps' = Some res.
Proof.
  induction fuel as [|fuel IHf]; induction r; intros s caps k res H;
    rewrite run_unfold in H.
  all: try (destruct s as [|c s']; [discriminate|];
            destruct (p c) eqn:Hp; [|discriminate];
            exists (String c ""), s', caps; repeat split;
            [now constructor|exact H]).
  all: try (exists ""%string, s, caps; repeat split; [constructor|exact H]).
  all: try (apply IHr1 in H; destruct H as (w1 & rest1 & caps1 & -> & M1 & H);
            apply IHr2 in H; destruct H as (w2 & rest2 & caps2 & -> & M2 & H);
            exists (w1 ++ w2)%string, rest2, caps2; rewrite str_app_assoc;
            repeat split; [now constructor|exact H]).
  all: try (apply orelse_some in H; destruct H as [H|H];
            [apply IHr1 in H|apply IHr2 in H];
            destruct H as (w & rest & caps' & -> & M & H);
            exists w, rest, caps'; repeat split;
            first [now apply Language.MAltL | now apply Language.MAltR | exact H]).
  all: try (apply IHr in H; destruct H as (w & rest & caps' & -> & M & H);
            eexists w, rest, _; repeat split; [now constructor|exact H]).
  all: try (destruct s; [|discriminate];
            exists ""%string, ""%string, caps; repeat split; [constructor|exact H]).
  - apply orelse_some in H. destruct H as [H|H].
    + apply IHr in H. destruct H as (w1 & rest1 & caps1 & -> & M1 & H).
      destruct (_ <? _)%nat eqn:Hlen; [|discriminate].
      apply IHf in H. destruct H as (w2 & rest2 & caps2 & -> & M2 & H).
      exists (w1 ++ w2)%string, rest2, caps2. rewrite str_app_assoc.
      repeat split; [|exact H].
      apply Language.MStarCons; [|exact M1|exact M2].
      intros ->. apply Nat.ltb_lt in Hlen. cbn in Hlen. lia.
    + exists ""%string, s, caps. repeat split; [constructor|exact H].
  - apply orelse_some in H. destruct H as [H|H].
    + exists ""%string, s, caps. repeat split; [constructor|exact H].
    + apply IHr in H. destruct H as (w1 & rest1 & caps1 & -> & M1 & H).
      destruct (_ <? _)%nat eqn:Hlen; [|discriminate].
      apply IHf in H. destruct H as (w2 & rest2 & caps2 & -> & M2 & H).
      exists (w1 ++ w2)%string, rest2, caps2. rewrite str_app_assoc.
      repeat split; [|exact H].
      apply Language.MLazyCons; [|exact M1|exact M2].
      intros ->. apply Nat.ltb_lt in Hlen. cbn in Hlen. lia.
Qed.

Lemma orelse_not_none_l {A} (x y : option A) : x <> None -> Regexp.orelse x y <> None.
Proof. destruct x; cbn; [discriminate|intros H; now elim H]. Qed.

Lemma orelse_not_none_r {A} (x y : option A) : y <> None -> Regexp.orelse x y <> None.
Proof. destruct x; cbn; [discriminate|intros H; exact H]. Qed.

Lemma str_length_pos (w : string) : w <> ""%string -> (0 < String.length w)%nat.
Proof. destruct w; [intros H; now elim H|cbn; lia]. Qed.

Lemma run_complete (r : Regexp.regex) (w rest : string) :
  Language.Matches r w rest ->
  forall (fuel : nat) (caps : Regexp.Caps)
         (k : string -> Regexp.Caps -> option Regexp.Caps),
    (String.length (w ++ rest) < fuel)%nat ->
    (forall caps', k rest caps' <> None) ->
    Regexp.run fuel r (w ++ rest) caps k <> None.
Proof.
  induction 1 as [p c rest Hp|rest|r1 r2 w1 w2 rest M1 IH1 M2 IH2
                 |r1 r2 w rest M IH|r1 r2 w rest M IH
                 |r rest|r w1 w2 rest Hne M1 IH1 M2 IH2
                 |r rest|r w1 w2 rest Hne M1 IH1 M2 IH2
                 |n r w rest M IH|];
    intros fuel caps k Hfuel Hk; rewrite run_unfold.
  - cbn. rewrite Hp. apply Hk.
  - apply Hk.
  - rewrite str_app_assoc. apply IH1.
    + now rewrite <- str_app_assoc.
    + intros caps'. apply IH2; [|exact Hk].
      rewrite !str_length_app in *. lia.
  - apply orelse_not_none_l. now apply IH.
  - apply orelse_not_none_r. now apply IH.
  - destruct fuel; [lia|]. apply orelse_not_none_r. apply Hk.
  - destruct fuel; [lia|]. apply orelse_not_none_l.
    pose proof (str_length_pos _ Hne) as Hpos.
    rewrite str_app_assoc. apply IH1.
    + now rewrite <- str_app_assoc.
    + intros caps'.
      replace (String.length (w2 ++ rest) <? String.length (w1 ++ w2 ++ rest))%nat
        with true by (symmetry; apply Nat.ltb_lt; rewrite (str_length_app w1); lia).
      apply IH2; [|exact Hk].
      rewrite !str_length_app in *. lia.
  - destruct fuel; [lia|]. apply orelse_not_none_l. apply Hk.
  - destruct fuel; [lia|]. apply orelse_not_none_r.
    pose proof (str_length_pos _ Hne) as Hpos.
    rewrite str_app_assoc. apply IH1.
    + now rewrite <- str_app_assoc.
    + intros caps'.
      replace (String.length (w2 ++ rest) <? String.length (w1 ++ w2 ++ rest))%nat
        with true by (symmetry; apply Nat.ltb_lt; rewrite (str_length_app w1); lia).
      apply IH2; [|exact Hk].
      rewrite !str_length_app in *. lia.
  - apply IH; [exact Hfuel|]. intros caps'. apply Hk.
  - apply Hk.
Qed.

Lemma match_at_sound (r : Regexp.regex) (s : string) (caps : Regexp.Caps) :
  Regexp.match_at r s = Some caps ->
  exists w rest, s = (w ++ rest)%string /\ Language.Matches r w rest.
Proof.
  unfold Regexp.match_at. intros H. apply run_sound in H.
  destruct H as (w & rest & _ & -> & M & _). exists w, rest. split; [reflexivity|].
  inversion M; subst; assumption.
Qed.

Lemma match_at_complete (r : Regexp.regex) (w rest : string) :
  Language.Matches r w rest -> Regexp.match_at r (w ++ rest) <> None.
Proof.
  intros M. unfold Regexp.match_at. apply run_complete.
  - now constructor.
  - lia.
  - discriminate.
Qed.

Lemma search_sound (r : Regexp.regex) (s : string) (caps : Regexp.Caps) :
  Regexp.search r s = Some caps -> Language.matches_in r s.
Proof.
  induction s as [|c s IH]; cbn [Regexp.search].
  - destruct (Regexp.match_at r "") eqn:E; [|discriminate]. intros _.
    apply match_at_sound in E. destruct E as (w & rest & E & M).
    exists ""%string, w, rest. split; [exact E|exact M].
  - destruct (Regexp.match_at r (String c s)) eqn:E.
    + intros _. apply match_at_sound in E. destruct E as (w & rest & E & M).
      exists ""%string, w, rest. split; [exact E|exact M].
    + intros H. apply IH in H. destruct H as (pre & w & rest & -> & M).
      exists (String c pre), w, rest. split; [reflexivity|exact M].
Qed.

Lemma search_complete (r : Regexp.regex) (s : string) :
  Language.matches_in r s -> Regexp.search r s <> None.
Proof.
  intros (pre & w & rest & -> & M). induction pre as [|c pre IH].
  - pose proof (match_at_complete _ _ _ M) as Hm. cbn [append].
    destruct (w ++ rest)%string; cbn [Regexp.search];
      destruct (Regexp.match_at r _); (discriminate || now elim Hm).
  - cbn [append Regexp.search].
    destruct (Regexp.match_at r _); [discriminate|exact IH].
Qed.

Lemma MatchString_iff (r : Regexp.regex) (s : string) :
  Regexp.MatchString r s = true <-> Language.matches_in r s.
Proof.
  unfold Regexp.MatchString. split.
  - destruct (Regexp.search r s) eqn:E; [|discriminate]. intros _.
    now apply search_sound in E.
  - intros H. apply search_complete in H.
    destruct (Regexp.search r s); [reflexivity|now elim H].
Qed.

Lemma FindStringSubmatch_none (groups : nat) (r : Regexp.regex) (s : string) :
  ~ Language.matches_in r s -> Regexp.FindStringSubmatch groups r s = None.
Proof.
  intros H. unfold Regexp.FindStringSubmatch.
  destruct (Regexp.search r s) eqn:E; [|reflexivity].
  apply search_sound in E. now elim H.
Qed.

(** ** The command line's DELETE *)

Lemma cats_last_inv (l : list Regexp.regex) (r : Regexp.regex) (w rest : string) :
  Language.Matches (Regexp.cats (l ++ [r])) w rest ->
  exists w1 w2, w = (w1 ++ w2)%string /\ Language.Matches r w2 rest.
Proof.
  revert w. induction l as [|a l IH]; intros w M.
  - exists ""%string, w. split; [reflexivity|exact M].
  - assert (E : Regexp.cats ((a :: l) ++ [r]) = Regexp.Cat a (Regexp.cats (l ++ [r]))).
    { cbn. destruct (l ++ [r]) eqn:El; [|reflexivity].
      destruct l; discriminate. }
    rewrite E in M. inversion M as [| |r1 r2 wa wb rest' Ma Mb| | | | | | | |]; subst.
    apply IH in Mb. destruct Mb as (w1 & w2 & -> & Mr).
    exists (wa ++ w1)%string, w2. split; [now rewrite str_app_assoc|exact Mr].
Qed.

Lemma mem_byte_app (c : ascii) (a b : string) :
  GoStrings.mem_byte c (a ++ b) = GoStrings.mem_byte c a || GoStrings.mem_byte c b.
Proof.
  induction a as [|d a IH]; cbn; [reflexivity|]. rewrite IH. now rewrite orb_assoc.
Qed.

Lemma mem_byte_trim_left (p : ascii -> bool) (c : ascii) (s : string) :
  GoStrings.mem_byte c s = false -> GoStrings.mem_byte c (GoStrings.trim_left p s) = false.
Proof.
  induction s as [|d s IH]; cbn; [reflexivity|].
  intros H. apply orb_false_iff in H. destruct H as [H1 H2].
  destruct (p d); [now apply IH|]. cbn. now rewrite H1, H2.
Qed.

Lemma mem_byte_trim_right (p : ascii -> bool) (c : ascii) (s : string) :
  GoStrings.mem_byte c s = false -> GoStrings.mem_byte c (GoStrings.trim_right p s) = false.
Proof.
  induction s as [|d s IH]; cbn; [reflexivity|].
  intros H. apply orb_false_iff in H. destruct H as [H1 H2].
  destruct (p d && _); [reflexivity|]. cbn. rewrite H1. now apply IH.
Qed.

Lemma mem_byte_substring (c : ascii) (s : string) :
  GoStrings.mem_byte c s = false ->
  forall n m, GoStrings.mem_byte c (String.substring n m s) = false.
Proof.
  induction s as [|d s IH]; intros H n m.
  - destruct n, m; reflexivity.
  - cbn in H. apply orb_false_iff in H. destruct H as [H1 H2].
    destruct n as [|n]; cbn.
    + destruct m as [|m]; [reflexivity|]. cbn. rewrite H1. now apply IH.
    + now apply IH.
Qed.

Lemma mem_byte_PreprocessSQL (c : ascii) (sql : string) :
  GoStrings.mem_byte c sql = false ->
  GoStrings.mem_byte c (SQL.PreprocessSQL sql) = false.
Proof.
  intros H. unfold SQL.PreprocessSQL, GoStrings.TrimSuffix, GoStrings.TrimSpace.
  assert (Ht : GoStrings.mem_byte c
                 (GoStrings.trim_right GoStrings.is_space
                    (GoStrings.trim_left GoStrings.is_space sql)) = false)
    by now apply mem_byte_trim_right, mem_byte_trim_left.
  destruct (GoStrings.HasSuffix _ _); [|exact Ht].
  now apply mem_byte_substring.
Qed.

Lemma deleteTabRe_needs_tab (s : string) :
  Language.matches_in CLI.deleteTabRe s -> GoStrings.mem_byte CLI.tab s = true.
Proof.
  intros (pre & w & rest & -> & M).
  change CLI.deleteTabRe with
    (Regexp.cats
       ([Regexp.liti "DELETE"; Regexp.sp1; Regexp.liti "FROM"; Regexp.sp1;
         Regexp.Group 1 (Regexp.Plus (Regexp.Cls (fun c =>
           negb (Regexp.re_space c || GoStrings.mem_byte c ";"))));
         Regexp.Opt (Regexp.cats [Regexp.sp1; Regexp.liti "WHERE"; Regexp.sp1;
                                  Regexp.Group 2 (Regexp.Star (Regexp.Cls Regexp.re_dot))])]
        ++ [Regexp.chr CLI.tab])) in M.
  apply cats_last_inv in M. destruct M as (w1 & w2 & -> & M).
  inversion M as [p c rest' Hp| | | | | | | | | |]; subst.
  apply Ascii.eqb_eq in Hp. subst c.
  rewrite !mem_byte_app. cbn [GoStrings.mem_byte]. rewrite Ascii.eqb_refl.
  cbn [orb]. now rewrite !orb_true_r.
Qed.

(** X13. The command line cannot parse a DELETE statement that holds no
    tab byte: the pattern of parseDelete ends with a tab, so every such
    statement, with or without WHERE, gets the DELETE syntax error. *)
Theorem cli_delete_without_tab_is_rejected (sql : string) :
  CLI.identifyCommandType (SQL.PreprocessSQL sql) = SQL.CommandDelete ->
  GoStrings.mem_byte CLI.tab sql = false ->
  CLI.ParseSQL sql =
  SQL.Err (EPlain "DELETE 语法错误，正确格式: DELETE FROM table [WHERE condition]").
Proof.
  intros Hty Htab. unfold CLI.ParseSQL, SQL.ValidateNotEmpty.
  destruct (String.eqb (GoStrings.TrimSpace sql) "") eqn:E.
  { apply String.eqb_eq in E. unfold SQL.PreprocessSQL in Hty. rewrite E in Hty.
    vm_compute in Hty. discriminate. }
  cbv zeta. rewrite Hty.
  change (String.eqb SQL.CommandDelete SQL.CommandSelect) with false.
  change (String.eqb SQL.CommandDelete SQL.CommandInsert) with false.
  change (String.eqb SQL.CommandDelete SQL.CommandUpdate) with false.
  change (String.eqb SQL.CommandDelete SQL.CommandDelete) with true.
  cbv iota. unfold CLI.parseDelete.
  rewrite FindStringSubmatch_none; [reflexivity|].
  intros M. apply deleteTabRe_needs_tab in M.
  rewrite mem_byte_PreprocessSQL in M by exact Htab. discriminate.
Qed.

Lemma cli_delete_without_tab_witness :
  CLI.ParseSQL "DELETE FROM users WHERE id = 1" =
  SQL.Err (EPlain "DELETE 语法错误，正确格式: DELETE FROM table [WHERE condition]").
Proof.
  apply cli_delete_without_tab_is_rejected; vm_compute; reflexivity.
Defined.

(** With a tab after the table name the statement is parsed, and a WHERE
    clause that follows the tab is dropped. *)
Example cli_delete_with_tab :
  exists cmd,
    CLI.ParseSQL ("DELETE FROM users" ++ String CLI.tab "WHERE id = 1") = SQL.Ok cmd /\
    SQL.Table cmd = "users"%string /\ SQL.Where cmd = ""%string /\ SQL.Condition cmd = [].
Proof.
  eexists. split; [vm_compute; reflexivity|]. repeat split.
Qed.

(** ** What the injection validator never lets through *)

Lemma lit_matches (t rest : string) : Language.Matches (Regexp.lit t) t rest.
Proof.
  induction t as [|c t IH]; [constructor|].
  destruct t as [|d t].
  - cbn. apply Language.MCls. apply Ascii.eqb_refl.
  - change (Regexp.lit (String c (String d t)))
      with (Regexp.Cat (Regexp.chr c) (Regexp.lit (String d t))).
    change (String c (String d t)) with (String c "" ++ String d t)%string.
    constructor; [|exact IH]. apply Language.MCls. apply Ascii.eqb_refl.
Qed.

Lemma liti_matches (t m rest : string) :
  GoStrings.ToLower m = GoStrings.ToLower t -> Language.Matches (Regexp.liti t) m rest.
Proof.
  revert m. induction t as [|c t IH]; intros m E.
  - destruct m; [constructor|discriminate].
  - destruct m as [|a m]; [discriminate|]. cbn in E. injection E as Ea Em.
    destruct t as [|d t].
    + destruct m; [|discriminate]. cbn. apply Language.MCls.
      rewrite Ea. apply Ascii.eqb_refl.
    + change (Regexp.liti (String c (String d t)))
        with (Regexp.Cat (Regexp.chri c) (Regexp.liti (String d t))).
      change (String a m) with (String a "" ++ m)%string.
      constructor; [|now apply IH]. apply Language.MCls.
      rewrite Ea. apply Ascii.eqb_refl.
Qed.

Lemma alts_matches (l : list Regexp.regex) (r : Regexp.regex) (w rest : string) :
  In r l -> Language.Matches r w rest -> Language.Matches (Regexp.alts l) w rest.
Proof.
  induction l as [|a l IH]; intros Hin M; [destruct Hin|].
  destruct l as [|b l].
  - destruct Hin as [->|[]]. exact M.
  - change (Regexp.alts (a :: b :: l)) with (Regexp.Alt a (Regexp.alts (b :: l))).
    destruct Hin as [->|Hin]; [now apply Language.MAltL|].
    apply Language.MAltR. now apply IH.
Qed.

Lemma trim_left_app_keeps (p : ascii -> bool) (pre : string) (c : ascii) (x : string) :
  p c = false ->
  exists pre', GoStrings.trim_left p (pre ++ String c x) = (pre' ++ String c x)%string.
Proof.
  intros Hc. induction pre as [|d pre IH]; cbn.
  - rewrite Hc. now exists ""%string.
  - destruct (p d); [exact IH|]. now exists (String d pre).
Qed.

Lemma trim_right_app (p : ascii -> bool) (a b : string) :
  GoStrings.trim_right p (a ++ b) =
  if String.eqb (GoStrings.trim_right p b) ""
  then GoStrings.trim_right p a
  else (a ++ GoStrings.trim_right p b)%string.
Proof.
  induction a as [|c a IH]; cbn [append GoStrings.trim_right].
  - destruct (String.eqb _ _) eqn:E; [now apply String.eqb_eq in E|reflexivity].
  - rewrite IH. destruct (String.eqb (GoStrings.trim_right p b) "") eqn:E; [reflexivity|].
    replace (String.eqb (a ++ GoStrings.trim_right p b) "") with false.
    + now rewrite andb_false_r.
    + symmetry. apply String.eqb_neq. apply String.eqb_neq in E.
      destruct a; [exact E|discriminate].
Qed.

Lemma trim_right_app_keeps (p : ascii -> bool) (x : string) (d : ascii) (post : string) :
  p d = false ->
  exists post',
    GoStrings.trim_right p ((x ++ String d "") ++ post) = ((x ++ String d "") ++ post')%string.
Proof.
  intros Hd. rewrite trim_right_app.
  destruct (String.eqb _ _).
  - exists ""%string. rewrite trim_right_app. cbn. rewrite Hd. cbn.
    now rewrite !str_app_nil_r.
  - now eexists.
Qed.

(** An occurrence that begins and ends with a byte that is not a space
    survives [TrimSpace]. *)
Lemma TrimSpace_keeps (pre m post : string) (c d : ascii) (m1 m0 : string) :
  m = String c m1 -> m = (m0 ++ String d "")%string ->
  GoStrings.is_space c = false -> GoStrings.is_space d = false ->
  exists pre' post', GoStrings.TrimSpace (pre ++ m ++ post) = (pre' ++ m ++ post')%string.
Proof.
  intros E1 E0 Hc Hd. unfold GoStrings.TrimSpace.
  destruct (trim_left_app_keeps GoStrings.is_space pre c (m1 ++ post) Hc) as [pre' Hl].
  assert (El : (pre ++ m ++ post)%string = (pre ++ String c (m1 ++ post))%string)
    by (rewrite E1; reflexivity).
  rewrite El, Hl.
  assert (Er : (pre' ++ String c (m1 ++ post))%string
               = (((pre' ++ m0) ++ String d "") ++ post)%string).
  { change (String c (m1 ++ post)) with (String c m1 ++ post)%string.
    rewrite <- E1, E0. now rewrite !str_app_assoc. }
  rewrite Er.
  destruct (trim_right_app_keeps GoStrings.is_space (pre' ++ m0) d post Hd) as [post' Hr].
  rewrite Hr. exists pre', post'. rewrite E0. now rewrite !str_app_assoc.
Qed.

Lemma first_match_complete (patterns : list Security.Pattern) (p : Security.Pattern)
    (s : string) :
  In p patterns -> Regexp.MatchString (Security.re p) s = true ->
  Security.first_match patterns s <> None.
Proof.
  induction patterns as [|q patterns IH]; intros Hin Hm; [destruct Hin|].
  cbn. destruct (Regexp.MatchString (Security.re q) s) eqn:E; [discriminate|].
  destruct Hin as [->|Hin]; [congruence|now apply IH].
Qed.

Lemma space_is_not_folded (a : ascii) :
  GoStrings.is_space a = true -> GoStrings.to_lower a = a.
Proof.
  destruct a as [[] [] [] [] [] [] [] []]; vm_compute; intros H;
    first [reflexivity|discriminate].
Qed.

Lemma map_bytes_last (f : ascii -> ascii) (m t0 : string) (d : ascii) :
  GoStrings.map_bytes f m = (t0 ++ String d "")%string ->
  exists m0 a, m = (m0 ++ String a "")%string /\ f a = d.
Proof.
  revert t0. induction m as [|a m IH]; intros t0 E.
  - destruct t0; discriminate.
  - cbn in E. destruct t0 as [|e t0].
    + cbn in E. injection E as Ea Em. destruct m; [|discriminate].
      now exists ""%string, a.
    + cbn in E. injection E as Ea Em. apply IH in Em.
      destruct Em as (m0 & b & -> & Hb). now exists (String a m0), b.
Qed.

Lemma folded_occurrence_survives (pre m post t : string) (c d : ascii) (t1 t0 : string) :
  GoStrings.ToLower m = t ->
  t = String c t1 -> t = (t0 ++ String d "")%string ->
  GoStrings.is_space c = false -> GoStrings.is_space d = false ->
  exists pre' post', GoStrings.TrimSpace (pre ++ m ++ post) = (pre' ++ m ++ post')%string.
Proof.
  intros E E1 E0 Hc Hd. unfold GoStrings.ToLower in E.
  destruct m as [|a m1]; [rewrite E1 in E; discriminate|].
  pose proof E as E'. rewrite E0 in E'. apply map_bytes_last in E'.
  destruct E' as (m0 & b & Em & Hb).
  apply (TrimSpace_keeps pre (String a m1) post a b m1 m0); [reflexivity|exact Em| |].
  - destruct (GoStrings.is_space a) eqn:Ha; [|reflexivity].
    pose proof (space_is_not_folded _ Ha) as Hf.
    rewrite E1 in E. cbn in E. injection E as Ea _. congruence.
  - destruct (GoStrings.is_space b) eqn:Hb'; [|reflexivity].
    pose proof (space_is_not_folded _ Hb') as Hf. congruence.
Qed.

Lemma validate_refuses (sql : string) (p : Security.Pattern) :
  In p Security.dangerousPatterns ->
  Language.matches_in (Security.re p) (GoStrings.TrimSpace sql) ->
  Security.ValidateSQL sql <> None.
Proof.
  intros Hin Hm. apply MatchString_iff in Hm.
  pose proof (first_match_complete _ _ _ Hin Hm) as Hf.
  unfold Security.ValidateSQL.
  destruct (Security.first_match _ _); [discriminate|now elim Hf].
Qed.

Ltac refuse_with n :=
  match goal with
  | Hk : GoStrings.TrimSpace _ = (?pre' ++ ?m ++ ?post')%string |- _ =>
      apply (validate_refuses _
               (nth n Security.dangerousPatterns
                    {| Security.source := ""; Security.re := Regexp.Eps |}));
      [cbn; tauto|];
      rewrite Hk; exists pre', m, post'; split; [reflexivity|];
      cbn [nth Security.dangerousPatterns Security.re]; apply Language.MGroup
  end.

(** X14. The injection validator refuses every text in which a comment
    mark (two hyphens, slash star, star slash, hash) occurs anywhere, and
    every text in which information_schema, sys., mysql. or pg_ occurs in
    any mix of upper and lower case: inside a quoted value as much as
    outside. *)
Theorem validator_refuses_comment_marks_and_schema_names (pre m post : string) :
  In m ["--"; "/*"; "*/"; "#"]%string \/
  In (GoStrings.ToLower m) ["information_schema"; "sys."; "mysql."; "pg_"]%string ->
  Security.ValidateSQL (pre ++ m ++ post) <> None.
Proof.
  intros [Hm|Hm].
  - assert (Hk : exists pre' post',
               GoStrings.TrimSpace (pre ++ m ++ post) = (pre' ++ m ++ post')%string).
    { cbn in Hm. destruct Hm as [<-|[<-|[<-|[<-|[]]]]].
      - now apply (TrimSpace_keeps pre _ post "-" "-" "-" "-").
      - now apply (TrimSpace_keeps pre _ post "/" "*" "*" "/").
      - now apply (TrimSpace_keeps pre _ post "*" "/" "/" "*").
      - now apply (TrimSpace_keeps pre _ post "#" "#" "" ""). }
    destruct Hk as (pre' & post' & Hk). refuse_with 1%nat.
    apply (alts_matches _ (Regexp.lit m)); [|apply lit_matches].
    cbn in Hm. destruct Hm as [<-|[<-|[<-|[<-|[]]]]]; cbn; tauto.
  - assert (Hk : exists pre' post',
               GoStrings.TrimSpace (pre ++ m ++ post) = (pre' ++ m ++ post')%string).
    { cbn in Hm. destruct Hm as [E|[E|[E|[E|[]]]]]; symmetry in E.
      - now apply (folded_occurrence_survives pre m post _ "i" "a"
                     "nformation_schema" "information_schem" E).
      - now apply (folded_occurrence_survives pre m post _ "s" "." "ys." "sys" E).
      - now apply (folded_occurrence_survives pre m post _ "m" "." "ysql." "mysql" E).
      - now apply (folded_occurrence_survives pre m post _ "p" "_" "g_" "pg" E). }
    destruct Hk as (pre' & post' & Hk). refuse_with 5%nat.
    cbn in Hm. destruct Hm as [E|[E|[E|[E|[]]]]]; symmetry in E.
    + apply (alts_matches _ (Regexp.liti "information_schema")); [cbn; tauto|].
      now apply liti_matches.
    + apply (alts_matches _ (Regexp.liti "sys.")); [cbn; tauto|]. now apply liti_matches.
    + apply (alts_matches _ (Regexp.liti "mysql.")); [cbn; tauto|]. now apply liti_matches.
    + apply (alts_matches _ (Regexp.liti "pg_")); [cbn; tauto|]. now apply liti_matches.
Qed.

Lemma validator_refuses_witness :
  Security.ValidateSQL "SELECT name FROM files WHERE path = 'Sys.log'" <> None.
Proof.
  apply (validator_refuses_comment_marks_and_schema_names
           "SELECT name FROM files WHERE path = '" "Sys." "log'").
  right. vm_compute. tauto.
Defined.

(** ** Values and quotes *)

Lemma HasSuffix_byte_cons (c d : ascii) (t : string) :
  t <> ""%string ->
  GoStrings.HasSuffix (String c t) (String d "") = GoStrings.HasSuffix t (String d "").
Proof.
  intros Ht. destruct t as [|e t]; [contradiction|].
  unfold GoStrings.HasSuffix. cbn [String.length Nat.leb Nat.sub andb].
  rewrite Nat.sub_0_r. cbn [String.substring]. reflexivity.
Qed.

Lemma HasSuffix_last_byte (x : string) (d : ascii) :
  GoStrings.HasSuffix (x ++ String d "") (String d "") = true.
Proof.
  induction x as [|c x IH].
  - unfold GoStrings.HasSuffix. cbn. now rewrite Ascii.eqb_refl.
  - cbn [append]. rewrite HasSuffix_byte_cons; [exact IH|].
    destruct x; discriminate.
Qed.

Lemma substring_0_app (t u : string) :
  String.substring 0 (String.length t) (t ++ u) = t.
Proof. induction t as [|c t IH]; cbn; [now destruct u|now rewrite IH]. Qed.

Lemma HasPrefix_byte (c d : ascii) (t : string) :
  GoStrings.HasPrefix (String c t) (String d "") = Ascii.eqb d c.
Proof.
  unfold GoStrings.HasPrefix. cbn.
  destruct (ascii_dec d c) as [->|Hne].
  - rewrite Ascii.eqb_refl. now destruct t.
  - symmetry. now apply Ascii.eqb_neq.
Qed.

Lemma quoted_wrapped (q : ascii) (t : string) :
  q = GoStrings.squote \/ q = GoStrings.dquote ->
  SQL.ParseValue (String q (t ++ String q "")) = Some (SQL.VString t).
Proof.
  intros Hq. unfold SQL.ParseValue. cbn [String.eqb].
  assert (Hquoted : SQL.quoted (String q (t ++ String q "")) = true).
  { unfold SQL.quoted, SQL.sq, SQL.dq. rewrite !HasPrefix_byte.
    change (String q (t ++ String q "")) with ((String q t) ++ String q "")%string.
    destruct Hq as [-> | ->]; rewrite HasSuffix_last_byte, Ascii.eqb_refl; cbn;
      first [reflexivity|now rewrite orb_true_r]. }
  rewrite Hquoted. unfold SQL.strip_quotes.
  cbn [String.length]. rewrite str_length_app. cbn [String.length].
  replace (2 <=? S (String.length t + 1))%nat with true
    by (symmetry; apply Nat.leb_le; lia).
  replace (S (String.length t + 1) - 2)%nat with (String.length t) by lia.
  cbn [String.substring option_map]. now rewrite substring_0_app.
Qed.

Lemma ParseValue_panics (s : string) :
  SQL.ParseValue s = None <-> s = SQL.sq \/ s = SQL.dq.
Proof.
  split.
  - unfold SQL.ParseValue. destruct (String.eqb s "") eqn:E0; [discriminate|].
    destruct (SQL.quoted s) eqn:Eq.
    + unfold SQL.strip_quotes. destruct (2 <=? String.length s)%nat eqn:El; [discriminate|].
      intros _. apply Nat.leb_gt in El.
      destruct s as [|c s]; [discriminate|]. destruct s as [|d s]; [|cbn in El; lia].
      unfold SQL.quoted, SQL.sq, SQL.dq in Eq. rewrite !HasPrefix_byte in Eq.
      apply orb_true_iff in Eq. destruct Eq as [Eq|Eq]; apply andb_true_iff in Eq;
        destruct Eq as [Eq _]; apply Ascii.eqb_eq in Eq; subst c; [left|right]; reflexivity.
    + destruct (Strconv.Atoi s); [discriminate|].
      destruct (Strconv.ParseFloat s); [discriminate|].
      destruct (Strconv.ParseBool s); discriminate.
  - intros [-> | ->]; vm_compute; reflexivity.
Qed.

(** X15. SQLParser.ParseValue, and with it the command line's
    parseValue, panics on exactly two inputs, the texts that consist of
    one quote byte (single or double).  A text between two single or two
    double quotes comes back as the string between them, byte for byte,
    whatever it holds: digits stay a string, inner quotes stay. *)
Theorem parse_value_quotes (s t : string) :
  (SQL.ParseValue s = None <-> s = SQL.sq \/ s = SQL.dq) /\
  (CLI.parseValue s = SQL.Panic <-> s = SQL.sq \/ s = SQL.dq) /\
  SQL.ParseValue (SQL.sq ++ t ++ SQL.sq) = Some (SQL.VString t) /\
  SQL.ParseValue (SQL.dq ++ t ++ SQL.dq) = Some (SQL.VString t) /\
  CLI.parseValue (SQL.sq ++ t ++ SQL.sq) = SQL.Ok (SQL.VString t) /\
  CLI.parseValue (SQL.dq ++ t ++ SQL.dq) = SQL.Ok (SQL.VString t).
Proof.
  assert (Hs : SQL.ParseValue (SQL.sq ++ t ++ SQL.sq) = Some (SQL.VString t))
    by (apply (quoted_wrapped GoStrings.squote); now left).
  assert (Hd : SQL.ParseValue (SQL.dq ++ t ++ SQL.dq) = Some (SQL.VString t))
    by (apply (quoted_wrapped GoStrings.dquote); now right).
  split; [apply ParseValue_panics|].
  split.
  { rewrite <- ParseValue_panics. unfold CLI.parseValue.
    destruct (String.eqb s "") eqn:E0.
    - apply String.eqb_eq in E0. subst s. split; discriminate.
    - destruct (SQL.ParseValue s); split; (discriminate || reflexivity). }
  split; [exact Hs|]. split; [exact Hd|].
  unfold CLI.parseValue. rewrite Hs, Hd. split; reflexivity.
Qed.

(** ** The accessors of a command *)

Lemma Contains_app (l : list string) (x y : string) :
  Command.Contains (l ++ [x]) y = Command.Contains l y || String.eqb x y.
Proof.
  induction l as [|a l IH]; cbn.
  - now destruct (String.eqb x y).
  - destruct (String.eqb a y); [reflexivity|exact IH].
Qed.

Lemma Contains_In (l : list string) (x : string) :
  Command.Contains l x = true <-> In x l.
Proof.
  induction l as [|a l IH]; cbn; [split; [discriminate|tauto]|].
  destruct (String.eqb_spec a x) as [->|Hne].
  - split; auto.
  - rewrite IH. split; [auto|]. intros [E|H]; [congruence|exact H].
Qed.

(** X16. Round trips of the accessors of SQLCommand.  GetValue returns
    what SetValue stored under the same field, also when UpdateFields
    holds that field, and SetValue changes the answer for no other field;
    after SetValue the effective values are Values, not UpdateFields.
    GetCondition and SetCondition behave alike.  AddField makes HasField
    true for its field and changes it for no other, adds nothing the second
    time, and keeps a field list free of duplicates that way. *)
Theorem command_accessors_round_trip (cmd : SQL.SQLCommand) (f g : string) (v : SQL.Value) :
  Command.GetValue f (Command.SetValue f v cmd) = Some v /\
  (f <> g -> Command.GetValue g (Command.SetValue f v cmd) = Command.GetValue g cmd) /\
  Command.GetEffectiveValues (Command.SetValue f v cmd)
    = SQL.Values (Command.SetValue f v cmd) /\
  Command.GetCondition f (Command.SetCondition f v cmd) = Some v /\
  (f <> g ->
   Command.GetCondition g (Command.SetCondition f v cmd) = Command.GetCondition g cmd) /\
  Command.HasField f (Command.AddField f cmd) = true /\
  (f <> g -> Command.HasField g (Command.AddField f cmd) = Command.HasField g cmd) /\
  Command.AddField f (Command.AddField f cmd) = Command.AddField f cmd /\
  (NoDup (SQL.Fields cmd) -> NoDup (SQL.Fields (Command.AddField f cmd))).
Proof.
  split.
  { unfold Command.GetValue, Command.SetValue. cbn [SQL.Values SQL.with_Values].
    now rewrite map_get_set_same. }
  split.
  { intros Hne. unfold Command.GetValue, Command.SetValue.
    cbn [SQL.Values SQL.UpdateFields SQL.with_Values].
    now rewrite map_get_set_other. }
  split.
  { unfold Command.GetEffectiveValues, Command.SetValue. cbn [SQL.Values SQL.with_Values].
    destruct (SQL.map_set f v (SQL.Values cmd)) eqn:E; [|reflexivity].
    now apply map_set_not_nil in E. }
  split.
  { unfold Command.GetCondition, Command.SetCondition.
    cbn [SQL.Condition SQL.with_Condition]. apply map_get_set_same. }
  split.
  { intros Hne. unfold Command.GetCondition, Command.SetCondition.
    cbn [SQL.Condition SQL.with_Condition]. now apply map_get_set_other. }
  assert (Hhas : Command.HasField f (Command.AddField f cmd) = true).
  { unfold Command.HasField, Command.AddField.
    destruct (Command.Contains (SQL.Fields cmd) f) eqn:E; cbn [negb]; [exact E|].
    cbn [SQL.Fields SQL.with_Fields]. rewrite Contains_app, String.eqb_refl.
    apply orb_true_r. }
  split; [exact Hhas|].
  split.
  { intros Hne. unfold Command.HasField, Command.AddField.
    destruct (Command.Contains (SQL.Fields cmd) f); cbn [negb]; [reflexivity|].
    cbn [SQL.Fields SQL.with_Fields]. rewrite Contains_app.
    destruct (String.eqb_spec f g); [contradiction|apply orb_false_r]. }
  split.
  { unfold Command.HasField in Hhas. unfold Command.AddField at 1.
    now rewrite Hhas. }
  intros Hnd. unfold Command.AddField.
  destruct (Command.Contains (SQL.Fields cmd) f) eqn:E; cbn [negb]; [exact Hnd|].
  cbn [SQL.Fields SQL.with_Fields].
  apply NoDup_app; [exact Hnd|constructor; [intros []|constructor]|].
  intros x Hx [<-|[]]. apply Contains_In in Hx. congruence.
Qed.

(** ** Built filters against their validation *)

Lemma condition_validate_iff (c : Filter.FilterCondition) :
  In (Filter.Operator c) Models.builtOperators ->
  (Filter.Value c = [] <->
   Filter.Operator c = "isEmpty"%string \/ Filter.Operator c = "isNotEmpty"%string) ->
  (Models.FilterCondition_Validate c = None <->
   Filter.FieldName c <> ""%string /\ Filter.Operator c <> "isAnyOf"%string).
Proof.
  intros Hop Hval. unfold Models.FilterCondition_Validate.
  destruct (String.eqb_spec (Filter.FieldName c) "") as [Hf|Hf].
  { split; [discriminate|]. intros [H _]. contradiction. }
  assert (Hlen : Filter.Operator c <> "isEmpty"%string ->
                 Filter.Operator c <> "isNotEmpty"%string ->
                 (List.length (Filter.Value c) =? 0)%nat = false).
  { intros H1 H2. destruct (Filter.Value c) eqn:E; [|reflexivity].
    destruct (proj1 Hval eq_refl); contradiction. }
  cbn in Hop.
  destruct Hop as [E|[E|[E|[E|[E|[E|[E|[E|[E|[E|[]]]]]]]]]]]; rewrite <- E in *;
    cbn -[Nat.eqb]; try rewrite Hlen by discriminate; cbn;
    (split; [intros H; first [discriminate H | split; [exact Hf|discriminate]]
            |intros [_ H]; first [reflexivity | now elim H]]).
Qed.

Lemma validate_conditions_iff (l : list Filter.FilterCondition) :
  forall i, Models.validate_conditions i l = None <->
            Forall (fun c => Models.FilterCondition_Validate c = None) l.
Proof.
  induction l as [|c l IH]; intros i; cbn.
  - split; [constructor|reflexivity].
  - destruct (Models.FilterCondition_Validate c) eqn:E.
    + split; [discriminate|]. intros H. inversion H; congruence.
    + rewrite IH. split; [now constructor|]. intros H. now inversion H.
Qed.

Lemma first_condition_shape (ops : list Filter.OperatorPattern) (w : string)
    (c : Filter.FilterCondition) :
  Filter.first_condition ops w = Some c ->
  Filter.FieldName c <> ""%string /\
  In (Filter.Operator c) (map Filter.operator ops) /\
  (Filter.Value c = [] <->
   Filter.Operator c = "isEmpty"%string \/ Filter.Operator c = "isNotEmpty"%string).
Proof.
  induction ops as [|op ops IH]; cbn [Filter.first_condition]; [discriminate|].
  assert (Hrec : Filter.first_condition ops w = Some c ->
                 Filter.FieldName c <> ""%string /\
                 In (Filter.Operator c) (map Filter.operator (op :: ops)) /\
                 (Filter.Value c = [] <->
                  Filter.Operator c = "isEmpty"%string \/
                  Filter.Operator c = "isNotEmpty"%string)).
  { intros H. apply IH in H. destruct H as (H1 & H2 & H3).
    split; [exact H1|split; [now right|exact H3]]. }
  remember (Regexp.FindStringSubmatch (Filter.groups op) (Filter.pattern op) w) as matches
    eqn:Hm; clear Hm.
  destruct (2 <=? _)%nat; [|exact Hrec].
  destruct (String.eqb_spec (GoStrings.TrimSpace (Regexp.at_ matches 1)) "") as [Hf|Hf];
    [exact Hrec|].
  destruct (String.eqb (Filter.operator op) "isEmpty"
            || String.eqb (Filter.operator op) "isNotEmpty") eqn:Hnull.
  { intros [= <-]. cbn. split; [exact Hf|split; [now left|]].
    split; [intros _|reflexivity].
    apply orb_true_iff in Hnull. destruct Hnull as [H|H]; apply String.eqb_eq in H; auto. }
  destruct (_ <? 3)%nat; [exact Hrec|].
  destruct (String.eqb (GoStrings.TrimSpace (Regexp.at_ matches 2)) ""); [exact Hrec|].
  match goal with
  | |- (if (List.length ?v =? 0)%nat then _ else _) = _ -> _ =>
      destruct v as [|v0 vs] eqn:Ev; cbn [List.length Nat.eqb]; [exact Hrec|]
  end.
  intros [= <-]. cbn. split; [exact Hf|split; [now left|]].
  apply orb_false_iff in Hnull. destruct Hnull as [H1 H2].
  apply String.eqb_neq in H1, H2.
  split; [discriminate|]. intros [H|H]; contradiction.
Qed.

Lemma condition_of_shape (e : Filter.Expression) (c : Filter.FilterCondition) :
  Filter.condition_of e = Some c ->
  In (Filter.Operator c) Models.builtOperators /\
  (Filter.Value c = [] <->
   Filter.Operator c = "isEmpty"%string \/ Filter.Operator c = "isNotEmpty"%string).
Proof.
  assert (Hon : forall column op value,
            In op Models.builtOperators ->
            op <> "isEmpty"%string -> op <> "isNotEmpty"%string ->
            Filter.condition_on column op [value] = Some c ->
            In (Filter.Operator c) Models.builtOperators /\
            (Filter.Value c = [] <->
             Filter.Operator c = "isEmpty"%string \/
             Filter.Operator c = "isNotEmpty"%string)).
  { intros column op value Hin H1 H2. unfold Filter.condition_on.
    destruct column as [name|]; [|discriminate].
    destruct (String.eqb name ""); [discriminate|].
    intros [= <-]. cbn [Filter.Operator Filter.Value]. split; [exact Hin|].
    split; [discriminate|]. intros [H|H]; contradiction. }
  destruct e as [col v|col v|col v|col v|col v|col v|col v|col vs|sql vars|];
    cbn [Filter.condition_of].
  1-7: apply Hon; [cbn; tauto|discriminate|discriminate].
  - unfold Filter.buildInCondition. destruct col as [name|]; [|discriminate].
    destruct (String.eqb name ""); [discriminate|].
    destruct vs as [|v0 vs]; [discriminate|]. cbn [List.length Nat.eqb].
    intros [= <-]. cbn [Filter.Operator Filter.Value]. split; [cbn; tauto|].
    split; [discriminate|]. intros [H|H]; discriminate.
  - unfold Filter.buildExprCondition.
    destruct (GoStrings.Contains _ " IS NOT NULL").
    { intros [= <-]. cbn [Filter.Operator Filter.Value]. split; [cbn; tauto|].
      split; [now right|reflexivity]. }
    destruct (GoStrings.Contains _ " IS NULL").
    { intros [= <-]. cbn [Filter.Operator Filter.Value]. split; [cbn; tauto|].
      split; [now left|reflexivity]. }
    destruct vars as [|v0 vars]; [discriminate|]. cbn [List.length Nat.eqb firstn].
    assert (Hnamed : forall fieldName op,
              In op Models.builtOperators ->
              op <> "isEmpty"%string -> op <> "isNotEmpty"%string ->
              (if String.eqb fieldName "" then None
               else Some {| Filter.FieldName := fieldName; Filter.Operator := op;
                            Filter.Value := [v0] |}) = Some c ->
              In (Filter.Operator c) Models.builtOperators /\
              (Filter.Value c = [] <->
               Filter.Operator c = "isEmpty"%string \/
               Filter.Operator c = "isNotEmpty"%string)).
    { intros fieldName op Hin H1 H2. destruct (String.eqb fieldName ""); [discriminate|].
      intros [= <-]. cbn [Filter.Operator Filter.Value]. split; [exact Hin|].
      split; [discriminate|]. intros [H|H]; contradiction. }
    repeat match goal with
           | |- context [if ?b then Some (_, _) else _] => destruct b
           end;
      first [discriminate
            | apply Hnamed; [cbn; tauto|discriminate|discriminate]].
  - discriminate.
Qed.

Lemma conditions_of_shape (exprs : list Filter.Expression) :
  Forall (fun c =>
            In (Filter.Operator c) Models.builtOperators /\
            (Filter.Value c = [] <->
             Filter.Operator c = "isEmpty"%string \/
             Filter.Operator c = "isNotEmpty"%string))
         (Filter.conditions_of exprs).
Proof.
  induction exprs as [|e exprs IH]; cbn; [constructor|].
  destruct (Filter.condition_of e) eqn:E; [|exact IH].
  constructor; [now apply condition_of_shape in E|exact IH].
Qed.

(** X17. Filters the two translators build, held against
    FilterRequest.Validate.  A filter built from a raw WHERE clause has the
    conjunction "and" and one condition, with a field name that is not
    empty, one of ten operators, and values unless the operator is isEmpty
    or isNotEmpty; it passes validation exactly when the operator is not
    isAnyOf, the operator written for IN, which the list of valid operators
    lacks.  A filter built from ORM expressions passes validation exactly
    when no condition has the operator isAnyOf or an empty field name. *)
Theorem built_filters_against_validation :
  (forall (whereClause : string) (fr : Filter.FilterRequest),
     Filter.buildFilterFromWhere whereClause = Some fr ->
     exists c,
       fr = {| Filter.Conjunction := "and"; Filter.Conditions := [c] |} /\
       Filter.FieldName c <> ""%string /\
       In (Filter.Operator c) Models.builtOperators /\
       (Filter.Value c = [] <->
        Filter.Operator c = "isEmpty"%string \/ Filter.Operator c = "isNotEmpty"%string) /\
       (Models.FilterRequest_Validate fr = None <->
        Filter.Operator c <> "isAnyOf"%string)) /\
  (forall (exprs : list Filter.Expression) (fr : Filter.FilterRequest),
     Filter.buildFilter exprs = Some fr ->
     Filter.Conjunction fr = "and"%string /\
     Filter.Conditions fr = Filter.conditions_of exprs /\
     Filter.Conditions fr <> [] /\
     Forall (fun c => In (Filter.Operator c) Models.builtOperators) (Filter.Conditions fr) /\
     (Models.FilterRequest_Validate fr = None <->
      Forall (fun c => Filter.FieldName c <> ""%string /\
                       Filter.Operator c <> "isAnyOf"%string) (Filter.Conditions fr))).
Proof.
  split.
  - intros w fr. unfold Filter.buildFilterFromWhere.
    destruct (String.eqb w ""); [discriminate|].
    destruct (String.eqb (GoStrings.TrimSpace w) ""); [discriminate|].
    destruct (Filter.first_condition _ _) as [c|] eqn:E; [|discriminate].
    intros [= <-]. apply first_condition_shape in E. destruct E as (Hf & Hop & Hval).
    change (map Filter.operator Filter.operatorPatterns) with Models.builtOperators in Hop.
    exists c. split; [reflexivity|]. split; [exact Hf|]. split; [exact Hop|].
    split; [exact Hval|].
    unfold Models.FilterRequest_Validate. cbn.
    pose proof (condition_validate_iff c Hop Hval) as Hc.
    destruct (Models.FilterCondition_Validate c).
    + split; [discriminate|]. intros H.
      assert (Some b = None) by (apply Hc; now split). discriminate.
    + split; [|reflexivity]. intros _. now apply Hc.
  - intros exprs fr. unfold Filter.buildFilter.
    pose proof (conditions_of_shape exprs) as Hshape.
    destruct (Filter.conditions_of exprs) as [|c l] eqn:E; [discriminate|].
    intros [= <-]. cbn [Filter.Conjunction Filter.Conditions].
    split; [reflexivity|]. split; [reflexivity|]. split; [discriminate|].
    split.
    { eapply Forall_impl; [|exact Hshape]. cbn. tauto. }
    unfold Models.FilterRequest_Validate.
    cbn [Filter.Conjunction Filter.Conditions List.length Nat.eqb].
    change (negb (String.eqb "and" "") && negb (String.eqb "and" "and")
            && negb (String.eqb "and" "or")) with false. cbv iota.
    rewrite validate_conditions_iff.
    rewrite !Forall_forall in *. split; intros H x Hx.
    + specialize (H x Hx). destruct (Hshape x Hx) as [Hop Hval].
      now apply (condition_validate_iff x Hop Hval).
    + destruct (Hshape x Hx) as [Hop Hval].
      apply (condition_validate_iff x Hop Hval). now apply H.
Qed.

(** ** Helpers of internal/common/utils.go *)

Lemma existsb_eqb_In (x : string) (l : list string) :
  existsb (String.eqb x) l = true <-> In x l.
Proof.
  rewrite existsb_exists. split.
  - intros (y & Hy & E). apply String.eqb_eq in E. now subst.
  - intros H. exists x. split; [exact H|apply String.eqb_refl].
Qed.

Lemma dedup_fold_inv (l : list string) :
  forall keys result,
    (forall x, In x keys <-> In x result) -> NoDup result ->
    let st := fold_left Utils.dedup_step l (keys, result) in
    (forall x, In x (fst st) <-> In x (snd st)) /\ NoDup (snd st) /\
    (forall x, In x (snd st) <-> In x result \/ In x l).
Proof.
  induction l as [|a l IH]; intros keys result Hk Hnd; cbn [fold_left].
  - cbn. split; [exact Hk|split; [exact Hnd|tauto]].
  - change (Utils.dedup_step (keys, result) a)
      with (if negb (existsb (String.eqb a) keys)
            then (a :: keys, result ++ [a]) else (keys, result)).
    destruct (existsb (String.eqb a) keys) eqn:E; cbn [negb].
    + apply existsb_eqb_In in E. apply Hk in E.
      destruct (IH keys result Hk Hnd) as (H1 & H2 & H3).
      split; [exact H1|split; [exact H2|]].
      intros x. rewrite H3. cbn. split; [tauto|]. intros [H|[<-|H]]; auto.
    + assert (Ha : ~ In a result).
      { intros H. apply Hk in H. apply existsb_eqb_In in H. congruence. }
      destruct (IH (a :: keys) (result ++ [a])) as (H1 & H2 & H3).
      * intros x. cbn. rewrite in_app_iff, Hk. cbn. tauto.
      * apply NoDup_app; [exact Hnd|constructor; [intros []|constructor]|].
        intros x Hx [<-|[]]. contradiction.
      * split; [exact H1|split; [exact H2|]].
        intros x. rewrite H3, in_app_iff. cbn. tauto.
Qed.

Lemma RemoveDuplicates_snoc (l : list string) (x : string) :
  Utils.RemoveDuplicates (l ++ [x]) =
  if existsb (String.eqb x) l then Utils.RemoveDuplicates l
  else Utils.RemoveDuplicates l ++ [x].
Proof.
  unfold Utils.RemoveDuplicates. rewrite fold_left_app. cbn [fold_left].
  destruct (dedup_fold_inv l [] []) as (H1 & _ & H3); [tauto|constructor|].
  destruct (fold_left Utils.dedup_step l ([], [])) as [keys result] eqn:E.
  cbn [fst snd] in *. unfold Utils.dedup_step.
  assert (Hiff : existsb (String.eqb x) keys = existsb (String.eqb x) l).
  { apply eq_true_iff_eq. rewrite !existsb_eqb_In, H1, H3. cbn. tauto. }
  rewrite Hiff. now destruct (existsb (String.eqb x) l).
Qed.

(** X18. RemoveDuplicates keeps the first occurrence of every item, in
    order: the result has no duplicates and the same members as the
    input; an item appended to the input is appended to the result exactly
    when it is new; an input without duplicates comes back unchanged, and
    so does a result. *)
Theorem remove_duplicates_keeps_first_occurrences (l : list string) (x : string) :
  NoDup (Utils.RemoveDuplicates l) /\
  (In x (Utils.RemoveDuplicates l) <-> In x l) /\
  Utils.RemoveDuplicates (l ++ [x]) =
    (if existsb (String.eqb x) l then Utils.RemoveDuplicates l
     else Utils.RemoveDuplicates l ++ [x]) /\
  (NoDup l -> Utils.RemoveDuplicates l = l) /\
  Utils.RemoveDuplicates (Utils.RemoveDuplicates l) = Utils.RemoveDuplicates l.
Proof.
  assert (Hnd : forall l, NoDup (Utils.RemoveDuplicates l)).
  { intros l0. unfold Utils.RemoveDuplicates.
    destruct (dedup_fold_inv l0 [] []) as (_ & H2 & _); [tauto|constructor|exact H2]. }
  assert (Hid : forall l, NoDup l -> Utils.RemoveDuplicates l = l).
  { intros l0. induction l0 as [|a l0 IH] using rev_ind; intros H; [reflexivity|].
    rewrite RemoveDuplicates_snoc.
    apply NoDup_remove in H. rewrite app_nil_r in H. destruct H as [H Ha].
    destruct (existsb (String.eqb a) l0) eqn:E.
    - apply existsb_eqb_In in E. contradiction.
    - now rewrite IH. }
  split; [apply Hnd|]. split.
  { unfold Utils.RemoveDuplicates.
    destruct (dedup_fold_inv l [] []) as (_ & _ & H3); [tauto|constructor|].
    rewrite H3. cbn. tauto. }
  split; [apply RemoveDuplicates_snoc|]. split; [apply Hid|].
  apply Hid, Hnd.
Qed.

Lemma runeWidth_bounds (r : Utils.rune) : 1 <= Utils.runeWidth r <= 2.
Proof. unfold Utils.runeWidth. destruct (_ >? _); lia. Qed.

Lemma width_loop_acc (s : Utils.runes) :
  forall a, Utils.width_loop s a = a + Utils.width_loop s 0.
Proof.
  induction s as [|r s IH]; intros a; cbn [Utils.width_loop]; [lia|].
  rewrite (IH (a + Utils.runeWidth r)), (IH (0 + Utils.runeWidth r)). lia.
Qed.

Lemma GetDisplayWidth_cons (r : Utils.rune) (s : Utils.runes) :
  Utils.GetDisplayWidth (r :: s) = Utils.runeWidth r + Utils.GetDisplayWidth s.
Proof.
  unfold Utils.GetDisplayWidth. cbn [Utils.width_loop]. rewrite width_loop_acc. lia.
Qed.

Lemma GetDisplayWidth_app (a b : Utils.runes) :
  Utils.GetDisplayWidth (a ++ b) = Utils.GetDisplayWidth a + Utils.GetDisplayWidth b.
Proof.
  induction a as [|r a IH]; [reflexivity|].
  cbn [app]. rewrite !GetDisplayWidth_cons, IH. lia.
Qed.

Lemma GetDisplayWidth_nonneg (s : Utils.runes) : 0 <= Utils.GetDisplayWidth s.
Proof.
  induction s as [|r s IH]; [unfold Utils.GetDisplayWidth; cbn; lia|].
  rewrite GetDisplayWidth_cons. pose proof (runeWidth_bounds r). lia.
Qed.

Lemma GetDisplayWidth_spaces (n : nat) :
  Utils.GetDisplayWidth (repeat Utils.space n) = Z.of_nat n.
Proof.
  induction n as [|n IH]; [reflexivity|].
  cbn [repeat]. rewrite GetDisplayWidth_cons, IH.
  change (Utils.runeWidth Utils.space) with 1. lia.
Qed.

Lemma truncate_loop_spec (bound : Z) (s : Utils.runes) :
  forall maxLen cur result,
    GoInt.wrap (maxLen - 3) = bound ->
    exists kept rest,
      s = kept ++ rest /\
      Utils.truncate_loop s maxLen cur result = result ++ kept /\
      (kept = [] \/ cur + Utils.GetDisplayWidth kept <= bound) /\
      (rest = [] \/
       exists r rest', rest = r :: rest' /\
                       bound < cur + Utils.GetDisplayWidth kept + Utils.runeWidth r).
Proof.
  induction s as [|r s IH]; intros maxLen cur result Hb; cbn [Utils.truncate_loop].
  - exists [], []. rewrite !app_nil_r. repeat split; auto.
  - rewrite Hb. destruct (cur + Utils.runeWidth r >? bound) eqn:E.
    + exists [], (r :: s). rewrite app_nil_r. repeat split; auto.
      right. exists r, s. split; [reflexivity|].
      change (Utils.GetDisplayWidth []) with 0. lia.
    + destruct (IH maxLen (cur + Utils.runeWidth r) (result ++ [r]) Hb)
        as (kept & rest & -> & Hout & Hk & Hr).
      exists (r :: kept), rest. split; [reflexivity|].
      split; [rewrite Hout, <- app_assoc; reflexivity|].
      rewrite GetDisplayWidth_cons. split.
      * right. destruct Hk as [->|Hk].
        -- change (Utils.GetDisplayWidth []) with 0. lia.
        -- lia.
      * destruct Hr as [->|(r0 & rest' & -> & Hr)]; [now left|right].
        exists r0, rest'. split; [reflexivity|lia].
Qed.

Lemma PadString_spec (s : Utils.runes) (width : Z) :
  Utils.GetDisplayWidth (Utils.PadString s width) = Z.max (Utils.GetDisplayWidth s) width /\
  exists n, Utils.PadString s width = s ++ repeat Utils.space n.
Proof.
  unfold Utils.PadString. destruct (_ >=? _) eqn:E.
  - rewrite Z.geb_leb in E. apply Z.leb_le in E.
    split; [lia|]. exists 0%nat. now rewrite app_nil_r.
  - rewrite Z.geb_leb in E. apply Z.leb_gt in E.
    split; [|now eexists].
    rewrite GetDisplayWidth_app, GetDisplayWidth_spaces. lia.
Qed.

(** X19. The contract of TruncateString and PadString, in display
    columns.  PadString adds spaces only, and the result is as wide as the
    wider of the text and the width asked for.  TruncateString returns a
    text that fits unchanged; a text that does not fit becomes a prefix of
    it followed by three full stops, the longest prefix that leaves room
    for them (a proper prefix unless the width asked for is negative), and
    the result fits when the width asked for is at least 3.  Below that the
    result is the three full stops alone, wider than asked for. *)
Theorem truncate_and_pad_contract (s : Utils.runes) (maxLen : Z) :
  GoInt.MinInt + 3 <= maxLen <= GoInt.MaxInt ->
  (Utils.GetDisplayWidth (Utils.PadString s maxLen)
     = Z.max (Utils.GetDisplayWidth s) maxLen /\
   exists n, Utils.PadString s maxLen = s ++ repeat Utils.space n) /\
  (Utils.GetDisplayWidth s <= maxLen -> Utils.TruncateString s maxLen = s) /\
  (maxLen < Utils.GetDisplayWidth s ->
   exists kept rest,
     s = kept ++ rest /\
     Utils.TruncateString s maxLen = kept ++ Utils.ellipsis /\
     (forall r rest', rest = r :: rest' ->
                      maxLen - 3 < Utils.GetDisplayWidth kept + Utils.runeWidth r) /\
     (0 <= maxLen -> rest <> []) /\
     (3 <= maxLen ->
      Utils.GetDisplayWidth (Utils.TruncateString s maxLen) <= maxLen) /\
     (maxLen <= 3 -> Utils.TruncateString s maxLen = Utils.ellipsis)).
Proof.
  intros Hrange.
  assert (Hw : GoInt.wrap (maxLen - 3) = maxLen - 3).
  { apply wrap_in_range. unfold GoInt.in_range, GoInt.MinInt, GoInt.MaxInt in *. lia. }
  pose proof (GetDisplayWidth_nonneg s) as Hs.
  split; [|split].
  - apply PadString_spec.
  - intros H. unfold Utils.TruncateString.
    apply Z.leb_le in H. now rewrite H.
  - intros H. unfold Utils.TruncateString.
    replace (Utils.GetDisplayWidth s <=? maxLen) with false
      by (symmetry; apply Z.leb_gt; lia).
    destruct (truncate_loop_spec (maxLen - 3) s maxLen 0 [] Hw)
      as (kept & rest & Hsplit & Hout & Hk & Hr).
    cbn [app] in Hout. rewrite Hout.
    assert (Hkw : Utils.GetDisplayWidth kept <= Z.max 0 (maxLen - 3)).
    { destruct Hk as [->|Hk]; [change (Utils.GetDisplayWidth []) with 0|]; lia. }
    exists kept, rest. split; [exact Hsplit|]. split; [reflexivity|].
    split.
    { intros r rest' ->. destruct Hr as [Hr|(r0 & rest0 & [= <- <-] & Hr)];
        [discriminate|lia]. }
    split.
    { intros H0 ->. rewrite app_nil_r in Hsplit. subst kept.
      destruct Hk as [->|Hk]; [change (Utils.GetDisplayWidth []) with 0 in H|]; lia. }
    split.
    + intros H3. rewrite GetDisplayWidth_app.
      change (Utils.GetDisplayWidth Utils.ellipsis) with 3. lia.
    + intros H3. destruct Hk as [->|Hk]; [reflexivity|].
      destruct kept as [|k kept]; [reflexivity|].
      rewrite GetDisplayWidth_cons in Hk.
      pose proof (runeWidth_bounds k). pose proof (GetDisplayWidth_nonneg kept). lia.
Qed.

Lemma truncate_and_pad_witness :
  Utils.TruncateString [104; 101; 108; 108; 111; 19990; 30028] 8
    = [104; 101; 108; 108; 111] ++ Utils.ellipsis /\
  Utils.GetDisplayWidth (Utils.PadString [104; 105] 8) = 8.
Proof.
  assert (Hr : GoInt.MinInt + 3 <= 8 <= GoInt.MaxInt)
    by (unfold GoInt.MinInt, GoInt.MaxInt; lia).
  destruct (truncate_and_pad_contract [104; 105] 8 Hr) as ((Hp & _) & _).
  split; [vm_compute; reflexivity|]. rewrite Hp. reflexivity.
Defined.

Lemma column_width_spec (fieldName : Utils.runes) (values : list Utils.runes) :
  8 <= TableView.column_width fieldName values <= 30 /\
  forall val, In val (fieldName :: values) ->
              Utils.GetDisplayWidth val <= 30 ->
              Utils.GetDisplayWidth val <= TableView.column_width fieldName values.
Proof.
  unfold TableView.column_width.
  set (f := fun (w : Z) (valStr : Utils.runes) =>
              let displayWidth := Utils.GetDisplayWidth valStr in
              if displayWidth >? w then displayWidth else w).
  assert (Hfold : forall vs w0,
            w0 <= fold_left f vs w0 /\
            forall v, In v vs -> Utils.GetDisplayWidth v <= fold_left f vs w0).
  { induction vs as [|v vs IH]; intros w0; cbn [fold_left].
    - split; [lia|intros v []].
    - destruct (IH (f w0 v)) as [H1 H2].
      assert (Hf : w0 <= f w0 v /\ Utils.GetDisplayWidth v <= f w0 v).
      { unfold f. cbv zeta. destruct (_ >? _) eqn:E; [|rewrite Z.gtb_ltb in E;
          apply Z.ltb_ge in E]; lia. }
      split; [lia|]. intros v' [<-|Hin]; [lia|now apply H2]. }
  destruct (Hfold values (Utils.GetDisplayWidth fieldName)) as [H1 H2].
  set (w := fold_left f values (Utils.GetDisplayWidth fieldName)) in *.
  split.
  - destruct (w <? 8) eqn:E1; [lia|]. apply Z.ltb_ge in E1.
    destruct (w >? 30) eqn:E2; [lia|]. rewrite Z.gtb_ltb in E2. apply Z.ltb_ge in E2. lia.
  - intros val [<-|Hin] H30.
    + destruct (w <? 8) eqn:E1; [apply Z.ltb_lt in E1; lia|].
      destruct (w >? 30); lia.
    + specialize (H2 val Hin).
      destruct (w <? 8) eqn:E1; [apply Z.ltb_lt in E1; lia|].
      destruct (w >? 30); lia.
Qed.

(** X20. The result table of the command line is aligned.  The width
    of a column lies between 8 and 30 and is at least the width of its name
    and of every value no wider than 30.  Whatever the value, the text
    printed for it in that column is exactly as wide as the column: a value
    that fits is padded with spaces; a value that does not fit is cut to a
    prefix of at most the column width less 6 columns, followed by six
    full stops (TruncateString adds three, its caller three more) and
    padding. *)
Theorem table_cells_are_aligned (fieldName : Utils.runes) (values : list Utils.runes)
    (val : Utils.runes) :
  let W := TableView.column_width fieldName values in
  8 <= W <= 30 /\
  (In val (fieldName :: values) -> Utils.GetDisplayWidth val <= 30 ->
   Utils.GetDisplayWidth val <= W) /\
  Utils.GetDisplayWidth (TableView.cell val W) = W /\
  (Utils.GetDisplayWidth val <= W ->
   exists n, TableView.cell val W = val ++ repeat Utils.space n) /\
  (W < Utils.GetDisplayWidth val ->
   exists kept rest n,
     val = kept ++ rest /\ Utils.GetDisplayWidth kept <= W - 6 /\
     TableView.cell val W
       = kept ++ Utils.ellipsis ++ Utils.ellipsis ++ repeat Utils.space n).
Proof.
  cbv zeta. destruct (column_width_spec fieldName values) as [HW Hfit].
  set (W := TableView.column_width fieldName values) in *.
  split; [exact HW|]. split; [apply Hfit|].
  assert (Hr : GoInt.MinInt + 3 <= W <= GoInt.MaxInt)
    by (unfold GoInt.MinInt, GoInt.MaxInt; lia).
  assert (Hr3 : GoInt.MinInt + 3 <= W - 3 <= GoInt.MaxInt)
    by (unfold GoInt.MinInt, GoInt.MaxInt; lia).
  assert (Hw : GoInt.wrap (W - 3) = W - 3).
  { apply wrap_in_range. unfold GoInt.in_range, GoInt.MinInt, GoInt.MaxInt. lia. }
  assert (Hw6 : GoInt.wrap (W - 3 - 3) = W - 6).
  { rewrite wrap_in_range; [lia|].
    unfold GoInt.in_range, GoInt.MinInt, GoInt.MaxInt. lia. }
  unfold TableView.cell. rewrite Hw.
  destruct (Utils.GetDisplayWidth val >? W) eqn:E.
  - rewrite Z.gtb_ltb in E. apply Z.ltb_lt in E.
    unfold Utils.TruncateString.
    replace (Utils.GetDisplayWidth val <=? W - 3) with false
      by (symmetry; apply Z.leb_gt; lia).
    destruct (truncate_loop_spec (W - 6) val (W - 3) 0 [] Hw6)
      as (kept & rest & Hsplit & Hout & Hk & _).
    cbn [app] in Hout. rewrite Hout.
    assert (Hkw : Utils.GetDisplayWidth kept <= W - 6).
    { destruct Hk as [->|Hk]; [change (Utils.GetDisplayWidth []) with 0|]; lia. }
    pose proof (GetDisplayWidth_nonneg kept) as Hk0.
    destruct (PadString_spec ((kept ++ Utils.ellipsis) ++ Utils.ellipsis) W)
      as (Hpw & n & Hpad).
    assert (Hcw : Utils.GetDisplayWidth ((kept ++ Utils.ellipsis) ++ Utils.ellipsis)
                  = Utils.GetDisplayWidth kept + 6).
    { rewrite !GetDisplayWidth_app. change (Utils.GetDisplayWidth Utils.ellipsis) with 3. lia. }
    split; [rewrite Hpw, Hcw; lia|]. split; [lia|]. intros _.
    exists kept, rest, n. split; [exact Hsplit|]. split; [exact Hkw|].
    rewrite Hpad. now rewrite <- !app_assoc.
  - rewrite Z.gtb_ltb in E. apply Z.ltb_ge in E.
    destruct (PadString_spec val W) as (Hpw & n & Hpad).
    split; [rewrite Hpw; lia|]. split; [intros _; now exists n|lia].
Qed.

(** ** The query optimizer *)

Lemma skipn_all_Z (A : Type) (l : list A) (i : Z) :
  Z.of_nat (List.length l) <= i -> skipn (Z.to_nat i) l = [].
Proof. intros H. apply skipn_all2. lia. Qed.

Lemma split_loop_pos (size : Z) (queries : list string) :
  0 < size <= GoInt.MaxInt ->
  Z.of_nat (List.length queries) < 2 ^ 62 ->
  forall (n fuel : nat) (i : Z) (batches : list (list string)),
    0 <= i -> i = 0 \/ size <= i ->
    (Z.to_nat (Z.of_nat (List.length queries) - i) <= n)%nat -> (n < fuel)%nat ->
    exists bs,
      Optimizer.split_loop fuel size queries i batches = Some (Some (batches ++ bs)) /\
      List.concat bs = skipn (Z.to_nat i) queries /\
      Forall (fun b => 0 < Z.of_nat (List.length b) <= size) bs /\
      (forall k, (S k < List.length bs)%nat -> Z.of_nat (List.length (nth k bs [])) = size).
Proof.
  intros Hsize Hlen. set (len := Z.of_nat (List.length queries)) in *.
  induction n as [|n IH]; intros fuel i batches Hi Hmul Hn Hfuel;
    (destruct fuel as [|fuel]; [lia|]); cbn [Optimizer.split_loop]; fold len.
  - replace (i <? len) with false by (symmetry; apply Z.ltb_ge; lia).
    exists []. rewrite app_nil_r. split; [reflexivity|].
    split; [symmetry; apply skipn_all_Z; fold len; lia|].
    split; [constructor|]. cbn. intros k Hk. lia.
  - destruct (i <? len) eqn:Ei.
    2:{ apply Z.ltb_ge in Ei. exists []. rewrite app_nil_r. split; [reflexivity|].
        split; [symmetry; apply skipn_all_Z; fold len; lia|].
        split; [constructor|]. cbn. intros k Hk. lia. }
    apply Z.ltb_lt in Ei.
    assert (Hw : GoInt.wrap (i + size) = i + size).
    { apply wrap_in_range. unfold GoInt.in_range, GoInt.MinInt, GoInt.MaxInt in *. lia. }
    rewrite Hw.
    set (end_ := if i + size >? len then len else i + size).
    assert (Hend : i < end_ <= len /\ end_ - i <= size /\
                   (i + size <= len -> end_ = i + size) /\
                   (len < i + size -> end_ = len)).
    { unfold end_. destruct (i + size >? len) eqn:E; rewrite Z.gtb_ltb in E;
        [apply Z.ltb_lt in E|apply Z.ltb_ge in E]; lia. }
    destruct Hend as (He1 & He2 & He3 & He4).
    unfold Optimizer.slice. fold len.
    replace ((0 <=? i) && (i <=? end_) && (end_ <=? len)) with true
      by (symmetry; rewrite !andb_true_iff, !Z.leb_le; lia).
    set (batch := firstn (Z.to_nat (end_ - i)) (skipn (Z.to_nat i) queries)).
    assert (Hbl : Z.of_nat (List.length batch) = end_ - i).
    { unfold batch. rewrite length_firstn, length_skipn. unfold len in *. lia. }
    destruct (IH fuel (i + size) (batches ++ [batch])) as (bs & Hrun & Hcat & Hall & Hfull);
      [lia|right; lia|lia|lia|].
    exists (batch :: bs). rewrite Hrun, <- app_assoc. split; [reflexivity|].
    assert (Hrest : bs <> [] -> i + size < len).
    { intros Hbs. destruct (Z.lt_ge_cases (i + size) len) as [H|H]; [exact H|exfalso].
      rewrite skipn_all_Z in Hcat by (fold len; lia).
      destruct bs as [|b bs]; [now apply Hbs|].
      inversion Hall as [|? ? Hb _]; subst. cbn in Hcat.
      destruct b; [cbn in Hb; lia|discriminate]. }
    split; [|split].
    + cbn [List.concat]. rewrite Hcat. unfold batch.
      destruct (Z.le_gt_cases (i + size) len) as [H|H].
      * rewrite He3 by exact H.
        replace (Z.to_nat (i + size)) with (Z.to_nat (i + size - i) + Z.to_nat i)%nat by lia.
        rewrite <- skipn_skipn. apply firstn_skipn.
      * rewrite (skipn_all_Z _ queries (i + size)) by (fold len; lia).
        rewrite app_nil_r. apply firstn_all2. rewrite length_skipn. unfold len in *. lia.
    + constructor; [lia|exact Hall].
    + intros [|k] Hk; cbn [nth].
      * rewrite Hbl. rewrite He3; [lia|].
        assert (bs <> []) by (destruct bs; [cbn in Hk; lia|discriminate]).
        specialize (Hrest H). lia.
      * apply Hfull. cbn in Hk. lia.
Qed.

(** X21. splitIntoBatches with a positive batch size returns batches
    that, put end to end, are the queries in their order; no batch is
    empty or longer than the batch size, and every batch but the last is
    exactly that long.  With batch size 0 and at least one query the loop
    never ends, with a negative batch size it panics on its first slice;
    without queries it returns no batch whatever the size. *)
Theorem split_into_batches (maxBatchSize : Z) (queries : list string) :
  GoInt.in_range maxBatchSize ->
  Z.of_nat (List.length queries) < 2 ^ 62 ->
  (0 < maxBatchSize ->
   forall fuel, (List.length queries < fuel)%nat ->
   exists batches,
     Optimizer.splitIntoBatches fuel maxBatchSize queries = Some (Some batches) /\
     List.concat batches = queries /\
     Forall (fun b => 0 < Z.of_nat (List.length b) <= maxBatchSize) batches /\
     (forall k, (S k < List.length batches)%nat ->
                Z.of_nat (List.length (nth k batches [])) = maxBatchSize)) /\
  (queries <> [] -> maxBatchSize = 0 ->
   forall fuel, Optimizer.splitIntoBatches fuel maxBatchSize queries = None) /\
  (queries <> [] -> maxBatchSize < 0 ->
   forall fuel, Optimizer.splitIntoBatches (S fuel) maxBatchSize queries = Some None) /\
  (queries = [] ->
   forall fuel, Optimizer.splitIntoBatches (S fuel) maxBatchSize queries = Some (Some [])).
Proof.
  intros Hrange Hlen. unfold Optimizer.splitIntoBatches.
  split; [|split; [|split]].
  - intros Hpos fuel Hfuel.
    destruct (split_loop_pos maxBatchSize queries) with
      (n := List.length queries) (fuel := fuel) (i := 0) (batches := @nil (list string))
      as (bs & Hrun & Hcat & Hall & Hfull);
      [unfold GoInt.in_range in Hrange; lia|exact Hlen|lia|now left|lia|exact Hfuel|].
    exists bs. split; [exact Hrun|]. split; [exact Hcat|]. split; [exact Hall|exact Hfull].
  - intros Hne -> fuel. generalize (@nil (list string)) as batches.
    induction fuel as [|fuel IH]; intros batches; [reflexivity|].
    cbn [Optimizer.split_loop].
    destruct queries as [|q queries]; [contradiction|].
    replace (0 <? Z.of_nat (List.length (q :: queries))) with true
      by (symmetry; apply Z.ltb_lt; cbn [List.length]; lia).
    change (GoInt.wrap (0 + 0)) with 0.
    replace (0 >? Z.of_nat (List.length (q :: queries))) with false
      by (symmetry; rewrite Z.gtb_ltb; apply Z.ltb_ge; lia).
    unfold Optimizer.slice.
    replace ((0 <=? 0) && (0 <=? 0) && (0 <=? Z.of_nat (List.length (q :: queries))))
      with true by (symmetry; rewrite !andb_true_iff, !Z.leb_le; lia).
    apply IH.
  - intros Hne Hneg fuel. cbn [Optimizer.split_loop].
    destruct queries as [|q queries]; [contradiction|].
    replace (0 <? Z.of_nat (List.length (q :: queries))) with true
      by (symmetry; apply Z.ltb_lt; cbn [List.length]; lia).
    rewrite Z.add_0_l, wrap_in_range by exact Hrange.
    replace (maxBatchSize >? Z.of_nat (List.length (q :: queries))) with false
      by (symmetry; rewrite Z.gtb_ltb; apply Z.ltb_ge; lia).
    unfold Optimizer.slice.
    replace (0 <=? maxBatchSize) with false by (symmetry; apply Z.leb_gt; lia).
    reflexivity.
  - intros -> fuel. reflexivity.
Qed.

Lemma split_into_batches_witness :
  Optimizer.splitIntoBatches 6 2 ["a"; "b"; "c"; "d"; "e"]%string
    = Some (Some [["a"; "b"]; ["c"; "d"]; ["e"]]%string) /\
  Optimizer.splitIntoBatches 1000 0 ["a"]%string = None /\
  Optimizer.splitIntoBatches 1 (-1) ["a"]%string = Some None.
Proof.
  assert (Hr : forall z, -4 <= z <= 4 -> GoInt.in_range z)
    by (unfold GoInt.in_range, GoInt.MinInt, GoInt.MaxInt; lia).
  split; [reflexivity|]. split.
  - refine (proj1 (proj2 (split_into_batches 0 ["a"%string] (Hr 0 _) _)) _ eq_refl 1000%nat);
      [lia|cbn; lia|discriminate].
  - refine (proj1 (proj2 (proj2 (split_into_batches (-1) ["a"%string] (Hr (-1) _) _)))
              _ _ 0%nat); [lia|cbn; lia|discriminate|lia].
Defined.

Lemma key_loop_acc (queries : list string) :
  forall key, Optimizer.key_loop queries key = (key ++ Optimizer.key_loop queries "")%string.
Proof.
  induction queries as [|q queries IH]; intros key; cbn [Optimizer.key_loop].
  - now rewrite str_app_nil_r.
  - rewrite (IH (key ++ q ++ "|")%string), (IH ("" ++ q ++ "|")%string).
    cbn [append]. now rewrite !str_app_assoc.
Qed.

Lemma generateCacheKey_cons (q : string) (queries : list string) :
  Optimizer.generateCacheKey (q :: queries)
  = (q ++ "|" ++ Optimizer.generateCacheKey queries)%string.
Proof.
  unfold Optimizer.generateCacheKey. cbn [Optimizer.key_loop append].
  rewrite key_loop_acc. now rewrite str_app_assoc.
Qed.

Lemma bar_split (q1 q2 r1 r2 : string) :
  GoStrings.mem_byte "|" q1 = false -> GoStrings.mem_byte "|" q2 = false ->
  (q1 ++ "|" ++ r1)%string = (q2 ++ "|" ++ r2)%string -> q1 = q2 /\ r1 = r2.
Proof.
  revert q2. induction q1 as [|c q1 IH]; intros q2 H1 H2 E.
  - destruct q2 as [|d q2]; cbn in E.
    + injection E as E. now split.
    + injection E as Ed _. subst d. cbn in H2. discriminate.
  - destruct q2 as [|d q2]; cbn in E.
    + injection E as Ec _. subst c. cbn in H1. discriminate.
    + injection E as Ec E. subst d.
      cbn in H1, H2. apply orb_false_iff in H1, H2.
      destruct (IH q2) as [-> ->]; [tauto|tauto|exact E|]. now split.
Qed.

(** X22. The cache key of the optimizer tells two lists of queries
    apart when no query holds a vertical bar, and not in general: a query
    with a bar in it has the key of the two queries the bar separates, so
    the cache can answer one list of queries with the results stored for
    another, of another length. *)
Theorem cache_key_collisions :
  (forall (a b : string) (rest : list string),
     Optimizer.generateCacheKey ((a ++ "|" ++ b)%string :: rest)
     = Optimizer.generateCacheKey (a :: b :: rest)) /\
  (forall qs1 qs2 : list string,
     Forall (fun q => GoStrings.mem_byte "|" q = false) qs1 ->
     Forall (fun q => GoStrings.mem_byte "|" q = false) qs2 ->
     Optimizer.generateCacheKey qs1 = Optimizer.generateCacheKey qs2 ->
     qs1 = qs2).
Proof.
  split.
  - intros a b rest. rewrite !generateCacheKey_cons. now rewrite !str_app_assoc.
  - intros qs1. induction qs1 as [|q1 qs1 IH]; intros qs2 H1 H2 E.
    + destruct qs2 as [|q2 qs2]; [reflexivity|].
      rewrite generateCacheKey_cons in E. destruct q2; discriminate.
    + destruct qs2 as [|q2 qs2].
      * rewrite generateCacheKey_cons in E. destruct q1; discriminate.
      * rewrite !generateCacheKey_cons in E.
        inversion H1 as [|? ? Hq1 Hqs1]; inversion H2 as [|? ? Hq2 Hqs2]; subst.
        destruct (bar_split _ _ _ _ Hq1 Hq2 E) as [-> E'].
        f_equal. now apply IH.
Qed.

(** ** The SELECT of the command line *)










Lemma append_items_no_limit (items : list Select.Record_) (limit : Z) :
  limit <= 0 ->
  forall acc, Select.append_items items limit acc = acc ++ items.
Proof.
  intros Hl. induction items as [|item items IH]; intros acc; cbn [Select.append_items].
  - now rewrite app_nil_r.
  - replace (limit >? 0) with false by (symmetry; rewrite Z.gtb_ltb; apply Z.ltb_ge; lia).
    cbn [andb]. rewrite IH, <- app_assoc. reflexivity.
Qed.

Lemma append_items_limit (items : list Select.Record_) (limit : Z) :
  0 < limit ->
  forall acc, Z.of_nat (List.length acc) < limit ->
              Select.append_items items limit acc = firstn (Z.to_nat limit) (acc ++ items).
Proof.
  intros Hl. induction items as [|item items IH]; intros acc Hacc; cbn [Select.append_items].
  - rewrite app_nil_r. symmetry. apply firstn_all2. lia.
  - replace (limit >? 0) with true by (symmetry; rewrite Z.gtb_ltb; apply Z.ltb_lt; lia).
    cbn [andb]. rewrite length_app. cbn [List.length].
    destruct (_ >=? _) eqn:E; rewrite Z.geb_leb in E.
    + apply Z.leb_le in E.
      replace (acc ++ item :: items) with ((acc ++ [item]) ++ items)
        by (rewrite <- app_assoc; reflexivity).
      rewrite firstn_app.
      replace (Z.to_nat limit - List.length (acc ++ [item]))%nat with 0%nat
        by (rewrite length_app; cbn [List.length]; lia).
      cbn [firstn]. rewrite app_nil_r. symmetry. apply firstn_all2.
      rewrite length_app. cbn [List.length]. lia.
    + apply Z.leb_gt in E. rewrite IH by (rewrite length_app; cbn [List.length]; lia).
      now rewrite <- app_assoc.
Qed.

Lemma records_loop_spec (server : Z -> string -> Select.Reply) (limit : Z)
    (pages : list Select.Page) :
  forall (pageNum : Z) (pageToken : string) (acc : list Select.Record_) (fuel : nat),
    Select.serves server pageNum pageToken pages ->
    (List.length pages <= fuel)%nat ->
    limit <= 0 \/ Z.of_nat (List.length acc) < limit ->
    Select.records_loop fuel server limit pageNum pageToken acc
    = Some (inl (if limit >? 0
                 then firstn (Z.to_nat limit) (acc ++ Select.all_items pages)
                 else acc ++ Select.all_items pages)).
Proof.
  induction pages as [|page rest IH]; intros pageNum pageToken acc fuel Hs Hfuel Hacc;
    [destruct Hs|].
  destruct fuel as [|fuel]; [cbn in Hfuel; lia|].
  cbn [Select.serves] in Hs. destruct Hs as [[msg Hserver] Hrest].
  cbn [Select.records_loop]. rewrite Hserver. cbn [Z.eqb negb].
  unfold Select.all_items. cbn [flat_map]. fold (Select.all_items rest).
  destruct (Z.le_gt_cases limit 0) as [Hl|Hl].
  - rewrite append_items_no_limit by exact Hl.
    replace (limit >? 0) with false by (symmetry; rewrite Z.gtb_ltb; apply Z.ltb_ge; lia).
    cbn [andb].
    destruct rest as [|page' rest'].
    + rewrite Hrest. cbn [negb]. cbn. now rewrite app_nil_r.
    + destruct Hrest as [Hmore Hrest]. rewrite Hmore. cbn [negb].
      rewrite (IH _ _ _ fuel Hrest); [|cbn in *; lia|now left].
      replace (limit >? 0) with false by (symmetry; rewrite Z.gtb_ltb; apply Z.ltb_ge; lia).
      now rewrite <- app_assoc.
  - destruct Hacc as [Hacc|Hacc]; [lia|].
    rewrite append_items_limit by (lia || exact Hacc).
    replace (limit >? 0) with true by (symmetry; rewrite Z.gtb_ltb; apply Z.ltb_lt; lia).
    cbn [andb].
    destruct (_ >=? _) eqn:E; rewrite Z.geb_leb in E.
    + apply Z.leb_le in E. f_equal. f_equal.
      rewrite app_assoc, (firstn_app _ (acc ++ Select.Items page)).
      rewrite length_firstn in E.
      replace (Z.to_nat limit - List.length (acc ++ Select.Items page))%nat with 0%nat by lia.
      cbn [firstn]. now rewrite app_nil_r.
    + apply Z.leb_gt in E. rewrite length_firstn in E.
      assert (Hshort : (List.length (acc ++ Select.Items page) < Z.to_nat limit)%nat) by lia.
      rewrite firstn_all2 by (apply Nat.lt_le_incl; exact Hshort).
      destruct rest as [|page' rest'].
      * rewrite Hrest. cbn [negb]. cbn [Select.all_items flat_map]. rewrite app_nil_r.
        f_equal. f_equal. symmetry. apply firstn_all2. lia.
      * destruct Hrest as [Hmore Hrest]. rewrite Hmore. cbn [negb].
        rewrite (IH _ _ _ fuel Hrest); [|cbn in *; lia|right; lia].
        replace (limit >? 0) with true
          by (symmetry; rewrite Z.gtb_ltb; apply Z.ltb_lt; lia).
        now rewrite <- app_assoc.
Qed.

(** X24. When the service holds a table's records in a chain of pages,
    getRecordsWithLimit returns the first limit records of the chain for a
    positive limit and all of them otherwise, once the fuel covers the
    pages.  selectData cuts to the limit before it filters: what it shows
    is the WHERE filter applied to the first LIMIT records, not the first
    LIMIT records that pass the filter, and LIMIT 0 stands for no limit. *)
Theorem select_cuts_then_filters (fmt_float : Strconv.float64 -> string)
    (server : Z -> string -> Select.Reply) (pages : list Select.Page)
    (fields : list Select.Field) (cmd : SQL.SQLCommand) (limit : Z) (fuel : nat) :
  Select.serves server 1 "" pages ->
  (List.length pages <= fuel)%nat ->
  Select.getRecordsWithLimit fuel server limit
    = Some (inl (if limit >? 0 then firstn (Z.to_nat limit) (Select.all_items pages)
                 else Select.all_items pages)) /\
  Select.getRecords fuel server = Some (inl (Select.all_items pages)) /\
  Select.selectData_records fmt_float fuel server fields cmd
    = Some (inl (Select.filterRecords fmt_float
                   (if SQL.Limit cmd >? 0
                    then firstn (Z.to_nat (SQL.Limit cmd)) (Select.all_items pages)
                    else Select.all_items pages)
                   fields (SQL.Condition cmd))).
Proof.
  intros Hs Hfuel.
  assert (Hget : forall l, Select.getRecordsWithLimit fuel server l
                 = Some (inl (if l >? 0 then firstn (Z.to_nat l) (Select.all_items pages)
                              else Select.all_items pages))).
  { intros l. unfold Select.getRecordsWithLimit.
    rewrite (records_loop_spec server l pages 1 "" [] fuel Hs Hfuel).
    - reflexivity.
    - destruct (Z.le_gt_cases l 0); [now left|right; cbn; lia]. }
  split; [apply Hget|].
  assert (Hall : Select.getRecords fuel server = Some (inl (Select.all_items pages))).
  { unfold Select.getRecords. rewrite Hget. reflexivity. }
  split; [exact Hall|].
  unfold Select.selectData_records. destruct (SQL.Limit cmd >? 0) eqn:E.
  - rewrite Hget, E. reflexivity.
  - rewrite Hall. reflexivity.
Qed.

Lemma select_cuts_then_filters_witness :
  Select.getRecordsWithLimit 2
    (fun _ token =>
       if String.eqb token ""
       then Select.Answer 0 "ok"
              (Some {| Select.Items := [ {| Select.Fields := [("id", Some "1")] |};
                                         {| Select.Fields := [("id", Some "2")] |} ];
                       Select.HasMore := true; Select.PageToken := "p2" |})
       else Select.Answer 0 "ok"
              (Some {| Select.Items := [ {| Select.Fields := [("id", Some "3")] |} ];
                       Select.HasMore := false; Select.PageToken := "" |}))%string
    0
  = Some (inl [ {| Select.Fields := [("id", Some "1")] |};
                {| Select.Fields := [("id", Some "2")] |};
                {| Select.Fields := [("id", Some "3")] |} ]%string).
Proof.
  refine (proj1 (select_cuts_then_filters (fun _ => ""%string) _
                   [ {| Select.Items := [ {| Select.Fields := [("id", Some "1")] |};
                                          {| Select.Fields := [("id", Some "2")] |} ];
                        Select.HasMore := true; Select.PageToken := "p2" |};
                     {| Select.Items := [ {| Select.Fields := [("id", Some "3")] |} ];
                        Select.HasMore := false; Select.PageToken := "" |} ]%string
                   [] (SQL.NewSQLCommand SQL.CommandSelect) 0 2 _ _)).
  - cbn. split; [now exists "ok"%string|]. split; [reflexivity|].
    split; [now exists "ok"%string|reflexivity].
  - cbn. lia.
Defined.

(** ** The command line from statement to handler *)

Lemma liti_matches_inv (t w rest : string) :
  Language.Matches (Regexp.liti t) w rest -> GoStrings.ToLower w = GoStrings.ToLower t.
Proof.
  revert w rest. induction t as [|c t IH]; intros w rest M.
  - cbn in M. inversion M; subst. reflexivity.
  - destruct t as [|d t].
    + cbn in M. inversion M as [p a rest' Hp| | | | | | | | | |]; subst.
      apply Ascii.eqb_eq in Hp. cbn. now rewrite Hp.
    + change (Regexp.liti (String c (String d t)))
        with (Regexp.Cat (Regexp.chri c) (Regexp.liti (String d t))) in M.
      inversion M as [| |r1 r2 w1 w2 rest' M1 M2| | | | | | | |]; subst.
      inversion M1 as [p a rest' Hp| | | | | | | | | |]; subst.
      apply Ascii.eqb_eq in Hp. apply IH in M2.
      cbn [append]. unfold GoStrings.ToLower in *. cbn [GoStrings.map_bytes].
      now rewrite Hp, M2.
Qed.

Lemma star_cls_any_rest (p : ascii -> bool) (w rest rest' : string) :
  Language.Matches (Regexp.Star (Regexp.Cls p)) w rest ->
  Language.Matches (Regexp.Star (Regexp.Cls p)) w rest'.
Proof.
  intros M. remember (Regexp.Star (Regexp.Cls p)) as r eqn:Hr.
  revert rest'. induction M; intros rest'; try discriminate.
  - constructor.
  - injection Hr as ->. constructor; [assumption| |now apply IHM2].
    inversion M1; subst. now constructor.
Qed.

Lemma sp1_any_rest (w rest rest' : string) :
  Language.Matches Regexp.sp1 w rest -> Language.Matches Regexp.sp1 w rest'.
Proof.
  unfold Regexp.sp1, Regexp.Plus. intros M.
  inversion M as [| |r1 r2 w1 w2 rest0 M1 M2| | | | | | | |]; subst.
  constructor.
  - inversion M1; subst. now constructor.
  - now apply (star_cls_any_rest _ _ rest).
Qed.

Lemma sp1_not_nil (w rest : string) : Language.Matches Regexp.sp1 w rest -> w <> ""%string.
Proof.
  unfold Regexp.sp1, Regexp.Plus. intros M.
  inversion M as [| |r1 r2 w1 w2 rest0 M1 M2| | | | | | | |]; subst.
  inversion M1; subst. discriminate.
Qed.

Lemma to_lower_idem (c : ascii) : GoStrings.to_lower (GoStrings.to_lower c) = GoStrings.to_lower c.
Proof. destruct c as [[] [] [] [] [] [] [] []]; vm_compute; reflexivity. Qed.

Lemma ToLower_idem (s : string) :
  GoStrings.ToLower (GoStrings.ToLower s) = GoStrings.ToLower s.
Proof.
  unfold GoStrings.ToLower. induction s as [|c s IH]; cbn [GoStrings.map_bytes];
    [reflexivity|]. now rewrite IH, to_lower_idem.
Qed.

(** A statement that some pattern beginning with two keywords and
    spaces between them matches holds the keyword pair, from a byte that is
    not a space to one that is not. *)
Lemma keyword_pair_occurs (k1 k2 : string) (c1 d2 : ascii) (k1' k2' : string)
    (tail : Regexp.regex) (s : string) :
  GoStrings.ToLower k1 = String c1 k1' -> GoStrings.is_space c1 = false ->
  GoStrings.ToLower k2 = (k2' ++ String d2 "")%string -> GoStrings.is_space d2 = false ->
  Language.matches_in
    (Regexp.Cat (Regexp.liti k1) (Regexp.Cat Regexp.sp1 (Regexp.Cat (Regexp.liti k2) tail))) s ->
  Language.matches_in
    (Regexp.cats [Regexp.liti (GoStrings.ToLower k1); Regexp.sp1;
                  Regexp.liti (GoStrings.ToLower k2)])
    (GoStrings.TrimSpace s).
Proof.
  intros H1 Hc H2 Hd (pre & w & rest & -> & M).
  inversion M as [| |r1 r2 w1 wa rest0 M1 Ma| | | | | | | |]; subst.
  inversion Ma as [| |r1 r2 w2 wb rest0 M2 Mb| | | | | | | |]; subst.
  inversion Mb as [| |r1 r2 w3 w4 rest0 M3 M4| | | | | | | |]; subst.
  apply liti_matches_inv in M1, M3.
  set (m := (w1 ++ w2 ++ w3)%string).
  assert (Es : (pre ++ (w1 ++ w2 ++ w3 ++ w4) ++ rest)%string
               = (pre ++ m ++ (w4 ++ rest))%string).
  { unfold m. now rewrite !str_app_assoc. }
  rewrite Es.
  assert (Hfirst : exists a m1, m = String a m1 /\ GoStrings.is_space a = false).
  { rewrite H1 in M1. destruct w1 as [|a w1']; [discriminate|].
    exists a, (w1' ++ w2 ++ w3)%string. split; [reflexivity|].
    cbn in M1. injection M1 as Ea _.
    destruct (GoStrings.is_space a) eqn:Ha; [|reflexivity].
    pose proof (space_is_not_folded _ Ha). congruence. }
  assert (Hlast : exists m0 b, m = (m0 ++ String b "")%string /\ GoStrings.is_space b = false).
  { rewrite H2 in M3. unfold GoStrings.ToLower in M3. apply map_bytes_last in M3.
    destruct M3 as (m0 & b & -> & Hb).
    exists (w1 ++ w2 ++ m0)%string, b. split; [unfold m; now rewrite !str_app_assoc|].
    destruct (GoStrings.is_space b) eqn:Hs; [|reflexivity].
    pose proof (space_is_not_folded _ Hs). congruence. }
  destruct Hfirst as (a & m1 & Ea & Ha). destruct Hlast as (m0 & b & Eb & Hb).
  destruct (TrimSpace_keeps pre m (w4 ++ rest) a b m1 m0 Ea Eb Ha Hb) as (pre' & post' & ->).
  exists pre', m, post'. split; [reflexivity|].
  change (Regexp.cats [Regexp.liti (GoStrings.ToLower k1); Regexp.sp1;
                       Regexp.liti (GoStrings.ToLower k2)])
    with (Regexp.Cat (Regexp.liti (GoStrings.ToLower k1))
            (Regexp.Cat Regexp.sp1 (Regexp.liti (GoStrings.ToLower k2)))).
  unfold m. constructor; [|constructor].
  - apply liti_matches. rewrite M1. symmetry. apply ToLower_idem.
  - eapply sp1_any_rest. eassumption.
  - apply liti_matches. rewrite M3. symmetry. apply ToLower_idem.
Qed.

Lemma found_matches_in (groups : nat) (r : Regexp.regex) (s : string) (k : nat) :
  (Regexp.len_matches (Regexp.FindStringSubmatch groups r s) <? S k)%nat = false ->
  Language.matches_in r s.
Proof.
  unfold Regexp.FindStringSubmatch.
  destruct (Regexp.search r s) eqn:E; [intros _; now apply search_sound in E|].
  cbn. discriminate.
Qed.

Lemma keyword_scan_refuses (cmd : SQL.SQLCommand) (r : Regexp.regex) :
  In r [Regexp.cats [Regexp.liti "union"; Regexp.sp1; Regexp.liti "select"];
        Regexp.cats [Regexp.liti "drop"; Regexp.sp1; Regexp.liti "table"];
        Regexp.cats [Regexp.liti "delete"; Regexp.sp1; Regexp.liti "from"];
        Regexp.cats [Regexp.liti "insert"; Regexp.sp1; Regexp.liti "into"];
        Regexp.cats [Regexp.liti "update"; Regexp.sp1; Regexp.liti "set"]] ->
  Language.matches_in r (GoStrings.TrimSpace (SQL.RawSQL cmd)) ->
  Executor.Execute true (Some cmd) = inl (Executor.securityError Examples.keyword_pattern).
Proof.
  intros Hin (pre & w & rest & Hs & M).
  assert (Hm : Regexp.MatchString (Security.re Examples.keyword_pattern)
                 (GoStrings.TrimSpace (SQL.RawSQL cmd)) = true).
  { apply MatchString_iff. exists pre, w, rest. split; [exact Hs|].
    cbn [Examples.keyword_pattern nth Security.dangerousPatterns Security.re].
    apply Language.MGroup. now apply (alts_matches _ r). }
  unfold Executor.Execute. cbn [negb].
  unfold Security.ValidateSQL, Security.dangerousPatterns.
  cbn [Security.first_match].
  change (Security.re _) with (Security.re Examples.keyword_pattern) at 1.
  rewrite Hm. reflexivity.
Qed.

Lemma parsed_insert_matches (sql : string) (cmd0 cmd : SQL.SQLCommand) :
  SQL.ParseInsertSQL sql cmd0 = SQL.Ok cmd -> Language.matches_in SQL.insertRe sql.
Proof.
  unfold SQL.ParseInsertSQL.
  destruct (_ <? 4)%nat eqn:E; [discriminate|]. intros _.
  now apply found_matches_in in E.
Qed.

Lemma cli_parsed_delete_matches (sql : string) (cmd0 cmd : SQL.SQLCommand) :
  CLI.parseDelete sql cmd0 = SQL.Ok cmd -> Language.matches_in CLI.deleteTabRe sql.
Proof.
  unfold CLI.parseDelete.
  destruct (_ <? 2)%nat eqn:E; [discriminate|]. intros _.
  now apply found_matches_in in E.
Qed.

(** X25. Through the command line no INSERT and no DELETE ever reaches
    its handler.  Whatever the statement, when ParseSQL makes an INSERT or
    a DELETE command of it, Execute returns the security error for that
    command: a statement the parser accepts holds the keywords INSERT INTO
    or DELETE FROM, which the first pattern of the injection validator
    looks for in the raw text. *)
Theorem cli_never_runs_insert_or_delete (sql : string) (cmd : SQL.SQLCommand) :
  CLI.ParseSQL sql = SQL.Ok cmd ->
  SQL.Type_ cmd = SQL.CommandInsert \/ SQL.Type_ cmd = SQL.CommandDelete ->
  Executor.Execute true (Some cmd) = inl (Executor.securityError Examples.keyword_pattern).
Proof.
  unfold CLI.ParseSQL. destruct (SQL.ValidateNotEmpty sql _); [discriminate|].
  set (s := SQL.PreprocessSQL sql). set (t := CLI.identifyCommandType s).
  set (cmd0 := SQL.with_RawSQL s (SQL.NewSQLCommand t)).
  assert (Hraw0 : SQL.RawSQL cmd0 = s) by reflexivity.
  assert (Hty0 : SQL.Type_ cmd0 = t) by reflexivity.
  clearbody cmd0.
  destruct (String.eqb t SQL.CommandSelect) eqn:E1.
  { intros H [Hty|Hty]; apply select_validates in H;
      destruct H as (_ & Hs & _); rewrite Hs in Hty; discriminate. }
  destruct (String.eqb t SQL.CommandInsert) eqn:E2.
  { intros H _. pose proof (parsed_insert_matches _ _ _ H) as Hm.
    apply insert_validates in H. destruct H as (_ & _ & Hraw & _).
    apply (keyword_scan_refuses cmd
             (Regexp.cats [Regexp.liti "insert"; Regexp.sp1; Regexp.liti "into"]));
      [cbn; tauto|].
    rewrite Hraw, Hraw0.
    exact (keyword_pair_occurs "INSERT" "INTO" "i" "o" "nsert" "int" _ s
             eq_refl eq_refl eq_refl eq_refl Hm). }
  destruct (String.eqb t SQL.CommandUpdate) eqn:E3.
  { intros H [Hty|Hty]; apply update_validates in H;
      destruct H as (_ & Hs & _); rewrite Hs in Hty; discriminate. }
  destruct (String.eqb t SQL.CommandDelete) eqn:E4.
  { intros H _. pose proof (cli_parsed_delete_matches _ _ _ H) as Hm.
    apply String.eqb_eq in E4.
    apply cli_delete_validates in H; [|now rewrite Hty0].
    destruct H as (_ & _ & Hraw).
    apply (keyword_scan_refuses cmd
             (Regexp.cats [Regexp.liti "delete"; Regexp.sp1; Regexp.liti "from"]));
      [cbn; tauto|].
    rewrite Hraw, Hraw0.
    exact (keyword_pair_occurs "DELETE" "FROM" "d" "m" "elete" "fro" _ s
             eq_refl eq_refl eq_refl eq_refl Hm). }
  destruct (String.eqb t SQL.CommandShow) eqn:E5; [|discriminate].
  apply String.eqb_eq in E5.
  intros H [Hty|Hty]; apply cli_show_validates in H; try (now rewrite Hty0);
    destruct H as (Hs & _); rewrite Hs in Hty; discriminate.
Qed.

Lemma cli_never_runs_insert_witness :
  exists cmd,
    CLI.ParseSQL "insert   into users (name, age) values ('Ann', 30);" = SQL.Ok cmd /\
    Executor.Execute true (Some cmd) = inl (Executor.securityError Examples.keyword_pattern).
Proof.
  destruct (CLI.ParseSQL "insert   into users (name, age) values ('Ann', 30);")
    as [cmd| |] eqn:Hp; [|vm_compute in Hp; discriminate|vm_compute in Hp; discriminate].
  exists cmd. split; [reflexivity|].
  apply (cli_never_runs_insert_or_delete _ cmd Hp).
  left. vm_compute in Hp. injection Hp as <-. reflexivity.
Defined.

(** ** LIKE in the SELECT of the command line *)

Lemma Contains_byte (c : ascii) (s : string) :
  GoStrings.Contains s (String c "") = GoStrings.mem_byte c s.
Proof.
  unfold GoStrings.Contains, GoStrings.Index.
  induction s as [|d s IH]; [reflexivity|].
  cbn [String.index String.prefix GoStrings.mem_byte].
  destruct (ascii_dec c d) as [->|Hne].
  - rewrite Ascii.eqb_refl. now destruct s.
  - replace (Ascii.eqb c d) with false by (symmetry; now apply Ascii.eqb_neq).
    cbn [orb]. rewrite <- IH. now destruct (String.index 0 (String c "") s).
Qed.

Lemma like_literal (p : string) :
  GoStrings.mem_byte "%" p = false ->
  forall w rest, Language.Matches (Select.like_pattern p) w rest <-> w = p.
Proof.
  induction p as [|c p IH]; intros Hp w rest; cbn [Select.like_pattern].
  - split; [intros M; now inversion M|intros ->; constructor].
  - cbn [GoStrings.mem_byte] in Hp. apply orb_false_iff in Hp. destruct Hp as [Hc Hp].
    rewrite Ascii.eqb_sym in Hc. rewrite Hc.
    split.
    + intros M. inversion M as [| |r1 r2 w1 w2 rest0 M1 M2| | | | | | | |]; subst.
      inversion M1 as [q a rest0 Hq| | | | | | | | | |]; subst.
      apply Ascii.eqb_eq in Hq. subst a.
      apply (IH Hp) in M2. now subst.
    + intros ->. change (String c p) with (String c "" ++ p)%string.
      constructor; [apply Language.MCls, Ascii.eqb_refl|now apply IH].
Qed.

Lemma re_dot_lf (c : ascii) :
  Regexp.re_dot c = negb (Ascii.eqb (ascii_of_nat 10) c).
Proof. destruct c as [[] [] [] [] [] [] [] []]; vm_compute; reflexivity. Qed.

Lemma dots_match (w rest : string) :
  Language.Matches (Regexp.Star (Regexp.Cls Regexp.re_dot)) w rest <->
  GoStrings.mem_byte (ascii_of_nat 10) w = false.
Proof.
  split.
  - intros M. remember (Regexp.Star (Regexp.Cls Regexp.re_dot)) as r eqn:Hr.
    induction M; try discriminate; [reflexivity|].
    injection Hr as ->. rewrite mem_byte_app, IHM2 by reflexivity.
    inversion M1 as [q a rest0 Hq| | | | | | | | | |]; subst.
    cbn [GoStrings.mem_byte]. rewrite !orb_false_r.
    rewrite re_dot_lf in Hq. now apply negb_true_iff in Hq.
  - revert rest. induction w as [|c w IH]; intros rest H; [constructor|].
    cbn [GoStrings.mem_byte] in H. apply orb_false_iff in H. destruct H as [Hc Hw].
    change (String c w) with (String c "" ++ w)%string.
    constructor; [discriminate| |now apply IH].
    apply Language.MCls. rewrite re_dot_lf, Hc. reflexivity.
Qed.

Lemma like_pattern_app (a b : string) :
  forall w rest,
    Language.Matches (Select.like_pattern (a ++ b)) w rest <->
    exists w1 w2, w = (w1 ++ w2)%string /\
                  Language.Matches (Select.like_pattern a) w1 (w2 ++ rest) /\
                  Language.Matches (Select.like_pattern b) w2 rest.
Proof.
  induction a as [|c a IH]; intros w rest; cbn [append Select.like_pattern].
  - split.
    + intros M. exists ""%string, w. split; [reflexivity|]. split; [constructor|exact M].
    + intros (w1 & w2 & -> & M1 & M2). inversion M1; subst. exact M2.
  - split.
    + intros M. inversion M as [| |r1 r2 wc w' rest0 Mc M'| | | | | | | |]; subst.
      apply IH in M'. destruct M' as (w1 & w2 & -> & M1 & M2).
      exists (wc ++ w1)%string, w2. split; [now rewrite str_app_assoc|].
      split; [|exact M2]. constructor; [|exact M1].
      now rewrite <- str_app_assoc.
    + intros (w1 & w2 & -> & M1 & M2).
      inversion M1 as [| |r1 r2 wc w' rest0 Mc M'| | | | | | | |]; subst.
      rewrite str_app_assoc. constructor.
      * now rewrite str_app_assoc.
      * apply IH. exists w', w2. split; [reflexivity|]. split; [exact M'|exact M2].
Qed.

Lemma like_percent (w rest : string) :
  Language.Matches (Select.like_pattern "%") w rest <->
  GoStrings.mem_byte (ascii_of_nat 10) w = false.
Proof.
  cbn [Select.like_pattern]. change (Ascii.eqb "%" "%") with true. cbv iota.
  rewrite <- (dots_match w rest). split.
  - intros M. inversion M as [| |r1 r2 w1 w2 rest0 M1 M2| | | | | | | |]; subst.
    inversion M2; subst. now rewrite str_app_nil_r.
  - intros M. rewrite <- (str_app_nil_r w). constructor; [exact M|constructor].
Qed.

Lemma matchLike_percent (fmt_float : Strconv.float64 -> string) (actual e : string) :
  GoStrings.mem_byte "%" e = true ->
  Select.matchLike fmt_float (Some actual) (SQL.VString e) = true <->
  Language.Matches (Select.like_pattern e) actual "".
Proof.
  intros He. unfold Select.matchLike. cbn [Select.Sprint_v Select.actual_text].
  rewrite Contains_byte, He. split.
  - destruct (Regexp.match_at _ actual) eqn:E; [|discriminate]. intros _.
    apply match_at_sound in E. destruct E as (w & rest & -> & M).
    inversion M as [| |r1 r2 w1 w2 rest0 M1 M2| | | | | | | |]; subst.
    inversion M2; subst. cbn [append] in M1. now rewrite !str_app_nil_r.
  - intros M.
    assert (M' : Language.Matches (Regexp.Cat (Select.like_pattern e) Regexp.EndText)
                   actual "").
    { rewrite <- (str_app_nil_r actual). constructor; [exact M|constructor]. }
    apply match_at_complete in M'. rewrite str_app_nil_r in M'.
    destruct (Regexp.match_at _ actual); [reflexivity|now elim M'].
Qed.

(** X26. LIKE in the SELECT of the command line.  In a pattern a
    percent sign stands for any run of bytes without a line feed, and every
    other byte stands for itself, the underscore and the special characters
    of regular expressions included.  With p free of percent signs: p%
    matches the texts that begin with p and go on without a line feed, %p
    those that end with p after a start without line feed, %p% those that
    hold p between two such runs.  The pattern p alone is not an equality:
    it matches every text that holds p anywhere, line feeds or not. *)
Theorem like_patterns (fmt_float : Strconv.float64 -> string) (p actual : string) :
  GoStrings.mem_byte "%" p = false ->
  Select.matchLike fmt_float (Some actual) (SQL.VString p) = GoStrings.Contains actual p /\
  (Select.matchLike fmt_float (Some actual) (SQL.VString (p ++ "%")) = true <->
   exists rest, actual = (p ++ rest)%string /\
                GoStrings.mem_byte (ascii_of_nat 10) rest = false) /\
  (Select.matchLike fmt_float (Some actual) (SQL.VString ("%" ++ p)) = true <->
   exists pre, actual = (pre ++ p)%string /\
               GoStrings.mem_byte (ascii_of_nat 10) pre = false) /\
  (Select.matchLike fmt_float (Some actual) (SQL.VString ("%" ++ p ++ "%")) = true <->
   exists pre post, actual = (pre ++ p ++ post)%string /\
                    GoStrings.mem_byte (ascii_of_nat 10) pre = false /\
                    GoStrings.mem_byte (ascii_of_nat 10) post = false).
Proof.
  intros Hp. split; [|split; [|split]].
  - unfold Select.matchLike. cbn [Select.Sprint_v Select.actual_text].
    now rewrite Contains_byte, Hp.
  - rewrite matchLike_percent by (rewrite mem_byte_app; cbn; apply orb_true_r).
    rewrite like_pattern_app. split.
    + intros (w1 & w2 & -> & M1 & M2). apply (like_literal p Hp) in M1. subst w1.
      apply like_percent in M2. now exists w2.
    + intros (rest & -> & Hr). exists p, rest. split; [reflexivity|].
      split; [now apply like_literal|now apply like_percent].
  - rewrite matchLike_percent by reflexivity.
    rewrite (like_pattern_app "%" p). split.
    + intros (w1 & w2 & -> & M1 & M2). apply like_percent in M1.
      apply (like_literal p Hp) in M2. subst w2. now exists w1.
    + intros (pre & -> & Hr). exists pre, p. split; [reflexivity|].
      split; [now apply like_percent|now apply like_literal].
  - rewrite matchLike_percent by reflexivity.
    rewrite (like_pattern_app "%" (p ++ "%")). split.
    + intros (w1 & w2 & -> & M1 & M2). apply like_percent in M1.
      apply like_pattern_app in M2. destruct M2 as (w3 & w4 & -> & M3 & M4).
      apply (like_literal p Hp) in M3. subst w3. apply like_percent in M4.
      now exists w1, w4.
    + intros (pre & post & -> & Hpre & Hpost). exists pre, (p ++ post)%string.
      split; [reflexivity|]. split; [now apply like_percent|].
      apply like_pattern_app. exists p, post. split; [reflexivity|].
      split; [now apply like_literal|now apply like_percent].
Qed.

Lemma like_patterns_witness :
  Select.matchLike (fun _ => ""%string) (Some "user_name"%string)
    (SQL.VString ("user_" ++ "%")) = true.
Proof.
  apply (proj1 (proj2 (like_patterns (fun _ => ""%string) "user_" "user_name" eq_refl))).
  exists "name"%string. split; reflexivity.
Defined.

(** ** The field list of an INSERT or SELECT *)











(** ** Looking a table up by its name (ORM bridge) *)

Lemma find_exact_first (tableName : string) (pre : list Bridge.Table) (t : Bridge.Table)
    (post : list Bridge.Table) :
  Bridge.Name t = tableName ->
  Forall (fun u => Bridge.Name u <> tableName) pre ->
  Bridge.find_exact (map Some (pre ++ t :: post)) tableName = SQL.Ok (Some (Bridge.TableID t)).
Proof.
  intros Ht. induction 1 as [|u pre Hu Hpre IH]; cbn.
  - rewrite Ht, String.eqb_refl. reflexivity.
  - destruct (String.eqb_spec (Bridge.Name u) tableName); [contradiction|exact IH].
Qed.

Lemma find_exact_none (tableName : string) (items : list Bridge.Table) :
  Forall (fun u => Bridge.Name u <> tableName) items ->
  Bridge.find_exact (map Some items) tableName = SQL.Ok None.
Proof.
  induction 1 as [|u items Hu Hitems IH]; cbn; [reflexivity|].
  destruct (String.eqb_spec (Bridge.Name u) tableName); [contradiction|exact IH].
Qed.

Lemma find_fold_first (tableName : string) (pre : list Bridge.Table) (t : Bridge.Table)
    (post : list Bridge.Table) :
  GoStrings.EqualFold (Bridge.Name t) tableName = true ->
  Forall (fun u => GoStrings.EqualFold (Bridge.Name u) tableName = false) pre ->
  Bridge.find_fold (map Some (pre ++ t :: post)) tableName = SQL.Ok (Some (Bridge.TableID t)).
Proof.
  intros Ht. induction 1 as [|u pre Hu Hpre IH]; cbn.
  - now rewrite Ht.
  - now rewrite Hu.
Qed.

Lemma find_fold_none (tableName : string) (items : list Bridge.Table) :
  Forall (fun u => GoStrings.EqualFold (Bridge.Name u) tableName = false) items ->
  Bridge.find_fold (map Some items) tableName = SQL.Ok None.
Proof.
  induction 1 as [|u items Hu Hitems IH]; cbn; [reflexivity|]. now rewrite Hu.
Qed.

(** X28. How the bridge finds a table by its name, when the service
    answers the list of tables in its envelope with code 0.  getTableID
    sends one request, for that list.  When a table of the list has
    exactly the name, the first such table is found, whatever precedes it.
    When none has, and the name and the names of the tables listed are
    ASCII texts (on which the case folding of strings.EqualFold is that of
    the letters A to Z), the first table whose name equals the name up to
    the case of its letters is found; when there is none either, the
    error names the table. *)
Theorem bridge_table_lookup (env : Bridge.Env) (app tableName : string)
    (log : list Bridge.APIRequest) (status : Z) (msg : string)
    (tables : list Bridge.Table) :
  tableName <> ""%string ->
  Bridge.remote env log (Bridge.tables_request app)
    = inl {| Bridge.StatusCode := status;
             Bridge.RespBody := Some (Bridge.tables_document msg tables) |} ->
  snd (Bridge.getTableID env (Some app) tableName log)
    = log ++ [Bridge.tables_request app] /\
  (forall pre t post,
     tables = pre ++ t :: post -> Bridge.Name t = tableName ->
     Forall (fun u => Bridge.Name u <> tableName) pre ->
     fst (Bridge.getTableID env (Some app) tableName log) = SQL.Ok (Bridge.TableID t)) /\
  (GoStrings.is_ascii tableName = true ->
   Forall (fun u => GoStrings.is_ascii (Bridge.Name u) = true) tables ->
   (Forall (fun u => Bridge.Name u <> tableName) tables ->
    forall pre t post,
      tables = pre ++ t :: post ->
      GoStrings.EqualFold (Bridge.Name t) tableName = true ->
      Forall (fun u => GoStrings.EqualFold (Bridge.Name u) tableName = false) pre ->
      fst (Bridge.getTableID env (Some app) tableName log) = SQL.Ok (Bridge.TableID t)) /\
   (Forall (fun u => GoStrings.EqualFold (Bridge.Name u) tableName = false) tables ->
    fst (Bridge.getTableID env (Some app) tableName log)
      = SQL.Err (EPlain ("未找到表 '" ++ tableName ++ "'，请检查表名是否正确")))).
Proof.
  intros Hne Hremote.
  rewrite (bridge_getTableID_listed env app tableName log status msg tables Hne Hremote).
  cbn [fst snd]. split; [reflexivity|]. split; [|intros _ _; split].
  - intros pre t post -> Ht Hpre. now rewrite (find_exact_first _ _ _ _ Ht Hpre).
  - intros Hnone pre t post E Ht Hpre. rewrite (find_exact_none _ _ Hnone).
    subst tables. now rewrite (find_fold_first _ _ _ _ Ht Hpre).
  - intros Hnone.
    assert (Hex : Forall (fun u => Bridge.Name u <> tableName) tables).
    { eapply Forall_impl; [|exact Hnone]. cbn. intros u Hu E.
      rewrite E in Hu. unfold GoStrings.EqualFold in Hu.
      rewrite String.eqb_refl in Hu. discriminate. }
    now rewrite (find_exact_none _ _ Hex), (find_fold_none _ _ Hnone).
Qed.

Lemma bridge_table_lookup_witness :
  "USERS"%string <> ""%string /\
  GoStrings.is_ascii "USERS" = true /\
  Forall (fun u => GoStrings.is_ascii (Bridge.Name u) = true) [Examples.users_table] /\
  fst (Bridge.getTableID Examples.s7_env (Some "app"%string) "USERS" [])
    = SQL.Ok "tbl1"%string.
Proof.
  assert (Hne : "USERS"%string <> ""%string) by discriminate.
  assert (Ha : GoStrings.is_ascii "USERS" = true) by reflexivity.
  assert (Hb : Forall (fun u => GoStrings.is_ascii (Bridge.Name u) = true)
                 [Examples.users_table]) by (repeat constructor).
  split; [exact Hne|]. split; [exact Ha|]. split; [exact Hb|].
  refine (proj1 (proj2 (proj2
            (bridge_table_lookup Examples.s7_env "app" "USERS" [] 200 "success"
               [Examples.users_table] Hne eq_refl)) Ha Hb)
            _ [] Examples.users_table [] eq_refl eq_refl _).
  - constructor; [discriminate|constructor].
  - constructor.
Defined.
